(* ===== verification/_CoqProject ===== *)
-Q . S2P
Prelude.v
Bitmap.v
Bytes.v
Cstr.v
Err.v
Frames.v
Pmm.v
Vmm.v
Kmemory.v
VmmSpec.v
Journal.v
JournalCrash.v
JournalFiles.v
JournalSpec.v
Thread.v
Sync.v
SpinCounter.v
Elf.v
Mem.v
Kmem.v
KmemHeap.v
KmemSpec.v
Block.v
Bcache.v
BcacheSpec.v
BlockSys.v
Syscall.v
SyscallSpec.v
Vfs.v
VfsSpec.v
VfsSys.v
VfsTypes.v
Libmem.v
Console.v
Trap.v
Stubs.v
Kernel.v
Mcsfs1.v
Mcsfs1View.v
Mcsfs1Files.v
Mcsfs1Spec.v
HostTests.v
