(* ===== verification/Prelude.v ===== *)
(** MCSOS, a teaching kernel in C: a verification library of its core.

    This file holds what all parts share (words of 8 to 64 bits, masks and
    powers of two, C arrays and pointers, [for] loops, byte copies, the
    automation); the rest of this
    comment describes the development.

    ** The program and its parts

    MCSOS grew milestone by milestone, and its sources are a set of components
    that meet through C interfaces: callbacks in structures, a few static
    objects, and calls. Each component is modelled by the files named after it;
    definitions carry the names of the C functions, records those of the
    structures, and constants those of the macros.

    - Physical frames: [Pmm] models [src/src/pmm.c], a bitmap of 4 KiB frames
      built from the boot memory map. State: [pmm_state], with the bitmap as an
      array of bytes. [Bitmap] relates the byte routines (which both file
      systems repeat) to sets of bits.
    - Page tables: [Vmm] models [src/src/vmm.c] on an explicit memory of tables.
      It calls the frame allocator through the callbacks of [vmm_space]: the
      class [FrameAllocator] of [Frames], whose contract [FrameAllocatorOk]
      [Pmm] fulfils ([pmm_allocator_ok]); [PhysMap] is the direct map. [Kmemory]
      is [src/src/kernel_memory.c], which connects the two; [VmmSpec] is about
      the page tables and the frame allocator used together, call after call.
    - Kernel heap: [Kmem] models [src/kernel/mm/kmem.c], headers and payloads in
      one region of bytes ([Mem]); [KmemHeap] is the list of blocks, [KmemSpec]
      the abstract heap and what is promised.
    - Journalled file system: [Journal] models
      [src/kernel/fs/mcsfs1j/m16_mcsfs_journal.c] with its in-memory device and
      fault injection; [JournalCrash] is about interrupted commits and
      recoveries, [JournalFiles] about the files, [JournalSpec] about programs
      of calls with any faults, and the self test at the end of the file.
    - Plain file system: [Mcsfs1] models [src/fs/mcsfs1/mcsfs1.c] over the three
      callbacks of a block device; [Mcsfs1View] is the disk as bitmaps, inodes,
      entries and blocks for a device that works ([WorkingDevice]),
      [Mcsfs1Files] the files, [Mcsfs1Spec] the map from names to contents.
    - Block layer: [Block] models [src/kernel/block/blk.c], [ramblk.c] and
      [block_demo.c], [Bcache] the write-back cache of [bcache.c]; [BcacheSpec]
      states what is asked of a driver ([BlockDriver]), shows that the RAM disk
      keeps it, and proves the cache against the class; [BlockSys] is about the
      registry and the disks in memory under any sequence of calls.
    - Threads: [Thread] models [src/kernel/mcsos_thread.c] and the register
      switch of [src/arch/x86_64/context_switch.S]; threads live at addresses,
      the ready queue is the linked list through them.
    - Locks: [Sync] models [src/kernel/sync/]: the lock-order checker
      ([Lockdep]), the mutex ([Mutex]) and the spinlock ([Spin]). The locks are
      steps on shared memory, so that threads interleave; [SpinCounter] has the
      threads of [src/tests/m12_sync_host_test.c] that count under the spinlock.
    - User programs: [Elf] models the planner
      [src/kernel/user/m11_elf_loader.c]; [Syscall] and [SyscallSpec] the
      dispatcher and the user range checks of [src/kernel/syscall/syscall.c].
    - RAM files and descriptors: [Vfs] for [src/kernel/vfs/]; [VfsSpec] is about
      one descriptor, [VfsSys] about programs of calls on all of them,
      [VfsTypes] about the C types of the state.
    - Console: [Console] for [src/kernel/core/serial.c], [log.c] and [panic.c];
      the port instructions are the class [Ports], a 16550 that takes its time
      to send a byte the class [Uart].
    - Interrupts: [Trap] for [pic.c], [pit.c], [trap.c] and [kmain.c] of
      [src/kernel/core/], [src/kernel/arch/x86_64/idt.c] and the page fault
      report of [src/src/trap.c]; the machine is the class [PcMachine]. [Stubs]
      is the assembly around it: [isr.S] and [cpu.S] of
      [src/kernel/arch/x86_64/] and [src/kernel/syscall/syscall_entry.S], as
      lists of instructions of a small processor. What these files leave open
      is in [cpu_env]: the compiled C functions, known by what the calling
      conventions say of them ([abi_return], [CompiledDispatch],
      [CompiledSyscall]), and what the processor makes of the address table into
      which the stubs of the device interrupts jump.
    - Memory routines: [Libmem] for [src/kernel/lib/memory.c].
    - Composition: [Kernel] for [kernel_main] of [src/kernel/kernel.c], over
      [Elf], [Thread] and [Syscall], with the system call by [int $0x80] on the
      processor of [Stubs].
    - Tests: [HostTests] has the tests that the repository runs on the host
      ([src/tests/]) as programs over the models; the models pass them.

    [Bytes] (little-endian layout of structures), [Cstr] (bounded string loops)
    and [Err] (the state monad of functions that return a status) serve several
    components.

    ** How the code is read

    Words are integers of [Z] with the wrap-around written out ([u8] to [u64],
    [i32], [i64]). Undefined behaviour - an access outside of an object, a null
    dereference, a division by zero - is [None]; a status code is a value of
    the result, and [M S A] of [Err] is the bind [if (rc != 0) return rc;].
    Objects shared by address (heap blocks, page tables, threads, the memory of
    [memmove], devices) are addresses into an explicit store; objects that have
    one owner are records.

    Loops run on a count that the code itself bounds: the limit of the [for], the
    length of an array, the bound of a string scan. Where the code has none the
    fuel is a bound that the state implies: the heap walks take the length of
    the memory (headers are at distinct addresses), [mcsos_sched_validate] stops
    by itself two steps past the count of runnable threads, and
    [mcsos_sched_ready_count], which need not end, takes any fuel and is shown
    to end within the length of the queue. [serial_putc] gives up after 100000
    polls. Theorems that say what is returned say that it is returned.

    ** What is shown

    - Journal: any sequence of calls, with crashes and faulty writes anywhere,
      follows a map from names to contents ([m16_calls_refine]), and a write
      that was acknowledged stays ([m16_acknowledged_write_kept]); one commit
      ([m16_journal_crash_atomic], [m16_write_file_crash_safe]: any write may
      fail, recoveries may be interrupted, the disk ends in one of the two
      states; [m16_journal_recover_damaged]); the files
      ([m16_write_file_correct], [m16_read_file_correct], [m16_fsck_decides],
      [m16_format_correct], [m16_host_main_passes]).
    - Plain file system: refinement of a finite map by every sequence of calls,
      refused ones included, with names other than those of 27 characters that
      the code accepts and can lose ([mcsfs1_refines], [mcsfs1_long_name_lost]),
      [mcsfs1_write_read], [mcsfs1_format_correct].
    - Scheduler: the invariant of every reachable state
      ([scheduler_reachable_valid]), fairness ([mcsos_sched_yield_fair]),
      registers kept ([mcsos_sched_yield_resumes]); locks: mutual exclusion in
      every interleaving ([mcs_mutex_exclusive], [mcs_spin_lock_correct]), no
      addition to a counter under the spinlock lost and all threads able to
      finish ([spin_counter_exact]), no deadlock among threads that obey the checker
      ([mcs_lockdep_no_deadlock], [mcs_lockdep_before_acquire_correct]).
    - Memory: no frame handed out twice ([pmm_no_double_allocation]), first fit,
      freeing and the memory map; any mix of page table and allocator calls
      follows a map from pages to frames, with no frame in two hands, and fails
      for want of memory only when the allocator has no frame left
      ([vmm_system_refines]); mapping and unmapping pages change that page
      only ([vmm_map_page_correct], [vmm_unmap_page_correct]); the heap
      implements an abstract heap ([kmem_refines], [kmem_alloc_first_fit],
      [kmem_free_checked_correct]), for sizes up to 2^32 - 64
      ([kmem_alloc_truncates]).
    - Blocks: every sequence of calls on the registry and the disks in memory
      follows an array of bytes per disk, errors included
      ([mcsos_blk_refines]); the cache and the drivers behind it hold one
      logical disk ([mcsos_bcache_coherent]).
    - User boundary: exact acceptance of images ([m11_elf64_plan_load_correct],
      [m11_elf64_plan_load_rejects]), [mcsos_copy_from_user_correct],
      [mcsos_syscall_dispatch_correct], and the way of [int 0x80] from a gate
      through the stub to the result in the register ([int80_syscall]), which
      needs a gate that nothing installs and a dispatcher that tolerates a stack
      of odd alignment ([int80_call_misaligned]).
    - RAM files: every program of calls returns what a map from names to
      contents with 16 descriptors returns ([mcs_vfs_refines], within the 32
      files of 256 bytes that there is room for), [mcs_sys_write_read]; integers,
      arrays and pointers stay as their C types say, and programs whose paths end
      and whose reads and writes are inside [fs->data] run without an undefined
      access ([mcs_vfs_typed]).
    - Start and console: [kernel_main_starts] (up to its [int $0x80]
      unconditionally, and on from there if it comes back), [kmain_starts] (what
      is set up before interrupts are enabled), [x86_64_trap_dispatch_correct],
      exceptions through their stubs, all registers kept ([isr_stub_transparent],
      [exception_taken], which also says that of the exceptions only the page
      fault has a gate), the device interrupts, which do not get to the
      dispatcher ([irq_stub_lost]),
      [serial_write_ends] (also on a port that never answers),
      [log_numbers_roundtrip], [kernel_panic_at_report],
      [page_fault_dump_report], [memmove_correct].

    Theorems whose name tells a defect ([kmem_alloc_truncates],
    [mcsos_bcache_write_past_end], [mcs_sys_write_overruns],
    [mcsfs1_long_name_lost], [mark_range_free_wraps],
    [first_switch_ignores_entry], [mcsos_sched_enqueue_twice],
    [kmem_free_before_heap], [breakpoint_has_no_gate], [idt_set_gate_outside],
    [kernel_memory_init_outcome], [dummy_elf_refused], [irq_stub_lost],
    [trap_frame_fields], [int80_call_misaligned], [root_descriptor_overwrites])
    state what the code does where that is not what it means to do.

    ** Not modelled

    - The boot code and the instructions behind one-line wrappers (CR2, CR3,
      ports). What the C code relies on of them is a parameter or a class with
      laws. The kernel loads no descriptor table of segments: that the selector
      0x08 of its interrupt gates is a 64-bit code segment is assumed of the
      boot loader's ([idt.h] names 0x28). Interrupts are taken in kernel mode.
    - The copies of the journalled file system that the repository keeps
      ([src/m16_mcsfs_journal.c], [src/kernel/fs/mcsfs1j/m16_aman.c],
      [src/tests/m16/]); the model is of the file the kernel builds. Its adapter
      only forwards to [blk_read] and [blk_write], which are defined nowhere.
    - [serial_print] and [klog]: used but not defined in the repository; they
      are a parameter of [Trap], and a list of what was logged in [Kernel].
    - The boot loader, which is not the kernel. Of POSIX threads what
      [SpinCounter] assumes is that each access of a thread is atomic and that
      [pthread_join] returns when the thread is done. The tests of the heap run
      in an arena of 6 KiB in place of 32, and that of the frames has the part of
      the bitmap that is used.
    - Concurrency other than of the locks: the other components are called with
      interrupts off or by one thread.

    ** Beyond the code

    What the repository does not connect is not connected here: nothing mounts
    a file system on the block cache, maps a planned process with the page
    tables, installs the gate of [int $0x80] (where it leads is a parameter of
    [kernel_main]) or yields from the timer interrupt. *)
From Stdlib Require Export ZArith Lia.
From stdpp Require Export base list numbers option gmap.

#[global] Open Scope Z_scope.

(** ** Machine words

    A C value of type [uintN_t] is a [Z] in [0, 2^N); every arithmetic
    operation of the source is followed by the wrap-around it performs. *)

Definition u8 (x : Z) : Z := x mod 256.
Definition u16 (x : Z) : Z := x mod 65536.
Definition u32 (x : Z) : Z := x mod 4294967296.
Definition u64 (x : Z) : Z := x mod 18446744073709551616.

Definition is_u8 (x : Z) : Prop := 0 ≤ x < 256.
Definition is_u16 (x : Z) : Prop := 0 ≤ x < 65536.
Definition is_u32 (x : Z) : Prop := 0 ≤ x < 4294967296.
Definition is_u64 (x : Z) : Prop := 0 ≤ x < 18446744073709551616.

#[export] Instance is_u8_dec x : Decision (is_u8 x).
Proof. unfold is_u8. apply _. Defined.

(** Conversion of an unsigned word to the signed type of the same width. *)
Definition i32 (x : Z) : Z :=
  let y := u32 x in if y <? 2147483648 then y else y - 4294967296.
Definition i64 (x : Z) : Z :=
  let y := u64 x in
  if y <? 9223372036854775808 then y else y - 18446744073709551616.

Definition UINT64_MAX : Z := 18446744073709551615.

Create HintDb words.

Lemma u8_range x : is_u8 (u8 x).
Proof. unfold is_u8, u8. apply Z.mod_pos_bound. lia. Qed.
Lemma u16_range x : is_u16 (u16 x).
Proof. unfold is_u16, u16. apply Z.mod_pos_bound. lia. Qed.
Lemma u32_range x : is_u32 (u32 x).
Proof. unfold is_u32, u32. apply Z.mod_pos_bound. lia. Qed.
Lemma u64_range x : is_u64 (u64 x).
Proof. unfold is_u64, u64. apply Z.mod_pos_bound. lia. Qed.
Lemma u8_small x : is_u8 x → u8 x = x.
Proof. apply Z.mod_small. Qed.
Lemma u16_small x : is_u16 x → u16 x = x.
Proof. apply Z.mod_small. Qed.
Lemma u32_small x : is_u32 x → u32 x = x.
Proof. apply Z.mod_small. Qed.
Lemma u64_small x : is_u64 x → u64 x = x.
Proof. apply Z.mod_small. Qed.

Lemma i32_small x : 0 ≤ x < 2147483648 → i32 x = x.
Proof.
  intros. unfold i32. rewrite u32_small by (unfold is_u32; lia). by rewrite (proj2 (Z.ltb_lt _ _)) by lia.
Qed.
Lemma i64_small x : 0 ≤ x < 9223372036854775808 → i64 x = x.
Proof.
  intros. unfold i64. rewrite u64_small by (unfold is_u64; lia). by rewrite (proj2 (Z.ltb_lt _ _)) by lia.
Qed.

#[export] Hint Resolve u8_range u16_range u32_range u64_range : words.

(** [words] unfolds the word predicates and leaves linear arithmetic. *)
Ltac words :=
  unfold is_u8, is_u16, is_u32, is_u64, UINT64_MAX in *; lia.
(** [dlia] is [lia] with divisions and remainders by constants. *)
Ltac dlia :=
  unfold is_u8, is_u16, is_u32, is_u64, UINT64_MAX in *;
  Z.to_euclidean_division_equations; lia.
(** [wrap_small] removes every wrap-around whose argument is in range. *)
Ltac wrap_small :=
  repeat first
    [ rewrite u64_small by words | rewrite u32_small by words
    | rewrite u16_small by words | rewrite u8_small by words ].

(** The wrap-around as an equation with a quotient, for [lia]. *)
Lemma u64_eqn x : ∃ q, x = 18446744073709551616 * q + u64 x ∧ is_u64 (u64 x).
Proof.
  exists (x / 18446744073709551616). split; [|apply u64_range].
  unfold u64. apply Z.div_mod. lia.
Qed.

(** ** Masks

    [v & ~(align - 1)] and [v & (align - 1)] for a power of two. *)

Lemma land_u64_mask v m : is_u64 v → Z.land v (u64 m) = Z.land v m.
Proof.
  intros Hv. unfold u64. change 18446744073709551616 with (2 ^ 64).
  rewrite <-Z.land_ones by lia.
  rewrite (Z.land_comm m), Z.land_assoc, Z.land_ones by lia.
  change (v mod 2 ^ 64) with (u64 v). by rewrite u64_small.
Qed.

Lemma land_low v k : 0 ≤ k → Z.land v (2 ^ k - 1) = v mod 2 ^ k.
Proof.
  intros. rewrite <-Z.land_ones by lia. by rewrite Z.ones_equiv, Z.sub_1_r.
Qed.

Lemma land_pow2_bit x k : 0 ≤ k → negb (Z.land x (2 ^ k) =? 0) = Z.testbit x k.
Proof.
  intros Hk. destruct (Z.testbit x k) eqn:E.
  - apply negb_true_iff, Z.eqb_neq. intros H0.
    assert (Z.testbit (Z.land x (2 ^ k)) k = false) as Ht by (rewrite H0; apply Z.testbit_0_l).
    rewrite Z.land_spec, E, Z.pow2_bits_true in Ht by lia. done.
  - apply negb_false_iff, Z.eqb_eq. apply Z.bits_inj'. intros n Hn.
    rewrite Z.land_spec, Z.testbit_0_l, Z.pow2_bits_eqb by lia.
    destruct (Z.eqb_spec k n) as [->|]; [by rewrite E|apply andb_false_r].
Qed.

Lemma land_high v k : 0 ≤ k → Z.land v (Z.lnot (2 ^ k - 1)) = v / 2 ^ k * 2 ^ k.
Proof.
  intros. replace (2 ^ k - 1) with (Z.ones k) by (rewrite Z.ones_equiv; lia).
  rewrite <-Z.ldiff_land, Z.ldiff_ones_r by lia.
  by rewrite Z.shiftl_mul_pow2, Z.shiftr_div_pow2 by lia.
Qed.

Definition power_of_two (v : Z) : Prop := ∃ k, 0 ≤ k ∧ v = 2 ^ k.

Lemma pow2_land_pred k : 0 ≤ k → Z.land (2 ^ k) (2 ^ k - 1) = 0.
Proof. intros. rewrite land_low by done. apply Z_mod_same_full. Qed.

(** [v & (v - 1)] clears the lowest bit, so it is zero only on powers of two. *)
Lemma land_pred_zero v : 0 < v → Z.land v (v - 1) = 0 → power_of_two v.
Proof.
  intros Hv H. exists (Z.log2 v). split; [apply Z.log2_nonneg|].
  destruct (Z.log2_spec v Hv) as [H1 H2]. rewrite Z.pow_succ_r in H2 by apply Z.log2_nonneg.
  destruct (decide (v = 2 ^ Z.log2 v)) as [|Hne]; [done|]. exfalso.
  assert (Z.testbit (Z.land v (v - 1)) (Z.log2 v) = true) as Ht; [|by rewrite H, Z.testbit_0_l in Ht].
  rewrite Z.land_spec, Z.bit_log2 by done.
  assert (Z.log2 (v - 1) = Z.log2 v) as <-; [|apply Z.bit_log2; lia].
  apply Z.log2_unique; [apply Z.log2_nonneg|].
  rewrite Z.pow_succ_r by apply Z.log2_nonneg. lia.
Qed.

Lemma power_of_two_land v : 0 ≤ v → power_of_two v ↔ v ≠ 0 ∧ Z.land v (v - 1) = 0.
Proof.
  intros Hv. split; [|intros [H0 H]; apply land_pred_zero; [lia|done]].
  intros (k & Hk & ->). assert (0 < 2 ^ k) by (apply Z.pow_pos_nonneg; lia).
  split; [lia|by apply pow2_land_pred].
Qed.

(** ** Pointers

    A pointer argument that the source compares with [NULL]. *)
Inductive ptr (A : Type) : Type :=
| Null
| Ref (a : A).
Arguments Null {A}.
Arguments Ref {A} a.

#[export] Instance ptr_eq_dec {A} `{EqDecision A} : EqDecision (ptr A).
Proof. solve_decision. Defined.

Definition is_null {A} (p : ptr A) : bool :=
  match p with Null => true | Ref _ => false end.

(** Following a pointer; [NULL] leads nowhere. *)
Definition deref {A} (p : ptr A) : option A :=
  match p with Null => None | Ref a => Some a end.

(** ** Undefined behaviour and arrays

    A computation that performs memory accesses has type [option A]: [None]
    is undefined behaviour (an access outside the object, a dereference of
    [NULL]).  A C array is a list with an integer index. *)

Definition arr_get {A} (l : list A) (i : Z) : option A :=
  if decide (0 ≤ i) then l !! Z.to_nat i else None.

Definition arr_set {A} (l : list A) (i : Z) (x : A) : option (list A) :=
  if decide (0 ≤ i < Z.of_nat (length l)) then Some (<[Z.to_nat i:=x]> l)
  else None.

Definition zlen {A} (l : list A) : Z := Z.of_nat (length l).

Lemma arr_get_nat {A} (l : list A) i : 0 ≤ i → arr_get l i = l !! Z.to_nat i.
Proof. intros. unfold arr_get. by rewrite decide_True. Qed.

Lemma arr_get_Some {A} (l : list A) i x :
  arr_get l i = Some x → 0 ≤ i < zlen l ∧ l !! Z.to_nat i = Some x.
Proof.
  unfold arr_get, zlen. case_decide; [|done]. intros Hx.
  pose proof (lookup_lt_Some _ _ _ Hx). split; [lia|done].
Qed.

Lemma arr_get_is_Some {A} (l : list A) i :
  0 ≤ i < zlen l → ∃ x, arr_get l i = Some x.
Proof.
  unfold zlen. intros Hi. rewrite arr_get_nat by lia.
  destruct (l !! Z.to_nat i) eqn:E; [eauto|].
  apply lookup_ge_None in E. lia.
Qed.

Lemma arr_get_oob {A} (l : list A) i : ¬ (0 ≤ i < zlen l) → arr_get l i = None.
Proof.
  intros Hi. destruct (arr_get l i) eqn:E; [|done].
  by apply arr_get_Some in E as [? _].
Qed.

Lemma arr_set_Some {A} (l l' : list A) i x :
  arr_set l i x = Some l' →
  0 ≤ i < zlen l ∧ l' = <[Z.to_nat i:=x]> l.
Proof. unfold arr_set, zlen. case_decide; [|done]. intros [= <-]. done. Qed.

Lemma arr_set_ok {A} (l : list A) i x :
  0 ≤ i < zlen l → arr_set l i x = Some (<[Z.to_nat i:=x]> l).
Proof. unfold arr_set, zlen. intros. by rewrite decide_True. Qed.

Lemma arr_get_insert {A} (l : list A) i j x :
  0 ≤ i < zlen l → 0 ≤ j →
  arr_get (<[Z.to_nat i:=x]> l) j = if decide (i = j) then Some x else arr_get l j.
Proof.
  unfold zlen. intros Hi Hj. rewrite !arr_get_nat by done.
  case_decide as E.
  - subst. apply list_lookup_insert_eq. lia.
  - apply list_lookup_insert_ne. lia.
Qed.

Lemma zlen_insert {A} (l : list A) i x : zlen (<[i:=x]> l) = zlen l.
Proof. unfold zlen. by rewrite length_insert. Qed.

Lemma zlen_nonneg {A} (l : list A) : 0 ≤ zlen l.
Proof. unfold zlen. lia. Qed.

(** ** Byte copies

    [for (i = 0; i < n; i++) d[i] = s[i]] and [for (...) d[i] = c], with the
    two pointers advanced instead of indexed; running off either object is
    undefined. *)

Fixpoint mem_copy (n : nat) (d s : list Z) : option (list Z) :=
  match n with
  | O => Some d
  | S n' =>
      match d, s with
      | _ :: d', x :: s' => r ← mem_copy n' d' s'; Some (x :: r)
      | _, _ => None
      end
  end.

Fixpoint mem_fill (n : nat) (d : list Z) (c : Z) : option (list Z) :=
  match n with
  | O => Some d
  | S n' =>
      match d with
      | _ :: d' => r ← mem_fill n' d' c; Some (c :: r)
      | _ => None
      end
  end.

(** [f] applied to the object from byte [off] on ([(uint8_t * )p + off]). *)
Definition at_off (off : Z) (d : list Z) (f : list Z → option (list Z)) :
    option (list Z) :=
  if decide (0 ≤ off ≤ zlen d) then
    r ← f (drop (Z.to_nat off) d); Some (take (Z.to_nat off) d ++ r)
  else None.

(** The bytes of an object from offset [off], when that is inside it. *)
Definition bytes_from (off : Z) (d : list Z) : option (list Z) :=
  if decide (0 ≤ off ≤ zlen d) then Some (drop (Z.to_nat off) d) else None.

Lemma mem_copy_ok n d s :
  (n ≤ length d)%nat → (n ≤ length s)%nat →
  mem_copy n d s = Some (take n s ++ drop n d).
Proof.
  revert d s. induction n as [|n IH]; intros d s Hd Hs; [done|].
  destruct d, s; simpl in *; try lia. rewrite IH by lia. done.
Qed.

Lemma mem_copy_ub n d s :
  (length d < n)%nat ∨ (length s < n)%nat → mem_copy n d s = None.
Proof.
  revert d s. induction n as [|n IH]; intros d s H; simpl in *; [lia|].
  destruct d, s; simpl in *; try done. rewrite IH by lia. done.
Qed.

Lemma mem_fill_ok n d c :
  (n ≤ length d)%nat → mem_fill n d c = Some (replicate n c ++ drop n d).
Proof.
  revert d. induction n as [|n IH]; intros d Hd; [done|].
  destruct d; simpl in *; try lia. rewrite IH by lia. done.
Qed.

(** ** Loops

    [for (i = a; ...; i += step)] with [n] iterations, the body of which may
    leave the loop with a [return]. *)

Inductive ctl (S R : Type) : Type :=
| Next (s : S)
| Return (r : R).
Arguments Next {S R} s.
Arguments Return {S R} r.

Fixpoint for_loop {S R} (n : nat) (i step : Z)
    (body : Z → S → option (ctl S R)) (s : S) : option (ctl S R) :=
  match n with
  | O => Some (Next s)
  | Datatypes.S n' =>
      c ← body i s;
      match c with
      | Next s' => for_loop n' (i + step) step body s'
      | Return r => Some (Return r)
      end
  end.

(** The loop rule: an invariant indexed by the loop variable, and what holds
    of the value returned by a body that leaves the loop. *)
Lemma for_loop_inv {S R} (Inv : Z → S → Prop) (Post : R → Prop) n i step body s :
  Inv i s →
  (∀ k s, 0 ≤ k < Z.of_nat n → Inv (i + k * step) s →
     ∃ c, body (i + k * step) s = Some c ∧
       match c with
       | Next s' => Inv (i + (k + 1) * step) s'
       | Return r => Post r
       end) →
  ∃ c, for_loop n i step body s = Some c ∧
    match c with
    | Next s' => Inv (i + Z.of_nat n * step) s'
    | Return r => Post r
    end.
Proof.
  revert i s. induction n as [|n IH]; intros i s Hi Hb; simpl.
  { exists (Next s). split; [done|]. by rewrite Z.add_0_r. }
  destruct (Hb 0 s) as (c & Hc & Hp); [lia|by replace (i + 0 * step) with i by lia|].
  replace (i + 0 * step) with i in Hc by lia. rewrite Hc. simpl.
  destruct c as [s'|r]; [|by exists (Return r)].
  destruct (IH (i + step) s') as (c & Hl & Hq).
  - by replace (i + step) with (i + (0 + 1) * step) by lia.
  - intros k s0 Hk H0. destruct (Hb (k + 1) s0) as (c & Hc' & Hc2); [lia| |].
    { by replace (i + (k + 1) * step) with (i + step + k * step) by lia. }
    exists c. split.
    + by replace (i + step + k * step) with (i + (k + 1) * step) by lia.
    + destruct c; [|done].
      by replace (i + step + (k + 1) * step) with (i + (k + 1 + 1) * step) by lia.
  - exists c. split; [done|]. destruct c; [|done].
    by replace (i + Z.of_nat (Datatypes.S n) * step)
      with (i + step + Z.of_nat n * step) by lia.
Qed.

(** The rule for a loop with unit step over [a .. b-1]. *)
Lemma for_range_inv {S R} (Inv : Z → S → Prop) (Post : R → Prop) a b body s :
  a ≤ b →
  Inv a s →
  (∀ i s, a ≤ i < b → Inv i s →
     ∃ c, body i s = Some c ∧
       match c with Next s' => Inv (i + 1) s' | Return r => Post r end) →
  ∃ c, for_loop (Z.to_nat (b - a)) a 1 body s = Some c ∧
    match c with Next s' => Inv b s' | Return r => Post r end.
Proof.
  intros Hab Ha Hb.
  destruct (for_loop_inv Inv Post (Z.to_nat (b - a)) a 1 body s)
    as (c & Hl & Hc); [done| |].
  - intros k s0 Hk H0. destruct (Hb (a + k * 1) s0) as (c & Hc & Hp); [lia|done|].
    exists c. split; [done|]. destruct c; [|done].
    by replace (a + (k + 1) * 1) with (a + k * 1 + 1) by lia.
  - exists c. split; [done|]. destruct c; [|done].
    by replace (a + Z.of_nat (Z.to_nat (b - a)) * 1) with b in Hc by lia.
Qed.

(** ** Counting over an initial segment of the integers *)

Fixpoint count_upto (P : Z → bool) (n : nat) : Z :=
  match n with
  | O => 0
  | S n' => count_upto P n' + (if P (Z.of_nat n') then 1 else 0)
  end.

Lemma count_upto_range P n : 0 ≤ count_upto P n ≤ Z.of_nat n.
Proof. induction n; simpl; [lia|]. destruct (P _); lia. Qed.

Lemma count_upto_ext P Q n :
  (∀ i, 0 ≤ i < Z.of_nat n → P i = Q i) → count_upto P n = count_upto Q n.
Proof.
  induction n as [|n IH]; intros H; simpl; [done|].
  rewrite IH by (intros; apply H; lia). by rewrite H by lia.
Qed.

Lemma count_upto_flip P Q n k :
  0 ≤ k < Z.of_nat n → P k = false → Q k = true →
  (∀ i, 0 ≤ i < Z.of_nat n → i ≠ k → P i = Q i) →
  count_upto Q n = count_upto P n + 1.
Proof.
  induction n as [|n IH]; intros Hk HP HQ H; simpl; [lia|].
  destruct (decide (k = Z.of_nat n)) as [->|Hne].
  - rewrite HP, HQ. rewrite (count_upto_ext P Q n); [lia|].
    intros i Hi. apply H; lia.
  - rewrite IH by (try done; try lia; intros; apply H; lia).
    rewrite (H (Z.of_nat n)) by lia. lia.
Qed.

Lemma count_upto_zero P n :
  (∀ i, 0 ≤ i < Z.of_nat n → P i = false) → count_upto P n = 0.
Proof.
  induction n as [|n IH]; intros H; simpl; [done|].
  rewrite IH by (intros; apply H; lia). by rewrite H by lia.
Qed.

Lemma count_upto_pos P n :
  0 < count_upto P n → ∃ k, 0 ≤ k < Z.of_nat n ∧ P k = true.
Proof.
  induction n as [|n IH]; simpl; [lia|]. destruct (P (Z.of_nat n)) eqn:E.
  - intros _. exists (Z.of_nat n). split; [lia|done].
  - intros H. destruct IH as (k & Hk & HP); [lia|]. exists k. split; [lia|done].
Qed.

Lemma count_upto_zero_inv P n k :
  count_upto P n = 0 → 0 ≤ k < Z.of_nat n → P k = false.
Proof.
  induction n as [|n IH]; simpl; [lia|]. pose proof (count_upto_range P n).
  intros Hc Hk. destruct (P (Z.of_nat n)) eqn:E; [lia|].
  destruct (decide (k = Z.of_nat n)) as [->|]; [done|]. apply IH; lia.
Qed.

(** ** Tactics *)

(** Consume a monadic equation [m ≫= f = Some _]. *)
Ltac ub_inv H :=
  let x := fresh "x" in let E := fresh "E" in
  apply bind_Some in H as (x & E & H).
(** Case analysis on every test of the goal, closing contradictory cases. *)
Ltac cases :=
  repeat (case_match || case_decide); simplify_eq; try done.
(** Turn boolean comparisons into propositions. *)
Ltac bool_prop :=
  repeat match goal with
    | H : (_ && _)%bool = true |- _ => apply andb_true_iff in H as [? ?]
    | H : (_ || _)%bool = false |- _ => apply orb_false_iff in H as [? ?]
    | H : (_ || _)%bool = true |- _ => apply orb_true_iff in H
    | H : (_ && _)%bool = false |- _ => apply andb_false_iff in H
    | H : negb _ = true |- _ => apply negb_true_iff in H
    | H : negb _ = false |- _ => apply negb_false_iff in H
    | H : (_ =? _) = true |- _ => apply Z.eqb_eq in H
    | H : (_ =? _) = false |- _ => apply Z.eqb_neq in H
    | H : (_ <? _) = true |- _ => apply Z.ltb_lt in H
    | H : (_ <? _) = false |- _ => apply Z.ltb_ge in H
    | H : (_ <=? _) = true |- _ => apply Z.leb_le in H
    | H : (_ <=? _) = false |- _ => apply Z.leb_gt in H
    end.
