(* ===== verification/Bitmap.v ===== *)
(** Bitmaps: one bit per frame, inode or block in an array of bytes. The
    physical memory manager and both file systems carry their own copy of the
    three routines; each copy is related here to one description by bits. *)
From S2P Require Import Prelude.

(** The mask [(uint8_t)(1u << k)] of bit [k] of a byte. *)
Definition bit_mask (k : Z) : Z := u8 (Z.shiftl 1 k).

(** [b[i / 8] | mask], [b[i / 8] & ~mask] and [(b[i / 8] & mask) != 0]. *)
Definition bm_set (b : list Z) (i : Z) : option (list Z) :=
  x ← arr_get b (i / 8);
  arr_set b (i / 8) (u8 (Z.lor x (bit_mask (i mod 8)))).
Definition bm_clear (b : list Z) (i : Z) : option (list Z) :=
  x ← arr_get b (i / 8);
  arr_set b (i / 8) (u8 (Z.land x (u8 (Z.lnot (bit_mask (i mod 8)))))).
Definition bm_test (b : list Z) (i : Z) : option bool :=
  x ← arr_get b (i / 8);
  Some (negb (Z.land x (bit_mask (i mod 8)) =? 0)).

(** Bit [i] of the bitmap; [false] outside it. *)
Definition bit (b : list Z) (i : Z) : bool :=
  match arr_get b (i / 8) with
  | Some x => Z.testbit x (i mod 8)
  | None => false
  end.

Lemma bit_mask_pow k : 0 ≤ k < 8 → bit_mask k = 2 ^ k.
Proof.
  intros. unfold bit_mask. rewrite Z.shiftl_1_l. apply u8_small.
  unfold is_u8. split; [apply Z.pow_nonneg; lia|].
  apply (Z.pow_lt_mono_r 2 k 8); lia.
Qed.

Lemma testbit_u8 x k : 0 ≤ k < 8 → Z.testbit (u8 x) k = Z.testbit x k.
Proof. intros. apply (Z.mod_pow2_bits_low x 8 k). lia. Qed.

Lemma bit_index i : i = 8 * (i / 8) + i mod 8 ∧ 0 ≤ i mod 8 < 8.
Proof. split; [apply Z.div_mod; lia|apply Z.mod_pos_bound; lia]. Qed.

Lemma bm_test_ok b i : 0 ≤ i < 8 * zlen b → bm_test b i = Some (bit b i).
Proof.
  intros Hi. unfold bm_test, bit. pose proof (bit_index i).
  destruct (arr_get_is_Some b (i / 8)) as [x ->]; [lia|]. simpl.
  rewrite bit_mask_pow by lia. by rewrite land_pow2_bit by lia.
Qed.

(** What an update of bit [i] to [v] does to every bit. *)
Definition bit_updated (b b' : list Z) (i : Z) (v : bool) : Prop :=
  zlen b' = zlen b ∧
  ∀ j, 0 ≤ j < 8 * zlen b → bit b' j = if decide (j = i) then v else bit b j.

Lemma bit_update_byte b i x y v :
  0 ≤ i < 8 * zlen b → arr_get b (i / 8) = Some x →
  (∀ k, 0 ≤ k < 8 → Z.testbit y k = if decide (k = i mod 8) then v else Z.testbit x k) →
  bit_updated b (<[Z.to_nat (i / 8):=y]> b) i v.
Proof.
  intros Hi Hx Hy. split; [apply zlen_insert|]. intros j Hj.
  pose proof (bit_index i). pose proof (bit_index j).
  unfold bit. rewrite arr_get_insert by lia. case_decide as Hd.
  - rewrite Hy by lia. rewrite <-Hd, Hx.
    repeat case_decide; try done; exfalso; lia.
  - rewrite decide_False by (intros ->; lia). done.
Qed.

Lemma bm_set_ok b i :
  0 ≤ i < 8 * zlen b → ∃ b', bm_set b i = Some b' ∧ bit_updated b b' i true.
Proof.
  intros Hi. unfold bm_set. pose proof (bit_index i).
  destruct (arr_get_is_Some b (i / 8)) as [x Hx]; [lia|]. rewrite Hx. simpl.
  rewrite arr_set_ok by lia. eexists. split; [done|].
  eapply bit_update_byte; [done|done|]. intros k Hk.
  rewrite testbit_u8, Z.lor_spec, bit_mask_pow, Z.pow2_bits_eqb by lia.
  case_decide as Hd; [subst; rewrite Z.eqb_refl; apply orb_true_r|].
  destruct (Z.eqb_spec (i mod 8) k); [congruence|apply orb_false_r].
Qed.

Lemma bm_clear_ok b i :
  0 ≤ i < 8 * zlen b → ∃ b', bm_clear b i = Some b' ∧ bit_updated b b' i false.
Proof.
  intros Hi. unfold bm_clear. pose proof (bit_index i).
  destruct (arr_get_is_Some b (i / 8)) as [x Hx]; [lia|]. rewrite Hx. simpl.
  rewrite arr_set_ok by lia. eexists. split; [done|].
  eapply bit_update_byte; [done|done|]. intros k Hk.
  rewrite testbit_u8, Z.land_spec, testbit_u8, Z.lnot_spec by lia.
  rewrite bit_mask_pow, Z.pow2_bits_eqb by lia.
  case_decide as Hd; [subst; rewrite Z.eqb_refl; apply andb_false_r|].
  destruct (Z.eqb_spec (i mod 8) k); [congruence|apply andb_true_r].
Qed.

Lemma bit_fill n i : 0 ≤ i < 8 * Z.of_nat n → bit (replicate n 255) i = true.
Proof.
  intros Hi. unfold bit. pose proof (bit_index i).
  rewrite arr_get_nat by lia. rewrite lookup_replicate_2 by lia.
  change 255 with (Z.ones 8). apply Z.ones_spec_low. lia.
Qed.

Lemma bit_zero n i : bit (replicate n 0) i = false.
Proof.
  unfold bit, arr_get. case_decide; [|done].
  destruct (replicate n 0 !! _) eqn:E; [|done].
  apply lookup_replicate in E as [-> _]. apply Z.testbit_0_l.
Qed.
