(* ===== verification/Bytes.v ===== *)
(** Little-endian integers in arrays of bytes, the layout in which the file
    systems, the ELF loader and the kernel heap overlay structures on raw
    memory. *)
From S2P Require Import Prelude.

(** ** Encoding *)

Fixpoint le_encode (n : nat) (v : Z) : list Z :=
  match n with
  | O => []
  | S n' => v mod 256 :: le_encode n' (v / 256)
  end.

Fixpoint le_decode (l : list Z) : Z :=
  match l with
  | [] => 0
  | b :: l' => b + 256 * le_decode l'
  end.

(** The [n]-byte field at offset [off] of an object known to contain it. *)
Definition field (n off : nat) (l : list Z) : Z := le_decode (take n (drop off l)).

Lemma length_le_encode n v : length (le_encode n v) = n.
Proof. revert v. induction n as [|n IH]; intros v; simpl; [done|]. by rewrite IH. Qed.

Lemma le_decode_encode n v : 0 ≤ v < 256 ^ Z.of_nat n → le_decode (le_encode n v) = v.
Proof.
  revert v. induction n as [|n IH]; intros v Hv; simpl.
  { change (256 ^ Z.of_nat 0) with 1 in Hv. lia. }
  rewrite Nat2Z.inj_succ, Z.pow_succ_r in Hv by lia.
  rewrite IH by (set (p := 256 ^ Z.of_nat n) in *; split; [dlia|];
    apply Z.div_lt_upper_bound; lia).
  pose proof (Z.div_mod v 256). lia.
Qed.

Lemma le_encode_u8 n v : Forall is_u8 (le_encode n v).
Proof.
  revert v. induction n as [|n IH]; intros v; simpl; constructor; [|done].
  unfold is_u8. apply Z.mod_pos_bound. lia.
Qed.

Lemma le_decode_range l : Forall is_u8 l → 0 ≤ le_decode l < 256 ^ Z.of_nat (length l).
Proof.
  induction 1 as [|b l Hb Hl IH]; simpl; [lia|].
  change (Z.pos (Pos.of_succ_nat (length l))) with (Z.of_nat (S (length l))).
  rewrite Nat2Z.inj_succ, Z.pow_succ_r by lia. unfold is_u8 in Hb. lia.
Qed.

Lemma le_encode_decode l : Forall is_u8 l → le_encode (length l) (le_decode l) = l.
Proof.
  induction 1 as [|b l Hb Hl IH]; simpl; [done|]. unfold is_u8 in Hb.
  f_equal; [dlia|].
  by replace ((b + 256 * le_decode l) / 256) with (le_decode l) by dlia.
Qed.

(** Reading a field out of a concatenation. *)
Lemma field_here n v l : 0 ≤ v < 256 ^ Z.of_nat n → field n 0 (le_encode n v ++ l) = v.
Proof.
  intros Hv. unfold field. rewrite drop_0, take_app_le by (by rewrite length_le_encode).
  rewrite take_ge by (by rewrite length_le_encode). by apply le_decode_encode.
Qed.

Lemma field_skip n off k l1 l2 : length l1 = k →
  field n (k + off) (l1 ++ l2) = field n off l2.
Proof. intros <-. unfold field. by rewrite drop_app_add. Qed.

Lemma field_range n off l : Forall is_u8 l → 0 ≤ field n off l < 256 ^ Z.of_nat n.
Proof.
  intros Hl. unfold field.
  pose proof (le_decode_range (take n (drop off l))) as H.
  assert (length (take n (drop off l)) ≤ n)%nat by (rewrite length_take; lia).
  destruct H as [H1 H2]; [by apply Forall_take, Forall_drop|]. split; [done|].
  eapply Z.lt_le_trans; [done|]. apply Z.pow_le_mono_r; lia.
Qed.

Lemma field_u16 off l : Forall is_u8 l → is_u16 (field 2 off l).
Proof. apply field_range. Qed.
Lemma field_u32 off l : Forall is_u8 l → is_u32 (field 4 off l).
Proof. apply field_range. Qed.
Lemma field_u64 off l : Forall is_u8 l → is_u64 (field 8 off l).
Proof. apply field_range. Qed.

(** ** Pieces of an object *)

(** The [n] bytes at offset [off]. *)
Definition slice (off n : nat) (l : list Z) : list Z := take n (drop off l).

(** The object with the bytes from [off] replaced by [x]. *)
Definition splice (off : nat) (x l : list Z) : list Z :=
  take off l ++ x ++ drop (off + length x) l.

(** The object cut in [k] pieces of [n] bytes. *)
Fixpoint chunks (k n : nat) (l : list Z) : list (list Z) :=
  match k with
  | O => []
  | S k' => take n l :: chunks k' n (drop n l)
  end.

Lemma length_splice off x l : (off + length x ≤ length l)%nat →
  length (splice off x l) = length l.
Proof. intros. unfold splice. rewrite !length_app, length_take, length_drop. lia. Qed.

Lemma length_chunks k n l : length (chunks k n l) = k.
Proof. revert l. induction k as [|k IH]; intros l; simpl; [done|]. by rewrite IH. Qed.

Lemma chunks_concat n ls : Forall (λ l, length l = n) ls →
  chunks (length ls) n (concat ls) = ls.
Proof.
  induction 1 as [|l ls Hl Hls IH]; simpl; [done|]. subst n.
  by rewrite take_app_length, drop_app_length, IH.
Qed.

Lemma concat_chunks k n l : length l = (k * n)%nat → concat (chunks k n l) = l.
Proof.
  revert l. induction k as [|k IH]; intros l Hl; simpl in *; [by destruct l|].
  rewrite IH by (rewrite length_drop; lia). apply take_drop.
Qed.

Lemma chunks_lookup k n l i : (i < k)%nat →
  chunks k n l !! i = Some (slice (i * n) n l).
Proof.
  revert l i. induction k as [|k IH]; intros l i Hi; simpl; [lia|].
  destruct i as [|i]; simpl; [done|]. rewrite IH by lia. unfold slice.
  by rewrite drop_drop.
Qed.

Lemma chunks_lengths k n l : length l = (k * n)%nat → Forall (λ x, length x = n) (chunks k n l).
Proof.
  revert l. induction k as [|k IH]; intros l Hl; simpl in *; constructor.
  - rewrite length_take. lia.
  - apply IH. rewrite length_drop. lia.
Qed.

Lemma slice_splice_same off x l : (off + length x ≤ length l)%nat →
  slice off (length x) (splice off x l) = x.
Proof.
  intros H. unfold slice, splice.
  rewrite drop_app_length' by (rewrite length_take; lia). apply take_app_length.
Qed.

Lemma slice_splice_other off x l off' n : (off + length x ≤ length l)%nat →
  (off' + n ≤ off)%nat ∨ (off + length x ≤ off')%nat →
  slice off' n (splice off x l) = slice off' n l.
Proof.
  intros Hl Ho. unfold slice, splice. apply list_eq. intros i.
  destruct (decide (i < n)%nat) as [Hi|Hi]; [|by rewrite !lookup_take_ge by lia].
  rewrite !lookup_take_lt, !lookup_drop by lia. destruct Ho as [Ho|Ho].
  - rewrite lookup_app_l by (rewrite length_take; lia). by rewrite lookup_take_lt by lia.
  - rewrite lookup_app_r by (rewrite length_take; lia).
    rewrite length_take, lookup_app_r by lia. rewrite lookup_drop. f_equal. lia.
Qed.

Lemma slice_length off n l : (off + n ≤ length l)%nat → length (slice off n l) = n.
Proof. intros. unfold slice. rewrite length_take, length_drop. lia. Qed.

Lemma splice_u8 off x l : Forall is_u8 x → Forall is_u8 l → Forall is_u8 (splice off x l).
Proof.
  intros. unfold splice. repeat (apply Forall_app; split); try done;
    by (apply Forall_take || apply Forall_drop).
Qed.

(** A piece of a concatenation of blocks of [n] bytes. *)
Lemma slice_concat n ls a b k : Forall (λ l, length l = n) ls → ls !! a = Some b → (k ≤ n)%nat →
  slice (a * n) k (concat ls) = take k b.
Proof.
  intros Hf. revert a. induction Hf as [|l ls Hl Hls IH]; intros a Ha Hk; [done|].
  unfold slice in *. destruct a as [|a]; simpl in Ha |- *.
  - injection Ha as ->. by rewrite drop_0, take_app_le by lia.
  - rewrite <-Hl, drop_app_add, Hl. by apply IH.
Qed.

(** [data] cut in blocks of 512 bytes: block number [j], padded with zeros. *)
Definition padded (data : list Z) (j : nat) : list Z :=
  let c := slice (j * 512) 512 data in c ++ replicate (512 - length c) 0.

Lemma length_padded data j : length (padded data j) = 512%nat.
Proof.
  unfold padded. rewrite length_app, length_replicate.
  assert (length (slice (j * 512) 512 data) ≤ 512)%nat by
    (unfold slice; rewrite length_take; lia). lia.
Qed.

Lemma padded_u8 data j : Forall is_u8 data → Forall is_u8 (padded data j).
Proof.
  intros. apply Forall_app. split; [by apply Forall_take, Forall_drop|].
  apply Forall_replicate. words.
Qed.

(** The blocks hold the data. *)
Lemma concat_padded data m : (length data ≤ m * 512)%nat →
  take (length data) (concat (padded data <$> seq 0 m)) = data.
Proof.
  revert data. induction m as [|m IH]; intros data Hl.
  { destruct data; simpl in *; [done|lia]. }
  cbn [seq]. rewrite fmap_cons. cbn [concat].
  assert (padded data <$> seq 1 m = padded (drop 512 data) <$> seq 0 m) as Eq.
  { rewrite <-(fmap_S_seq 0 m), <-list_fmap_compose. apply list_fmap_ext. intros _ j _.
    unfold compose, padded, slice. by rewrite drop_drop. }
  rewrite Eq. specialize (IH (drop 512 data)). rewrite length_drop in IH.
  unfold padded at 1, slice. rewrite drop_0.
  destruct (decide (512 ≤ length data)%nat) as [Hge|Hlt].
  - rewrite length_take, Nat.min_l, Nat.sub_diag, app_nil_r by lia.
    rewrite <-(take_drop 512 data) at 1. rewrite length_app, length_take, length_drop, Nat.min_l by lia.
    rewrite take_app_add' by (rewrite length_take; lia). rewrite IH by lia. apply take_drop.
  - rewrite (take_ge data 512) by lia. rewrite <-app_assoc. by rewrite take_app_length.
Qed.

(** A disk block of 512 bytes. *)
Definition block_ok (b : list Z) : Prop := length b = 512%nat ∧ Forall is_u8 b.

(** ** Structure layouts

    [layout] proves that a field of a structure, or its tail, is read back
    from the concatenation of its encoded fields. *)

Lemma drop_skip {A} (off k : nat) (l1 l2 : list A) : length l1 = k →
  drop (k + off) (l1 ++ l2) = drop off l2.
Proof. intros <-. by rewrite drop_app_add. Qed.

Ltac layout :=
  lazymatch goal with
  | |- field ?n 0 (le_encode ?n ?v ++ _) = _ => apply field_here; words
  | |- field ?n ?off (le_encode ?k _ ++ ?l) = _ =>
      let o := eval compute in (off - k)%nat in
      transitivity (field n o l);
      [apply (field_skip n o k); apply length_le_encode | layout]
  | |- drop 0 ?l = _ => reflexivity
  | |- drop ?off (le_encode ?k _ ++ ?l) = _ =>
      let o := eval compute in (off - k)%nat in
      transitivity (drop o l);
      [apply (drop_skip o k); apply length_le_encode | layout]
  end.

#[global] Arguments le_encode : simpl never.
#[global] Arguments field : simpl never.
