(* ===== verification/Cstr.v ===== *)
(** NUL-terminated strings in arrays of bytes, as the file systems and the
    system calls scan them: no library function is called, each file has its
    own bounded loops. *)
From Stdlib Require Import Ascii String.
From S2P Require Import Prelude.

(** The bytes of a string literal, with its terminator. *)
Fixpoint literal (s : string) : list Z :=
  match s with
  | EmptyString => [0]
  | String c s' => Z.of_nat (nat_of_ascii c) :: literal s'
  end.

(** The characters of a string without its terminator. *)
Definition text (s : string) : list Z := (λ c, Z.of_nat (nat_of_ascii c)) <$> list_ascii_of_string s.

Lemma literal_text s : literal s = text s ++ [0].
Proof. unfold text. induction s as [|c s IH]; [done|]. cbn. by rewrite IH. Qed.

(** [while (n < max && s[n] != 0) n++;] with [fuel] = [max - n]. *)
Fixpoint strlen_loop (fuel : nat) (s : list Z) (n : Z) : option Z :=
  match fuel with
  | O => Some n
  | S fuel' =>
      c ← arr_get s n;
      if c =? 0 then Some n else strlen_loop fuel' s (n + 1)
  end.

(** The characters before the first NUL, or all of them. *)
Fixpoint cstr (l : list Z) : list Z :=
  match l with
  | [] => []
  | c :: l' => if c =? 0 then [] else c :: cstr l'
  end.

(** [s] holds the string [n] at its start. *)
Definition nonzero (n : list Z) : Prop := Forall (λ c, c ≠ 0) n.
Definition holds (s n : list Z) : Prop := nonzero n ∧ ∃ r, s = n ++ 0 :: r.

#[export] Instance nonzero_dec n : Decision (nonzero n).
Proof. unfold nonzero. apply _. Defined.

Lemma cstr_nonzero l : nonzero (cstr l).
Proof.
  unfold nonzero. induction l as [|c l IH]; simpl; [constructor|].
  destruct (Z.eqb_spec c 0); by constructor.
Qed.

Lemma cstr_length l : (length (cstr l) ≤ length l)%nat.
Proof. induction l as [|c l IH]; simpl; [done|]. destruct (c =? 0); simpl; lia. Qed.

Lemma cstr_app n r : nonzero n → cstr (n ++ 0 :: r) = n.
Proof.
  induction 1 as [|c n Hc Hn IH]; simpl; [done|].
  rewrite (proj2 (Z.eqb_neq c 0)) by done. by rewrite IH.
Qed.

Lemma cstr_nonzero_id n : nonzero n → cstr n = n.
Proof.
  induction 1 as [|c n Hc Hn IH]; simpl; [done|].
  rewrite (proj2 (Z.eqb_neq c 0)) by done. by rewrite IH.
Qed.

Lemma cstr_pad n k : nonzero n → cstr (n ++ replicate k 0) = n.
Proof. intros. destruct k; [rewrite app_nil_r; by apply cstr_nonzero_id|by apply cstr_app]. Qed.

Lemma cstr_holds s n : holds s n → cstr s = n.
Proof. intros [Hn [r ->]]. by apply cstr_app. Qed.

Lemma holds_cstr s : (length (cstr s) < length s)%nat → holds s (cstr s).
Proof.
  intros H. split; [apply cstr_nonzero|]. induction s as [|c s IH]; simpl in *; [lia|].
  destruct (Z.eqb_spec c 0) as [->|]; [by exists s|]. simpl in H.
  destruct IH as [r Hr]; [lia|]. exists r. simpl. by f_equal.
Qed.

Lemma strlen_loop_spec fuel s n : 0 ≤ n →
  (length (cstr (drop (Z.to_nat n) s)) < length (drop (Z.to_nat n) s))%nat ∨
    (fuel ≤ length (drop (Z.to_nat n) s))%nat →
  strlen_loop fuel s n = Some (n + Z.of_nat (Nat.min fuel (length (cstr (drop (Z.to_nat n) s))))).
Proof.
  revert n. induction fuel as [|fuel IH]; intros n Hn Hs; cbn [strlen_loop].
  { f_equal. simpl. lia. }
  rewrite arr_get_nat by done.
  destruct (drop (Z.to_nat n) s) as [|c l] eqn:E.
  { exfalso. simpl in Hs. lia. }
  assert (s !! Z.to_nat n = Some c) as ->.
  { rewrite <-(Nat.add_0_r (Z.to_nat n)), <-lookup_drop, E. done. }
  cbn [mbind option_bind]. simpl. destruct (Z.eqb_spec c 0); [f_equal; simpl; lia|].
  assert (drop (Z.to_nat (n + 1)) s = l) as El.
  { replace (Z.to_nat (n + 1)) with (Z.to_nat n + 1)%nat by lia.
    by rewrite <-drop_drop, E. }
  rewrite IH; [|lia|].
  - rewrite El. f_equal. simpl. lia.
  - rewrite El. simpl in Hs. destruct (Z.eqb_spec c 0); [done|]. simpl in Hs. lia.
Qed.

(** The bounded length of a buffer that holds a string, or is long enough. *)
Lemma strlen_loop_cstr max s :
  (∃ n, holds s n) ∨ (max ≤ length s)%nat →
  strlen_loop max s 0 = Some (Z.of_nat (Nat.min max (length (cstr s)))).
Proof.
  intros Hs. rewrite strlen_loop_spec; [by rewrite drop_0, Z.add_0_l|done|].
  rewrite drop_0. destruct Hs as [[n [Hn [r ->]]]|]; [left|by right].
  rewrite cstr_app, length_app by done. simpl. lia.
Qed.

(** A buffer that begins with an array in which the string ends. *)
Lemma cstr_app_inside l r : (length (cstr l) < length l)%nat → cstr (l ++ r) = cstr l.
Proof.
  induction l as [|c l IH]; simpl; [lia|]. destruct (Z.eqb_spec c 0); [done|].
  simpl. intros H. rewrite IH by lia. done.
Qed.

Lemma holds_take s n : holds s n → take (length n) s = n.
Proof. intros [_ [r ->]]. apply take_app_length. Qed.

Lemma cstr_take l : take (length (cstr l)) l = cstr l.
Proof. induction l as [|c l IH]; simpl; [done|]. destruct (c =? 0); simpl; [done|]. by f_equal. Qed.

Lemma cstr_app_nonzero l r : nonzero l → cstr (l ++ r) = l ++ cstr r.
Proof.
  induction 1 as [|c l Hc Hl IH]; simpl; [done|].
  rewrite (proj2 (Z.eqb_neq c 0)) by done. by rewrite IH.
Qed.

(** Scanning an array without a NUL runs off its end. *)
Lemma strlen_loop_overrun fuel s n : 0 ≤ n → nonzero (drop (Z.to_nat n) s) →
  (length (drop (Z.to_nat n) s) < fuel)%nat → strlen_loop fuel s n = None.
Proof.
  revert n. induction fuel as [|fuel IH]; intros n Hn Hz Hl; [lia|]. cbn [strlen_loop].
  rewrite arr_get_nat by done. destruct (s !! Z.to_nat n) as [c|] eqn:E; [|done].
  cbn [mbind option_bind]. rewrite (drop_S _ _ _ E) in Hz, Hl.
  apply Forall_cons in Hz as [Hc Hz]. rewrite (proj2 (Z.eqb_neq c 0)) by done. simpl in Hl.
  replace (S (Z.to_nat n)) with (Z.to_nat (n + 1)) in Hz, Hl by lia. apply IH; [lia|done|lia].
Qed.
