(* ===== verification/Err.v ===== *)
(** Functions that return a status: a state monad with an early [return rc].

    A C function [int f(dev, ..., T *out)] that returns 0 on success is a
    computation [M S T]: from a state it yields [None] (undefined behaviour),
    or the new state with [inl rc] (the non-zero status returned) or [inr x]
    (status 0 and the output).  [if (rc != 0) return rc;] is the bind. *)
From S2P Require Import Prelude.

Definition M (S A : Type) : Type := S → option (S * (Z + A)).

Declare Scope err_scope.
Delimit Scope err_scope with err.

Section Ops.
Context {S : Type}.

Definition mok {A} (a : A) : M S A := λ s, Some (s, inr a).
Definition merr {A} (rc : Z) : M S A := λ s, Some (s, inl rc).
Definition mseq {A B} (m : M S A) (k : A → M S B) : M S B := λ s,
  match m s with
  | None => None
  | Some (s', inl rc) => Some (s', inl rc)
  | Some (s', inr a) => k a s'
  end.
(** An access that may be undefined. *)
Definition mub {A} (o : option A) : M S A := λ s,
  match o with Some a => Some (s, inr a) | None => None end.
Definition mget {A} (f : S → A) : M S A := λ s, Some (s, inr (f s)).

(** The status a call returns, when the caller looks at it itself. *)
Definition mstatus {A} (m : M S A) : M S (Z + A) := λ s,
  match m s with Some (s', r) => Some (s', inr r) | None => None end.

(** The body run for [i], [i+1], ... ([n] times), stopping at the first error. *)
Fixpoint mfor (n : nat) (i : Z) (body : Z → M S unit) : M S unit :=
  match n with
  | O => mok tt
  | Datatypes.S n' => mseq (body i) (λ _, mfor n' (i + 1) body)
  end.

(** The same with a value carried from one iteration to the next. *)
Fixpoint mfold {A} (n : nat) (i : Z) (a : A) (body : Z → A → M S A) : M S A :=
  match n with
  | O => mok a
  | Datatypes.S n' => mseq (body i a) (λ a', mfold n' (i + 1) a' body)
  end.
End Ops.

Notation "x <- m ;; k" := (mseq m (λ x, k))
  (at level 60, m at next level, right associativity) : err_scope.
Notation "m ;;; k" := (mseq m (λ _, k))
  (at level 60, right associativity) : err_scope.
Notation "'guard_err' b 'else' rc ;; k" := (if (b : bool) then k else merr rc)
  (at level 60, b at level 85, rc at next level, right associativity) : err_scope.

Lemma mseq_inr {S A B} (m : M S A) (k : A → M S B) s s' a :
  m s = Some (s', inr a) → mseq m k s = k a s'.
Proof. unfold mseq. by intros ->. Qed.

Lemma mseq_inl {S A B} (m : M S A) (k : A → M S B) s s' rc :
  m s = Some (s', inl rc) → mseq m k s = Some (s', inl rc).
Proof. unfold mseq. by intros ->. Qed.

Lemma mseq_mub {S A B} (o : option A) (k : A → M S B) s a :
  o = Some a → mseq (mub o) k s = k a s.
Proof. by intros ->. Qed.

Lemma mseq_mget {S A B} (f : S → A) (k : A → M S B) s : mseq (mget f) k s = k (f s) s.
Proof. done. Qed.

(** Regrouping two calls and what follows them. *)
Lemma mseq_assoc2 {S A B C D} (m : M S A) (n : A → M S B) (f : A → B → M S C) (k : C → M S D) s :
  mseq m (λ a, mseq (n a) (λ b, mseq (f a b) k)) s = mseq (mseq m (λ a, mseq (n a) (f a))) k s.
Proof.
  unfold mseq. destruct (m s) as [[s1 [|a]]|]; [done| |done].
  by destruct (n a s1) as [[s2 [|b]]|].
Qed.

(** Step over the first call of a sequence, given what it does. *)
Ltac mstep H := first [rewrite (mseq_inr _ _ _ _ _ H) | rewrite (mseq_inl _ _ _ _ _ H)].

Lemma mok_run {S A} (a : A) (s : S) : mok a s = Some (s, inr a).
Proof. done. Qed.
Lemma merr_run {S A} rc (s : S) : merr (A := A) rc s = Some (s, inl rc).
Proof. done. Qed.

(** The rule for a loop whose body always succeeds. *)
Lemma mfor_inv {S} (Inv : Z → S → Prop) n i body (s : S) :
  Inv i s →
  (∀ k s, i ≤ k < i + Z.of_nat n → Inv k s →
     ∃ s', body k s = Some (s', inr tt) ∧ Inv (k + 1) s') →
  ∃ s', mfor n i body s = Some (s', inr tt) ∧ Inv (i + Z.of_nat n) s'.
Proof.
  revert i s. induction n as [|n IH]; intros i s Hi Hb; simpl.
  { exists s. split; [done|]. by rewrite Z.add_0_r. }
  destruct (Hb i s) as (s1 & H1 & I1); [lia|done|]. mstep H1.
  destruct (IH (i + 1) s1) as (s2 & H2 & I2); [done| |].
  - intros k s0 Hk. apply Hb. lia.
  - exists s2. split; [done|].
    by replace (i + Z.of_nat (Datatypes.S n)) with (i + 1 + Z.of_nat n) by lia.
Qed.
