(* ===== verification/Frames.v ===== *)
(** The interface of a physical frame allocator, as [struct vmm_space] sees it
    through its [alloc_frame] and [free_frame] callbacks ([include/vmm.h]). The
    page table code is verified against this interface; [Pmm] implements it. *)
From S2P Require Import Prelude.

(** The callbacks over the state [C] that [ctx] stands for. *)
Class FrameAllocator (C : Type) := {
  fa_alloc : C → option (C * Z);
  fa_free : C → Z → option C;
}.

(** The value that means "no frame" ([VMM_INVALID_PHYS], [PMM_INVALID_FRAME]). *)
Definition FA_INVALID : Z := 18446744073709551615.

(** The physical memory the direct map of the kernel can reach: the higher half
    above [static_hhdm_offset] ([src/kernel_memory.c]) is 2^47 bytes. *)
Definition FRAME_LIMIT : Z := 140737488355328.

(** What an allocator promises: [fa_avail c a] says that the frame at physical
    address [a] may still be handed out, [fa_managed] that [a] is one of the
    frames of the allocator. *)
Class FrameAllocatorOk (C : Type) `{FrameAllocator C} := {
  fa_inv : C → Prop;
  fa_avail : C → Z → Prop;
  fa_managed : C → Z → Prop;
  fa_avail_managed c a : fa_inv c → fa_avail c a → fa_managed c a;
  fa_managed_frame c a : fa_managed c a → a mod 4096 = 0 ∧ 0 < a < FRAME_LIMIT;
  fa_alloc_ok c : fa_inv c →
    ∃ c' r, fa_alloc c = Some (c', r) ∧ fa_inv c' ∧
      (∀ a, fa_managed c' a ↔ fa_managed c a) ∧
      ((r = FA_INVALID ∧ (∀ a, ¬ fa_avail c' a) ∧ ∀ a, fa_avail c' a ↔ fa_avail c a) ∨
       (fa_avail c r ∧ ∀ a, fa_avail c' a ↔ fa_avail c a ∧ a ≠ r));
  fa_free_ok c a : fa_inv c → fa_managed c a →
    ∃ c', fa_free c a = Some c' ∧ fa_inv c' ∧
      (∀ b, fa_managed c' b ↔ fa_managed c b) ∧
      (∀ b, fa_avail c' b ↔ fa_avail c b ∨ b = a);
}.
