(* ===== verification/Pmm.v ===== *)
(** The physical memory manager ([src/pmm.c], [include/pmm.h]): a bitmap of
    4 KiB frames built from the boot memory map, with first-fit allocation. *)
From S2P Require Import Prelude Bitmap Frames.

(** ** Data *)

Definition PMM_PAGE_SIZE : Z := 4096.
Definition PMM_INVALID_FRAME : Z := 18446744073709551615.
Definition BOOT_MEM_USABLE : Z := 1.

Record boot_mem_region := BootMemRegion {
  r_base : Z;
  r_length : Z;
  r_type : Z;
}.

(** [bitmap] is the storage the field points to; [NULL] is the empty object,
    which no access is inside of. *)
Record pmm_state := PmmState {
  bitmap : list Z;
  bitmap_bytes : Z;
  max_phys : Z;
  frame_count : Z;
  free_frames : Z;
  used_frames : Z;
  reserved_frames : Z;
  ignored_frames : Z;
  next_hint : Z;
  initialized : bool;
}.

Definition set_bitmap (b : list Z) (p : pmm_state) : pmm_state :=
  PmmState b (bitmap_bytes p) (max_phys p) (frame_count p) (free_frames p)
    (used_frames p) (reserved_frames p) (ignored_frames p) (next_hint p) (initialized p).
Definition set_counts (fr us : Z) (p : pmm_state) : pmm_state :=
  PmmState (bitmap p) (bitmap_bytes p) (max_phys p) (frame_count p) fr
    us (reserved_frames p) (ignored_frames p) (next_hint p) (initialized p).
Definition set_reserved (n : Z) (p : pmm_state) : pmm_state :=
  PmmState (bitmap p) (bitmap_bytes p) (max_phys p) (frame_count p) (free_frames p)
    (used_frames p) n (ignored_frames p) (next_hint p) (initialized p).
Definition set_ignored (n : Z) (p : pmm_state) : pmm_state :=
  PmmState (bitmap p) (bitmap_bytes p) (max_phys p) (frame_count p) (free_frames p)
    (used_frames p) (reserved_frames p) n (next_hint p) (initialized p).
Definition set_hint (n : Z) (p : pmm_state) : pmm_state :=
  PmmState (bitmap p) (bitmap_bytes p) (max_phys p) (frame_count p) (free_frames p)
    (used_frames p) (reserved_frames p) (ignored_frames p) n (initialized p).
Definition set_initialized (b : bool) (p : pmm_state) : pmm_state :=
  PmmState (bitmap p) (bitmap_bytes p) (max_phys p) (frame_count p) (free_frames p)
    (used_frames p) (reserved_frames p) (ignored_frames p) (next_hint p) b.

(** ** Operations *)

Definition align_down (value align : Z) : Z :=
  Z.land value (u64 (Z.lnot (u64 (align - 1)))).

Definition align_up (value align : Z) : Z :=
  Z.land (u64 (u64 (value + align) - 1)) (u64 (Z.lnot (u64 (align - 1)))).

(** [Some out] when the function returns true and stores [*out]. *)
Definition checked_add_u64 (a b : Z) : option Z :=
  if UINT64_MAX - a <? b then None else Some (u64 (a + b)).

Definition bitmap_set (b : list Z) (index : Z) : option (list Z) :=
  x ← arr_get b (Z.shiftr index 3);
  arr_set b (Z.shiftr index 3) (u8 (Z.lor x (u8 (Z.shiftl 1 (Z.land index 7))))).

Definition bitmap_clear (b : list Z) (index : Z) : option (list Z) :=
  x ← arr_get b (Z.shiftr index 3);
  arr_set b (Z.shiftr index 3)
    (u8 (Z.land x (u8 (Z.lnot (u8 (Z.shiftl 1 (Z.land index 7))))))).

Definition bitmap_test (b : list Z) (index : Z) : option bool :=
  x ← arr_get b (Z.shiftr index 3);
  Some (negb (Z.land x (u8 (Z.shiftl 1 (Z.land index 7))) =? 0)).

Definition mark_frame_free (p : pmm_state) (frame : Z) : option pmm_state :=
  if frame_count p <=? frame then Some p else
  t ← bitmap_test (bitmap p) frame;
  if t : bool then
    b ← bitmap_clear (bitmap p) frame;
    let used := if 0 <? used_frames p then used_frames p - 1 else used_frames p in
    let p1 := set_counts (u64 (free_frames p + 1)) used (set_bitmap b p) in
    Some (if frame <? next_hint p1 then set_hint frame p1 else p1)
  else Some p.

Definition mark_frame_used (p : pmm_state) (frame : Z) : option pmm_state :=
  if frame_count p <=? frame then Some p else
  t ← bitmap_test (bitmap p) frame;
  if negb t then
    b ← bitmap_set (bitmap p) frame;
    let free := if 0 <? free_frames p then free_frames p - 1 else free_frames p in
    Some (set_counts free (u64 (used_frames p + 1)) (set_bitmap b p))
  else Some p.

(** Number of iterations of [for (addr = start; addr < stop; addr += 4096)]
    when both bounds are page aligned and [stop] is below 2^64. *)
Definition page_steps (start stop : Z) : nat :=
  Z.to_nat ((stop - start + (PMM_PAGE_SIZE - 1)) / PMM_PAGE_SIZE).

(** The bodies of the loops of [mark_range_free] and [mark_range_used]. *)
Definition range_free_body (addr : Z) (p : pmm_state) : option (ctl pmm_state unit) :=
  p' ← mark_frame_free p (addr / PMM_PAGE_SIZE);
  Some (Next p').

Definition range_used_body (addr : Z) (p : pmm_state) : option (ctl pmm_state unit) :=
  t ← bitmap_test (bitmap p) (addr / PMM_PAGE_SIZE);
  let was_free := negb t in
  p' ← mark_frame_used p (addr / PMM_PAGE_SIZE);
  Some (Next (if was_free then set_reserved (u64 (reserved_frames p' + 1)) p' else p')).

Definition mark_range_free (p : pmm_state) (base length : Z) : option pmm_state :=
  if length =? 0 then Some p else
  match checked_add_u64 base length with
  | None => Some p
  | Some eend =>
      let start := align_up base PMM_PAGE_SIZE in
      let stop := align_down eend PMM_PAGE_SIZE in
      if stop <=? start then Some p else
      if max_phys p <=? start then Some p else
      let '(p, stop) :=
        if max_phys p <? stop then
          (set_ignored (u64 (ignored_frames p +
             u64 (align_down eend PMM_PAGE_SIZE - max_phys p) / PMM_PAGE_SIZE)) p,
           max_phys p)
        else (p, stop) in
      c ← for_loop (page_steps start stop) start PMM_PAGE_SIZE
            range_free_body p;
      Some (match c with Next p' => p' | Return _ => p end)
  end.

Definition mark_range_used (p : pmm_state) (base length : Z) : option pmm_state :=
  if length =? 0 then Some p else
  match checked_add_u64 base length with
  | None => Some p
  | Some eend =>
      let start := align_down base PMM_PAGE_SIZE in
      let stop := align_up eend PMM_PAGE_SIZE in
      if stop <=? start then Some p else
      if max_phys p <=? start then Some p else
      let stop := if max_phys p <? stop then max_phys p else stop in
      c ← for_loop (page_steps start stop) start PMM_PAGE_SIZE
            range_used_body p;
      Some (match c with Next p' => p' | Return _ => p end)
  end.

Definition pmm_zero_state (p : ptr pmm_state) : ptr pmm_state :=
  match p with
  | Null => Null
  | Ref _ => Ref (PmmState [] 0 0 0 0 0 0 0 0 false)
  end.

(** One pass over the memory map, the body run for the regions [sel] selects. *)
Fixpoint for_regions (sel : boot_mem_region → bool)
    (f : pmm_state → Z → Z → option pmm_state)
    (regions : list boot_mem_region) (p : pmm_state) : option pmm_state :=
  match regions with
  | [] => Some p
  | r :: rs =>
      p' ← (if sel r then f p (r_base r) (r_length r) else Some p);
      for_regions sel f rs p'
  end.

(** [regions] are the [region_count] entries of the map; [storage] the
    [bitmap_storage] object; [bitmap_storage_bytes] is what the caller claims
    its size is.  Returns the new state and the value returned. *)
Definition pmm_init_from_map (pmm : ptr pmm_state)
    (regions : ptr (list boot_mem_region)) (storage : ptr (list Z))
    (bitmap_storage_bytes max_phys_bytes : Z) : option (ptr pmm_state * bool) :=
  match pmm, regions, storage with
  | Ref p0, Ref rs, Ref st =>
      if zlen rs =? 0 then Some (pmm, false) else
      if (max_phys_bytes =? 0) ||
         negb (Z.land max_phys_bytes (PMM_PAGE_SIZE - 1) =? 0) then Some (pmm, false) else
      let frame_count := max_phys_bytes / PMM_PAGE_SIZE in
      let required_bitmap_bytes := u64 (frame_count + 7) / 8 in
      if bitmap_storage_bytes <? required_bitmap_bytes then Some (pmm, false) else
      st' ← mem_fill (Z.to_nat required_bitmap_bytes) st 255;
      let p := PmmState st' required_bitmap_bytes max_phys_bytes frame_count
                 0 frame_count 0 0 0 false in
      p ← for_regions (fun r => r_type r =? BOOT_MEM_USABLE) mark_range_free rs p;
      p ← mark_range_used p 0 PMM_PAGE_SIZE;
      p ← for_regions (fun r => negb (r_type r =? BOOT_MEM_USABLE)) mark_range_used rs p;
      Some (Ref (set_initialized true p), true)
  | _, _, _ => Some (pmm, false)
  end.

(** The body shared by the two scans of [pmm_alloc_frame]. *)
Definition alloc_scan_body (frame : Z) (p : pmm_state) :
    option (ctl pmm_state (pmm_state * Z)) :=
  t ← bitmap_test (bitmap p) frame;
  if negb t then
    p' ← mark_frame_used p frame;
    Some (Return (set_hint (u64 (frame + 1)) p', u64 (frame * PMM_PAGE_SIZE)))
  else Some (Next p).

Definition pmm_alloc_frame (pmm : ptr pmm_state) : option (ptr pmm_state * Z) :=
  match pmm with
  | Null => Some (pmm, PMM_INVALID_FRAME)
  | Ref p =>
      if negb (initialized p) || (free_frames p =? 0) then Some (pmm, PMM_INVALID_FRAME) else
      c ← for_loop (Z.to_nat (frame_count p - next_hint p)) (next_hint p) 1
            alloc_scan_body p;
      match c with
      | Return (p', r) => Some (Ref p', r)
      | Next p =>
          c ← for_loop (Z.to_nat (next_hint p)) 0 1 alloc_scan_body p;
          match c with
          | Return (p', r) => Some (Ref p', r)
          | Next p => Some (Ref p, PMM_INVALID_FRAME)
          end
      end
  end.

Definition pmm_free_frame (pmm : ptr pmm_state) (phys_addr : Z) :
    option (ptr pmm_state * bool) :=
  match pmm with
  | Null => Some (pmm, false)
  | Ref p =>
      if negb (initialized p) then Some (pmm, false) else
      if negb (Z.land phys_addr (PMM_PAGE_SIZE - 1) =? 0) || (phys_addr =? 0)
         || (max_phys p <=? phys_addr) then Some (pmm, false) else
      let frame := phys_addr / PMM_PAGE_SIZE in
      t ← bitmap_test (bitmap p) frame;
      if negb t then Some (pmm, false) else
      p' ← mark_frame_free p frame;
      Some (Ref p', true)
  end.

Definition pmm_reserve_range (pmm : ptr pmm_state) (base length : Z) :
    option (ptr pmm_state * bool) :=
  match pmm with
  | Null => Some (pmm, false)
  | Ref p =>
      if negb (initialized p) || (length =? 0) then Some (pmm, false) else
      p' ← mark_range_used p base length;
      Some (Ref p', true)
  end.

Definition pmm_is_frame_free (pmm : ptr pmm_state) (phys_addr : Z) : option bool :=
  match pmm with
  | Null => Some false
  | Ref p =>
      if negb (initialized p) then Some false else
      if negb (Z.land phys_addr (PMM_PAGE_SIZE - 1) =? 0)
         || (max_phys p <=? phys_addr) then Some false else
      t ← bitmap_test (bitmap p) (phys_addr / PMM_PAGE_SIZE);
      Some (negb t)
  end.

Definition pmm_free_count (pmm : ptr pmm_state) : Z :=
  match pmm with Null => 0 | Ref p => free_frames p end.
Definition pmm_used_count (pmm : ptr pmm_state) : Z :=
  match pmm with Null => 0 | Ref p => used_frames p end.
Definition pmm_frame_count (pmm : ptr pmm_state) : Z :=
  match pmm with Null => 0 | Ref p => frame_count p end.

#[global] Arguments pmm_alloc_frame : simpl never.
#[global] Arguments pmm_free_frame : simpl never.
#[global] Arguments pmm_reserve_range : simpl never.
#[global] Arguments pmm_is_frame_free : simpl never.

(** ** Invariant *)

Lemma shiftr3 i : Z.shiftr i 3 = i / 8.
Proof. apply Z.shiftr_div_pow2. lia. Qed.
Lemma land7 i : Z.land i 7 = i mod 8.
Proof. apply (land_low i 3). lia. Qed.

Lemma bitmap_test_eq b i : bitmap_test b i = bm_test b i.
Proof. unfold bitmap_test, bm_test. by rewrite shiftr3, land7. Qed.
Lemma bitmap_set_eq b i : bitmap_set b i = bm_set b i.
Proof. unfold bitmap_set, bm_set. by rewrite shiftr3, land7. Qed.
Lemma bitmap_clear_eq b i : bitmap_clear b i = bm_clear b i.
Proof. unfold bitmap_clear, bm_clear. by rewrite shiftr3, land7. Qed.

(** Frame [f] is free in [p]. *)
Definition free_at (p : pmm_state) (f : Z) : bool := negb (bit (bitmap p) f).

(** The state invariant. The counters count the bitmap, and the hint is a
    lower bound of the free frames. *)
Record pmm_wf (p : pmm_state) : Prop := {
  wf_frames : 0 < frame_count p;
  wf_phys : max_phys p = 4096 * frame_count p;
  wf_phys64 : max_phys p < 18446744073709551616;
  wf_storage : frame_count p ≤ 8 * zlen (bitmap p);
  wf_free : free_frames p = count_upto (free_at p) (Z.to_nat (frame_count p));
  wf_used : used_frames p = frame_count p - free_frames p;
  wf_hint : 0 ≤ next_hint p ≤ frame_count p;
  wf_below_hint : ∀ f, 0 ≤ f < next_hint p → free_at p f = false;
}.

(** Two states of the same memory: the geometry fields are equal. *)
Definition same_memory (p p' : pmm_state) : Prop :=
  bitmap_bytes p' = bitmap_bytes p ∧ max_phys p' = max_phys p ∧
  frame_count p' = frame_count p ∧ initialized p' = initialized p.

#[export] Instance same_memory_refl : Reflexive same_memory.
Proof. intros p. done. Qed.
#[export] Instance same_memory_trans : Transitive same_memory.
Proof. intros p q r (?&?&?&?) (?&?&?&?). unfold same_memory. intuition congruence. Qed.

(** [p'] is well formed, of the same memory as [p], and its free frames are
    given by [fr]. *)
Definition frames_become (p p' : pmm_state) (fr : Z → bool) : Prop :=
  pmm_wf p' ∧ same_memory p p' ∧
  ∀ f, 0 ≤ f < frame_count p → free_at p' f = fr f.

Lemma free_frames_range p : pmm_wf p → 0 ≤ free_frames p ≤ frame_count p.
Proof.
  intros W. rewrite (wf_free p W).
  pose proof (count_upto_range (free_at p) (Z.to_nat (frame_count p))).
  pose proof (wf_frames p W). lia.
Qed.

Lemma wf_bounds p : pmm_wf p →
  0 < frame_count p < 4503599627370496 ∧ 0 ≤ free_frames p ≤ frame_count p.
Proof.
  intros W. pose proof (free_frames_range p W).
  destruct W. lia.
Qed.

Lemma test_frame p f : pmm_wf p → 0 ≤ f < frame_count p →
  bitmap_test (bitmap p) f = Some (negb (free_at p f)).
Proof.
  intros W Hf. rewrite bitmap_test_eq, bm_test_ok.
  - unfold free_at. by rewrite negb_involutive.
  - pose proof (wf_storage p W). lia.
Qed.

Lemma frames_become_refl p : pmm_wf p → frames_become p p (free_at p).
Proof. intros W. split; [done|]. split; done. Qed.

Lemma mark_frame_free_spec p f :
  pmm_wf p → 0 ≤ f →
  ∃ p', mark_frame_free p f = Some p' ∧
    frames_become p p' (λ j, if decide (j = f) then true else free_at p j) ∧
    reserved_frames p' = reserved_frames p.
Proof.
  intros W Hf. pose proof (wf_bounds p W) as (Hn & Hfr). unfold mark_frame_free.
  destruct (Z.leb_spec (frame_count p) f) as [Hge|Hlt].
  { exists p. split; [done|]. split; [|done]. split; [done|]. split; [done|].
    intros j Hj. rewrite decide_False by lia. done. }
  rewrite test_frame by (try done; lia). simpl.
  destruct (free_at p f) eqn:Ef; simpl.
  { exists p. split; [done|]. split; [|done]. split; [done|]. split; [done|].
    intros j Hj. case_decide; by subst. }
  rewrite bitmap_clear_eq.
  destruct (bm_clear_ok (bitmap p) f) as (b & Hb & Hlen & Hbit).
  { pose proof (wf_storage p W). lia. }
  rewrite Hb. simpl. destruct W.
  assert (∀ p', bitmap p' = b → ∀ j, 0 ≤ j < frame_count p →
     free_at p' j = if decide (j = f) then true else free_at p j) as Hfree.
  { intros p' Hp' j Hj. unfold free_at. rewrite Hp', Hbit by lia. by case_decide. }
  assert (count_upto (λ j, negb (bit b j)) (Z.to_nat (frame_count p)) = free_frames p + 1) as Hcnt.
  { rewrite wf_free0. apply (count_upto_flip _ _ _ f); [lia|done| |].
    - pose proof (Hfree (set_bitmap b p) eq_refl f). rewrite decide_True in H by done. apply H. lia.
    - intros i Hi Hne. pose proof (Hfree (set_bitmap b p) eq_refl i).
      rewrite decide_False in H by done. symmetry. apply H. lia. }
  assert (free_frames p < frame_count p) as Hstrict.
  { pose proof (count_upto_range (λ j, negb (bit b j)) (Z.to_nat (frame_count p))). lia. }
  rewrite u64_small by words.
  replace (0 <? used_frames p) with true by (symmetry; apply Z.ltb_lt; lia).
  destruct (Z.ltb_spec f (next_hint p)) as [Hh|Hh].
  all: eexists; split; [done|]; split; [|done]; split; [|split; [done|]];
    [|intros j Hj; apply Hfree; done].
  all: constructor; simpl; try done; try lia; try (symmetry; exact Hcnt).
  all: intros j Hj; unfold free_at in *; simpl; rewrite Hbit by lia;
    rewrite decide_False by lia; apply wf_below_hint0; lia.
Qed.

Lemma mark_frame_used_spec p f :
  pmm_wf p → 0 ≤ f →
  ∃ p', mark_frame_used p f = Some p' ∧
    frames_become p p' (λ j, if decide (j = f) then false else free_at p j) ∧
    next_hint p' = next_hint p ∧ reserved_frames p' = reserved_frames p.
Proof.
  intros W Hf. pose proof (wf_bounds p W) as (Hn & Hfr). unfold mark_frame_used.
  destruct (Z.leb_spec (frame_count p) f) as [Hge|Hlt].
  { exists p. split; [done|]. split; [|done]. split; [done|]. split; [done|].
    intros j Hj. rewrite decide_False by lia. done. }
  rewrite test_frame by (try done; lia). simpl.
  destruct (free_at p f) eqn:Ef; simpl.
  2: { exists p. split; [done|]. split; [|done]. split; [done|]. split; [done|].
       intros j Hj. case_decide; by subst. }
  rewrite bitmap_set_eq.
  destruct (bm_set_ok (bitmap p) f) as (b & Hb & Hlen & Hbit).
  { pose proof (wf_storage p W). lia. }
  rewrite Hb. simpl. destruct W.
  assert (free_frames p = count_upto (λ j, negb (bit b j)) (Z.to_nat (frame_count p)) + 1) as Hcnt.
  { rewrite wf_free0. apply (count_upto_flip _ _ _ f); [lia| |done|].
    - rewrite Hbit, decide_True by lia. done.
    - intros i Hi Hne. unfold free_at. rewrite Hbit, decide_False by lia. done. }
  pose proof (count_upto_range (λ j, negb (bit b j)) (Z.to_nat (frame_count p))).
  eexists. split; [done|].
  replace (0 <? free_frames p) with true by (symmetry; apply Z.ltb_lt; lia).
  split; [|done]. split; [|split; [done|]].
  - constructor; simpl; try done; try lia.
    + unfold free_at; simpl. lia.
    + rewrite u64_small by words. lia.
    + intros j Hj. unfold free_at in *; simpl. rewrite Hbit by lia.
      case_decide; [done|]. by apply wf_below_hint0.
  - intros j Hj. unfold free_at; simpl. rewrite Hbit by lia. by case_decide.
Qed.

(** ** Ranges of frames *)

Lemma align_down_eq v : is_u64 v → align_down v PMM_PAGE_SIZE = 4096 * (v / 4096).
Proof.
  intros Hv. unfold align_down, PMM_PAGE_SIZE. rewrite land_u64_mask by done.
  change (u64 (4096 - 1)) with (2 ^ 12 - 1). rewrite land_high by lia.
  change (2 ^ 12) with 4096. lia.
Qed.

Lemma align_up_eq v : 0 ≤ v → v + 4095 < 18446744073709551616 →
  align_up v PMM_PAGE_SIZE = 4096 * ((v + 4095) / 4096).
Proof.
  intros Hv Hv2. unfold align_up.
  replace (u64 (u64 (v + PMM_PAGE_SIZE) - 1)) with (v + 4095).
  - apply align_down_eq. words.
  - unfold u64, PMM_PAGE_SIZE. rewrite Zminus_mod_idemp_l.
    rewrite Z.mod_small by lia. lia.
Qed.

Lemma checked_add_spec a b : is_u64 a → is_u64 b →
  checked_add_u64 a b =
    if 18446744073709551616 <=? a + b then None else Some (a + b).
Proof.
  intros Ha Hb. unfold checked_add_u64, UINT64_MAX.
  destruct (Z.ltb_spec (18446744073709551615 - a) b),
    (Z.leb_spec 18446744073709551616 (a + b)); try words; [done|].
  by rewrite u64_small by words.
Qed.

Lemma page_loop {R} (Inv : Z → pmm_state → Prop) body a b p :
  0 ≤ a ≤ b → Inv a p →
  (∀ f p, a ≤ f < b → Inv f p →
     ∃ p', body (4096 * f) p = Some (Next (R := R) p') ∧ Inv (f + 1) p') →
  ∃ p', for_loop (page_steps (4096 * a) (4096 * b)) (4096 * a) PMM_PAGE_SIZE body p
        = Some (Next p') ∧ Inv b p'.
Proof.
  intros Hab Ha Hb. unfold page_steps, PMM_PAGE_SIZE.
  replace ((4096 * b - 4096 * a + (4096 - 1)) / 4096) with (b - a)
    by dlia.
  destruct (for_loop_inv (R := R) (λ i p, Inv (i / 4096) p) (λ _, False)
    (Z.to_nat (b - a)) (4096 * a) 4096 body p) as (c & Hc & Hp).
  - by replace (4096 * a / 4096) with a by dlia.
  - intros k s Hk Hs. replace ((4096 * a + k * 4096) / 4096) with (a + k) in Hs by dlia.
    destruct (Hb (a + k) s) as (p' & Hp & Hi); [lia|done|].
    replace (4096 * a + k * 4096) with (4096 * (a + k)) by lia.
    exists (Next p'). split; [done|].
    by replace ((4096 * a + (k + 1) * 4096) / 4096) with (a + k + 1) by dlia.
  - destruct c as [p'|]; [|done]. exists p'. split; [done|].
    by replace ((4096 * a + Z.of_nat (Z.to_nat (b - a)) * 4096) / 4096) with b in Hp by dlia.
Qed.

(** The page of frame [f] lies inside [base, base + length). *)
Definition covers (base length f : Z) : bool :=
  (base <=? 4096 * f) && (4096 * (f + 1) <=? base + length).
(** The page of frame [f] meets [base, base + length). *)
Definition touches (base length f : Z) : bool :=
  (0 <? length) && (base <? 4096 * (f + 1)) && (4096 * f <? base + length).

(** The range does not end in the last page of the address space. *)
Definition range_ok (base length : Z) : Prop :=
  is_u64 base ∧ is_u64 length ∧ base + length ≤ 18446744073709547520.

(** Invariant of the two page loops: the frames of [a .. f-1] have become
    [v], the others are as in [p]. *)
Definition range_done (p : pmm_state) (v : bool) (a f : Z) (p' : pmm_state) : Prop :=
  frames_become p p' (λ j, if decide (a ≤ j < f) then v else free_at p j).

Lemma range_done_start p v a : pmm_wf p → range_done p v a a p.
Proof.
  intros W. split; [done|]. split; [done|]. intros j _.
  by rewrite decide_False by lia.
Qed.

Lemma range_done_step p v a f p1 p2 : a ≤ f →
  range_done p v a f p1 →
  frames_become p1 p2 (λ j, if decide (j = f) then v else free_at p1 j) →
  range_done p v a (f + 1) p2.
Proof.
  intros Haf (W1 & S1 & F1) (W2 & S2 & F2). split; [done|]. split; [by etrans|].
  assert (frame_count p1 = frame_count p) as Hn by apply S1.
  intros j Hj. rewrite F2, F1 by lia.
  repeat case_decide; try done; lia.
Qed.

Lemma frames_become_ext p p' fr fr' :
  frames_become p p' fr → (∀ f, 0 ≤ f < frame_count p → fr f = fr' f) →
  frames_become p p' fr'.
Proof.
  intros (W & S & F) H. split; [done|]. split; [done|]. intros f Hf.
  rewrite F by done. by apply H.
Qed.

Lemma set_ignored_become p n : pmm_wf p → frames_become p (set_ignored n p) (free_at p).
Proof. intros []. split; [by constructor|]. split; done. Qed.

Lemma set_reserved_become p p' n fr :
  frames_become p p' fr → frames_become p (set_reserved n p') fr.
Proof. intros ([] & S & F). split; [by constructor|]. split; done. Qed.

Lemma frames_become_trans p q r fr gr :
  frames_become p q fr → frames_become q r gr → frames_become p r gr.
Proof.
  intros (W & S & F) (W' & S' & F'). split; [done|]. split; [by etrans|].
  intros f Hf. apply F'. destruct S as (_ & _ & -> & _). done.
Qed.

Lemma range_free_loop p q a b :
  frames_become p q (free_at p) → 0 ≤ a ≤ b →
  ∃ p', for_loop (page_steps (4096 * a) (4096 * b)) (4096 * a) PMM_PAGE_SIZE
          range_free_body q = Some (Next p') ∧
    frames_become p p' (λ f, bool_decide (a ≤ f < b) || free_at p f).
Proof.
  intros Hq Hab.
  destruct (page_loop (R := unit) (range_done q true a) range_free_body a b q)
    as (p' & Hp' & Hd); [done|apply range_done_start, Hq| |].
  - intros f p1 Hf H1. unfold range_free_body, PMM_PAGE_SIZE.
    replace (4096 * f / 4096) with f by dlia.
    destruct (mark_frame_free_spec p1 f) as (p2 & -> & H2 & _); [apply H1|lia|].
    exists p2. split; [done|]. eapply range_done_step; [lia|done|done].
  - exists p'. split; [done|].
    eapply frames_become_ext; [eapply frames_become_trans; [exact Hq|exact Hd]|].
    intros f Hf. simpl. destruct Hq as (_ & _ & ->); [|done].
    by case_decide; case_bool_decide.
Qed.

Lemma mark_range_free_spec p base length :
  pmm_wf p → range_ok base length →
  ∃ p', mark_range_free p base length = Some p' ∧
    frames_become p p' (λ f, covers base length f || free_at p f).
Proof.
  intros W (Hb & Hl & Hsum). unfold mark_range_free.
  pose proof (wf_bounds p W) as [Hn _]. pose proof (wf_phys p W) as Hphys.
  assert (∀ p', frames_become p p' (free_at p) →
    (∀ f, 0 ≤ f < frame_count p → covers base length f = false) →
    frames_become p p' (λ f, covers base length f || free_at p f)) as Hnone.
  { intros p' Hp' H0. eapply frames_become_ext; [done|]. intros f Hf. by rewrite H0. }
  destruct (Z.eqb_spec length 0) as [->|Hl0].
  { exists p. split; [done|]. apply Hnone; [by apply frames_become_refl|].
    intros f Hf. unfold covers. lia. }
  rewrite checked_add_spec by done.
  destruct (Z.leb_spec 18446744073709551616 (base + length)) as [|_]; [lia|].
  rewrite align_down_eq, align_up_eq by words.
  set (a := (base + 4095) / 4096). set (e := (base + length) / 4096).
  assert (∀ f, covers base length f = bool_decide (a ≤ f < e)) as Hcov.
  { intros f. unfold covers, a, e. case_bool_decide; dlia. }
  destruct (Z.leb_spec (4096 * e) (4096 * a)) as [|Hae].
  { exists p. split; [done|]. apply Hnone; [by apply frames_become_refl|].
    intros f Hf. rewrite Hcov. apply bool_decide_eq_false. lia. }
  destruct (Z.leb_spec (max_phys p) (4096 * a)) as [|Hap].
  { exists p. split; [done|]. apply Hnone; [by apply frames_become_refl|].
    intros f Hf. rewrite Hcov. apply bool_decide_eq_false. lia. }
  destruct (Z.ltb_spec (max_phys p) (4096 * e)) as [Hpe|Hpe].
  - destruct (range_free_loop p (set_ignored (u64 (ignored_frames p +
        u64 (4096 * e - max_phys p) / PMM_PAGE_SIZE)) p) a (frame_count p))
      as (p' & Hp' & Hd); [by apply set_ignored_become|unfold a; dlia|].
    rewrite Hphys in Hp' |- *. rewrite Hp'. exists p'. split; [done|].
    eapply frames_become_ext; [done|]. intros f Hf. simpl. rewrite Hcov.
    repeat case_bool_decide; try done; lia.
  - destruct (range_free_loop p p a e)
      as (p' & Hp' & Hd); [by apply frames_become_refl|unfold a; dlia|].
    rewrite Hp'. exists p'. split; [done|].
    eapply frames_become_ext; [done|]. intros f Hf. simpl. by rewrite Hcov.
Qed.

Lemma mark_range_used_spec p base length :
  pmm_wf p → range_ok base length →
  ∃ p', mark_range_used p base length = Some p' ∧
    frames_become p p' (λ f, negb (touches base length f) && free_at p f).
Proof.
  intros W (Hb & Hl & Hsum). unfold mark_range_used.
  pose proof (wf_bounds p W) as [Hn _]. pose proof (wf_phys p W) as Hphys.
  assert ((∀ f, 0 ≤ f < frame_count p → touches base length f = false) →
    frames_become p p (λ f, negb (touches base length f) && free_at p f)) as Hnone.
  { intros H0. eapply frames_become_ext; [by apply frames_become_refl|].
    intros f Hf. by rewrite H0. }
  destruct (Z.eqb_spec length 0) as [->|Hl0].
  { exists p. split; [done|]. apply Hnone. intros f Hf. unfold touches. lia. }
  rewrite checked_add_spec by done.
  destruct (Z.leb_spec 18446744073709551616 (base + length)) as [|_]; [lia|].
  rewrite align_down_eq, align_up_eq by words.
  set (a := base / 4096). set (e := (base + length + 4095) / 4096).
  assert (∀ f, touches base length f = bool_decide (a ≤ f < e)) as Htou.
  { intros f. unfold touches, a, e. case_bool_decide; dlia. }
  destruct (Z.leb_spec (4096 * e) (4096 * a)) as [|Hae].
  { exists p. split; [done|]. apply Hnone. intros f Hf. rewrite Htou.
    apply bool_decide_eq_false. lia. }
  destruct (Z.leb_spec (max_phys p) (4096 * a)) as [|Hap].
  { exists p. split; [done|]. apply Hnone. intros f Hf. rewrite Htou.
    apply bool_decide_eq_false. lia. }
  replace (if max_phys p <? 4096 * e then max_phys p else 4096 * e)
    with (4096 * Z.min e (frame_count p)) by (case_match; bool_prop; lia).
  edestruct (page_loop (R := unit) (range_done p false a) range_used_body a (Z.min e (frame_count p)) p)
    as (p' & Hp' & Hd); [unfold a; dlia|by apply range_done_start| |].
  2: { rewrite Hp'. exists p'. split; [done|].
       eapply frames_become_ext; [exact Hd|]. intros f Hf. rewrite Htou.
       simpl. case_decide; case_bool_decide; try done; lia. }
  intros f p1 Hf H1. unfold range_free_body, range_used_body, PMM_PAGE_SIZE. replace (4096 * f / 4096) with f by dlia.
  assert (frame_count p1 = frame_count p) as Hn1 by apply H1.
  rewrite test_frame by (first [apply H1 | unfold a in *; dlia]). simpl.
  destruct (mark_frame_used_spec p1 f) as (p2 & -> & H2 & _); [apply H1|unfold a in *; dlia|].
  eexists. split; [done|]. rewrite negb_involutive.
  destruct (free_at p1 f).
  - apply set_reserved_become. eapply range_done_step; [lia|done|done].
  - eapply range_done_step; [lia|done|done].
Qed.

(** ** Specification

    The set of free frames as a predicate, and what each operation of the
    interface does to it. *)

Lemma page_mask v : 0 ≤ v → Z.land v (PMM_PAGE_SIZE - 1) = v mod 4096.
Proof. intros. apply (land_low v 12). lia. Qed.

Lemma set_hint_wf p h :
  pmm_wf p → 0 ≤ h ≤ frame_count p → (∀ f, 0 ≤ f < h → free_at p f = false) →
  pmm_wf (set_hint h p).
Proof. intros [] Hh Hb. by constructor. Qed.

(** The pages usable according to the memory map and not reserved by it. *)
Definition usable_by (rs : list boot_mem_region) (f : Z) : bool :=
  existsb (λ r, (r_type r =? BOOT_MEM_USABLE) && covers (r_base r) (r_length r) f) rs.
Definition reserved_by (rs : list boot_mem_region) (f : Z) : bool :=
  existsb (λ r, negb (r_type r =? BOOT_MEM_USABLE) && touches (r_base r) (r_length r) f) rs.

Lemma free_regions_spec rs p :
  Forall (λ r, range_ok (r_base r) (r_length r)) rs → pmm_wf p →
  ∃ p', for_regions (λ r, r_type r =? BOOT_MEM_USABLE) mark_range_free rs p = Some p' ∧
    frames_become p p' (λ f, usable_by rs f || free_at p f).
Proof.
  intros Hok. revert p. induction Hok as [|r rs Hr Hrs IH]; intros p W; simpl.
  { exists p. split; [done|]. by apply frames_become_refl. }
  assert (∃ p1, (if r_type r =? BOOT_MEM_USABLE then mark_range_free p (r_base r) (r_length r)
      else Some p) = Some p1 ∧
    frames_become p p1 (λ f, (r_type r =? BOOT_MEM_USABLE) && covers (r_base r) (r_length r) f
      || free_at p f)) as (p1 & -> & H1).
  { destruct (r_type r =? BOOT_MEM_USABLE); simpl; [by apply mark_range_free_spec|].
    exists p. split; [done|]. by apply frames_become_refl. }
  simpl. destruct (IH p1) as (p2 & -> & H2); [apply H1|]. exists p2. split; [done|].
  eapply frames_become_ext; [eapply frames_become_trans; [exact H1|exact H2]|].
  intros f Hf. simpl. destruct H1 as (_ & _ & ->); [|done].
  unfold usable_by. simpl. by destruct (_ && covers _ _ _), (existsb _ _), (free_at p f).
Qed.

Lemma used_regions_spec rs p :
  Forall (λ r, range_ok (r_base r) (r_length r)) rs → pmm_wf p →
  ∃ p', for_regions (λ r, negb (r_type r =? BOOT_MEM_USABLE)) mark_range_used rs p = Some p' ∧
    frames_become p p' (λ f, negb (reserved_by rs f) && free_at p f).
Proof.
  intros Hok. revert p. induction Hok as [|r rs Hr Hrs IH]; intros p W; simpl.
  { exists p. split; [done|]. by apply frames_become_refl. }
  assert (∃ p1, (if negb (r_type r =? BOOT_MEM_USABLE)
      then mark_range_used p (r_base r) (r_length r) else Some p) = Some p1 ∧
    frames_become p p1 (λ f, negb (negb (r_type r =? BOOT_MEM_USABLE)
      && touches (r_base r) (r_length r) f) && free_at p f)) as (p1 & -> & H1).
  { destruct (r_type r =? BOOT_MEM_USABLE); simpl; [|by apply mark_range_used_spec].
    exists p. split; [done|]. by apply frames_become_refl. }
  simpl. destruct (IH p1) as (p2 & -> & H2); [apply H1|]. exists p2. split; [done|].
  eapply frames_become_ext; [eapply frames_become_trans; [exact H1|exact H2]|].
  intros f Hf. simpl. destruct H1 as (_ & _ & ->); [|done].
  unfold reserved_by. simpl. by destruct (_ && touches _ _ _), (existsb _ _), (free_at p f).
Qed.

Lemma initial_wf st n mp : 0 < n → mp = 4096 * n → mp < 18446744073709551616 →
  (Z.to_nat ((n + 7) / 8) ≤ length st)%nat →
  pmm_wf (PmmState (replicate (Z.to_nat ((n + 7) / 8)) 255 ++ drop (Z.to_nat ((n + 7) / 8)) st)
    ((n + 7) / 8) mp n 0 n 0 0 0 false).
Proof.
  intros Hn -> Hmp Hst. constructor; simpl; try done; try lia.
  - unfold zlen. rewrite length_app, length_replicate, length_drop. dlia.
  - symmetry. apply count_upto_zero. intros i Hi. unfold free_at. simpl.
    apply negb_false_iff. pose proof (bit_index i). unfold bit.
    rewrite arr_get_nat, lookup_app_l by (rewrite ?length_replicate; dlia).
    rewrite lookup_replicate_2 by dlia. apply (Z.ones_spec_low 8). lia.
Qed.

(** What a correct call of [pmm_init_from_map] is given. *)
Record init_args_ok (rs : list boot_mem_region) (st : list Z) (bytes mp : Z) : Prop := {
  ia_regions : rs ≠ [];
  ia_ranges : Forall (λ r, range_ok (r_base r) (r_length r)) rs;
  ia_phys : 0 < mp < 18446744073709551616;
  ia_aligned : mp mod 4096 = 0;
  ia_bytes : (mp / 4096 + 7) / 8 ≤ bytes ≤ zlen st;
}.

Lemma pmm_init_spec p0 rs st bytes mp :
  init_args_ok rs st bytes mp →
  ∃ p, pmm_init_from_map (Ref p0) (Ref rs) (Ref st) bytes mp = Some (Ref p, true) ∧
    pmm_wf p ∧ initialized p = true ∧ frame_count p = mp / 4096 ∧
    ∀ f, 0 ≤ f < mp / 4096 →
      free_at p f = usable_by rs f && negb (f =? 0) && negb (reserved_by rs f).
Proof.
  intros [Hrs Hok Hmp Hal Hby]. unfold pmm_init_from_map.
  destruct (Z.eqb_spec (zlen rs) 0) as [H0|_]; [by destruct rs|].
  rewrite page_mask, Hal by lia.
  destruct (Z.eqb_spec mp 0) as [|_]; [lia|]. simpl.
  set (n := mp / PMM_PAGE_SIZE). assert (n = mp / 4096) as Hn by done. rewrite <-Hn in Hby |- *.
  rewrite u64_small by dlia.
  destruct (Z.ltb_spec bytes ((n + 7) / 8)) as [|_]; [lia|].
  assert (Z.to_nat ((n + 7) / 8) ≤ length st)%nat as Hst by (unfold zlen in *; lia).
  rewrite mem_fill_ok by done. simpl.
  pose proof (initial_wf st n mp ltac:(dlia) ltac:(dlia) ltac:(lia) Hst) as W0.
  set (q0 := PmmState _ _ _ _ _ _ _ _ _ _) in *.
  assert (∀ f, 0 ≤ f < n → free_at q0 f = false) as F0.
  { intros f Hf. apply (count_upto_zero_inv _ (Z.to_nat n)); [|lia].
    symmetry. apply (wf_free _ W0). }
  destruct (free_regions_spec rs q0 Hok W0) as (q1 & -> & W1 & S1 & F1). simpl.
  destruct (mark_range_used_spec q1 0 PMM_PAGE_SIZE W1) as (q2 & -> & W2 & S2 & F2).
  { unfold range_ok, PMM_PAGE_SIZE. words. }
  simpl. destruct (used_regions_spec rs q2 Hok W2) as (q3 & -> & W3 & S3 & F3).
  assert (frame_count q1 = n) as Hn1 by apply S1.
  assert (frame_count q2 = n) as Hn2 by (by etrans; [apply S2|]).
  assert (frame_count q3 = n) as Hn3 by (by etrans; [apply S3|]).
  eexists. split; [done|]. split; [by destruct W3|]. split; [done|]. split; [done|].
  intros f Hf. change (free_at (set_initialized true q3) f) with (free_at q3 f).
  rewrite F3, F2, F1, F0 by (rewrite ?Hn1, ?Hn2; done || (simpl; lia)).
  replace (touches 0 PMM_PAGE_SIZE f) with (f =? 0)
    by (unfold touches, PMM_PAGE_SIZE; lia).
  rewrite orb_false_r. by destruct (reserved_by rs f), (f =? 0), (usable_by rs f).
Qed.

Lemma alloc_scan_ok p a b :
  pmm_wf p → 0 ≤ a ≤ b → b ≤ frame_count p →
  (∀ f, 0 ≤ f < a → free_at p f = false) →
  ∃ c, for_loop (Z.to_nat (b - a)) a 1 alloc_scan_body p = Some c ∧
    match c with
    | Next p' => p' = p ∧ ∀ f, 0 ≤ f < b → free_at p f = false
    | Return (p', r) => ∃ f, r = 4096 * f ∧ 0 ≤ f < frame_count p ∧ free_at p f = true ∧
        (∀ g, 0 ≤ g < f → free_at p g = false) ∧ next_hint p' = f + 1 ∧
        frames_become p p' (λ j, if decide (j = f) then false else free_at p j)
    end.
Proof.
  intros W Hab Hb Hbelow. pose proof (wf_bounds p W) as [Hn _].
  destruct (for_range_inv
    (λ i q, q = p ∧ ∀ f, 0 ≤ f < i → free_at p f = false)
    (λ pr, ∃ f, pr.2 = 4096 * f ∧ 0 ≤ f < frame_count p ∧ free_at p f = true ∧
        (∀ g, 0 ≤ g < f → free_at p g = false) ∧ next_hint pr.1 = f + 1 ∧
        frames_become p pr.1 (λ j, if decide (j = f) then false else free_at p j))
    a b alloc_scan_body p) as (c & Hc & Hp); [lia|done| |].
  2: { exists c. split; [done|]. by destruct c as [|[]]. }
  - intros i q Hi [-> Hbel]. unfold alloc_scan_body. rewrite test_frame by (done || lia).
    simpl. rewrite negb_involutive. destruct (free_at p i) eqn:Ei.
    2: { eexists. split; [done|]. split; [done|]. intros f Hf.
         destruct (decide (f = i)) as [->|]; [done|]. apply Hbel. lia. }
    destruct (mark_frame_used_spec p i) as (p1 & -> & (W1 & S1 & F1) & _); [done|lia|].
    eexists. split; [done|]. exists i. unfold PMM_PAGE_SIZE. simpl.
    assert (frame_count p1 = frame_count p) as Hn1 by apply S1.
    rewrite !u64_small by words. repeat (split; [lia || done|]).
    split; [|split; [done|exact F1]]. apply set_hint_wf; [done|lia|].
    intros f Hf. rewrite F1 by lia. case_decide; [done|]. apply Hbel. lia.
Qed.

(** What [pmm_alloc_frame] returns from a state with free frames [fr]: the
    lowest free frame, which is no longer free, or the invalid address when
    there is none. *)
Definition alloc_result (p p' : pmm_state) (r : Z) : Prop :=
  (r = PMM_INVALID_FRAME ∧ p' = p ∧ ∀ f, 0 ≤ f < frame_count p → free_at p f = false) ∨
  (∃ f, r = 4096 * f ∧ 0 ≤ f < frame_count p ∧ free_at p f = true ∧
     (∀ g, 0 ≤ g < f → free_at p g = false) ∧
     frames_become p p' (λ j, if decide (j = f) then false else free_at p j)).

Lemma pmm_alloc_spec p : pmm_wf p → initialized p = true →
  ∃ p' r, pmm_alloc_frame (Ref p) = Some (Ref p', r) ∧ alloc_result p p' r.
Proof.
  intros W Hi. unfold pmm_alloc_frame. rewrite Hi. simpl.
  assert (free_frames p = 0 → ∀ f, 0 ≤ f < frame_count p → free_at p f = false) as Hnone.
  { rewrite (wf_free p W). intros H0 f Hf. eapply count_upto_zero_inv; [done|lia]. }
  destruct (Z.eqb_spec (free_frames p) 0) as [H0|H0].
  { exists p, PMM_INVALID_FRAME. split; [done|]. left. eauto. }
  pose proof (wf_hint p W).
  destruct (alloc_scan_ok p (next_hint p) (frame_count p)) as (c & -> & Hc);
    [done|lia|lia|apply (wf_below_hint p W)|].
  simpl. destruct c as [q|[q r]].
  - destruct Hc as [_ Hall]. destruct H0. rewrite (wf_free p W).
    apply count_upto_zero. intros i Hi'. apply Hall. lia.
  - exists q, r. split; [done|]. right. destruct Hc as (f & ?&?&?&?&?&?). eauto 10.
Qed.

(** C34. Allocation is first fit: it returns the address of the lowest free
    frame and takes exactly that frame out of the free set, or returns the
    invalid address and changes nothing when no frame is free. *)
Theorem pmm_alloc_frame_first_fit p :
  pmm_wf p → initialized p = true →
  ∃ p' r, pmm_alloc_frame (Ref p) = Some (Ref p', r) ∧ alloc_result p p' r ∧
    (r = PMM_INVALID_FRAME ↔ pmm_free_count (Ref p) = 0).
Proof.
  intros W Hi. destruct (pmm_alloc_spec p W Hi) as (p' & r & Hr & Ha).
  exists p', r. split; [done|]. split; [done|]. simpl.
  rewrite (wf_free p W). pose proof (wf_bounds p W) as [Hn _]. split.
  - intros ->. destruct Ha as [(_ & _ & Hall)|(f & Hf & Hlt & _)].
    + apply count_upto_zero. intros i Hi'. apply Hall. lia.
    + unfold PMM_INVALID_FRAME in Hf. lia.
  - intros H0. destruct Ha as [(-> & _)|(f & _ & Hlt & Ht & _)]; [done|].
    rewrite (count_upto_zero_inv _ _ f H0) in Ht by lia. done.
Qed.

(** The condition under which [pmm_free_frame] accepts an address. *)
Definition freeable (p : pmm_state) (a : Z) : bool :=
  (a mod 4096 =? 0) && (0 <? a) && (a <? max_phys p) && negb (free_at p (a / 4096)).

Lemma pmm_free_spec p a : pmm_wf p → initialized p = true → 0 ≤ a →
  if freeable p a then
    ∃ p', pmm_free_frame (Ref p) a = Some (Ref p', true) ∧
      frames_become p p' (λ j, if decide (j = a / 4096) then true else free_at p j)
  else pmm_free_frame (Ref p) a = Some (Ref p, false).
Proof.
  intros W Hi Ha. unfold pmm_free_frame, freeable. rewrite Hi, page_mask by done. simpl.
  pose proof (wf_phys p W).
  destruct (Z.eqb_spec (a mod 4096) 0); simpl; [|done].
  destruct (Z.eqb_spec a 0), (Z.ltb_spec 0 a); simpl; try lia; [done|].
  destruct (Z.leb_spec (max_phys p) a), (Z.ltb_spec a (max_phys p)); simpl; try lia; [done|].
  unfold PMM_PAGE_SIZE. rewrite test_frame by (done || dlia). simpl. rewrite negb_involutive.
  destruct (free_at p (a / 4096)); simpl; [done|].
  destruct (mark_frame_free_spec p (a / 4096)) as (p' & -> & H' & _); [done|dlia|].
  exists p'. done.
Qed.

Lemma pmm_is_free_spec p a : pmm_wf p → initialized p = true → 0 ≤ a →
  pmm_is_frame_free (Ref p) a =
    Some ((a mod 4096 =? 0) && (a <? max_phys p) && free_at p (a / 4096)).
Proof.
  intros W Hi Ha. unfold pmm_is_frame_free. rewrite Hi, page_mask by done. simpl.
  pose proof (wf_phys p W).
  destruct (Z.eqb_spec (a mod 4096) 0); simpl; [|done].
  destruct (Z.leb_spec (max_phys p) a), (Z.ltb_spec a (max_phys p)); simpl; try lia; [done|].
  unfold PMM_PAGE_SIZE. rewrite test_frame by (done || dlia). simpl. by rewrite negb_involutive.
Qed.

Lemma pmm_reserve_spec p base length : pmm_wf p → initialized p = true →
  range_ok base length →
  ∃ p', pmm_reserve_range (Ref p) base length = Some (Ref p', negb (length =? 0)) ∧
    frames_become p p' (λ f, negb (touches base length f) && free_at p f).
Proof.
  intros W Hi Hr. unfold pmm_reserve_range. rewrite Hi. simpl.
  destruct (Z.eqb_spec length 0) as [->|].
  - exists p. split; [done|]. eapply frames_become_ext; [by apply frames_become_refl|].
    intros f Hf. unfold touches. simpl. done.
  - destruct (mark_range_used_spec p base length W Hr) as (p' & -> & H'). by exists p'.
Qed.

(** Freeing accepts exactly the page-aligned, non-zero addresses below
    [max_phys] whose frame is in use (so a double free is refused), makes that
    frame free and no other, and a later query and the free count see it; any
    other address is refused and the state is unchanged. *)
Theorem pmm_free_frame_correct p a :
  pmm_wf p → initialized p = true → 0 ≤ a →
  if freeable p a then
    ∃ p', pmm_free_frame (Ref p) a = Some (Ref p', true) ∧ pmm_wf p' ∧
      pmm_free_count (Ref p') = pmm_free_count (Ref p) + 1 ∧
      pmm_used_count (Ref p') = pmm_used_count (Ref p) - 1 ∧
      pmm_is_frame_free (Ref p') a = Some true ∧
      (∀ b, 0 ≤ b → b ≠ a →
        pmm_is_frame_free (Ref p') b = pmm_is_frame_free (Ref p) b) ∧
      freeable p' a = false
  else pmm_free_frame (Ref p) a = Some (Ref p, false).
Proof.
  intros W Hi Ha. pose proof (pmm_free_spec p a W Hi Ha) as H.
  destruct (freeable p a) eqn:E; [|done].
  destruct H as (p' & Hf & W' & (S1 & S2 & S3 & S4) & F').
  unfold freeable in E. bool_prop. pose proof (wf_phys p W).
  assert (0 ≤ a / 4096 < frame_count p) as Hr by dlia.
  assert (initialized p' = true) as Hi' by congruence.
  assert (free_frames p' = free_frames p + 1) as Hc.
  { rewrite (wf_free p W), (wf_free p' W'), S3. apply (count_upto_flip _ _ _ (a / 4096)); [lia|done| |].
    - rewrite F', decide_True by done. done.
    - intros i Hi2 Hne. rewrite F', decide_False by (lia || done). done. }
  exists p'. split; [done|]. split; [done|]. unfold pmm_free_count, pmm_used_count.
  rewrite (wf_used p W), (wf_used p' W'), S3. repeat (split; [lia|]). split; [|split].
  - rewrite pmm_is_free_spec, S2 by done. rewrite F', decide_True by done.
    by rewrite (proj2 (Z.eqb_eq _ _)), (proj2 (Z.ltb_lt _ _)).
  - intros b Hb Hne. rewrite !pmm_is_free_spec, S2 by done.
    destruct (Z.eqb_spec (b mod 4096) 0); simpl; [|done].
    destruct (Z.ltb_spec b (max_phys p)); simpl; [|done].
    rewrite F', decide_False by dlia. done.
  - unfold freeable. rewrite F', decide_True by done. by rewrite andb_false_r.
Qed.

(** *** The allocator as an implementation of [FrameAllocator] *)

#[export] Instance pmm_allocator : FrameAllocator pmm_state := {
  fa_alloc p :=
    r ← pmm_alloc_frame (Ref p);
    match r with (Ref p', a) => Some (p', a) | _ => None end;
  fa_free p a :=
    r ← pmm_free_frame (Ref p) a;
    match r with (Ref p', _) => Some p' | _ => None end;
}.

Definition pmm_managed (p : pmm_state) (a : Z) : Prop :=
  a mod 4096 = 0 ∧ 0 < a < max_phys p ∧ max_phys p ≤ FRAME_LIMIT.

(** The invariant of an allocator in use: frame 0 stays reserved. *)
Record pmm_ready (p : pmm_state) : Prop := {
  rd_wf : pmm_wf p;
  rd_init : initialized p = true;
  rd_zero : free_at p 0 = false;
  rd_phys : max_phys p ≤ FRAME_LIMIT;
}.

Definition pmm_avail (p : pmm_state) (a : Z) : Prop :=
  a mod 4096 = 0 ∧ 0 ≤ a < max_phys p ∧ free_at p (a / 4096) = true.

Lemma pmm_avail_managed p a : pmm_ready p → pmm_avail p a → pmm_managed p a.
Proof.
  intros [W Hi Hz Hm] (Ha & Hb & Hc). split; [done|].
  assert (a ≠ 0) by (intros ->; change (0 / 4096) with 0 in Hc; congruence). lia.
Qed.

Lemma frames_become_ready p p' fr :
  pmm_ready p → frames_become p p' fr → fr 0 = false → pmm_ready p'.
Proof.
  intros [W Hi Hz Hm] (W' & (S1 & S2 & S3 & S4) & F) H0.
  pose proof (wf_frames p W). constructor; try congruence. by rewrite F by lia.
Qed.

Lemma pmm_alloc_ready p : pmm_ready p →
  ∃ p' r, pmm_alloc_frame (Ref p) = Some (Ref p', r) ∧ pmm_ready p' ∧
    max_phys p' = max_phys p ∧
    ((r = PMM_INVALID_FRAME ∧ (∀ a, ¬ pmm_avail p' a) ∧ ∀ a, pmm_avail p' a ↔ pmm_avail p a) ∨
     (pmm_avail p r ∧ ∀ a, pmm_avail p' a ↔ pmm_avail p a ∧ a ≠ r)).
Proof.
  intros R. pose proof R as [W Hi Hz Hm].
  destruct (pmm_alloc_spec p W Hi) as (p' & r & Hr & [(-> & -> & Hnone)|Ha]).
  { exists p, PMM_INVALID_FRAME. repeat (split; [done|]). left. split; [done|]. split; [|done].
    intros a (H1 & H2 & H3). rewrite Hnone in H3; [done|]. pose proof (wf_phys p W). dlia. }
  destruct Ha as (f & -> & Hf & Hfree & _ & Hb). exists p', (4096 * f).
  pose proof Hb as (W' & (S1 & S2 & S3 & S4) & F). pose proof (wf_phys p W).
  split; [done|]. split; [|split; [done|]].
  { eapply frames_become_ready; [done|done|]. simpl. by case_decide. }
  right. unfold pmm_avail. rewrite S2.
  replace (4096 * f / 4096) with f by dlia. split; [split; [dlia|split; [lia|done]]|].
  intros a. split.
  - intros (H1 & H2 & H3). rewrite F in H3 by dlia. case_decide; [done|].
    split; [done|]. intros ->. by replace (4096 * f / 4096) with f in * by dlia.
  - intros ((H1 & H2 & H3) & Hne). split; [done|]. split; [done|].
    rewrite F by dlia. rewrite decide_False by dlia. done.
Qed.

Lemma pmm_free_ready p a : pmm_ready p → pmm_managed p a →
  ∃ p' b, pmm_free_frame (Ref p) a = Some (Ref p', b) ∧ pmm_ready p' ∧
    max_phys p' = max_phys p ∧
    (∀ b, pmm_avail p' b ↔ pmm_avail p b ∨ b = a).
Proof.
  intros R (Ha & Hb & _). pose proof R as [W Hi Hz Hm]. pose proof (wf_phys p W).
  pose proof (pmm_free_spec p a W Hi ltac:(lia)) as H'.
  destruct (freeable p a) eqn:E.
  - destruct H' as (p' & Hp & Hbec). pose proof Hbec as (W' & (S1 & S2 & S3 & S4) & F).
    exists p', true. split; [done|]. split; [|split; [done|]].
    { eapply frames_become_ready; [done|done|]. simpl. case_decide; [|done]. dlia. }
    intros b. unfold pmm_avail. rewrite S2. split.
    + intros (H1 & H2 & H3). rewrite F in H3 by dlia. case_decide; [right; dlia|left; done].
    + intros [(H1 & H2 & H3)| ->].
      * split; [done|]. split; [done|]. rewrite F by dlia. by case_decide.
      * split; [done|]. split; [lia|]. rewrite F by dlia. by rewrite decide_True.
  - exists p, false. split; [done|]. split; [done|]. split; [done|]. intros b.
    split; [by left|]. intros [?| ->]; [done|].
    unfold freeable in E. rewrite (proj2 (Z.eqb_eq _ _) Ha) in E.
    rewrite (proj2 (Z.ltb_lt 0 a)), (proj2 (Z.ltb_lt a (max_phys p))) in E by lia.
    simpl in E. apply negb_false_iff in E. split; [done|]. split; [lia|done].
Qed.

Lemma pmm_managed_frame p a : pmm_managed p a → a mod 4096 = 0 ∧ 0 < a < FRAME_LIMIT.
Proof. intros (? & ? & ?). split; [done|lia]. Qed.

Lemma pmm_fa_alloc p : pmm_ready p →
  ∃ p' r, fa_alloc p = Some (p', r) ∧ pmm_ready p' ∧
    (∀ a, pmm_managed p' a ↔ pmm_managed p a) ∧
    ((r = FA_INVALID ∧ (∀ a, ¬ pmm_avail p' a) ∧ ∀ a, pmm_avail p' a ↔ pmm_avail p a) ∨
     (pmm_avail p r ∧ ∀ a, pmm_avail p' a ↔ pmm_avail p a ∧ a ≠ r)).
Proof.
  intros R. destruct (pmm_alloc_ready p R) as (p' & r & Hr & R' & Hm & Ha).
  exists p', r. simpl. rewrite Hr. split; [done|]. split; [done|].
  unfold pmm_managed. rewrite Hm. done.
Qed.

Lemma pmm_fa_free p a : pmm_ready p → pmm_managed p a →
  ∃ p', fa_free p a = Some p' ∧ pmm_ready p' ∧
    (∀ b, pmm_managed p' b ↔ pmm_managed p b) ∧
    (∀ b, pmm_avail p' b ↔ pmm_avail p b ∨ b = a).
Proof.
  intros R Ha. destruct (pmm_free_ready p a R Ha) as (p' & b & Hr & R' & Hm & Hb).
  exists p'. simpl. rewrite Hr. split; [done|]. split; [done|].
  unfold pmm_managed. rewrite Hm. done.
Qed.

#[export] Instance pmm_allocator_ok : FrameAllocatorOk pmm_state := {|
  fa_inv := pmm_ready;
  fa_avail := pmm_avail;
  fa_managed := pmm_managed;
  fa_avail_managed := pmm_avail_managed;
  fa_managed_frame := pmm_managed_frame;
  fa_alloc_ok := pmm_fa_alloc;
  fa_free_ok := pmm_fa_free;
|}.

(** ** Ownership of frames

    A history of calls, with the set of addresses handed out and not yet given
    back as a ghost component. *)
Inductive pmm_call : pmm_state * list Z → pmm_state * list Z → Prop :=
| call_alloc p own p' r :
    pmm_alloc_frame (Ref p) = Some (Ref p', r) → r ≠ PMM_INVALID_FRAME →
    pmm_call (p, own) (p', r :: own)
| call_alloc_none p own p' :
    pmm_alloc_frame (Ref p) = Some (Ref p', PMM_INVALID_FRAME) →
    pmm_call (p, own) (p', own)
| call_free p own1 r own2 p' b :
    pmm_free_frame (Ref p) r = Some (Ref p', b) →
    pmm_call (p, own1 ++ r :: own2) (p', own1 ++ own2)
| call_reserve p own base length p' b :
    range_ok base length →
    pmm_reserve_range (Ref p) base length = Some (Ref p', b) →
    pmm_call (p, own) (p', own).

Record own_inv (s : pmm_state * list Z) : Prop := {
  oi_ready : pmm_ready s.1;
  oi_nodup : NoDup s.2;
  oi_managed : Forall (pmm_managed s.1) s.2;
  oi_taken : Forall (λ a, ¬ pmm_avail s.1 a) s.2;
}.

Lemma own_inv_step s s' : pmm_call s s' → own_inv s → own_inv s'.
Proof.
  intros Hs [R N M T]. destruct Hs as [p own p' r Hr Hne|p own p' Hr|p o1 r o2 p' b Hr|p own base length p' b Hok Hr];
    simpl in *.
  - destruct (pmm_alloc_ready p R) as (q & r' & Hq & R' & Hm & Ha). rewrite Hr in Hq. simplify_eq.
    destruct Ha as [[? _]|[Hav Ha]]; [done|].
    assert (∀ a, pmm_managed q a ↔ pmm_managed p a) as Hmm by (unfold pmm_managed; by rewrite Hm).
    constructor; simpl; [done| | |].
    + apply NoDup_cons. split; [|done]. intros Hin.
      rewrite Forall_forall in T. by apply (T _ Hin).
    + apply Forall_cons. split; [by apply Hmm, pmm_avail_managed|].
      eapply Forall_impl; [exact M|]. intros. by apply Hmm.
    + apply Forall_cons. split; [intros H'; by apply Ha in H' as [_ []]|].
      eapply Forall_impl; [exact T|]. intros a Hn H'. apply Ha in H' as [? _]. done.
  - destruct (pmm_alloc_ready p R) as (q & r' & Hq & R' & Hm & Ha). rewrite Hr in Hq. simplify_eq.
    assert (∀ a, pmm_managed q a ↔ pmm_managed p a) as Hmm by (unfold pmm_managed; by rewrite Hm).
    destruct Ha as [(_ & _ & Ha)|[Hav _]].
    2: { apply pmm_avail_managed in Hav as (H1 & _); [|done]. done. }
    constructor; simpl; [done|done| |].
    + eapply Forall_impl; [exact M|]. intros. by apply Hmm.
    + eapply Forall_impl; [exact T|]. intros a Hn H'. by apply Ha in H'.
  - apply NoDup_app in N as (N1 & N2 & N3). apply NoDup_cons in N3 as [Hr2 N3].
    apply Forall_app in M as [M1 M2]. apply Forall_cons in M2 as [Mr M2].
    apply Forall_app in T as [T1 T2]. apply Forall_cons in T2 as [Tr T2].
    destruct (pmm_free_ready p r R Mr) as (q & b' & Hq & R' & Hm & Ha). rewrite Hr in Hq. simplify_eq.
    assert (∀ a, pmm_managed q a ↔ pmm_managed p a) as Hmm by (unfold pmm_managed; by rewrite Hm).
    constructor; simpl; [done| | |].
    + apply NoDup_app. split; [done|]. split; [|done]. intros x Hx Hx2. apply (N2 x Hx). by right.
    + apply Forall_app; split; (eapply Forall_impl; [first [exact M1|exact M2]|]); intros; by apply Hmm.
    + rewrite Forall_forall in T1, T2. apply Forall_app; split; apply Forall_forall; intros x Hx H'; apply Ha in H' as [H'| ->].
      * by apply (T1 x).
      * apply (N2 r Hx). by left.
      * by apply (T2 x).
      * done.
  - destruct (pmm_reserve_spec p base length (rd_wf p R) (rd_init p R) Hok) as (q & Hq & Hb).
    rewrite Hr in Hq. simplify_eq. pose proof Hb as (W' & (S1 & S2 & S3 & S4) & F).
    pose proof (wf_phys p (rd_wf p R)).
    constructor; simpl; [|done| |].
    + eapply frames_become_ready; [done|done|]. simpl. rewrite (rd_zero p R). apply andb_false_r.
    + eapply Forall_impl; [exact M|]. intros a. unfold pmm_managed. by rewrite S2.
    + eapply Forall_impl; [exact T|]. intros a Hn (H1 & H2 & H3). apply Hn.
      rewrite S2 in H2. split; [done|]. split; [done|].
      rewrite F in H3 by dlia. by apply andb_true_iff in H3 as [_ ?].
Qed.

(** ** A concrete memory

    Sixteen frames; the map reserves the frames 4 and 5 of a usable region. *)
Definition demo_regions : list boot_mem_region :=
  [ BootMemRegion 0 65536 1; BootMemRegion 16384 8192 4 ].
Definition demo_storage : list Z := [0; 0].
Definition demo_pmm : pmm_state :=
  match pmm_init_from_map (Ref (PmmState [] 0 0 0 0 0 0 0 0 false))
          (Ref demo_regions) (Ref demo_storage) 2 65536 with
  | Some (Ref p, _) => p
  | _ => PmmState [] 0 0 0 0 0 0 0 0 false
  end.

Lemma demo_args : init_args_ok demo_regions demo_storage 2 65536.
Proof.
  constructor; [done| |lia|done|vm_compute; intuition congruence].
  repeat constructor; vm_compute; intuition congruence.
Qed.

Lemma demo_ready : pmm_ready demo_pmm.
Proof.
  destruct (pmm_init_spec (PmmState [] 0 0 0 0 0 0 0 0 false) _ _ _ _ demo_args)
    as (p & Hp & W & Hi & Hn & F).
  assert (p = demo_pmm) as -> by (unfold demo_pmm; by rewrite Hp).
  constructor; [done|done| |].
  - vm_compute. done.
  - vm_compute. done.
Qed.

(** ** Properties *)

(** C35. [pmm_init_from_map] refuses a missing object, an empty map, a memory
    size that is zero or not a multiple of the page size and a bitmap that is
    too small, changing nothing. Otherwise, if the bitmap storage is as long as
    it is said to be and every region is [range_ok], that is, ends at or below
    2^64 - 4096 (one that reaches into the last page is taken for all of memory,
    [mark_range_free_wraps]), it succeeds without touching memory outside the
    storage and leaves exactly those frames free that lie inside a usable
    region, meet no region of another type and are not frame 0; the counters
    agree with the bitmap. *)
Theorem pmm_init_from_map_correct p0 rs st bytes mp :
  (∀ a b c, is_null a || is_null b || is_null c = true →
     pmm_init_from_map a b c bytes mp = Some (a, false)) ∧
  (is_u64 mp → rs = [] ∨ mp = 0 ∨ mp mod 4096 ≠ 0 ∨ bytes < (mp / 4096 + 7) / 8 →
     pmm_init_from_map (Ref p0) (Ref rs) (Ref st) bytes mp = Some (Ref p0, false)) ∧
  (init_args_ok rs st bytes mp →
     ∃ p, pmm_init_from_map (Ref p0) (Ref rs) (Ref st) bytes mp = Some (Ref p, true) ∧
       pmm_wf p ∧ initialized p = true ∧ frame_count p = mp / 4096 ∧
       ∀ f, 0 ≤ f < mp / 4096 →
         free_at p f = usable_by rs f && negb (f =? 0) && negb (reserved_by rs f)).
Proof.
  split; [|split; [|apply pmm_init_spec]].
  - intros [] [] [] H; done.
  - intros Hmp H. unfold pmm_init_from_map.
    destruct (Z.eqb_spec (zlen rs) 0) as [|Hz]; [done|].
    rewrite page_mask by words.
    destruct (Z.eqb_spec mp 0); simpl; [done|].
    destruct (Z.eqb_spec (mp mod 4096) 0); simpl; [|done].
    unfold PMM_PAGE_SIZE. rewrite u64_small by dlia.
    destruct (Z.ltb_spec bytes ((mp / 4096 + 7) / 8)); [done|].
    destruct H as [-> |H]; [done|lia].
Qed.

Lemma pmm_init_from_map_witness :
  init_args_ok demo_regions demo_storage 2 65536 ∧
  ∃ p, pmm_init_from_map (Ref demo_pmm) (Ref demo_regions) (Ref demo_storage) 2 65536
       = Some (Ref p, true) ∧ free_at p 3 = true ∧ free_at p 4 = false.
Proof.
  split; [exact demo_args|].
  destruct (proj2 (proj2 (pmm_init_from_map_correct demo_pmm demo_regions demo_storage 2 65536))
    demo_args) as (p & Hp & _ & _ & _ & F).
  exists p. split; [exact Hp|]. split; rewrite F by (vm_compute; intuition congruence); reflexivity.
Defined.

Lemma pmm_alloc_frame_first_fit_witness :
  pmm_ready demo_pmm ∧
  ∃ p' r, pmm_alloc_frame (Ref demo_pmm) = Some (Ref p', r) ∧ alloc_result demo_pmm p' r.
Proof.
  split; [exact demo_ready|].
  destruct (pmm_alloc_frame_first_fit demo_pmm (rd_wf _ demo_ready) (rd_init _ demo_ready))
    as (p' & r & H1 & H2 & _).
  exists p', r. split; assumption.
Defined.

Lemma pmm_free_frame_correct_witness :
  freeable demo_pmm 16384 = true ∧
  ∃ p', pmm_free_frame (Ref demo_pmm) 16384 = Some (Ref p', true).
Proof.
  split; [vm_compute; reflexivity|].
  pose proof (pmm_free_frame_correct demo_pmm 16384 (rd_wf _ demo_ready)
    (rd_init _ demo_ready) ltac:(lia)) as H.
  replace (freeable demo_pmm 16384) with true in H by (vm_compute; reflexivity).
  destruct H as (p' & H & _). exists p'. exact H.
Defined.

(** C10. Along any sequence of allocations, reservations and frees of owned
    frames from a ready allocator (reservations of ranges that end at or below
    2^64 - 4096), a frame that is handed out is page aligned, inside the memory,
    not frame 0 and not owned by anybody: no frame is handed out twice. *)
Theorem pmm_no_double_allocation p0 p own p' r :
  pmm_ready p0 →
  rtc pmm_call (p0, []) (p, own) →
  pmm_alloc_frame (Ref p) = Some (Ref p', r) → r ≠ PMM_INVALID_FRAME →
  (r ∉ own) ∧ r mod 4096 = 0 ∧ 0 < r < max_phys p ∧ NoDup own.
Proof.
  intros R0 Hrtc Hr Hne.
  assert (own_inv (p, own)) as [R N M T].
  { apply (rtc_ind_l (λ s, own_inv s → own_inv (p, own)) (p, own)) in Hrtc; [done|done| |].
    - intros s s' Hs _ IH Hi. eapply IH, own_inv_step; done.
    - constructor; simpl; [done|by apply NoDup_nil|done|done]. }
  simpl in *. destruct (pmm_alloc_ready p R) as (q & r' & Hq & R' & Hm & Ha).
  rewrite Hr in Hq. simplify_eq. destruct Ha as [[? _]|[Hav Ha]]; [done|].
  destruct (pmm_avail_managed _ _ R Hav) as (H1 & H2 & _).
  split; [|split; [done|split; [lia|done]]]. intros Hin.
  rewrite Forall_forall in T. by apply (T _ Hin).
Qed.

Lemma pmm_no_double_allocation_witness :
  ∃ p p', rtc pmm_call (demo_pmm, []) (p, [4096]) ∧
    pmm_alloc_frame (Ref p) = Some (Ref p', 8192) ∧ 8192 ∉ [4096].
Proof.
  destruct (pmm_alloc_frame (Ref demo_pmm)) as [[[|p] r]|] eqn:E;
    [vm_compute in E; discriminate| |vm_compute in E; discriminate].
  assert (r = 4096) by (vm_compute in E; congruence). subst r.
  destruct (pmm_alloc_frame (Ref p)) as [[[|p'] r']|] eqn:E';
    [vm_compute in E; injection E as E; subst p; vm_compute in E'; discriminate| |
     vm_compute in E; injection E as E; subst p; vm_compute in E'; discriminate].
  assert (r' = 8192) by (vm_compute in E; injection E as E; subst p; vm_compute in E'; congruence).
  subst r'.
  assert (rtc pmm_call (demo_pmm, []) (p, [4096])) as Hrtc.
  { apply rtc_once. apply call_alloc; [exact E|discriminate]. }
  exists p, p'. split; [exact Hrtc|]. split; [exact E'|].
  apply (pmm_no_double_allocation demo_pmm p [4096] p' 8192 demo_ready Hrtc E').
  discriminate.
Defined.

(** A usable region that starts inside the last page of the address space
    makes [align_up] wrap to 0, and [mark_range_free] then frees every frame of
    the memory although the region contains none of them. *)
Theorem mark_range_free_wraps p base length :
  pmm_wf p → 18446744073709547520 < base → 0 < length →
  base + length < 18446744073709551616 →
  (∀ f, 0 ≤ f < frame_count p → covers base length f = false) ∧
  ∃ p', mark_range_free p base length = Some p' ∧
    ∀ f, 0 ≤ f < frame_count p → free_at p' f = true.
Proof.
  intros W Hb Hl Hs. pose proof (wf_bounds p W) as [Hn _].
  pose proof (wf_phys p W) as Hphys. pose proof (wf_phys64 p W).
  split; [intros f Hf; unfold covers; lia|].
  unfold mark_range_free. rewrite (proj2 (Z.eqb_neq length 0)) by lia.
  rewrite checked_add_spec by words.
  destruct (Z.leb_spec 18446744073709551616 (base + length)) as [|_]; [lia|].
  rewrite align_down_eq by words.
  replace (align_up base PMM_PAGE_SIZE) with (4096 * 0).
  2: { unfold align_up.
       replace (u64 (u64 (base + PMM_PAGE_SIZE) - 1)) with (base + 4095 - 18446744073709551616)
         by (unfold u64, PMM_PAGE_SIZE; dlia).
       change (align_down (base + 4095 - 18446744073709551616) PMM_PAGE_SIZE) with
         (Z.land (base + 4095 - 18446744073709551616) (u64 (Z.lnot (u64 (PMM_PAGE_SIZE - 1))))).
       fold (align_down (base + 4095 - 18446744073709551616) PMM_PAGE_SIZE).
       rewrite align_down_eq by words. dlia. }
  destruct (Z.leb_spec (4096 * ((base + length) / 4096)) (4096 * 0)) as [|_]; [dlia|].
  destruct (Z.leb_spec (max_phys p) (4096 * 0)) as [|_]; [lia|].
  assert (∀ q, frames_become p q (free_at p) →
    ∃ p', (c ← for_loop (page_steps (4096 * 0) (max_phys p)) (4096 * 0) PMM_PAGE_SIZE
             range_free_body q;
           Some (match c with Next p' => p' | Return _ => q end)) = Some p' ∧
      ∀ f, 0 ≤ f < frame_count p → free_at p' f = true) as Hloop.
  { intros q Hq. destruct (range_free_loop p q 0 (frame_count p))
      as (p' & Hp' & W' & S' & F'); [done|lia|].
    rewrite Hphys, Hp'. exists p'. split; [done|]. intros f Hf.
    rewrite F' by done. by rewrite bool_decide_eq_true_2. }
  destruct (Z.ltb_spec (max_phys p) (4096 * ((base + length) / 4096))) as [_|Hle].
  - apply Hloop. by apply set_ignored_become.
  - replace (4096 * ((base + length) / 4096)) with (max_phys p) by dlia.
    apply Hloop. by apply frames_become_refl.
Qed.

Lemma mark_range_free_wraps_witness :
  ∃ p', mark_range_free demo_pmm 18446744073709547521 16 = Some p' ∧
    free_at p' 0 = true ∧ free_at demo_pmm 0 = false.
Proof.
  destruct (mark_range_free_wraps demo_pmm 18446744073709547521 16
    (rd_wf _ demo_ready) ltac:(lia) ltac:(lia) ltac:(lia)) as [_ (p' & Hp & F)].
  exists p'. split; [exact Hp|]. split; [|exact (rd_zero _ demo_ready)].
  apply F. vm_compute. intuition congruence.
Defined.
