(* ===== verification/Vmm.v ===== *)
(** The virtual memory manager ([src/vmm.c], [include/vmm.h]): four-level x86-64
    page tables, walked and extended through the callbacks of [vmm_space]. The
    frame allocator is the interface of [Frames]; the memory that holds the
    tables is explicit, so that sharing between tables is a question of
    addresses and not of syntax. *)
From S2P Require Import Prelude Frames.

(** ** Constants *)

Definition VMM_PAGE_SIZE : Z := 4096.
Definition VMM_ENTRIES_PER_TABLE : Z := 512.
Definition VMM_INVALID_PHYS : Z := UINT64_MAX.
Definition VMM_PTE_PRESENT : Z := 1.
Definition VMM_PTE_WRITABLE : Z := 2.
Definition VMM_PTE_USER : Z := 4.
Definition VMM_PTE_WRITE_THROUGH : Z := 8.
Definition VMM_PTE_CACHE_DISABLE : Z := 16.
Definition VMM_PTE_HUGE : Z := 128.
Definition VMM_PTE_GLOBAL : Z := 256.
Definition VMM_PTE_NO_EXECUTE : Z := 9223372036854775808.
Definition VMM_PTE_ADDR_MASK : Z := 4503599627366400.

Definition VMM_MAP_OK : Z := 0.
Definition VMM_ERR_INVAL : Z := -1.
Definition VMM_ERR_NOMEM : Z := -2.
Definition VMM_ERR_EXISTS : Z := -3.
Definition VMM_ERR_NOT_FOUND : Z := -4.

(** ** State *)

(** The address space object. A callback that is [NULL] is [false] or [None];
    [phys_to_virt] returns 0 for [NULL]. *)
Record vmm_space := VmmSpace {
  root_paddr : Z;
  has_alloc : bool;
  has_free : bool;
  phys_to_virt : option (Z → Z);
}.

Record vmm_mapping := VmmMapping {
  m_vaddr : Z;
  m_paddr : Z;
  m_flags : Z;
}.

(** The memory of the tables (64-bit words by address), the allocator behind
    the callbacks and the pages whose translations were invalidated. *)
Record vstate (C : Type) := VState {
  mem : gmap Z Z;
  fctx : C;
  invalidated : list Z;
}.
Arguments VState {C}.
Arguments mem {C}.
Arguments fctx {C}.
Arguments invalidated {C}.

Definition load (m : gmap Z Z) (a : Z) : option Z := m !! a.
Definition store (m : gmap Z Z) (a v : Z) : option (gmap Z Z) :=
  match m !! a with Some _ => Some (<[a:=v]> m) | None => None end.

(** ** Operations *)

(** [page[i] = 0] for the [n] entries from [i]. *)
Fixpoint vmm_zero_entries (n : nat) (i page : Z) (m : gmap Z Z) : option (gmap Z Z) :=
  match n with
  | O => Some m
  | S n' => m' ← store m (page + 8 * i) 0; vmm_zero_entries n' (i + 1) page m'
  end.
Definition vmm_zero_page (page : Z) (m : gmap Z Z) : option (gmap Z Z) :=
  vmm_zero_entries (Z.to_nat VMM_ENTRIES_PER_TABLE) 0 page m.

Definition vmm_is_aligned_4k (value : Z) : bool :=
  Z.land value (VMM_PAGE_SIZE - 1) =? 0.

Definition vmm_is_canonical (vaddr : Z) : bool :=
  let sign := Z.land (Z.shiftr vaddr 47) 1 in
  let upper := Z.shiftr vaddr 48 in
  if negb (sign =? 0) then upper =? 65535 else upper =? 0.

Definition idx_pml4 (vaddr : Z) : Z := Z.land (Z.shiftr vaddr 39) 511.
Definition idx_pdpt (vaddr : Z) : Z := Z.land (Z.shiftr vaddr 30) 511.
Definition idx_pd (vaddr : Z) : Z := Z.land (Z.shiftr vaddr 21) 511.
Definition idx_pt (vaddr : Z) : Z := Z.land (Z.shiftr vaddr 12) 511.

(** The table pointer; 0 is [NULL]. *)
Definition table_from_phys (space : ptr vmm_space) (paddr : Z) : Z :=
  match space with
  | Null => 0
  | Ref s =>
      match phys_to_virt s with
      | None => 0
      | Some p2v => if negb (vmm_is_aligned_4k paddr) then 0 else p2v paddr
      end
  end.

Definition present (e : Z) : bool := negb (Z.land e VMM_PTE_PRESENT =? 0).
Definition huge (e : Z) : bool := negb (Z.land e VMM_PTE_HUGE =? 0).

Section Ops.
Context {C : Type} `{FrameAllocator C}.

Definition set_mem (m : gmap Z Z) (st : vstate C) : vstate C :=
  VState m (fctx st) (invalidated st).
Definition set_ctx (c : C) (st : vstate C) : vstate C :=
  VState (mem st) c (invalidated st).

(** Returns the state, the status and the table stored in [*out] (which is
    left alone on an error). *)
Definition get_or_alloc_next_table (s : vmm_space) (table index : Z) (st : vstate C) :
    option (vstate C * Z * Z) :=
  entry ← load (mem st) (table + 8 * index);
  if present entry then
    if huge entry then Some (st, VMM_ERR_EXISTS, 0) else
    let next := table_from_phys (Ref s) (Z.land entry VMM_PTE_ADDR_MASK) in
    if next =? 0 then Some (st, VMM_ERR_INVAL, 0) else
    Some (st, VMM_MAP_OK, next)
  else
    if negb (has_alloc s) then Some (st, VMM_ERR_NOMEM, 0) else
    '(c, new_paddr) ← fa_alloc (fctx st);
    let st := set_ctx c st in
    if (new_paddr =? VMM_INVALID_PHYS) || negb (vmm_is_aligned_4k new_paddr)
    then Some (st, VMM_ERR_NOMEM, 0) else
    let new_table := table_from_phys (Ref s) new_paddr in
    if new_table =? 0 then
      if has_free s then
        c ← fa_free (fctx st) new_paddr;
        Some (set_ctx c st, VMM_ERR_INVAL, 0)
      else Some (st, VMM_ERR_INVAL, 0)
    else
      m ← vmm_zero_page new_table (mem st);
      m ← store m (table + 8 * index)
            (Z.lor (Z.lor (Z.land new_paddr VMM_PTE_ADDR_MASK) VMM_PTE_PRESENT)
               VMM_PTE_WRITABLE);
      Some (set_mem m st, VMM_MAP_OK, new_table).

Definition vmm_space_init (space : ptr vmm_space) (root : Z) (alloc free : bool)
    (p2v : option (Z → Z)) : ptr vmm_space * Z :=
  match space, p2v with
  | Ref _, Some f =>
      if negb (vmm_is_aligned_4k root) then (space, VMM_ERR_INVAL)
      else (Ref (VmmSpace root alloc free (Some f)), VMM_MAP_OK)
  | _, _ => (space, VMM_ERR_INVAL)
  end.

Definition pte_allowed : Z :=
  Z.lor (Z.lor (Z.lor (Z.lor (Z.lor VMM_PTE_WRITABLE VMM_PTE_USER) VMM_PTE_WRITE_THROUGH)
    VMM_PTE_CACHE_DISABLE) VMM_PTE_GLOBAL) VMM_PTE_NO_EXECUTE.

Definition vmm_map_page (space : ptr vmm_space) (vaddr paddr flags : Z) (st : vstate C) :
    option (vstate C * Z) :=
  match space with
  | Null => Some (st, VMM_ERR_INVAL)
  | Ref s =>
      if negb (vmm_is_canonical vaddr) || negb (vmm_is_aligned_4k vaddr)
         || negb (vmm_is_aligned_4k paddr) then Some (st, VMM_ERR_INVAL) else
      let pml4 := table_from_phys space (root_paddr s) in
      if pml4 =? 0 then Some (st, VMM_ERR_INVAL) else
      '(st, rc, pdpt) ← get_or_alloc_next_table s pml4 (idx_pml4 vaddr) st;
      if negb (rc =? VMM_MAP_OK) then Some (st, rc) else
      '(st, rc, pd) ← get_or_alloc_next_table s pdpt (idx_pdpt vaddr) st;
      if negb (rc =? VMM_MAP_OK) then Some (st, rc) else
      '(st, rc, pt) ← get_or_alloc_next_table s pd (idx_pd vaddr) st;
      if negb (rc =? VMM_MAP_OK) then Some (st, rc) else
      let pti := idx_pt vaddr in
      e ← load (mem st) (pt + 8 * pti);
      if present e then Some (st, VMM_ERR_EXISTS) else
      m ← store (mem st) (pt + 8 * pti)
            (Z.lor (Z.lor (Z.land paddr VMM_PTE_ADDR_MASK) VMM_PTE_PRESENT)
               (Z.land flags pte_allowed));
      Some (set_mem m st, VMM_MAP_OK)
  end.

(** One level of the descent that [vmm_query_page] and [vmm_unmap_page] write
    out three times: the next table, or the status to return. *)
Definition descend (s : vmm_space) (table index : Z) (m : gmap Z Z) : option (Z + Z) :=
  e ← load m (table + 8 * index);
  if negb (present e) || huge e then Some (inr VMM_ERR_NOT_FOUND) else
  let next := table_from_phys (Ref s) (Z.land e VMM_PTE_ADDR_MASK) in
  if next =? 0 then Some (inr VMM_ERR_INVAL) else Some (inl next).

Definition descend3 (s : vmm_space) (vaddr : Z) (m : gmap Z Z) : option (Z + Z) :=
  let pml4 := table_from_phys (Ref s) (root_paddr s) in
  if pml4 =? 0 then Some (inr VMM_ERR_INVAL) else
  r ← descend s pml4 (idx_pml4 vaddr) m;
  match r with inr rc => Some (inr rc) | inl pdpt =>
    r ← descend s pdpt (idx_pdpt vaddr) m;
    match r with inr rc => Some (inr rc) | inl pd =>
      descend s pd (idx_pd vaddr) m
    end
  end.

(** Returns the status and what [*out] holds afterwards. *)
Definition vmm_query_page (space : ptr vmm_space) (vaddr : Z) (out : ptr vmm_mapping)
    (st : vstate C) : option (Z * ptr vmm_mapping) :=
  match space, out with
  | Ref s, Ref _ =>
      if negb (vmm_is_canonical vaddr) || negb (vmm_is_aligned_4k vaddr)
      then Some (VMM_ERR_INVAL, out) else
      r ← descend3 s vaddr (mem st);
      match r with
      | inr rc => Some (rc, out)
      | inl pt =>
          e ← load (mem st) (pt + 8 * idx_pt vaddr);
          if negb (present e) then Some (VMM_ERR_NOT_FOUND, out) else
          Some (VMM_MAP_OK, Ref (VmmMapping vaddr (Z.land e VMM_PTE_ADDR_MASK)
                                   (Z.land e (u64 (Z.lnot VMM_PTE_ADDR_MASK)))))
      end
  | _, _ => Some (VMM_ERR_INVAL, out)
  end.

Definition vmm_unmap_page (space : ptr vmm_space) (vaddr : Z) (st : vstate C) :
    option (vstate C * Z) :=
  match space with
  | Null => Some (st, VMM_ERR_INVAL)
  | Ref s =>
      if negb (vmm_is_canonical vaddr) || negb (vmm_is_aligned_4k vaddr)
      then Some (st, VMM_ERR_INVAL) else
      r ← descend3 s vaddr (mem st);
      match r with
      | inr rc => Some (st, rc)
      | inl pt =>
          let pti := idx_pt vaddr in
          e ← load (mem st) (pt + 8 * pti);
          if negb (present e) then Some (st, VMM_ERR_NOT_FOUND) else
          m ← store (mem st) (pt + 8 * pti) 0;
          Some (VState m (fctx st) (vaddr :: invalidated st), VMM_MAP_OK)
      end
  end.
End Ops.

(** ** Where the tables are

    [phys_to_virt] maps distinct frames to disjoint, non-null pages. *)
Class PhysMap (p2v : Z → Z) : Prop := {
  pm_nonnull a : a mod 4096 = 0 → 0 < a < FRAME_LIMIT → p2v a ≠ 0;
  pm_inj a b i j : a mod 4096 = 0 → b mod 4096 = 0 →
    0 < a < FRAME_LIMIT → 0 < b < FRAME_LIMIT →
    0 ≤ i < 512 → 0 ≤ j < 512 → p2v a + 8 * i = p2v b + 8 * j → a = b ∧ i = j;
}.

(** The higher-half direct map of the kernel, [hhdm + paddr]. *)
Definition hhdm_map (hhdm paddr : Z) : Z := u64 (hhdm + paddr).

#[export] Instance hhdm_phys_map : PhysMap (hhdm_map 18446603336221196288).
Proof. split; unfold hhdm_map, u64, FRAME_LIMIT; intros; dlia. Qed.

(** ** Bits of addresses and entries *)

Lemma aligned_4k_eq v : vmm_is_aligned_4k v = (v mod 4096 =? 0).
Proof.
  unfold vmm_is_aligned_4k, VMM_PAGE_SIZE.
  change (4096 - 1) with (2 ^ 12 - 1). by rewrite land_low by lia.
Qed.

(** A page address the operations accept. *)
Definition page_addr (va : Z) : bool := vmm_is_canonical va && vmm_is_aligned_4k va.

(** The four table indices of a page address, outermost first. *)
Definition va_path (va : Z) : list Z := [idx_pml4 va; idx_pdpt va; idx_pd va; idx_pt va].

Lemma idx_eq va k : 0 ≤ k → Z.land (Z.shiftr va k) 511 = va / 2 ^ k mod 512.
Proof. intros. change 511 with (2 ^ 9 - 1). by rewrite land_low, Z.shiftr_div_pow2 by lia. Qed.

Lemma idx_range va k : 0 ≤ Z.land (Z.shiftr va k) 511 < 512.
Proof.
  change 511 with (2 ^ 9 - 1). rewrite land_low by lia.
  apply Z.mod_pos_bound. lia.
Qed.

Lemma canonical_eq va : is_u64 va →
  vmm_is_canonical va = (va <? 2 ^ 47) || (2 ^ 64 - 2 ^ 47 <=? va).
Proof.
  intros Hva. unfold vmm_is_canonical.
  rewrite !Z.shiftr_div_pow2 by lia.
  replace (Z.land (va / 2 ^ 47) 1) with (va / 2 ^ 47 mod 2)
    by (change 1 with (2 ^ 1 - 1); by rewrite land_low by lia). change (2 ^ 48) with 281474976710656.
  change (2 ^ 47) with 140737488355328. change (2 ^ 64) with 18446744073709551616.
  destruct (Z.eqb_spec (va / 140737488355328 mod 2) 0); simpl; dlia.
Qed.

Lemma va_path_inj va va' : is_u64 va → is_u64 va' →
  page_addr va = true → page_addr va' = true → va_path va = va_path va' → va = va'.
Proof.
  intros Hu Hu' [Hc Ha]%andb_true_iff [Hc' Ha']%andb_true_iff Hp.
  rewrite canonical_eq in Hc, Hc' by done. rewrite aligned_4k_eq in Ha, Ha'.
  unfold va_path, idx_pml4, idx_pdpt, idx_pd, idx_pt in Hp.
  rewrite !idx_eq in Hp by lia. injection Hp as H4 H3 H2 H1.
  change (2 ^ 47) with 140737488355328 in *. change (2 ^ 64) with 18446744073709551616 in *.
  change (2 ^ 39) with 549755813888 in *. change (2 ^ 30) with 1073741824 in *.
  change (2 ^ 21) with 2097152 in *. change (2 ^ 12) with 4096 in *.
  assert (va mod 281474976710656 = va' mod 281474976710656); dlia.
Qed.

Lemma present_bit e : present e = Z.testbit e 0.
Proof. apply (land_pow2_bit e 0). lia. Qed.

(** The entry written for a frame [a] with the low and high bits [x]. *)
Lemma entry_addr a x :
  Z.land x VMM_PTE_ADDR_MASK = 0 →
  Z.land (Z.lor (Z.lor (Z.land a VMM_PTE_ADDR_MASK) VMM_PTE_PRESENT) x) VMM_PTE_ADDR_MASK
  = Z.land a VMM_PTE_ADDR_MASK.
Proof.
  intros Hx. rewrite !Z.land_lor_distr_l, Hx, <-Z.land_assoc, Z.land_diag.
  change (Z.land VMM_PTE_PRESENT VMM_PTE_ADDR_MASK) with 0. by rewrite !Z.lor_0_r.
Qed.

Lemma entry_flags a x :
  Z.land x VMM_PTE_ADDR_MASK = 0 → is_u64 x →
  Z.land (Z.lor (Z.lor (Z.land a VMM_PTE_ADDR_MASK) VMM_PTE_PRESENT) x)
    (u64 (Z.lnot VMM_PTE_ADDR_MASK)) = Z.lor VMM_PTE_PRESENT x.
Proof.
  intros Hx Hu. rewrite !Z.land_lor_distr_l, <-Z.land_assoc.
  change (Z.land VMM_PTE_ADDR_MASK (u64 (Z.lnot VMM_PTE_ADDR_MASK))) with 0.
  change (Z.land VMM_PTE_PRESENT (u64 (Z.lnot VMM_PTE_ADDR_MASK))) with VMM_PTE_PRESENT.
  rewrite Z.land_0_r, Z.lor_0_l. f_equal. rewrite land_u64_mask by done.
  rewrite <-Z.ldiff_land. apply Z.bits_inj'. intros n Hn. rewrite Z.ldiff_spec.
  assert (Z.testbit (Z.land x VMM_PTE_ADDR_MASK) n = false) as H0
    by (rewrite Hx; apply Z.testbit_0_l).
  rewrite Z.land_spec in H0. destruct (Z.testbit x n); [|done].
  simpl in H0. by rewrite H0.
Qed.

Lemma entry_present a x :
  present (Z.lor (Z.lor (Z.land a VMM_PTE_ADDR_MASK) VMM_PTE_PRESENT) x) = true.
Proof.
  rewrite present_bit, !Z.lor_spec. change (Z.testbit VMM_PTE_PRESENT 0) with true.
  by rewrite orb_true_r.
Qed.

Lemma addr_mask_frame a : a mod 4096 = 0 → 0 ≤ a < FRAME_LIMIT →
  Z.land a VMM_PTE_ADDR_MASK = a.
Proof.
  intros Ha Hr. unfold FRAME_LIMIT in Hr. change VMM_PTE_ADDR_MASK with (Z.land (2 ^ 52 - 1) (Z.lnot (2 ^ 12 - 1))).
  rewrite Z.land_assoc, land_low by lia. rewrite Z.mod_small by lia.
  rewrite land_high by lia. change (2 ^ 12) with 4096. dlia.
Qed.

Lemma allowed_bits flags :
  Z.land (Z.land flags pte_allowed) VMM_PTE_ADDR_MASK = 0 ∧ is_u64 (Z.land flags pte_allowed).
Proof.
  split.
  - rewrite <-Z.land_assoc. change (Z.land pte_allowed VMM_PTE_ADDR_MASK) with 0.
    apply Z.land_0_r.
  - change pte_allowed with (Z.land pte_allowed (Z.ones 64)).
    rewrite Z.land_assoc, Z.land_ones by lia. apply u64_range.
Qed.

Lemma huge_table a : huge (Z.lor (Z.lor (Z.land a VMM_PTE_ADDR_MASK) VMM_PTE_PRESENT)
  VMM_PTE_WRITABLE) = false.
Proof.
  unfold huge. apply negb_false_iff, Z.eqb_eq.
  rewrite !Z.land_lor_distr_l, <-Z.land_assoc.
  change (Z.land VMM_PTE_ADDR_MASK VMM_PTE_HUGE) with 0. by rewrite Z.land_0_r.
Qed.

(** ** The table tree *)

Section Tree.
Context {C : Type} {FA : FrameAllocator C} {FAO : FrameAllocatorOk C}.
Context (P : Z → Z) `{!PhysMap P} (root : Z) (hf : bool).

(** An address space of the kernel: all three callbacks are installed. *)
Definition kspace : vmm_space := VmmSpace root true hf (Some P).

Definition idx_ok (i : Z) : Prop := 0 ≤ i < 512.

(** The table reached from table [t] along [path]. *)
Fixpoint walk (m : gmap Z Z) (t : Z) (path : list Z) : option Z :=
  match path with
  | [] => Some t
  | i :: p =>
      match m !! (P t + 8 * i) with
      | Some e => if present e && negb (huge e)
                  then walk m (Z.land e VMM_PTE_ADDR_MASK) p else None
      | None => None
      end
  end.

(** The leaf entry at the end of a path [q ++ [i]]. *)
Definition leaf (m : gmap Z Z) (q : list Z) (i : Z) : option Z :=
  match walk m root q with
  | Some t =>
      match m !! (P t + 8 * i) with
      | Some e => if present e then Some e else None
      | None => None
      end
  | None => None
  end.

(** The tables reachable from the root are a tree of frames taken from the
    allocator, in mapped memory, without huge pages. *)
Record vmm_wf (st : vstate C) : Prop := {
  vw_inv : fa_inv (fctx st);
  vw_mapped : ∀ a i, fa_managed (fctx st) a → idx_ok i →
    is_Some (mem st !! (P a + 8 * i));
  vw_taken : ∀ q t, Forall idx_ok q → (length q ≤ 3)%nat →
    walk (mem st) root q = Some t →
    fa_managed (fctx st) t ∧ ¬ fa_avail (fctx st) t;
  vw_tree : ∀ q q' t, Forall idx_ok q → Forall idx_ok q' →
    (length q ≤ 3)%nat → (length q' ≤ 3)%nat →
    walk (mem st) root q = Some t → walk (mem st) root q' = Some t → q = q';
  vw_small : ∀ q t i e, Forall idx_ok q → (length q ≤ 2)%nat → idx_ok i →
    walk (mem st) root q = Some t → mem st !! (P t + 8 * i) = Some e →
    present e = true → huge e = false;
}.

Lemma walk_app m t p q :
  walk m t (p ++ q) = match walk m t p with Some t' => walk m t' q | None => None end.
Proof.
  revert t. induction p as [|i p IH]; intros t; simpl; [done|].
  destruct (m !! _) as [e|]; [|done]. destruct (_ && _); [apply IH|done].
Qed.

(** A walk depends only on the entries it reads. *)
Lemma walk_frame m m' t q :
  (∀ q1 i q2 t1, q = q1 ++ i :: q2 → walk m t q1 = Some t1 →
     m' !! (P t1 + 8 * i) = m !! (P t1 + 8 * i)) →
  walk m' t q = walk m t q.
Proof.
  revert t. induction q as [|i q IH]; intros t Hq; simpl; [done|].
  rewrite (Hq [] i q t) by done.
  destruct (m !! (P t + 8 * i)) as [e|] eqn:E; [|done].
  destruct (present e && negb (huge e)) eqn:Ep; [|done]. apply IH.
  intros q1 j q2 t1 -> Hw. apply (Hq (i :: q1) j q2 t1); [done|].
  simpl. by rewrite E, Ep.
Qed.

Lemma managed_addr_inj c a b i j :
  fa_managed c a → fa_managed c b → idx_ok i → idx_ok j →
  P a + 8 * i = P b + 8 * j → a = b ∧ i = j.
Proof.
  intros Ha Hb. apply fa_managed_frame in Ha as [??], Hb as [??].
  unfold idx_ok. intros. by apply pm_inj.
Qed.

Lemma walk_prefix_idx q1 i q2 : Forall idx_ok (q1 ++ i :: q2) →
  Forall idx_ok q1 ∧ idx_ok i.
Proof. intros [H1 H2]%Forall_app. by inversion H2. Qed.

(** Two reachable tables share an entry address only if they are the same
    table reached by the same path. *)
Lemma entry_inj st q t i q' t' j :
  vmm_wf st → Forall idx_ok q → Forall idx_ok q' →
  (length q ≤ 3)%nat → (length q' ≤ 3)%nat → idx_ok i → idx_ok j →
  walk (mem st) root q = Some t → walk (mem st) root q' = Some t' →
  P t + 8 * i = P t' + 8 * j → q = q' ∧ t = t' ∧ i = j.
Proof.
  intros W Hq Hq' Hl Hl' Hi Hj Hw Hw' Heq.
  destruct (managed_addr_inj (fctx st) t t' i j) as [-> ->]; try done.
  - by apply (vw_taken st W q).
  - by apply (vw_taken st W q').
  - split; [|done]. by apply (vw_tree st W q q' t').
Qed.

(** *** Writing a leaf entry *)

Lemma leaf_write st p t i v :
  vmm_wf st → Forall idx_ok p → length p = 3%nat → idx_ok i →
  walk (mem st) root p = Some t →
  let m' := <[P t + 8 * i := v]> (mem st) in
  (∀ q, Forall idx_ok q → (length q ≤ 3)%nat → walk m' root q = walk (mem st) root q) ∧
  (∀ q j, Forall idx_ok q → length q = 3%nat → idx_ok j →
     leaf m' q j = if decide (q = p ∧ j = i)
                   then (if present v then Some v else None) else leaf (mem st) q j) ∧
  (∀ l, vmm_wf (VState m' (fctx st) l)).
Proof.
  intros W Hp Hl Hi Ht m'.
  assert (∀ q, Forall idx_ok q → (length q ≤ 3)%nat → walk m' root q = walk (mem st) root q) as Hw.
  { intros q Hq Hlq. apply walk_frame. intros q1 j q2 t1 -> Hq1.
    apply walk_prefix_idx in Hq as [Hq Hj]. rewrite length_app in Hlq. simpl in Hlq.
    unfold m'. rewrite lookup_insert_ne; [done|]. intros Heq.
    apply (entry_inj st p t i q1 t1 j) in Heq as (-> & _); try done; lia. }
  split; [done|]. split.
  - intros q j Hq Hlq Hj. unfold leaf. rewrite Hw by (done || lia).
    destruct (walk (mem st) root q) as [t1|] eqn:E.
    2: { rewrite decide_False; [done|]. intros [-> ->]. congruence. }
    destruct (decide (q = p ∧ j = i)) as [[-> ->]|Hne].
    + assert (t1 = t) as -> by congruence. unfold m'. by rewrite lookup_insert_eq.
    + unfold m'. rewrite lookup_insert_ne; [done|]. intros Heq.
      apply (entry_inj st p t i q t1 j) in Heq as (-> & _ & ->); try done; [|lia..].
      by apply Hne.
  - intros l. constructor; simpl.
    + apply (vw_inv st W).
    + intros a j Ha Hj. unfold m'. rewrite lookup_insert. case_decide; [done|].
      by apply (vw_mapped st W).
    + intros q t1 Hq Hlq. rewrite Hw by done. by apply (vw_taken st W).
    + intros q q' t1 Hq Hq' Hlq Hlq'. rewrite !Hw by done. by apply (vw_tree st W).
    + intros q t1 j e Hq Hlq Hj. rewrite Hw by (done || lia). intros Hw1.
      unfold m'. rewrite lookup_insert_ne; [by eapply (vw_small st W)|]. intros Heq.
      apply (entry_inj st p t i q t1 j) in Heq as (-> & _); try done; lia.
Qed.

(** *** Adding a table *)

Lemma zero_entries n i page m :
  (∀ j, i ≤ j < i + Z.of_nat n → is_Some (m !! (page + 8 * j))) →
  ∃ m', vmm_zero_entries n i page m = Some m' ∧
    (∀ j, i ≤ j < i + Z.of_nat n → m' !! (page + 8 * j) = Some 0) ∧
    (∀ a, (∀ j, i ≤ j < i + Z.of_nat n → a ≠ page + 8 * j) → m' !! a = m !! a).
Proof.
  revert i m. induction n as [|n IH]; intros i m Hm; simpl.
  { exists m. split; [done|]. split; [lia|done]. }
  unfold store. destruct (Hm i) as [x ->]; [lia|]. simpl.
  destruct (IH (i + 1) (<[page + 8 * i:=0]> m)) as (m' & Hz & H0 & Hk).
  { intros j Hj. rewrite lookup_insert_ne by lia. apply Hm. lia. }
  exists m'. split; [done|]. split.
  - intros j Hj. destruct (decide (j = i)) as [->|]; [|apply H0; lia].
    rewrite Hk by lia. apply lookup_insert_eq.
  - intros a Ha. rewrite Hk by (intros; apply Ha; lia).
    apply lookup_insert_ne. intros <-. apply (Ha i); lia.
Qed.

Definition table_entry (f : Z) : Z :=
  Z.lor (Z.lor (Z.land f VMM_PTE_ADDR_MASK) VMM_PTE_PRESENT) VMM_PTE_WRITABLE.

(** The memory after the table [f] has been zeroed and linked at entry [i] of
    table [t]. *)
Record linked (m : gmap Z Z) (t i f : Z) (m' : gmap Z Z) : Prop := {
  lk_entry : m' !! (P t + 8 * i) = Some (table_entry f);
  lk_zero : ∀ j, idx_ok j → m' !! (P f + 8 * j) = Some 0;
  lk_frame : ∀ a, a ≠ P t + 8 * i → (∀ j, idx_ok j → a ≠ P f + 8 * j) → m' !! a = m !! a;
}.

(** The entries of the tables that are reached do not change, but for the one. *)
Lemma link_read st p t i f m' :
  vmm_wf st → Forall idx_ok p → (length p ≤ 2)%nat → idx_ok i →
  walk (mem st) root p = Some t → fa_managed (fctx st) f → fa_avail (fctx st) f →
  linked (mem st) t i f m' →
  ∀ q j t1, Forall idx_ok q → (length q ≤ 3)%nat → idx_ok j → walk (mem st) root q = Some t1 →
    (q ≠ p ∨ j ≠ i) → m' !! (P t1 + 8 * j) = mem st !! (P t1 + 8 * j).
Proof.
  intros W Hp Hl Hi Ht Hf Hav [_ _ Hfr] q j t1 Hq Hlq Hj Hw Hor.
  destruct (vw_taken st W q t1 Hq Hlq Hw) as [Hm1 Hn1]. apply Hfr.
  - intros Heq. apply (entry_inj st q t1 j p t i) in Heq as (-> & _ & ->); try done; [|lia].
    by destruct Hor.
  - intros j' Hj' Heq. destruct (managed_addr_inj (fctx st) t1 f j j') as [-> _]; done.
Qed.

Lemma link_walk st p t i f m' :
  vmm_wf st → Forall idx_ok p → (length p ≤ 2)%nat → idx_ok i →
  walk (mem st) root p = Some t →
  (∀ e, mem st !! (P t + 8 * i) = Some e → present e = false) →
  fa_managed (fctx st) f → fa_avail (fctx st) f →
  linked (mem st) t i f m' →
  ∀ q, Forall idx_ok q → (length q ≤ 3)%nat →
    walk m' root q = if decide (q = p ++ [i]) then Some f else walk (mem st) root q.
Proof.
  intros W Hp Hl Hi Ht Hnp Hf Hav [He Hz Hfr] q Hq Hlq.
  pose proof (link_read st p t i f m' W Hp Hl Hi Ht Hf Hav ltac:(by split)) as Hread.
  assert (walk m' root p = Some t) as Htp.
  { rewrite <-Ht. apply walk_frame. intros q1 j q2 t1 -> Hw1.
    apply walk_prefix_idx in Hp as [? ?]. rewrite length_app in Hl. simpl in Hl.
    apply (Hread q1); try done; [lia|]. left. intros Heq.
    apply (f_equal length) in Heq. rewrite length_app in Heq. simpl in Heq. lia. }
  destruct (decide ((p ++ [i]) `prefix_of` q)) as [[r ->]|Hno].
  - rewrite <-app_assoc in *. simpl in *. rewrite !walk_app, Ht, Htp. simpl. rewrite He.
    unfold table_entry. rewrite entry_present, huge_table, entry_addr by done. simpl.
    apply fa_managed_frame in Hf as Hff. rewrite addr_mask_frame by (apply Hff || lia).
    destruct r as [|j r]; simpl.
    + by rewrite decide_True.
    + rewrite decide_False by (intros Heq; apply app_inv_head in Heq; done).
      apply Forall_app in Hq as [_ Hq]. inversion Hq as [|? ? _ Hq']. inversion Hq'. subst.
      rewrite Hz by done. destruct (mem st !! (P t + 8 * i)) as [e|] eqn:E; [|done].
      by rewrite (Hnp e).
  - rewrite decide_False by (by intros ->).
    apply walk_frame. intros q1 j q2 t1 -> Hw1.
    apply walk_prefix_idx in Hq as [? ?]. rewrite length_app in Hlq. simpl in Hlq.
    apply (Hread q1); try done; [lia|].
    destruct (decide (q1 = p)) as [->|]; [|by left]. right. intros ->.
    apply Hno. exists q2. by rewrite <-app_assoc.
Qed.

Lemma link_wf st c p t i f m' l :
  vmm_wf st → Forall idx_ok p → (length p ≤ 2)%nat → idx_ok i →
  walk (mem st) root p = Some t →
  (∀ e, mem st !! (P t + 8 * i) = Some e → present e = false) →
  fa_managed (fctx st) f → fa_avail (fctx st) f →
  fa_inv c → (∀ a, fa_managed c a ↔ fa_managed (fctx st) a) →
  (∀ a, fa_avail c a ↔ fa_avail (fctx st) a ∧ a ≠ f) →
  linked (mem st) t i f m' →
  vmm_wf (VState m' c l) ∧
  (∀ q j, Forall idx_ok q → length q = 3%nat → idx_ok j →
     leaf m' q j = leaf (mem st) q j).
Proof.
  intros W Hp Hl Hi Ht Hnp Hf Hav Hc Hmc Hac L.
  pose proof (link_walk st p t i f m' W Hp Hl Hi Ht Hnp Hf Hav L) as Hw.
  assert (∀ q t1, Forall idx_ok q → (length q ≤ 3)%nat →
    walk (mem st) root q = Some t1 → t1 ≠ f) as Hnf.
  { intros q t1 Hq Hlq Hw1 ->. by destruct (vw_taken st W q f Hq Hlq Hw1). }
  assert (walk (mem st) root (p ++ [i]) = None) as Hnone.
  { rewrite walk_app, Ht. simpl. destruct (mem st !! _) as [e|] eqn:E; [|done].
    by rewrite (Hnp e). }
  pose proof (link_read st p t i f m' W Hp Hl Hi Ht Hf Hav L) as Hread.
  split; [constructor; simpl|].
  - done.
  - intros a j Ha Hj. apply Hmc in Ha.
    destruct (decide (P a + 8 * j = P t + 8 * i)) as [->|Hne1].
    { by rewrite (lk_entry _ _ _ _ _ L). }
    destruct (decide (a = f)) as [->|Hne2].
    { by rewrite (lk_zero _ _ _ _ _ L). }
    rewrite (lk_frame _ _ _ _ _ L); [by apply (vw_mapped st W)|done|].
    intros j' Hj' Heq. destruct (managed_addr_inj (fctx st) a f j j') as [-> _]; done.
  - intros q t1 Hq Hlq. rewrite Hw by done. case_decide.
    + intros [= <-]. rewrite Hmc, Hac. split; [done|]. by intros [_ []].
    + intros Hw1. rewrite Hmc, Hac. destruct (vw_taken st W q t1 Hq Hlq Hw1).
      split; [done|]. by intros [? _].
  - intros q q' t1 Hq Hq' Hlq Hlq'. rewrite !Hw by done. repeat case_decide; try congruence.
    + intros [= <-] Hw1. by destruct (Hnf q' f).
    + intros Hw1 [= <-]. by destruct (Hnf q f).
    + by apply (vw_tree st W).
  - intros q t1 j e Hq Hlq Hj. rewrite Hw by (done || lia). case_decide.
    + intros [= <-]. rewrite (lk_zero _ _ _ _ _ L) by done. by intros [= <-].
    + intros Hw1 Hm Hpr. destruct (decide (q = p ∧ j = i)) as [[-> ->]|Hne].
      * assert (t1 = t) as -> by congruence. rewrite (lk_entry _ _ _ _ _ L) in Hm.
        injection Hm as <-. apply huge_table.
      * rewrite (Hread q) in Hm; try done; [by eapply (vw_small st W)|lia|].
        destruct (decide (q = p)); [right; intros ->; by apply Hne|by left].
  - intros q j Hq Hlq Hj. unfold leaf. rewrite Hw by (done || lia). case_decide as Hd.
    + subst q. rewrite Hnone, (lk_zero _ _ _ _ _ L) by done. done.
    + destruct (walk (mem st) root q) as [t1|] eqn:E; [|done].
      rewrite (Hread q); try done; [lia|]. left. intros ->. lia.
Qed.

(** *** The step of the descent that may allocate *)

Lemma table_from_phys_frame a : a mod 4096 = 0 →
  table_from_phys (Ref kspace) a = P a.
Proof. intros Ha. simpl. by rewrite aligned_4k_eq, Ha. Qed.

(** The frames that hold tables, and how an operation may change them: a new
    table was a frame the allocator could still give. *)
Definition table_of (st : vstate C) (t : Z) : Prop :=
  ∃ q, Forall idx_ok q ∧ (length q ≤ 3)%nat ∧ walk (mem st) root q = Some t.
Record grows (st st' : vstate C) : Prop := {
  gs_managed : ∀ a, fa_managed (fctx st') a ↔ fa_managed (fctx st) a;
  gs_avail : ∀ a, fa_avail (fctx st') a → fa_avail (fctx st) a;
  gs_table : ∀ t, table_of st' t → table_of st t ∨ fa_avail (fctx st) t;
}.

Lemma grows_refl st : grows st st.
Proof. split; [done|done|by left]. Qed.

Lemma grows_trans st1 st2 st3 : grows st1 st2 → grows st2 st3 → grows st1 st3.
Proof.
  intros [M1 A1 T1] [M2 A2 T2]. split; [intros a; by rewrite M2|auto|].
  intros t [H|H]%T2; [by apply T1|right; auto].
Qed.

(** The walks, and so the tables, are the same. *)
Lemma grows_walks st st' : fctx st' = fctx st →
  (∀ q, Forall idx_ok q → (length q ≤ 3)%nat → walk (mem st') root q = walk (mem st) root q) →
  grows st st'.
Proof.
  intros Hc Hw. split; rewrite ?Hc; [done|done|]. intros t (q & Hq & Hl & H). left.
  exists q. by rewrite <-Hw.
Qed.

Definition same_pages (st st' : vstate C) : Prop :=
  invalidated st' = invalidated st ∧
  (∀ q j, Forall idx_ok q → length q = 3%nat → idx_ok j →
    leaf (mem st') q j = leaf (mem st) q j) ∧
  grows st st'.

Lemma same_pages_refl st : same_pages st st.
Proof. split; [done|]. split; [done|apply grows_refl]. Qed.

(** A free frame, cleared and entered at [i] of table [t], is a new table. *)
Lemma new_table_linked st p t i r e :
  vmm_wf st → Forall idx_ok p → (length p ≤ 2)%nat → idx_ok i → walk (mem st) root p = Some t →
  mem st !! (P t + 8 * i) = Some e → fa_managed (fctx st) r → fa_avail (fctx st) r →
  ∃ m1, vmm_zero_page (P r) (mem st) = Some m1 ∧
    m1 !! (P t + 8 * i) = Some e ∧ linked (mem st) t i r (<[P t + 8 * i := table_entry r]> m1).
Proof.
  intros W Hp Hl Hi Ht He Hfm Hav. destruct (vw_taken st W p t Hp ltac:(lia) Ht) as [Htm _].
  destruct (zero_entries (Z.to_nat VMM_ENTRIES_PER_TABLE) 0 (P r) (mem st))
    as (m1 & Hz & Hz0 & Hzk).
  { intros j Hj. apply (vw_mapped st W); [done|]. unfold idx_ok, VMM_ENTRIES_PER_TABLE in *. lia. }
  assert (t ≠ r) as Htr by (intros ->; by destruct (vw_taken st W p r Hp ltac:(lia) Ht)).
  assert (∀ j, idx_ok j → P t + 8 * i ≠ P r + 8 * j) as Hne.
  { intros j Hj Heq. destruct (managed_addr_inj (fctx st) t r i j) as [? _]; done. }
  exists m1. split; [exact Hz|].
  assert (m1 !! (P t + 8 * i) = Some e) as He1.
  { rewrite Hzk; [done|]. intros j Hj. apply Hne. unfold idx_ok, VMM_ENTRIES_PER_TABLE in *. lia. }
  split; [done|]. constructor.
  - apply lookup_insert_eq.
  - intros j Hj. rewrite lookup_insert_ne by by apply Hne.
    apply Hz0. unfold idx_ok, VMM_ENTRIES_PER_TABLE in *. lia.
  - intros a Hna Hnr. rewrite lookup_insert_ne by done. apply Hzk.
    intros j Hj. apply Hnr. unfold idx_ok, VMM_ENTRIES_PER_TABLE in *. lia.
Qed.

(** An entry that is present leads to the next table, and nothing changes. *)
Lemma goa_present st p t i e :
  vmm_wf st → Forall idx_ok p → (length p ≤ 2)%nat → idx_ok i →
  walk (mem st) root p = Some t → mem st !! (P t + 8 * i) = Some e → present e = true →
  get_or_alloc_next_table kspace (P t) i st = Some (st, VMM_MAP_OK, P (Z.land e VMM_PTE_ADDR_MASK)) ∧
  walk (mem st) root (p ++ [i]) = Some (Z.land e VMM_PTE_ADDR_MASK).
Proof.
  intros W Hp Hl Hi Ht He Ep.
  assert (walk (mem st) root (p ++ [i]) = Some (Z.land e VMM_PTE_ADDR_MASK)) as Hw.
  { rewrite walk_app, Ht. simpl. by rewrite He, Ep, (vw_small st W p t i e). }
  split; [|done]. unfold get_or_alloc_next_table, load. rewrite He. simpl. rewrite Ep.
  rewrite (vw_small st W p t i e) by done. simpl.
  destruct (vw_taken st W (p ++ [i]) _ (proj2 (Forall_app _ _ _) (conj Hp (Forall_cons_2 _ _ _ Hi (Forall_nil_2 _))))
    ltac:(rewrite length_app; simpl; lia) Hw) as [Hm _].
  apply fa_managed_frame in Hm as [Ha Hr]. rewrite aligned_4k_eq, Ha. simpl.
  destruct (Z.eqb_spec (P (Z.land e VMM_PTE_ADDR_MASK)) 0) as [H0|_]; [by apply pm_nonnull in H0|done].
Qed.

(** Another allocator state with the same frames. *)
Lemma vmm_wf_ctx st c : vmm_wf st → fa_inv c → (∀ a, fa_managed c a ↔ fa_managed (fctx st) a) →
  (∀ a, fa_avail c a ↔ fa_avail (fctx st) a) → vmm_wf (set_ctx c st).
Proof.
  intros [W1 W2 W3 W4 W5] Hc Hm Ha. constructor; simpl; try done.
  - intros a j Haj. apply W2. by apply Hm.
  - intros q t Hq Hlq Hw. rewrite Hm, Ha. by apply (W3 q).
Qed.

Lemma goa_spec st p t i :
  vmm_wf st → Forall idx_ok p → (length p ≤ 2)%nat → idx_ok i →
  walk (mem st) root p = Some t →
  ∃ st' rc out, get_or_alloc_next_table kspace (P t) i st = Some (st', rc, out) ∧
    vmm_wf st' ∧ same_pages st st' ∧
    ((rc = VMM_MAP_OK ∧ ∃ t', out = P t' ∧ walk (mem st') root (p ++ [i]) = Some t') ∨
     (rc = VMM_ERR_NOMEM ∧ walk (mem st) root (p ++ [i]) = None ∧
      ∀ a, ¬ fa_avail (fctx st') a)).
Proof.
  intros W Hp Hl Hi Ht.
  destruct (vw_taken st W p t Hp ltac:(lia) Ht) as [Htm _].
  destruct (vw_mapped st W t i Htm Hi) as [e He]. destruct (present e) eqn:Ep.
  { destruct (goa_present st p t i e) as [-> Hw]; [done..|]. eexists _, _, _. split; [done|].
    split; [done|]. split; [apply same_pages_refl|]. left. eauto. }
  unfold get_or_alloc_next_table, load. rewrite He. simpl. rewrite Ep. simpl.
  destruct (fa_alloc_ok (fctx st) (vw_inv st W)) as (c & r & -> & Hc & Hmc & Hr).
  simpl. assert (walk (mem st) root (p ++ [i]) = None) as Hnone.
  { rewrite walk_app, Ht. simpl. by rewrite He, Ep. }
  destruct Hr as [(-> & Hempty & Hav)|[Hav Hrest]].
  { simpl. exists (set_ctx c st), VMM_ERR_NOMEM, 0. split; [done|].
    split; [by apply vmm_wf_ctx|]. split; [|by right]. split; [done|]. split; [done|].
    split; [done|intros a Ha; by apply Hav|intros t' Ht'; by left]. }
  apply fa_avail_managed in Hav as Hfm; [|apply (vw_inv st W)].
  apply fa_managed_frame in Hfm as Hff. destruct Hff as [Ha Hrg].
  rewrite aligned_4k_eq, Ha. unfold VMM_INVALID_PHYS, FRAME_LIMIT in *. simpl.
  destruct (Z.eqb_spec r UINT64_MAX) as [->|_]; [words|]. simpl.
  destruct (Z.eqb_spec (P r) 0) as [H0|_]; [by apply pm_nonnull in H0|].
  destruct (new_table_linked st p t i r e) as (m1&->&He1&L); [done..|].
  simpl. unfold store. rewrite He1. simpl.
  assert (∀ e0, mem st !! (P t + 8 * i) = Some e0 → present e0 = false) as Hnp by congruence.
  destruct (link_wf st c p t i r _ (invalidated st) W Hp Hl Hi Ht Hnp Hfm Hav Hc Hmc Hrest L)
    as [W' Hleaf].
  pose proof (link_walk st p t i r _ W Hp Hl Hi Ht Hnp Hfm Hav L) as Hlw.
  eexists _, _, _. split; [done|]. split; [exact W'|]. split.
  { split; [done|]. split; [done|]. split; simpl; [done|intros a H; by apply Hrest in H as [? _]|].
    intros t' (q & Hq & Hlq & Hwq). simpl in Hwq. rewrite Hlw in Hwq by done.
    case_decide; [right; congruence|left; by exists q]. }
  left. split; [done|]. exists r. split; [done|]. simpl.
  rewrite (link_walk st p t i r _ W Hp Hl Hi Ht Hnp Hfm Hav L).
  - by rewrite decide_True.
  - apply Forall_app. split; [done|]. by apply Forall_cons.
  - rewrite length_app. simpl. lia.
Qed.

Lemma walk_snoc m p t i e : walk m root p = Some t → m !! (P t + 8 * i) = Some e →
  walk m root (p ++ [i]) =
    if present e && negb (huge e) then Some (Z.land e VMM_PTE_ADDR_MASK) else None.
Proof. intros Hp He. rewrite walk_app, Hp. simpl. by rewrite He. Qed.

#[local] Arguments walk : simpl never.

(** *** The three operations in terms of leaf entries *)

Definition va_dir (va : Z) : list Z := [idx_pml4 va; idx_pdpt va; idx_pd va].

(** The leaf entry of a page address. *)
Definition page_entry (st : vstate C) (va : Z) : option Z :=
  leaf (mem st) (va_dir va) (idx_pt va).

Lemma va_dir_ok va : Forall idx_ok (va_dir va) ∧ idx_ok (idx_pt va).
Proof.
  split; [|apply idx_range]. repeat apply Forall_cons_2; try apply idx_range. done.
Qed.

Lemma same_pages_entry st st' va : same_pages st st' → page_entry st' va = page_entry st va.
Proof. intros (_ & H & _). destruct (va_dir_ok va). by apply H. Qed.

Lemma entry_is_Some st q t i : vmm_wf st → Forall idx_ok q → (length q ≤ 3)%nat →
  idx_ok i → walk (mem st) root q = Some t → ∃ e, mem st !! (P t + 8 * i) = Some e.
Proof.
  intros W Hq Hl Hi Hw. destruct (vw_taken st W q t Hq Hl Hw) as [Hm _].
  destruct (vw_mapped st W t i Hm Hi) as [e He]. eauto.
Qed.

Lemma descend_spec st p t i :
  vmm_wf st → Forall idx_ok p → (length p ≤ 2)%nat → idx_ok i →
  walk (mem st) root p = Some t →
  descend kspace (P t) i (mem st) =
    Some (match walk (mem st) root (p ++ [i]) with
          | Some t' => inl (P t') | None => inr VMM_ERR_NOT_FOUND end).
Proof.
  intros W Hp Hl Hi Ht. unfold descend, load.
  destruct (entry_is_Some st p t i) as [e He]; [done|done|lia|done|done|].
  rewrite He. simpl.
  pose proof (walk_snoc _ _ _ _ _ Ht He) as Hw. rewrite Hw. destruct (present e) eqn:Ep; simpl; [|done].
  rewrite (vw_small st W p t i e) by done. simpl.
  rewrite (vw_small st W p t i e) in Hw by done. simpl in Hw.
  destruct (vw_taken st W (p ++ [i]) (Z.land e VMM_PTE_ADDR_MASK)) as [Hm _]; [|rewrite length_app; simpl; lia|done|].
  { apply Forall_app. split; [done|]. by apply Forall_cons_2. }
  apply fa_managed_frame in Hm as [Ha Hr]. rewrite aligned_4k_eq, Ha. simpl.
  destruct (Z.eqb_spec (P (Z.land e VMM_PTE_ADDR_MASK)) 0) as [H0|_]; [|done].
  by apply pm_nonnull in H0.
Qed.

Lemma root_table st : vmm_wf st →
  table_from_phys (Ref kspace) root = P root ∧ P root ≠ 0.
Proof.
  intros W. destruct (vw_taken st W [] root) as [Hm _]; [done|simpl; lia|done|].
  apply fa_managed_frame in Hm as [Ha Hr]. split; [by apply table_from_phys_frame|].
  by apply pm_nonnull.
Qed.

Lemma descend3_spec st va : vmm_wf st →
  descend3 kspace va (mem st) =
    Some (match walk (mem st) root (va_dir va) with
          | Some t' => inl (P t') | None => inr VMM_ERR_NOT_FOUND end).
Proof.
  intros W. unfold descend3. change (root_paddr kspace) with root. destruct (root_table st W) as [-> Hr].
  rewrite (proj2 (Z.eqb_neq _ _)) by done.
  destruct (va_dir_ok va) as [Hd _]. unfold va_dir in *.
  pose proof (Forall_inv Hd) as H1. pose proof (Forall_inv (Forall_inv_tail Hd)) as H2.
  pose proof (Forall_inv (Forall_inv_tail (Forall_inv_tail Hd))) as H3.
  rewrite (descend_spec st [] root) by (done || (simpl; lia)).
  change ([] ++ [idx_pml4 va]) with [idx_pml4 va]. cbn [mbind option_bind].
  change [idx_pml4 va; idx_pdpt va; idx_pd va] with ([idx_pml4 va] ++ [idx_pdpt va; idx_pd va]).
  rewrite walk_app. destruct (walk _ root [idx_pml4 va]) as [t1|] eqn:E1. 2: done.
  assert (Forall idx_ok [idx_pml4 va]) as Hd1 by (by apply Forall_cons_2).
  rewrite (descend_spec st [idx_pml4 va] t1) by (done || (simpl; lia)). cbn [mbind option_bind].
  change [idx_pdpt va; idx_pd va] with ([idx_pdpt va] ++ [idx_pd va]).
  rewrite !walk_app, E1. destruct (walk _ t1 [idx_pdpt va]) as [t2|] eqn:E2; [|done].
  assert (Forall idx_ok [idx_pml4 va; idx_pdpt va]) as Hd2 by (by repeat apply Forall_cons_2).
  assert (walk (mem st) root [idx_pml4 va; idx_pdpt va] = Some t2) as E12.
  { change [idx_pml4 va; idx_pdpt va] with ([idx_pml4 va] ++ [idx_pdpt va]).
    by rewrite walk_app, E1. }
  rewrite (descend_spec st [idx_pml4 va; idx_pdpt va] t2) by (done || (simpl; lia)).
  by rewrite walk_app, E12.
Qed.

(** What a query returns for a leaf entry. *)
Definition query_result (va : Z) (o : vmm_mapping) (e : option Z) : Z * ptr vmm_mapping :=
  match e with
  | Some e => (VMM_MAP_OK, Ref (VmmMapping va (Z.land e VMM_PTE_ADDR_MASK)
                                  (Z.land e (u64 (Z.lnot VMM_PTE_ADDR_MASK)))))
  | None => (VMM_ERR_NOT_FOUND, Ref o)
  end.

Lemma query_spec st va o : vmm_wf st → page_addr va = true →
  vmm_query_page (Ref kspace) va (Ref o) st =
    Some (query_result va o (page_entry st va)).
Proof.
  intros W [Hc Ha]%andb_true_iff. unfold vmm_query_page. rewrite Hc, Ha. simpl.
  rewrite descend3_spec by done. simpl. unfold page_entry, leaf.
  destruct (walk _ root (va_dir va)) as [t|] eqn:E; [|done].
  destruct (va_dir_ok va) as [Hd Hi].
  destruct (entry_is_Some st _ t (idx_pt va) W Hd ltac:(simpl; lia) Hi E) as [e He].
  unfold load. rewrite He. simpl. by destruct (present e).
Qed.

Lemma page_entry_other va va' : is_u64 va → is_u64 va' →
  page_addr va = true → page_addr va' = true → va' ≠ va →
  ¬ (va_dir va' = va_dir va ∧ idx_pt va' = idx_pt va).
Proof.
  intros Hu Hu' Hp Hp' Hne [Hd Hi]. apply Hne. apply va_path_inj; try done.
  unfold va_dir in Hd. unfold va_path. congruence.
Qed.

(** The descent of [vmm_map_page]: the page table is found or created. *)
Lemma map_descent st va : vmm_wf st →
  ∃ st' rc t, (
    '(st, rc, pdpt) ← get_or_alloc_next_table kspace (P root) (idx_pml4 va) st;
    if negb (rc =? VMM_MAP_OK) then Some (st, rc, 0) else
    '(st, rc, pd) ← get_or_alloc_next_table kspace pdpt (idx_pdpt va) st;
    if negb (rc =? VMM_MAP_OK) then Some (st, rc, 0) else
    get_or_alloc_next_table kspace pd (idx_pd va) st) = Some (st', rc, t) ∧
    vmm_wf st' ∧ same_pages st st' ∧
    ((rc = VMM_MAP_OK ∧ ∃ t', t = P t' ∧ walk (mem st') root (va_dir va) = Some t') ∨
     (rc = VMM_ERR_NOMEM ∧ page_entry st va = None ∧ ∀ a, ¬ fa_avail (fctx st') a)).
Proof.
  intros W. destruct (va_dir_ok va) as [Hd Hi]. unfold va_dir in Hd.
  pose proof (Forall_inv Hd) as H1. pose proof (Forall_inv (Forall_inv_tail Hd)) as H2.
  pose proof (Forall_inv (Forall_inv_tail (Forall_inv_tail Hd))) as H3.
  assert (∀ st q r, va_dir va = q ++ r → walk (mem st) root q = None → page_entry st va = None)
    as Hnone by (intros ? q r Hq Hw; unfold page_entry, leaf; by rewrite Hq, walk_app, Hw).
  assert (∀ s1 s2 s3, same_pages s1 s2 → same_pages s2 s3 → same_pages s1 s3) as Htr.
  { intros s1 s2 s3 (A & B & G) (A' & B' & G'). split; [congruence|].
    split; [intros; rewrite B', B; done|by eapply grows_trans]. }
  destruct (goa_spec st [] root (idx_pml4 va)) as (s1 & rc & o & -> & W1 & S1 & H);
    [done|done|simpl; lia|done|done|]. simpl.
  destruct H as [(-> & t1 & -> & E1)|(-> & E1 & He1)].
  2: { simpl. eexists _, _, _. split; [done|]. split; [done|]. split; [done|]. right.
       split; [done|]. split; [|done]. by eapply (Hnone _ [idx_pml4 va]). }
  simpl. assert (Forall idx_ok [idx_pml4 va]) as Hd1 by (by apply Forall_cons_2).
  destruct (goa_spec s1 [idx_pml4 va] t1 (idx_pdpt va)) as (s2 & rc & o & -> & W2 & S2 & H);
    [done|done|simpl; lia|done|done|]. simpl.
  destruct H as [(-> & t2 & -> & E2)|(-> & E2 & He2)].
  2: { simpl. eexists _, _, _. split; [done|]. split; [done|]. split; [by eapply Htr|]. right.
       split; [done|]. split; [|done]. rewrite <-(same_pages_entry st s1) by done.
       by eapply (Hnone _ [idx_pml4 va; idx_pdpt va]). }
  simpl. assert (Forall idx_ok [idx_pml4 va; idx_pdpt va]) as Hd2 by (by repeat apply Forall_cons_2).
  destruct (goa_spec s2 [idx_pml4 va; idx_pdpt va] t2 (idx_pd va)) as (s3 & rc & o & -> & W3 & S3 & H);
    [done|done|simpl; lia|done|done|]. simpl.
  eexists _, _, _. split; [done|]. split; [done|]. split; [eauto|].
  destruct H as [H|(-> & E3 & He3)]; [by left|right]. split; [done|]. split; [|done].
  rewrite <-(same_pages_entry st s1), <-(same_pages_entry s1 s2) by done.
  by eapply (Hnone _ [idx_pml4 va; idx_pdpt va; idx_pd va] []).
Qed.

Definition leaf_entry (pa flags : Z) : Z :=
  Z.lor (Z.lor (Z.land pa VMM_PTE_ADDR_MASK) VMM_PTE_PRESENT) (Z.land flags pte_allowed).

(** What [vmm_map_page] does to the leaf entries. *)
Lemma map_spec st va pa flags : vmm_wf st → is_u64 va →
  page_addr va = true → vmm_is_aligned_4k pa = true →
  ∃ st' rc, vmm_map_page (Ref kspace) va pa flags st = Some (st', rc) ∧ vmm_wf st' ∧
    invalidated st' = invalidated st ∧ grows st st' ∧
    ((rc = VMM_MAP_OK ∧ page_entry st va = None ∧
      page_entry st' va = Some (leaf_entry pa flags) ∧
      ∀ va', is_u64 va' → page_addr va' = true → va' ≠ va →
        page_entry st' va' = page_entry st va') ∨
     (rc = VMM_ERR_EXISTS ∧ is_Some (page_entry st va) ∧
      ∀ va', page_entry st' va' = page_entry st va') ∨
     (rc = VMM_ERR_NOMEM ∧ page_entry st va = None ∧ (∀ a, ¬ fa_avail (fctx st') a) ∧
      ∀ va', page_entry st' va' = page_entry st va')).
Proof.
  intros W Hu Hp Hpa. pose proof Hp as [Hc Ha]%andb_true_iff.
  unfold vmm_map_page. rewrite Hc, Ha, Hpa. cbn [negb orb].
  destruct (root_table st W) as [Hr1 Hr2].
  change (root_paddr kspace) with root. rewrite Hr1, (proj2 (Z.eqb_neq _ _)) by done.
  destruct (map_descent st va W) as (s3 & rc & o & Hd & W3 & S3 & Hcase).
  assert (∀ va', page_entry s3 va' = page_entry st va') as HS
    by (intros; by apply same_pages_entry).
  destruct (get_or_alloc_next_table kspace (P root) (idx_pml4 va) st) as [[[s1 r1] o1]|]; simpl in *; [|done].
  destruct (Z.eqb_spec r1 VMM_MAP_OK) as [->|]; simpl in *.
  2: { simplify_eq. eexists _, _. split; [done|]. split; [done|]. split; [apply S3|]. split; [apply S3|].
       destruct Hcase as [[? _]|(-> & ? & ?)]; [done|]. right. right. done. }
  destruct (get_or_alloc_next_table kspace o1 (idx_pdpt va) s1) as [[[s2 r2] o2]|]; simpl in *; [|done].
  destruct (Z.eqb_spec r2 VMM_MAP_OK) as [->|]; simpl in *.
  2: { simplify_eq. eexists _, _. split; [done|]. split; [done|]. split; [apply S3|]. split; [apply S3|].
       destruct Hcase as [[? _]|(-> & ? & ?)]; [done|]. right. right. done. }
  rewrite Hd. simpl.
  destruct Hcase as [(-> & t & -> & Hw)|(-> & Hn & Hne)].
  2: { simpl. eexists _, _. split; [done|]. split; [done|]. split; [apply S3|]. split; [apply S3|]. right. by right. }
  simpl. destruct (va_dir_ok va) as [Hdir Hi].
  destruct (entry_is_Some s3 _ t (idx_pt va) W3 Hdir ltac:(simpl; lia) Hi Hw) as [e He].
  unfold load, store. rewrite He. simpl.
  assert (page_entry s3 va = if present e then Some e else None) as Hpe.
  { unfold page_entry, leaf. by rewrite Hw, He. }
  destruct (present e).
  { eexists _, _. split; [done|]. split; [done|]. split; [apply S3|]. split; [apply S3|]. right. left.
    split; [done|]. split; [|done]. rewrite <-HS, Hpe. done. }
  destruct (leaf_write s3 (va_dir va) t (idx_pt va) (leaf_entry pa flags) W3 Hdir eq_refl Hi Hw)
    as (Hwalk & Hleaf & Hwf).
  eexists _, _. split; [done|]. split; [apply Hwf|]. split; [apply S3|].
  split; [eapply grows_trans; [apply S3|]; by apply grows_walks|]. left.
  split; [done|]. split; [by rewrite <-HS|]. split.
  - unfold page_entry. simpl. rewrite (Hleaf (va_dir va)) by done.
    rewrite decide_True by done. unfold leaf_entry. by rewrite entry_present.
  - intros va' Hu' Hp' Hne. rewrite <-HS. unfold page_entry. simpl.
    destruct (va_dir_ok va') as [Hd' Hi']. rewrite (Hleaf (va_dir va')) by done.
    rewrite decide_False; [done|]. by apply page_entry_other.
Qed.

Lemma unmap_spec st va : vmm_wf st → is_u64 va → page_addr va = true →
  ∃ st' rc, vmm_unmap_page (Ref kspace) va st = Some (st', rc) ∧ vmm_wf st' ∧ grows st st' ∧
    match page_entry st va with
    | Some _ => rc = VMM_MAP_OK ∧ invalidated st' = va :: invalidated st ∧
        page_entry st' va = None ∧
        ∀ va', is_u64 va' → page_addr va' = true → va' ≠ va →
          page_entry st' va' = page_entry st va'
    | None => rc = VMM_ERR_NOT_FOUND ∧ st' = st
    end.
Proof.
  intros W Hu Hp. pose proof Hp as [Hc Ha]%andb_true_iff.
  unfold vmm_unmap_page. rewrite Hc, Ha. simpl.
  rewrite descend3_spec by done. simpl. unfold page_entry at 1, leaf.
  destruct (walk _ root (va_dir va)) as [t|] eqn:E; [|by eexists _, _; auto using grows_refl].
  destruct (va_dir_ok va) as [Hd Hi].
  destruct (entry_is_Some st _ t (idx_pt va) W Hd ltac:(simpl; lia) Hi E) as [e He].
  unfold load, store. rewrite He. simpl. destruct (present e) eqn:Ep; [|by eexists _, _; auto using grows_refl].
  simpl. destruct (leaf_write st (va_dir va) t (idx_pt va) 0 W Hd eq_refl Hi E)
    as (Hwalk & Hleaf & Hwf).
  eexists _, _. split; [done|]. split; [apply Hwf|]. split; [by apply grows_walks|].
  split; [done|]. split; [done|]. split.
  - unfold page_entry. simpl. rewrite (Hleaf (va_dir va)) by done. by rewrite decide_True.
  - intros va' Hu' Hp' Hne. unfold page_entry. simpl.
    destruct (va_dir_ok va') as [Hd' Hi']. rewrite (Hleaf (va_dir va')) by done.
    rewrite decide_False; [done|]. by apply page_entry_other.
Qed.

(** A zeroed root table is an empty address space. *)
Lemma fresh_wf st :
  fa_inv (fctx st) →
  (∀ a i, fa_managed (fctx st) a → idx_ok i → is_Some (mem st !! (P a + 8 * i))) →
  fa_managed (fctx st) root → ¬ fa_avail (fctx st) root →
  (∀ i, idx_ok i → mem st !! (P root + 8 * i) = Some 0) →
  vmm_wf st ∧ ∀ va, page_entry st va = None.
Proof.
  intros Hc Hmap Hm Ha H0.
  assert (∀ q, Forall idx_ok q → q ≠ [] → walk (mem st) root q = None) as Hw.
  { intros [|i q] Hq Hne; [done|]. apply Forall_inv in Hq. unfold walk.
    by rewrite H0. }
  assert (∀ q t, Forall idx_ok q → walk (mem st) root q = Some t → q = [] ∧ t = root) as Hw'.
  { intros q t Hq Hwq. destruct (decide (q = [])) as [->|Hne].
    - by injection Hwq as <-.
    - by rewrite Hw in Hwq. }
  split; [constructor|].
  - done.
  - done.
  - intros q t Hq _ Hwq. by apply Hw' in Hwq as [-> ->].
  - intros q q' t Hq Hq' _ _ H1 H2. apply Hw' in H1 as [-> _]; [|done].
    by apply Hw' in H2 as [-> _].
  - intros q t i e Hq _ Hi Hwq. apply Hw' in Hwq as [-> ->]; [|done].
    rewrite H0 by done. by intros [= <-].
  - intros va. destruct (va_dir_ok va) as [Hd _]. unfold page_entry, leaf. by rewrite Hw.
Qed.
End Tree.

(** ** Properties *)

Section Properties.
Context {C : Type} {FA : FrameAllocator C} {FAO : FrameAllocatorOk C}.
Context (P : Z → Z) `{!PhysMap P} (root : Z) (hf : bool).

(** In a well-formed address space [vmm_map_page] never touches memory
    outside its tables and keeps the space well formed. On success the page
    was unmapped before, a query of it now returns the frame with exactly the
    permitted flags, and every other page answers as before; a page already
    mapped is refused with [EXISTS], and [NOMEM] is reported only when the
    allocator has no frame left; then no query changes. Other arguments are refused with [INVAL]. *)
Theorem vmm_map_page_correct st va pa flags o :
  vmm_wf P root st → is_u64 va →
  let query st va := vmm_query_page (Ref (kspace P root hf)) va (Ref o) st in
  ∃ st' rc, vmm_map_page (Ref (kspace P root hf)) va pa flags st = Some (st', rc) ∧
    vmm_wf P root st' ∧
    if page_addr va && vmm_is_aligned_4k pa then
      (rc = VMM_MAP_OK ∧ query st va = Some (VMM_ERR_NOT_FOUND, Ref o) ∧
       query st' va = Some (VMM_MAP_OK, Ref (VmmMapping va (Z.land pa VMM_PTE_ADDR_MASK)
         (Z.lor VMM_PTE_PRESENT (Z.land flags pte_allowed)))) ∧
       ∀ va', is_u64 va' → page_addr va' = true → va' ≠ va → query st' va' = query st va') ∨
      (rc = VMM_ERR_EXISTS ∧ (∃ m, query st va = Some (VMM_MAP_OK, m)) ∧
       ∀ va', page_addr va' = true → query st' va' = query st va') ∨
      (rc = VMM_ERR_NOMEM ∧ query st va = Some (VMM_ERR_NOT_FOUND, Ref o) ∧
       (∀ a, ¬ fa_avail (fctx st') a) ∧
       ∀ va', page_addr va' = true → query st' va' = query st va')
    else rc = VMM_ERR_INVAL ∧ st' = st.
Proof.
  intros W Hu query.
  destruct (page_addr va && vmm_is_aligned_4k pa) eqn:E.
  2: { exists st, VMM_ERR_INVAL. split; [|done]. unfold vmm_map_page.
       unfold page_addr in E. by destruct (vmm_is_canonical va), (vmm_is_aligned_4k va), (vmm_is_aligned_4k pa). }
  apply andb_true_iff in E as [Hp Hpa].
  destruct (map_spec P root hf st va pa flags W Hu Hp Hpa) as (st' & rc & Hm & W' & _ & _ & Hcase).
  exists st', rc. split; [done|]. split; [done|].
  assert (∀ s v, vmm_wf P root s → page_addr v = true →
    query s v = Some (query_result v o (page_entry P root s v))) as Hq
    by (intros; by apply query_spec).
  destruct Hcase as [(-> & H1 & H2 & H3)|[(-> & [e H1] & H3)|(-> & H1 & Hno & H3)]].
  - left. split; [done|]. split; [by rewrite Hq, H1 by done|]. split.
    + rewrite Hq, H2 by done. simpl. unfold leaf_entry.
      by rewrite entry_addr, entry_flags by apply allowed_bits.
    + intros va' Hu' Hp' Hne. rewrite !Hq by done. by rewrite H3.
  - right. left. split; [done|]. split; [rewrite Hq, H1 by done; simpl; eauto|].
    intros va' Hp'. rewrite !Hq by done. by rewrite H3.
  - right. right. split; [done|]. split; [by rewrite Hq, H1 by done|]. split; [done|].
    intros va' Hp'. rewrite !Hq by done. by rewrite H3.
Qed.

(** [vmm_unmap_page] of a mapped page removes exactly that page from the
    address space and invalidates its translation; of an unmapped page it
    returns [NOT_FOUND] and changes nothing. *)
Theorem vmm_unmap_page_correct st va o :
  vmm_wf P root st → is_u64 va → page_addr va = true →
  let query st va := vmm_query_page (Ref (kspace P root hf)) va (Ref o) st in
  ∃ st' rc, vmm_unmap_page (Ref (kspace P root hf)) va st = Some (st', rc) ∧
    vmm_wf P root st' ∧
    ((rc = VMM_MAP_OK ∧ (∃ m, query st va = Some (VMM_MAP_OK, m)) ∧
      query st' va = Some (VMM_ERR_NOT_FOUND, Ref o) ∧
      invalidated st' = va :: invalidated st ∧
      ∀ va', is_u64 va' → page_addr va' = true → va' ≠ va → query st' va' = query st va') ∨
     (rc = VMM_ERR_NOT_FOUND ∧ query st va = Some (VMM_ERR_NOT_FOUND, Ref o) ∧ st' = st)).
Proof.
  intros W Hu Hp query.
  destruct (unmap_spec P root hf st va W Hu Hp) as (st' & rc & Hm & W' & _ & Hcase).
  exists st', rc. split; [done|]. split; [done|].
  assert (∀ s v, vmm_wf P root s → page_addr v = true →
    query s v = Some (query_result v o (page_entry P root s v))) as Hq
    by (intros; by apply query_spec).
  destruct (page_entry P root st va) as [e|] eqn:E.
  - left. destruct Hcase as (-> & Hi & H1 & H2). split; [done|].
    split; [rewrite Hq, E by done; simpl; eauto|].
    split; [by rewrite Hq, H1 by done|]. split; [done|].
    intros va' Hu' Hp' Hne. rewrite !Hq by done. by rewrite H2.
  - right. destruct Hcase as [-> ->]. split; [done|]. split; [|done]. by rewrite Hq, E by done.
Qed.
End Properties.
