(* ===== verification/Kmemory.v ===== *)
(** Early memory initialisation of the kernel ([src/kernel_memory.c]): the
    physical memory manager of [Pmm] is handed to the page tables of [Vmm] as
    the allocator behind their callbacks, through the higher-half direct map. *)
From stdpp Require Import strings.
From S2P Require Import Prelude Bitmap Frames Pmm Vmm.

(** ** The callbacks *)

Definition static_hhdm_offset : Z := 18446603336221196288.

(** [kernel_vmm_alloc] and [kernel_vmm_free] ignore their context and work on
    the state of the kernel's physical memory manager. *)
Definition kernel_vmm_alloc (p : pmm_state) : option (pmm_state * Z) :=
  r ← pmm_alloc_frame (Ref p);
  match r with (Ref p', a) => Some (p', a) | _ => None end.
Definition kernel_vmm_free (p : pmm_state) (frame_paddr : Z) : option pmm_state :=
  r ← pmm_free_frame (Ref p) frame_paddr;
  match r with (Ref p', _) => Some p' | _ => None end.

Definition kernel_phys_to_virt (hhdm paddr : Z) : Z := u64 (hhdm + paddr).

(** [local_memzero] over a page of 64-bit words. *)
Definition local_memzero (words : nat) (ptr : Z) (m : gmap Z Z) : option (gmap Z Z) :=
  vmm_zero_entries words 0 ptr m.

#[global] Arguments local_memzero : simpl never.

(** ** Initialisation *)

Inductive boot_result : Type :=
| Panic (msg : string)
| Booted (st : vstate pmm_state) (space : vmm_space).

(** [kernel_memory_init] with the bitmap storage and the memory size as
    arguments; [p0] is the state object and [m] the memory. *)
Definition memory_init_with (storage : ptr (list Z)) (storage_bytes max_phys_bytes : Z)
    (p0 : pmm_state) (m : gmap Z Z) (regions : ptr (list boot_mem_region)) :
    option boot_result :=
  '(pmm, pmm_ok) ← pmm_init_from_map (Ref p0) regions storage storage_bytes max_phys_bytes;
  if negb pmm_ok then Some (Panic "M7: Gagal inisialisasi PMM dari boot map") else
  '(pmm, root) ← pmm_alloc_frame pmm;
  if root =? VMM_INVALID_PHYS then Some (Panic "M7: cannot allocate root page table") else
  m' ← local_memzero 512 (kernel_phys_to_virt static_hhdm_offset root) m;
  match pmm with
  | Null => None
  | Ref p =>
      match vmm_space_init (Ref (VmmSpace 0 false false None)) root true true
              (Some (kernel_phys_to_virt static_hhdm_offset)) with
      | (Ref sp, rc) =>
          if negb (rc =? VMM_MAP_OK) then Some (Panic "M7: vmm_space_init failed")
          else Some (Booted (VState m' p []) sp)
      | _ => None
      end
  end.

(** The call the source makes: [pmm_init_from_map(..., NULL, 0, 0)]. *)
Definition kernel_memory_init (p0 : pmm_state) (m : gmap Z Z)
    (regions : ptr (list boot_mem_region)) : option boot_result :=
  memory_init_with Null 0 0 p0 m regions.

(** ** A fresh address space *)

Definition hhdm : Z → Z := hhdm_map static_hhdm_offset.

#[export] Instance hhdm_ok : PhysMap hhdm.
Proof. apply hhdm_phys_map. Qed.

(** Every word of every frame below [n] is mapped. *)
Definition ram_mapped (n : Z) (m : gmap Z Z) : Prop :=
  ∀ f i, 0 ≤ f < n → 0 ≤ i < 512 → is_Some (m !! (hhdm (4096 * f) + 8 * i)).

Lemma space_from_frame p m n p1 root m1 :
  pmm_ready p → frame_count p = n → ram_mapped n m →
  pmm_alloc_frame (Ref p) = Some (Ref p1, root) → root ≠ PMM_INVALID_FRAME →
  local_memzero 512 (hhdm root) m = Some m1 →
  vmm_wf hhdm root (VState m1 p1 []) ∧
  ∀ va, page_entry hhdm root (VState m1 p1 []) va = None.
Proof.
  intros R Hn Hm Ha Hne Hz.
  destruct (pmm_alloc_ready p R) as (q & r & Hq & R' & Hmax & Hcase).
  rewrite Ha in Hq. simplify_eq. destruct Hcase as [[? _]|[Hav Hrest]]; [done|].
  pose proof (pmm_avail_managed p r R Hav) as Hman.
  assert (∀ a i, pmm_managed p a → 0 ≤ i < 512 → is_Some (m !! (hhdm a + 8 * i))) as Hmap.
  { intros a i (H1 & H2 & _) Hi. replace a with (4096 * (a / 4096)) by dlia.
    apply Hm; [|done]. pose proof (wf_phys p (rd_wf p R)). dlia. }
  destruct (zero_entries 512 0 (hhdm r) m) as (m' & Hz' & H0 & Hk).
  { intros j Hj. apply Hmap; [done|lia]. }
  unfold local_memzero in Hz. rewrite Hz' in Hz. simplify_eq.
  assert (∀ a, pmm_managed q a ↔ pmm_managed p a) as Hmm by (unfold pmm_managed; by rewrite Hmax).
  apply fresh_wf; simpl.
  - done.
  - intros a i Hma Hi. apply Hmm in Hma.
    destruct (decide (a = r)) as [->|Hd]; [rewrite H0 by (unfold idx_ok in Hi; lia); done|].
    rewrite Hk; [by apply Hmap|]. intros j Hj Heq.
    destruct Hma as (A1 & A2 & A3), Hman as (B1 & B2 & _).
    destruct (pm_inj a r i j) as [? _]; try done; unfold idx_ok in *; lia.
  - by apply Hmm.
  - intros Hf. by apply Hrest in Hf as [_ []].
  - intros i Hi. apply H0. unfold idx_ok in Hi. lia.
Qed.

(** C39. As written, [kernel_memory_init] passes no bitmap and a memory size of
    zero, so the kernel panics whatever the boot map is. Given a bitmap that
    suffices for the memory, a memory size of at most 2^47 bytes, a boot map
    whose regions end at or below 2^64 - 4096 ([init_args_ok]) and memory that
    is mapped at the offset of the kernel's direct map, the same sequence of
    calls succeeds whenever some frame other than 0 is usable, and yields a
    well-formed address space in which no page is mapped and whose root table
    was taken from the usable frames. *)
Theorem kernel_memory_init_outcome p0 m regions rs st bytes mp :
  kernel_memory_init p0 m regions = Some (Panic "M7: Gagal inisialisasi PMM dari boot map") ∧
  (init_args_ok rs st bytes mp → mp ≤ FRAME_LIMIT → ram_mapped (mp / 4096) m →
   (∃ f, 0 < f < mp / 4096 ∧ usable_by rs f = true ∧ reserved_by rs f = false) →
   ∃ vst sp f, memory_init_with (Ref st) bytes mp p0 m (Ref rs) = Some (Booted vst sp) ∧
     0 < f < mp / 4096 ∧ usable_by rs f = true ∧ reserved_by rs f = false ∧
     sp = kspace hhdm (4096 * f) true ∧ vmm_wf hhdm (4096 * f) vst ∧
     ∀ va o, page_addr va = true →
       vmm_query_page (Ref sp) va (Ref o) vst = Some (VMM_ERR_NOT_FOUND, Ref o)).
Proof.
  split; [by destruct regions|]. intros Hargs Hlim Hram (f0 & Hf0 & Hu0 & Hr0).
  destruct (pmm_init_spec p0 rs st bytes mp Hargs) as (p & Hp & W & Hi & Hn & F).
  assert (pmm_ready p) as R.
  { constructor; [done|done| |]; [rewrite F by lia; by destruct (usable_by rs 0)|].
    rewrite (wf_phys p W), Hn. unfold FRAME_LIMIT in *. dlia. }
  unfold memory_init_with. rewrite Hp. cbn [mbind option_bind negb].
  destruct (pmm_alloc_spec p W Hi) as (p1 & r & Ha & Hres). rewrite Ha. cbn [mbind option_bind].
  destruct Hres as [(_ & _ & Hall)|(f & -> & Hf & Hfree & _ & _)].
  { assert (free_at p f0 = false) as Hx by (apply Hall; lia).
    rewrite F, Hu0, Hr0, (proj2 (Z.eqb_neq f0 0)) in Hx by lia. done. }
  assert (4096 * f ≠ VMM_INVALID_PHYS) as Hinv by (unfold VMM_INVALID_PHYS; words).
  rewrite (proj2 (Z.eqb_neq _ _)) by done.
  rewrite F in Hfree by lia. bool_prop.
  assert (0 < f) as Hpos by lia.
  destruct (zero_entries 512 0 (hhdm (4096 * f)) m) as (m1 & Hz & _).
  { intros j Hj. apply Hram; lia. }
  unfold local_memzero. change (kernel_phys_to_virt static_hhdm_offset) with hhdm.
  rewrite Hz. cbn [mbind option_bind]. unfold vmm_space_init.
  rewrite aligned_4k_eq, (proj2 (Z.eqb_eq (4096 * f mod 4096) 0)) by dlia. cbn [negb].
  destruct (space_from_frame p m (mp / 4096) p1 (4096 * f) m1 R Hn Hram Ha Hinv Hz) as [Wv Hnone].
  eexists _, _, f. split; [done|]. repeat (split; [done || lia|]).
  intros va o Hva. change (VmmSpace _ _ _ _) with (kspace hhdm (4096 * f) true).
  rewrite (query_spec hhdm (4096 * f) true _ va o Wv Hva). by rewrite Hnone.
Qed.

(** ** A concrete kernel memory *)

Definition frame_words (n : nat) : list Z :=
  f ← seqZ 0 (Z.of_nat n); (λ i, hhdm (4096 * f) + 8 * i) <$> seqZ 0 512.
Definition zero_ram (n : nat) : gmap Z Z := foldr (λ a m, <[a:=0]> m) ∅ (frame_words n).

Lemma zero_ram_mapped n : ram_mapped (Z.of_nat n) (zero_ram n).
Proof.
  intros f i Hf Hi.
  assert (hhdm (4096 * f) + 8 * i ∈ frame_words n) as Hin.
  { unfold frame_words. apply list_elem_of_bind. exists f. split.
    - apply list_elem_of_fmap. exists i. split; [done|]. apply elem_of_seqZ. lia.
    - apply elem_of_seqZ. lia. }
  unfold zero_ram. induction Hin as [|x l Hin IH]; simpl.
  - by rewrite lookup_insert_eq.
  - rewrite lookup_insert. by case_decide.
Qed.

Lemma kernel_memory_init_outcome_witness :
  ∃ vst sp f, memory_init_with (Ref demo_storage) 2 65536 demo_pmm (zero_ram 16)
      (Ref demo_regions) = Some (Booted vst sp) ∧ vmm_wf hhdm (4096 * f) vst.
Proof.
  destruct (proj2 (kernel_memory_init_outcome demo_pmm (zero_ram 16) Null demo_regions
    demo_storage 2 65536) demo_args) as (vst & sp & f & H1 & _ & _ & _ & _ & H2 & _).
  - unfold FRAME_LIMIT. lia.
  - exact (zero_ram_mapped 16).
  - exists 1. split; [split; reflexivity|]. split; reflexivity.
  - exists vst, sp, f. split; assumption.
Defined.

(** A fresh address space whose root table is frame 1. *)
Lemma demo_space_wf : ∃ p m, vmm_wf hhdm 4096 (VState m p []) ∧
  pmm_alloc_frame (Ref demo_pmm) = Some (Ref p, 4096).
Proof.
  destruct (pmm_alloc_frame (Ref demo_pmm)) as [[[|p] r]|] eqn:E;
    [vm_compute in E; discriminate| |vm_compute in E; discriminate].
  assert (r = 4096) by (vm_compute in E; congruence). subst r.
  destruct (zero_entries 512 0 (hhdm 4096) (zero_ram 16)) as (m & Hm & _).
  { intros j Hj. apply (zero_ram_mapped 16 1); lia. }
  exists p, m. split; [|done].
  apply (space_from_frame demo_pmm (zero_ram 16) 16 p 4096 m demo_ready eq_refl
    (zero_ram_mapped 16) E ltac:(discriminate) Hm).
Qed.

Lemma vmm_map_page_correct_witness :
  ∃ st st' rc, vmm_wf hhdm 4096 st ∧
    vmm_map_page (Ref (kspace hhdm 4096 true)) 4194304 8192 3 st = Some (st', rc) ∧
    vmm_wf hhdm 4096 st'.
Proof.
  destruct demo_space_wf as (p & m & W & _).
  destruct (vmm_map_page_correct hhdm 4096 true (VState m p []) 4194304 8192 3
    (VmmMapping 0 0 0) W ltac:(words)) as (st' & rc & H1 & H2 & _).
  exists (VState m p []), st', rc. split; [exact W|]. split; assumption.
Defined.

Lemma vmm_unmap_page_correct_witness :
  ∃ st st' rc, vmm_wf hhdm 4096 st ∧
    vmm_unmap_page (Ref (kspace hhdm 4096 true)) 4194304 st = Some (st', rc) ∧
    vmm_wf hhdm 4096 st'.
Proof.
  destruct demo_space_wf as (p & m & W & _).
  destruct (vmm_unmap_page_correct hhdm 4096 true (VState m p []) 4194304
    (VmmMapping 0 0 0) W ltac:(words) eq_refl) as (st' & rc & H1 & H2 & _).
  exists (VState m p []), st', rc. split; [exact W|]. split; assumption.
Defined.
