(* ===== verification/VmmSpec.v ===== *)
(** What the address space promises over any number of calls: it is a finite
    map from pages to frames, the translations that a processor has cached are
    those of the map, and no frame that somebody else holds is ever a table. *)
From S2P Require Import Prelude Bitmap Frames Pmm Vmm Kmemory.

(** ** Events *)

(** The calls on the space; a client of the allocator that takes a frame or
    gives one of its frames back; a processor that walks the tables and caches
    a translation, or forgets one. *)
Inductive vevent :=
| EMap (va pa fl : Z)
| EUnmap (va : Z)
| EQuery (va : Z)
| ETake
| EGive (a : Z)
| EFill (va : Z)
| EEvict (va : Z).

Inductive vresult :=
| VStatus (rc : Z)
| VFound (rc : Z) (out : ptr vmm_mapping)
| VFrame (a : Z)
| VQuiet.

(** The tables and the allocator, the cached translations, the client's
    frames. *)
Record vsystem (C : Type) := VSystem {
  vs_state : vstate C;
  vs_tlb : gmap Z Z;
  vs_own : list Z;
}.
Arguments VSystem {C}.
Arguments vs_state {C}.
Arguments vs_tlb {C}.
Arguments vs_own {C}.

Section Events.
Context {C : Type} `{FrameAllocator C} (P : Z → Z) (root : Z) (hf : bool).
#[local] Abbreviation space := (Ref (kspace P root hf)).

Definition zero_mapping : vmm_mapping := VmmMapping 0 0 0.

(** The addresses that [invlpg] was executed for since [st], newest first. *)
Definition newly_invalidated (st st' : vstate C) : list Z :=
  take (length (invalidated st') - length (invalidated st)) (invalidated st').

(** A call has changed the tables: the processor drops what it was told to. *)
Definition with_tables (st' : vstate C) (s : vsystem C) : vsystem C :=
  VSystem st' (foldr delete (vs_tlb s) (newly_invalidated (vs_state s) st')) (vs_own s).

Definition do_vevent (e : vevent) (s : vsystem C) : option (vsystem C * vresult) :=
  match e with
  | EMap va pa fl =>
      '(st, rc) ← vmm_map_page space va pa fl (vs_state s);
      Some (with_tables st s, VStatus rc)
  | EUnmap va =>
      '(st, rc) ← vmm_unmap_page space va (vs_state s);
      Some (with_tables st s, VStatus rc)
  | EQuery va =>
      '(rc, out) ← vmm_query_page space va (Ref zero_mapping) (vs_state s);
      Some (s, VFound rc out)
  | ETake =>
      '(c, a) ← fa_alloc (fctx (vs_state s));
      Some (VSystem (set_ctx c (vs_state s)) (vs_tlb s)
              (if a =? FA_INVALID then vs_own s else a :: vs_own s), VFrame a)
  | EGive a =>
      if decide (a ∈ vs_own s) then
        c ← fa_free (fctx (vs_state s)) a;
        Some (VSystem (set_ctx c (vs_state s)) (vs_tlb s) (list_difference (vs_own s) [a]), VQuiet)
      else Some (s, VQuiet)
  | EFill va =>
      let tlb := match page_entry P root (vs_state s) va with
                 | Some e => if page_addr va then <[va := e]> (vs_tlb s) else vs_tlb s
                 | None => vs_tlb s
                 end in
      Some (VSystem (vs_state s) tlb (vs_own s), VQuiet)
  | EEvict va => Some (VSystem (vs_state s) (delete va (vs_tlb s)) (vs_own s), VQuiet)
  end.

Fixpoint do_vevents (es : list vevent) (s : vsystem C) : option (vsystem C * list vresult) :=
  match es with
  | [] => Some (s, [])
  | e :: es' =>
      '(s1, r) ← do_vevent e s;
      '(s2, rs) ← do_vevents es' s1;
      Some (s2, r :: rs)
  end.
End Events.

Definition vevent_ok (e : vevent) : Prop :=
  match e with EMap va _ _ | EUnmap va | EQuery va | EFill va => is_u64 va | _ => True end.

(** ** The specification *)

(** A map from page addresses to page table entries. A map call may fail for
    want of a table only when it leaves the allocator without a free frame,
    and only then the allocator has none for a client: [exhausted]. *)
Inductive vspec (exhausted : Prop) (m : gmap Z Z) : vevent → vresult → gmap Z Z → Prop :=
| VS_map va pa fl : page_addr va && vmm_is_aligned_4k pa = true → m !! va = None →
    vspec exhausted m (EMap va pa fl) (VStatus VMM_MAP_OK) (<[va := leaf_entry pa fl]> m)
| VS_map_exists va pa fl : page_addr va && vmm_is_aligned_4k pa = true → is_Some (m !! va) →
    vspec exhausted m (EMap va pa fl) (VStatus VMM_ERR_EXISTS) m
| VS_map_nomem va pa fl : page_addr va && vmm_is_aligned_4k pa = true → m !! va = None → exhausted →
    vspec exhausted m (EMap va pa fl) (VStatus VMM_ERR_NOMEM) m
| VS_map_inval va pa fl : page_addr va && vmm_is_aligned_4k pa = false →
    vspec exhausted m (EMap va pa fl) (VStatus VMM_ERR_INVAL) m
| VS_unmap va : is_Some (m !! va) → vspec exhausted m (EUnmap va) (VStatus VMM_MAP_OK) (delete va m)
| VS_unmap_none va : page_addr va = true → m !! va = None →
    vspec exhausted m (EUnmap va) (VStatus VMM_ERR_NOT_FOUND) m
| VS_unmap_inval va : page_addr va = false → vspec exhausted m (EUnmap va) (VStatus VMM_ERR_INVAL) m
| VS_query va e : m !! va = Some e →
    vspec exhausted m (EQuery va) (VFound VMM_MAP_OK (Ref (VmmMapping va (Z.land e VMM_PTE_ADDR_MASK)
      (Z.land e (u64 (Z.lnot VMM_PTE_ADDR_MASK)))))) m
| VS_query_none va : page_addr va = true → m !! va = None →
    vspec exhausted m (EQuery va) (VFound VMM_ERR_NOT_FOUND (Ref zero_mapping)) m
| VS_query_inval va : page_addr va = false →
    vspec exhausted m (EQuery va) (VFound VMM_ERR_INVAL (Ref zero_mapping)) m
| VS_take a : (a = FA_INVALID → exhausted) → vspec exhausted m ETake (VFrame a) m
| VS_give a : vspec exhausted m (EGive a) VQuiet m
| VS_fill va : vspec exhausted m (EFill va) VQuiet m
| VS_evict va : vspec exhausted m (EEvict va) VQuiet m.

(** ** What always holds *)

Section Invariant.
Context {C : Type} {FA : FrameAllocator C} {FAO : FrameAllocatorOk C}.
Context (P : Z → Z) `{!PhysMap P} (root : Z) (hf : bool).

Record system_ok (s : vsystem C) (m : gmap Z Z) : Prop := {
  so_wf : vmm_wf P root (vs_state s);
  so_pages : ∀ va, is_u64 va → page_addr va = true → page_entry P root (vs_state s) va = m !! va;
  so_keys : ∀ va e, m !! va = Some e → is_u64 va ∧ page_addr va = true;
  so_tlb : ∀ va e, vs_tlb s !! va = Some e → m !! va = Some e;
  so_own : ∀ a, a ∈ vs_own s →
    fa_managed (fctx (vs_state s)) a ∧ ¬ fa_avail (fctx (vs_state s)) a ∧
    ¬ table_of P root (vs_state s) a;
  so_nodup : NoDup (vs_own s);
}.

(** The allocator has no frame to give. *)
Definition exhausted (s : vsystem C) : Prop := ∀ a, ¬ fa_avail (fctx (vs_state s)) a.

Definition runs_vevent (e : vevent) (s : vsystem C) (m : gmap Z Z) : Prop :=
  ∃ s' r m', do_vevent P root hf e s = Some (s', r) ∧ vspec (exhausted s') m e r m' ∧ system_ok s' m'.

(** A run, call by call: what each returns and does to the map, and the
    invariant after each. *)
Inductive vruns : vsystem C → gmap Z Z → list vevent → list vresult → vsystem C → gmap Z Z → Prop :=
| VR_nil s m : vruns s m [] [] s m
| VR_cons s1 m1 e r s2 m2 es rs s3 m3 :
    do_vevent P root hf e s1 = Some (s2, r) → vspec (exhausted s2) m1 e r m2 → system_ok s2 m2 →
    vruns s2 m2 es rs s3 m3 → vruns s1 m1 (e :: es) (r :: rs) s3 m3.

(** The client's frames stay clear of the tables. *)
Lemma own_grows st st' a : grows P root st st' → vmm_wf P root st →
  fa_managed (fctx st) a ∧ ¬ fa_avail (fctx st) a ∧ ¬ table_of P root st a →
  fa_managed (fctx st') a ∧ ¬ fa_avail (fctx st') a ∧ ¬ table_of P root st' a.
Proof.
  intros [Gm Ga Gt] W (H1 & H2 & H3). split; [by apply Gm|]. split; [auto|].
  intros [H|H]%Gt; done.
Qed.

(** A call that executed no [invlpg] leaves the cached translations alone. *)
Lemma with_tables_same (st' : vstate C) (s : vsystem C) : invalidated st' = invalidated (vs_state s) →
  with_tables st' s = VSystem st' (vs_tlb s) (vs_own s).
Proof.
  intros Hi. unfold with_tables, newly_invalidated. by rewrite Hi, Nat.sub_diag, take_0.
Qed.

Lemma with_tables_one (st' : vstate C) (s : vsystem C) va : invalidated st' = va :: invalidated (vs_state s) →
  with_tables st' s = VSystem st' (delete va (vs_tlb s)) (vs_own s).
Proof.
  intros Hi. unfold with_tables, newly_invalidated. rewrite Hi. cbn [length].
  replace (S (length (invalidated (vs_state s))) - length (invalidated (vs_state s)))%nat
    with 1%nat by lia. done.
Qed.

Lemma system_same_pages s m st' : system_ok s m → vmm_wf P root st' →
  grows P root (vs_state s) st' →
  (∀ va, page_entry P root st' va = page_entry P root (vs_state s) va) →
  system_ok (VSystem st' (vs_tlb s) (vs_own s)) m.
Proof.
  intros [W Hp Hk Ht Ho Hn] W' G Heq. split; try done.
  - intros va Hu Ha. cbn [vs_state]. rewrite Heq. by apply Hp.
  - intros a Ha. eapply own_grows; [exact G|exact W|by apply Ho].
Qed.

Lemma map_event s m va pa fl : is_u64 va → system_ok s m → runs_vevent (EMap va pa fl) s m.
Proof.
  intros Hu Hok. unfold runs_vevent. cbn [do_vevent].
  destruct (page_addr va && vmm_is_aligned_4k pa) eqn:E.
  2:{ exists s, (VStatus VMM_ERR_INVAL), m. split; [|split; [by apply VS_map_inval|done]].
      assert (vmm_map_page (Ref (kspace P root hf)) va pa fl (vs_state s) =
        Some (vs_state s, VMM_ERR_INVAL)) as ->.
      { unfold vmm_map_page. unfold page_addr in E.
        by destruct (vmm_is_canonical va), (vmm_is_aligned_4k va), (vmm_is_aligned_4k pa). }
      cbn [mbind option_bind]. rewrite with_tables_same by done. by destruct s. }
  pose proof E as [Hp Hpa]%andb_true_iff. pose proof Hok as [W Hpg Hk Ht Ho Hn].
  destruct (map_spec P root hf (vs_state s) va pa fl W Hu Hp Hpa)
    as (st' & rc & Hm & W' & Hi & G & Hcase).
  rewrite Hm. cbn [mbind option_bind]. rewrite with_tables_same by done. rewrite Hpg in Hcase by done.
  destruct Hcase as [(-> & H1 & H2 & H3)|[(-> & H1 & H3)|(-> & H1 & Hex & H3)]];
    (eexists _, _, _; split; [done|]; split; [by constructor|]).
  - split; [done| | | |intros a Ha; eapply own_grows; [exact G|exact W|by apply Ho]|done].
    + intros va' Hu' Hp'. cbn [vs_state]. destruct (decide (va' = va)) as [->|Hne].
      * by rewrite lookup_insert_eq.
      * rewrite lookup_insert_ne by done. rewrite H3 by done. by apply Hpg.
    + intros va' e He. destruct (decide (va' = va)) as [->|Hne]; [done|].
      rewrite lookup_insert_ne in He by done. by eapply Hk.
    + intros va' e He%Ht. rewrite lookup_insert_ne; [done|]. congruence.
  - by apply system_same_pages.
  - by apply system_same_pages.
Qed.

Lemma unmap_event s m va : is_u64 va → system_ok s m → runs_vevent (EUnmap va) s m.
Proof.
  intros Hu Hok. unfold runs_vevent. cbn [do_vevent].
  destruct (page_addr va) eqn:Hp.
  2:{ exists s, (VStatus VMM_ERR_INVAL), m. split; [|split; [by apply VS_unmap_inval|done]].
      assert (vmm_unmap_page (Ref (kspace P root hf)) va (vs_state s) =
        Some (vs_state s, VMM_ERR_INVAL)) as ->.
      { unfold vmm_unmap_page. unfold page_addr in Hp.
        by destruct (vmm_is_canonical va), (vmm_is_aligned_4k va). }
      cbn [mbind option_bind]. rewrite with_tables_same by done. by destruct s. }
  pose proof Hok as [W Hpg Hk Ht Ho Hn].
  destruct (unmap_spec P root hf (vs_state s) va W Hu Hp) as (st' & rc & Hm & W' & G & Hcase).
  rewrite Hm. cbn [mbind option_bind]. rewrite Hpg in Hcase by done.
  destruct (m !! va) as [e|] eqn:E.
  - destruct Hcase as (-> & Hi & H1 & H2). rewrite (with_tables_one st' s va) by done.
    eexists _, _, _. split; [done|]. split; [by apply VS_unmap; rewrite E|].
    split; [done| | | |intros a Ha; eapply own_grows; [exact G|exact W|by apply Ho]|done].
    + intros va' Hu' Hp'. cbn [vs_state]. destruct (decide (va' = va)) as [->|Hne].
      * by rewrite lookup_delete_eq.
      * rewrite lookup_delete_ne by done. rewrite H2 by done. by apply Hpg.
    + intros va' e' He. apply lookup_delete_Some in He as [_ He]. by eapply Hk.
    + intros va' e' He. cbn [vs_tlb] in He. apply lookup_delete_Some in He as [Hne He].
      rewrite lookup_delete_ne by done. by apply Ht.
  - destruct Hcase as [-> ->]. rewrite with_tables_same by done. eexists _, _, _.
    split; [done|]. split; [by apply VS_unmap_none|]. by destruct s.
Qed.

(** The allocator moves on without touching the tables. *)
Lemma set_ctx_wf st c : vmm_wf P root st → fa_inv c →
  (∀ a, fa_managed c a ↔ fa_managed (fctx st) a) →
  (∀ t, table_of P root st t → ¬ fa_avail c t) → vmm_wf P root (set_ctx c st).
Proof.
  intros [W1 W2 W3 W4 W5] Hc Hm Ha. split; try done.
  - intros a i H Hi. apply W2; [by apply Hm|done].
  - intros q t Hq Hl Hw. cbn [fctx set_ctx mem] in *. rewrite Hm.
    split; [by apply (W3 q)|]. apply Ha. by exists q.
Qed.

Lemma table_taken st t : vmm_wf P root st → table_of P root st t → ¬ fa_avail (fctx st) t.
Proof. intros W (q & Hq & Hl & Hw). by apply (vw_taken P root st W q). Qed.

Lemma take_event s m : system_ok s m → runs_vevent ETake s m.
Proof.
  intros [W Hpg Hk Ht Ho Hn]. unfold runs_vevent. cbn [do_vevent].
  destruct (fa_alloc_ok (fctx (vs_state s)) (vw_inv P root _ W)) as (c & r & -> & Hc & Hm & Hr).
  cbn [mbind option_bind]. eexists _, _, m. split; [done|]. split.
  { constructor. intros ->. destruct Hr as [(_ & Hno & _)|[Hav _]]; [exact Hno|].
    apply fa_avail_managed, fa_managed_frame in Hav; [|apply (vw_inv P root _ W)].
    unfold FA_INVALID, FRAME_LIMIT in Hav. lia. }
  assert (∀ a, fa_avail c a → fa_avail (fctx (vs_state s)) a) as Hsub.
  { intros a Ha. destruct Hr as [(_ & _ & Hr)|[_ Hr]]; apply Hr in Ha; [done|by destruct Ha]. }
  assert (∀ a, a ∈ vs_own s → fa_managed c a ∧ ¬ fa_avail c a ∧
    ¬ table_of P root (set_ctx c (vs_state s)) a) as Ho'.
  { intros a (H1 & H2 & H3)%Ho. split; [by apply Hm|]. split; [auto|done]. }
  split; try done; cbn [vs_state vs_own].
  - apply set_ctx_wf; try done. intros t H%table_taken ?%Hsub; done.
  - destruct (Z.eqb_spec r FA_INVALID) as [->|Hne]; [exact Ho'|].
    intros a [->|Ha]%elem_of_cons; [|by apply Ho'].
    destruct Hr as [[? _]|[Hav Hr]]; [done|]. split; [|split].
    + apply Hm. eapply fa_avail_managed; [apply (vw_inv P root _ W)|done].
    + intros [_ H]%Hr. done.
    + intros H. by apply (table_taken _ _ W) in H.
  - destruct (Z.eqb_spec r FA_INVALID) as [->|Hne]; [done|]. apply NoDup_cons. split; [|done].
    intros Hin. destruct Hr as [[? _]|[Hav _]]; [done|]. by apply Ho in Hin as (_ & ? & _).
Qed.

Lemma give_event s m a : system_ok s m → runs_vevent (EGive a) s m.
Proof.
  intros Hok. pose proof Hok as [W Hpg Hk Ht Ho Hn]. unfold runs_vevent. cbn [do_vevent].
  destruct (decide (a ∈ vs_own s)) as [Hin|_].
  2:{ exists s, VQuiet, m. split; [done|]. by split; [constructor|]. }
  destruct (Ho a Hin) as (Ha1 & Ha2 & Ha3).
  destruct (fa_free_ok (fctx (vs_state s)) a (vw_inv P root _ W) Ha1) as (c & -> & Hc & Hm & Hr).
  cbn [mbind option_bind]. eexists _, _, m. split; [done|]. split; [by constructor|].
  split; try done; cbn [vs_state vs_own].
  - apply set_ctx_wf; try done. intros t Htab [H| ->]%Hr; [|done].
    by apply (table_taken _ _ W) in Htab.
  - intros b [Hb Hne]%list_elem_of_difference. rewrite list_elem_of_singleton in Hne.
    destruct (Ho b Hb) as (H1 & H2 & H3). split; [by apply Hm|]. split; [|done].
    intros [H|H]%Hr; done.
  - by apply NoDup_list_difference.
Qed.

Lemma query_event s m va : is_u64 va → system_ok s m → runs_vevent (EQuery va) s m.
Proof.
  intros Hu Hok. pose proof Hok as [W Hpg Hk Ht Ho Hn]. unfold runs_vevent. cbn [do_vevent].
  destruct (page_addr va) eqn:Hp.
  - rewrite (query_spec P root hf (vs_state s) va zero_mapping W Hp). rewrite Hpg by done.
    cbn [mbind option_bind]. destruct (m !! va) as [e|] eqn:E; cbn [query_result];
      eexists _, _, m; (split; [done|]; split; [|done]); [by apply VS_query|by apply VS_query_none].
  - assert (vmm_query_page (Ref (kspace P root hf)) va (Ref zero_mapping) (vs_state s) =
      Some (VMM_ERR_INVAL, Ref zero_mapping)) as ->.
    { unfold vmm_query_page. unfold page_addr in Hp.
      by destruct (vmm_is_canonical va), (vmm_is_aligned_4k va). }
    cbn [mbind option_bind]. eexists _, _, m. split; [done|]. split; [by apply VS_query_inval|done].
Qed.

Lemma fill_event s m va : is_u64 va → system_ok s m → runs_vevent (EFill va) s m.
Proof.
  intros Hu [W Hpg Hk Ht Ho Hn]. unfold runs_vevent. cbn [do_vevent].
  eexists _, _, m. split; [done|]. split; [constructor|]. split; try done.
  cbn [vs_tlb]. destruct (page_entry P root (vs_state s) va) as [e|] eqn:E; [|done].
  destruct (page_addr va) eqn:Hp; [|done]. intros va' e' He.
  destruct (decide (va' = va)) as [->|Hne].
  - rewrite lookup_insert_eq in He. injection He as <-. by rewrite <-Hpg.
  - rewrite lookup_insert_ne in He by done. by apply Ht.
Qed.

Lemma evict_event s m va : system_ok s m → runs_vevent (EEvict va) s m.
Proof.
  intros [W Hpg Hk Ht Ho Hn]. unfold runs_vevent. cbn [do_vevent].
  eexists _, _, m. split; [done|]. split; [constructor|]. split; try done.
  cbn [vs_tlb]. intros va' e' He. apply lookup_delete_Some in He as [_ He]. by apply Ht.
Qed.

Lemma vevent_runs e s m : vevent_ok e → system_ok s m → runs_vevent e s m.
Proof.
  intros He Hok. destruct e as [va pa fl|va|va| |a|va|va]; simpl in He.
  - by apply map_event.
  - by apply unmap_event.
  - by apply query_event.
  - by apply take_event.
  - by apply give_event.
  - by apply fill_event.
  - by apply evict_event.
Qed.

Lemma vevents_run es s m : Forall vevent_ok es → system_ok s m →
  ∃ s' rs m', do_vevents P root hf es s = Some (s', rs) ∧ vruns s m es rs s' m' ∧ system_ok s' m'.
Proof.
  intros Hes. revert s m. induction Hes as [|e es He Hes IH]; intros s m Hok.
  { exists s, [], m. split; [done|]. by split; [constructor|]. }
  destruct (vevent_runs e s m He Hok) as (s1 & r & m1 & H1 & Hs1 & Hok1).
  destruct (IH s1 m1 Hok1) as (s2 & rs & m2 & H2 & Hs2 & Hok2).
  exists s2, (r :: rs), m2. cbn [do_vevents]. rewrite H1. cbn [mbind option_bind].
  rewrite H2. split; [done|]. split; [by econstructor|done].
Qed.

(** An address space that maps nothing, as [kernel_memory_init] makes it. *)
Lemma fresh_system st : vmm_wf P root st → (∀ va, page_entry P root st va = None) →
  system_ok (VSystem st ∅ []) ∅.
Proof.
  intros W H. split; cbn [vs_state vs_tlb vs_own]; try done; [|by apply NoDup_nil].
  intros a Ha. by apply elem_of_nil in Ha.
Qed.

(** C12. An address space over its whole life.  For any sequence of maps,
    unmaps and queries, during which other clients take frames from the same
    allocator and give them back and the processor caches and forgets
    translations, every call returns what a finite map from pages to entries
    says - except that mapping a page that is not mapped may fail with
    [VMM_ERR_NOMEM], which changes no page and happens only when the allocator
    is left without a free frame; and after every call the tables represent
    that map, each cached translation is the current one, because every unmap
    has invalidated it, and no frame held by a client is a table or could be
    handed out again. The allocator keeps the contract [FrameAllocatorOk] and
    its frames are mapped by [P] ([PhysMap]). *)
Theorem vmm_system_refines (es : list vevent) (s : vsystem C) (m : gmap Z Z) :
  Forall vevent_ok es → system_ok s m →
  ∃ s' rs m', do_vevents P root hf es s = Some (s', rs) ∧ vruns s m es rs s' m' ∧ system_ok s' m'.
Proof. apply vevents_run. Qed.
End Invariant.

(** ** A concrete space *)

(** Over the demo memory manager, with frame 1 as the root table: a page is
    mapped, cached, unmapped and mapped again while frames come and go. *)
Definition demo_events : list vevent :=
  [EMap 0x400000 0x8000 3; EFill 0x400000; ETake; EQuery 0x400000; EUnmap 0x400000; EGive 0x5000;
   EMap 0x400000 0x9000 1; EEvict 0x400000; EMap 0x400001 0x9000 1].

Lemma demo_events_ok : Forall vevent_ok demo_events.
Proof. unfold demo_events. repeat (apply Forall_cons; split); try done; words. Qed.

Lemma demo_system : ∃ st, system_ok hhdm 4096 (VSystem st ∅ []) ∅.
Proof.
  destruct (pmm_alloc_frame (Ref demo_pmm)) as [[[|p] r]|] eqn:E;
    [vm_compute in E; discriminate| |vm_compute in E; discriminate].
  assert (r = 4096) by (vm_compute in E; congruence). subst r.
  destruct (zero_entries 512 0 (hhdm 4096) (zero_ram 16)) as (m & Hm & _).
  { intros j Hj. apply (zero_ram_mapped 16 1); lia. }
  destruct (space_from_frame demo_pmm (zero_ram 16) 16 p 4096 m demo_ready eq_refl
    (zero_ram_mapped 16) E ltac:(discriminate) Hm) as [W Hnone].
  exists (VState m p []). by apply fresh_system.
Qed.

Lemma vmm_system_refines_witness :
  ∃ s s' rs m', do_vevents hhdm 4096 true demo_events s = Some (s', rs) ∧
    vruns hhdm 4096 true s ∅ demo_events rs s' m' ∧ system_ok hhdm 4096 s' m'.
Proof.
  destruct demo_system as [st Hok]. exists (VSystem st ∅ []).
  apply (vmm_system_refines hhdm 4096 true demo_events _ ∅ demo_events_ok Hok).
Defined.
