(* ===== verification/Journal.v ===== *)
(** MCSFS1J ([src/kernel/fs/mcsfs1j/m16_mcsfs_journal.c]): the file system with
    a write-ahead journal. Structures are records with their byte layout; the
    device is the in-memory block array of the source with its fault injection
    counter. *)
From S2P Require Import Prelude Bitmap Bytes Cstr Err.

#[local] Open Scope err_scope.

(** ** Constants *)

Definition M16_BLOCK_SIZE : Z := 512.
Definition M16_MAX_BLOCKS : Z := 128.
Definition M16_MAX_INODES : Z := 16.
Definition M16_MAX_NAME : Z := 32.
Definition M16_MAGIC : Z := 0x4d43534631564a31.
Definition M16_JMAGIC : Z := 0x4d43534a524e4c31.
Definition M16_VERSION : Z := 1.
Definition M16_J_EMPTY : Z := 0.
Definition M16_J_COMMITTED : Z := 2.
Definition M16_JOURNAL_MAX_RECORDS : Z := 8.
Definition M16_JOURNAL_START : Z := 1.
Definition M16_JOURNAL_BLOCKS : Z := 1 + 2 * M16_JOURNAL_MAX_RECORDS.
Definition M16_INODE_BITMAP_LBA : Z := M16_JOURNAL_START + M16_JOURNAL_BLOCKS.
Definition M16_BLOCK_BITMAP_LBA : Z := M16_INODE_BITMAP_LBA + 1.
Definition M16_INODE_TABLE_LBA : Z := M16_BLOCK_BITMAP_LBA + 1.
Definition M16_INODE_TABLE_BLOCKS : Z := 4.
Definition M16_ROOT_DIR_LBA : Z := M16_INODE_TABLE_LBA + M16_INODE_TABLE_BLOCKS.
Definition M16_DATA_START_LBA : Z := M16_ROOT_DIR_LBA + 1.

Definition M16_E_INVAL : Z := -1.
Definition M16_E_IO : Z := -2.
Definition M16_E_NOSPC : Z := -3.
Definition M16_E_EXISTS : Z := -4.
Definition M16_E_NOENT : Z := -5.
Definition M16_E_CORRUPT : Z := -6.
Definition M16_E_TOOLONG : Z := -7.

(** ** Structures and their layout *)

Record m16_blockdev := M16Dev {
  blocks : list (list Z);
  total_blocks : Z;
  writes : Z;
  fail_after : Z;
}.

Record m16_super := M16Super {
  s_magic : Z;
  s_version : Z;
  s_block_size : Z;
  s_total_blocks : Z;
  s_journal_start : Z;
  s_journal_blocks : Z;
  s_inode_bitmap_lba : Z;
  s_block_bitmap_lba : Z;
  s_inode_table_lba : Z;
  s_inode_table_blocks : Z;
  s_root_dir_lba : Z;
  s_data_start_lba : Z;
  s_clean_generation : Z;
  s_reserved : list Z;
}.

Definition super_bytes (s : m16_super) : list Z :=
  le_encode 8 (s_magic s) ++ le_encode 4 (s_version s) ++ le_encode 4 (s_block_size s) ++
  le_encode 4 (s_total_blocks s) ++ le_encode 4 (s_journal_start s) ++
  le_encode 4 (s_journal_blocks s) ++ le_encode 4 (s_inode_bitmap_lba s) ++
  le_encode 4 (s_block_bitmap_lba s) ++ le_encode 4 (s_inode_table_lba s) ++
  le_encode 4 (s_inode_table_blocks s) ++ le_encode 4 (s_root_dir_lba s) ++
  le_encode 4 (s_data_start_lba s) ++ le_encode 4 (s_clean_generation s) ++ s_reserved s.
Definition super_of (l : list Z) : m16_super :=
  M16Super (field 8 0 l) (field 4 8 l) (field 4 12 l) (field 4 16 l) (field 4 20 l)
    (field 4 24 l) (field 4 28 l) (field 4 32 l) (field 4 36 l) (field 4 40 l)
    (field 4 44 l) (field 4 48 l) (field 4 52 l) (drop 56 l).

Record m16_inode := M16Inode {
  i_used : Z;
  i_kind : Z;
  i_size : Z;
  i_direct : list Z;
  i_reserved : list Z;
}.

Definition inode_bytes (i : m16_inode) : list Z :=
  le_encode 4 (i_used i) ++ le_encode 4 (i_kind i) ++ le_encode 4 (i_size i) ++
  concat (le_encode 4 <$> i_direct i) ++ i_reserved i.
Definition inode_of (l : list Z) : m16_inode :=
  M16Inode (field 4 0 l) (field 4 4 l) (field 4 8 l)
    [field 4 12 l; field 4 16 l; field 4 20 l; field 4 24 l] (drop 28 l).

Record m16_dirent := M16Dirent {
  d_used : Z;
  d_ino : Z;
  d_name : list Z;
}.

Definition dirent_bytes (d : m16_dirent) : list Z :=
  le_encode 4 (d_used d) ++ le_encode 4 (d_ino d) ++ d_name d.
Definition dirent_of (l : list Z) : m16_dirent :=
  M16Dirent (field 4 0 l) (field 4 4 l) (drop 8 l).

Record m16_journal_header := M16Header {
  h_magic : Z;
  h_version : Z;
  h_state : Z;
  h_seq : Z;
  h_count : Z;
  header_checksum : Z;
  h_reserved : list Z;
}.

Definition header_bytes (h : m16_journal_header) : list Z :=
  le_encode 8 (h_magic h) ++ le_encode 4 (h_version h) ++ le_encode 4 (h_state h) ++
  le_encode 4 (h_seq h) ++ le_encode 4 (h_count h) ++ le_encode 4 (header_checksum h) ++
  h_reserved h.
Definition header_of (l : list Z) : m16_journal_header :=
  M16Header (field 8 0 l) (field 4 8 l) (field 4 12 l) (field 4 16 l) (field 4 20 l)
    (field 4 24 l) (drop 28 l).

Record m16_journal_desc := M16Desc {
  j_magic : Z;
  target_lba : Z;
  payload_checksum : Z;
  j_reserved : list Z;
}.

Definition desc_bytes (d : m16_journal_desc) : list Z :=
  le_encode 8 (j_magic d) ++ le_encode 4 (target_lba d) ++
  le_encode 4 (payload_checksum d) ++ j_reserved d.
Definition desc_of (l : list Z) : m16_journal_desc :=
  M16Desc (field 8 0 l) (field 4 8 l) (field 4 12 l) (drop 16 l).

(** A journal record, and a transaction: the first [count] entries of the
    array [rec]; [count] is the length. *)
Record m16_jrec := M16Jrec {
  r_target : Z;
  r_payload : list Z;
}.
Abbreviation m16_tx := (list m16_jrec).

(** ** Helpers *)

Definition m16_zero (n : nat) : list Z := replicate n 0.

(** [m16_copy(dst, src, n)]. *)
Definition m16_copy (dst src : list Z) (n : Z) : option (list Z) :=
  mem_copy (Z.to_nat n) dst src.

Definition m16_strlen_bounded (s : list Z) (max : Z) : option Z :=
  strlen_loop (Z.to_nat max) s 0.

Fixpoint m16_streq_loop (fuel : nat) (a b : list Z) (i : Z) : option bool :=
  match fuel with
  | O => Some true
  | S fuel' =>
      x ← arr_get a i;
      y ← arr_get b i;
      if negb (x =? y) then Some false else
      if x =? 0 then Some true else m16_streq_loop fuel' a b (i + 1)
  end.
Definition m16_streq (a b : list Z) : option bool :=
  m16_streq_loop (Z.to_nat M16_MAX_NAME) a b 0.

Definition m16_checksum (p : list Z) : Z :=
  foldl (λ h b, u32 (Z.lxor h b * 16777619)) 2166136261 p.

Definition m16_valid_lba (dev : m16_blockdev) (lba : Z) : bool :=
  (lba <? total_blocks dev) && (lba <? M16_MAX_BLOCKS).

Definition m16_bitmap_set (bm : list Z) (b : Z) : option (list Z) :=
  x ← arr_get bm (b / 8);
  arr_set bm (b / 8) (u8 (Z.lor x (u8 (Z.shiftl 1 (b mod 8))))).
Definition m16_bitmap_get (bm : list Z) (b : Z) : option bool :=
  x ← arr_get bm (b / 8);
  Some (negb (Z.land x (u8 (Z.shiftl 1 (b mod 8))) =? 0)).

(** ** The device *)

Definition m16_read_block (lba : Z) : M m16_blockdev (list Z) := λ dev,
  if negb (m16_valid_lba dev lba) then Some (dev, inl M16_E_INVAL) else
  match arr_get (blocks dev) lba with
  | Some b => Some (dev, inr b)
  | None => None
  end.

Definition m16_write_block (lba : Z) (data : list Z) : M m16_blockdev unit := λ dev,
  if negb (m16_valid_lba dev lba) then Some (dev, inl M16_E_INVAL) else
  if fail_after dev =? 0 then Some (dev, inl M16_E_IO) else
  let fa := if 0 <? fail_after dev then fail_after dev - 1 else fail_after dev in
  match arr_set (blocks dev) lba data with
  | Some bs => Some (M16Dev bs (total_blocks dev) (u64 (writes dev + 1)) fa, inr tt)
  | None => None
  end.

Definition m16_dev_init (dev : ptr m16_blockdev) : ptr m16_blockdev :=
  match dev with
  | Null => Null
  | Ref _ => Ref (M16Dev (replicate 128 (m16_zero 512)) M16_MAX_BLOCKS 0 (-1))
  end.

(** The entry points check [dev == NULL] first. *)
Definition with_dev {A} (dev : ptr m16_blockdev) (m : M m16_blockdev A) :
    option (ptr m16_blockdev * (Z + A)) :=
  match dev with
  | Null => Some (Null, inl M16_E_INVAL)
  | Ref d => match m d with Some (d', r) => Some (Ref d', r) | None => None end
  end.

(** ** Inode table and transactions *)

Definition m16_load_inode_table : M m16_blockdev (list m16_inode) :=
  raw <- mfold 4 0 []
    (λ i raw, b <- m16_read_block (M16_INODE_TABLE_LBA + i);; mok (raw ++ b));;
  mok (inode_of <$> chunks 16 128 raw).

(** The inode array as the bytes that [raw] points to. *)
Definition inodes_raw (inodes : list m16_inode) : list Z := concat (inode_bytes <$> inodes).

Definition m16_store_inode_table (tx : m16_tx) (inodes : list m16_inode) : Z + m16_tx :=
  if M16_JOURNAL_MAX_RECORDS <? zlen tx + M16_INODE_TABLE_BLOCKS then inl M16_E_NOSPC
  else inr (tx ++ imap (λ i b, M16Jrec (M16_INODE_TABLE_LBA + Z.of_nat i) b)
                    (chunks 4 512 (inodes_raw inodes))).

Definition m16_tx_add (tx : m16_tx) (lba : Z) (payload : list Z) : Z + m16_tx :=
  if M16_JOURNAL_MAX_RECORDS <=? zlen tx then inl M16_E_NOSPC
  else inr (tx ++ [M16Jrec lba payload]).

(** A call that only builds a transaction, in a function on the device. *)
Definition mtx {A} (r : Z + A) : M m16_blockdev A := λ dev, Some (dev, r).

(** ** The journal *)

Definition set_header_checksum (c : Z) (h : m16_journal_header) : m16_journal_header :=
  M16Header (h_magic h) (h_version h) (h_state h) (h_seq h) (h_count h) c (h_reserved h).

Definition m16_header_checksum (h : m16_journal_header) : Z :=
  m16_checksum (header_bytes (set_header_checksum 0 h)).

Definition m16_journal_clear : M m16_blockdev unit :=
  m16_write_block M16_JOURNAL_START (m16_zero 512).

Definition desc_lba (i : Z) : Z := M16_JOURNAL_START + 1 + i * 2.
Definition data_lba (i : Z) : Z := desc_lba i + 1.

Definition desc_for (r : m16_jrec) : m16_journal_desc :=
  M16Desc M16_JMAGIC (r_target r) (m16_checksum (r_payload r)) (m16_zero 496).

(** The loop that writes descriptor and payload of every record. *)
Fixpoint commit_records (i : Z) (tx : m16_tx) : M m16_blockdev unit :=
  match tx with
  | [] => mok tt
  | r :: tx' =>
      m16_write_block (desc_lba i) (desc_bytes (desc_for r)) ;;;
      m16_write_block (data_lba i) (r_payload r) ;;;
      commit_records (i + 1) tx'
  end.

(** The loop that writes every record to its home location. *)
Fixpoint commit_home (tx : m16_tx) : M m16_blockdev unit :=
  match tx with
  | [] => mok tt
  | r :: tx' => m16_write_block (r_target r) (r_payload r) ;;; commit_home tx'
  end.

Definition commit_header (tx : m16_tx) (seq : Z) : m16_journal_header :=
  let h := M16Header M16_JMAGIC M16_VERSION M16_J_COMMITTED seq (zlen tx) 0 (m16_zero 484) in
  set_header_checksum (m16_header_checksum h) h.

Definition m16_journal_commit (tx : m16_tx) (seq : Z) (stop_after_commit_record : bool) :
    M m16_blockdev unit :=
  guard_err zlen tx <=? M16_JOURNAL_MAX_RECORDS else M16_E_INVAL ;;
  m16_journal_clear ;;;
  commit_records 0 tx ;;;
  m16_write_block M16_JOURNAL_START (header_bytes (commit_header tx seq)) ;;;
  if stop_after_commit_record then mok tt else
  commit_home tx ;;;
  m16_journal_clear.

(** One record of the replay. *)
Definition recover_record (i : Z) : M m16_blockdev unit :=
  dblk <- m16_read_block (desc_lba i) ;;
  let d := desc_of dblk in
  ok <- mget (λ dev, m16_valid_lba dev (target_lba d)) ;;
  guard_err (j_magic d =? M16_JMAGIC) && ok else M16_E_CORRUPT ;;
  payload <- m16_read_block (data_lba i) ;;
  guard_err m16_checksum payload =? payload_checksum d else M16_E_CORRUPT ;;
  m16_write_block (target_lba d) payload.

Definition m16_journal_recover : M m16_blockdev unit :=
  hblk <- m16_read_block M16_JOURNAL_START ;;
  let h := header_of hblk in
  if (h_magic h =? 0) && (h_state h =? M16_J_EMPTY) then mok tt else
  guard_err (h_magic h =? M16_JMAGIC) && (h_version h =? M16_VERSION) &&
    (h_state h =? M16_J_COMMITTED) && (h_count h <=? M16_JOURNAL_MAX_RECORDS)
    else M16_E_CORRUPT ;;
  guard_err m16_header_checksum h =? header_checksum h else M16_E_CORRUPT ;;
  mfor (Z.to_nat (h_count h)) 0 recover_record ;;;
  m16_journal_clear.

(** ** Formatting and mounting *)

Definition format_super (total : Z) : m16_super :=
  M16Super M16_MAGIC M16_VERSION M16_BLOCK_SIZE total M16_JOURNAL_START M16_JOURNAL_BLOCKS
    M16_INODE_BITMAP_LBA M16_BLOCK_BITMAP_LBA M16_INODE_TABLE_LBA M16_INODE_TABLE_BLOCKS
    M16_ROOT_DIR_LBA M16_DATA_START_LBA 1 (m16_zero 456).

(** [for (b = i; b < i + n; b++) m16_bitmap_set(bm, b)]. *)
Fixpoint set_bits (n : nat) (i : Z) (bm : list Z) : option (list Z) :=
  match n with
  | O => Some bm
  | S n' => bm' ← m16_bitmap_set bm i; set_bits n' (i + 1) bm'
  end.

Definition zero_inode : m16_inode := M16Inode 0 0 0 [0; 0; 0; 0] (m16_zero 100).
Definition root_inode : m16_inode := M16Inode 1 2 0 [M16_ROOT_DIR_LBA; 0; 0; 0] (m16_zero 100).

Definition m16_format : M m16_blockdev unit := λ dev,
  (m16_write_block 0 (super_bytes (format_super (total_blocks dev))) ;;;
   ib <- mub (m16_bitmap_set (m16_zero 512) 0) ;;
   bb <- mub (set_bits (Z.to_nat M16_DATA_START_LBA) 0 (m16_zero 512)) ;;
   m16_write_block M16_INODE_BITMAP_LBA ib ;;;
   m16_write_block M16_BLOCK_BITMAP_LBA bb ;;;
   let raw := inodes_raw (root_inode :: replicate 15 zero_inode) in
   mfor 4 0 (λ i, m16_write_block (M16_INODE_TABLE_LBA + i) (slice (Z.to_nat i * 512) 512 raw)) ;;;
   m16_write_block M16_ROOT_DIR_LBA (m16_zero 512) ;;;
   m16_journal_clear)
  (M16Dev (replicate 128 (m16_zero 512)) (total_blocks dev) (writes dev) (fail_after dev)).

Definition m16_mount : M m16_blockdev m16_super :=
  m16_journal_recover ;;;
  sblk <- m16_read_block 0 ;;
  let sb := super_of sblk in
  guard_err (s_magic sb =? M16_MAGIC) && (s_version sb =? M16_VERSION) &&
    (s_block_size sb =? M16_BLOCK_SIZE) else M16_E_CORRUPT ;;
  guard_err (s_data_start_lba sb =? M16_DATA_START_LBA) &&
    (s_root_dir_lba sb =? M16_ROOT_DIR_LBA) else M16_E_CORRUPT ;;
  mok sb.

(** ** Files *)

(** The first clear bit among [n] from [i]; [None] when there is none. *)
Fixpoint find_clear (n : nat) (i : Z) (bm : list Z) : option (option Z) :=
  match n with
  | O => Some None
  | S n' =>
      t ← m16_bitmap_get bm i;
      if (t : bool) then find_clear n' (i + 1) bm else Some (Some i)
  end.

Definition or_nospc (r : option Z) : Z := match r with Some i => i | None => M16_E_NOSPC end.

Definition m16_find_free_inode (ib : list Z) : option Z :=
  r ← find_clear (Z.to_nat (M16_MAX_INODES - 1)) 1 ib; Some (or_nospc r).
Definition m16_find_free_block (bb : list Z) : option Z :=
  r ← find_clear (Z.to_nat (M16_MAX_BLOCKS - M16_DATA_START_LBA)) M16_DATA_START_LBA bb;
  Some (or_nospc r).

(** The directory block as an array of [512 / sizeof(struct m16_dirent)]
    entries. *)
Definition dir_entry (dir : list Z) (i : nat) : m16_dirent := dirent_of (slice (i * 40) 40 dir).
Definition dir_set (dir : list Z) (i : nat) (d : m16_dirent) : list Z :=
  splice (i * 40) (dirent_bytes d) dir.

Fixpoint find_dirent_loop (n : nat) (i : nat) (dir name : list Z) : option Z :=
  match n with
  | O => Some M16_E_NOENT
  | S n' =>
      let d := dir_entry dir i in
      if d_used d =? 0 then find_dirent_loop n' (S i) dir name else
      eq ← m16_streq (d_name d) name;
      if (eq : bool) then Some (Z.of_nat i) else find_dirent_loop n' (S i) dir name
  end.
Definition m16_find_dirent (dir name : list Z) : option Z := find_dirent_loop 12 0 dir name.

Fixpoint find_free_dirent_loop (n : nat) (i : nat) (dir : list Z) : Z :=
  match n with
  | O => M16_E_NOSPC
  | S n' => if d_used (dir_entry dir i) =? 0 then Z.of_nat i
            else find_free_dirent_loop n' (S i) dir
  end.
Definition m16_find_free_dirent (dir : list Z) : Z := find_free_dirent_loop 12 0 dir.

(** [inodes[ino] = f(inodes[ino])]. *)
Definition update_inode (inodes : list m16_inode) (ino : Z) (f : m16_inode → m16_inode) :
    option (list m16_inode) :=
  i ← arr_get inodes ino; arr_set inodes ino (f i).

Definition fill_inode (size data_block : Z) (i : m16_inode) : m16_inode :=
  M16Inode 1 1 size (<[0%nat:=data_block]> (i_direct i)) (i_reserved i).

(** The second half of [m16_write_file_ex], once inode, block and directory
    slot have been chosen: the two transactions. *)
Definition write_file_commit (sb : m16_super) (ib bb : list Z) (inodes : list m16_inode)
    (dir name : list Z) (name_len : Z) (data : list Z) (size ino data_block slot : Z)
    (stop_after_commit_record : bool) : M m16_blockdev unit :=
  data_blk <- mub (m16_copy (m16_zero 512) data size) ;;
  ib <- mub (m16_bitmap_set ib ino) ;;
  bb <- mub (m16_bitmap_set bb data_block) ;;
  inodes <- mub (update_inode inodes ino (fill_inode size data_block)) ;;
  dname <- mub (m16_copy (m16_zero 32) name name_len) ;;
  let dir := dir_set dir (Z.to_nat slot) (M16Dirent 1 ino dname) in
  tx <- mtx (m16_tx_add [] M16_INODE_BITMAP_LBA ib) ;;
  tx <- mtx (m16_tx_add tx M16_BLOCK_BITMAP_LBA bb) ;;
  tx <- mtx (m16_store_inode_table tx inodes) ;;
  m16_journal_commit tx (u32 (s_clean_generation sb + 1)) false ;;;
  tx <- mtx (m16_tx_add [] M16_ROOT_DIR_LBA dir) ;;
  tx <- mtx (m16_tx_add tx data_block data_blk) ;;
  m16_journal_commit tx (u32 (s_clean_generation sb + 2)) stop_after_commit_record.

Definition m16_write_file_ex (name data : ptr (list Z)) (size : Z)
    (stop_after_commit_record : bool) : M m16_blockdev unit :=
  match name, data with
  | Ref name, Ref data =>
      name_len <- mub (m16_strlen_bounded name M16_MAX_NAME) ;;
      guard_err negb ((name_len =? 0) || (M16_MAX_NAME <=? name_len)) else M16_E_TOOLONG ;;
      guard_err size <=? M16_BLOCK_SIZE else M16_E_INVAL ;;
      sb <- m16_mount ;;
      ib <- m16_read_block M16_INODE_BITMAP_LBA ;;
      bb <- m16_read_block M16_BLOCK_BITMAP_LBA ;;
      inodes <- m16_load_inode_table ;;
      dir <- m16_read_block M16_ROOT_DIR_LBA ;;
      found <- mub (m16_find_dirent dir name) ;;
      guard_err found <? 0 else M16_E_EXISTS ;;
      ino <- mub (m16_find_free_inode ib) ;;
      guard_err 0 <=? ino else ino ;;
      data_block <- mub (m16_find_free_block bb) ;;
      guard_err 0 <=? data_block else data_block ;;
      let slot := m16_find_free_dirent dir in
      guard_err 0 <=? slot else slot ;;
      write_file_commit sb ib bb inodes dir name name_len data size ino data_block slot
        stop_after_commit_record
  | _, _ => merr M16_E_INVAL
  end.

Definition m16_write_file (name data : ptr (list Z)) (size : Z) : M m16_blockdev unit :=
  m16_write_file_ex name data size false.

(** Returns the buffer [out] after the call and [*out_size]. *)
Definition m16_read_file (name out : ptr (list Z)) (out_cap : Z) (out_size : ptr Z) :
    M m16_blockdev (list Z * Z) :=
  match name, out, out_size with
  | Ref name, Ref out, Ref _ =>
      m16_mount ;;;
      inodes <- m16_load_inode_table ;;
      dir <- m16_read_block M16_ROOT_DIR_LBA ;;
      slot <- mub (m16_find_dirent dir name) ;;
      guard_err 0 <=? slot else slot ;;
      let ino := d_ino (dir_entry dir (Z.to_nat slot)) in
      guard_err ino <? M16_MAX_INODES else M16_E_CORRUPT ;;
      inode <- mub (arr_get inodes ino) ;;
      guard_err negb ((i_used inode =? 0) || negb (i_kind inode =? 1)) else M16_E_CORRUPT ;;
      direct0 <- mub (arr_get (i_direct inode) 0) ;;
      total <- mget total_blocks ;;
      guard_err negb ((out_cap <? i_size inode) || (total <=? direct0)) else M16_E_INVAL ;;
      blk <- m16_read_block direct0 ;;
      out' <- mub (m16_copy out blk (i_size inode)) ;;
      mok (out', i_size inode)
  | _, _, _ => merr M16_E_INVAL
  end.

(** ** Consistency check *)

(** [for (b = i; b < i + n; b++) if (!get(bb, b)) return CORRUPT;] *)
Fixpoint all_set (n : nat) (i : Z) (bm : list Z) : option bool :=
  match n with
  | O => Some true
  | S n' => t ← m16_bitmap_get bm i;
            if (t : bool) then all_set n' (i + 1) bm else Some false
  end.

(** The checks on one directory entry. *)
Definition fsck_entry (total : Z) (ib bb : list Z) (inodes : list m16_inode)
    (d : m16_dirent) : option bool :=
  if d_used d =? 0 then Some true else
  if M16_MAX_INODES <=? d_ino d then Some false else
  t ← m16_bitmap_get ib (d_ino d);
  if negb t then Some false else
  inode ← arr_get inodes (d_ino d);
  if (i_used inode =? 0) || negb (i_kind inode =? 1) || (M16_BLOCK_SIZE <? i_size inode)
  then Some false else
  direct0 ← arr_get (i_direct inode) 0;
  if (direct0 <? M16_DATA_START_LBA) || (total <=? direct0) then Some false else
  m16_bitmap_get bb direct0.

Fixpoint fsck_dir (n : nat) (i : nat) (total : Z) (ib bb dir : list Z)
    (inodes : list m16_inode) : option bool :=
  match n with
  | O => Some true
  | S n' =>
      t ← fsck_entry total ib bb inodes (dir_entry dir i);
      if (t : bool) then fsck_dir n' (S i) total ib bb dir inodes else Some false
  end.

Definition m16_fsck : M m16_blockdev unit :=
  m16_mount ;;;
  ib <- m16_read_block M16_INODE_BITMAP_LBA ;;
  bb <- m16_read_block M16_BLOCK_BITMAP_LBA ;;
  inodes <- m16_load_inode_table ;;
  dir <- m16_read_block M16_ROOT_DIR_LBA ;;
  r0 <- mub (m16_bitmap_get ib 0) ;;
  i0 <- mub (arr_get inodes 0) ;;
  direct0 <- mub (arr_get (i_direct i0) 0) ;;
  guard_err r0 && (i_used i0 =? 1) && (i_kind i0 =? 2) && (direct0 =? M16_ROOT_DIR_LBA)
    else M16_E_CORRUPT ;;
  sys <- mub (all_set (Z.to_nat M16_DATA_START_LBA) 0 bb) ;;
  guard_err sys else M16_E_CORRUPT ;;
  total <- mget total_blocks ;;
  ents <- mub (fsck_dir 12 0 total ib bb dir inodes) ;;
  guard_err ents else M16_E_CORRUPT ;;
  mok tt.
