(* ===== verification/JournalCrash.v ===== *)
(** Crash atomicity of the MCSFS1J journal: what a commit interrupted at any
    block write, and recoveries interrupted in turn, leave on the device. *)
From S2P Require Import Prelude Bytes Err Journal.

#[local] Open Scope err_scope.

(** ** Sequences of block writes *)

(** A commit and a replay only ever write blocks: both are lists of writes. *)
Abbreviation wlist := (list (Z * list Z)).

Fixpoint mwrites (ws : wlist) : M m16_blockdev unit :=
  match ws with
  | [] => mok tt
  | w :: ws' => m16_write_block w.1 w.2 ;;; mwrites ws'
  end.

Definition apply_writes (ws : wlist) (bs : list (list Z)) : list (list Z) :=
  foldl (λ bs w, <[Z.to_nat w.1 := w.2]> bs) bs ws.

(** The data of the last write to [lba]. *)
Fixpoint last_write (ws : wlist) (lba : Z) : option (list Z) :=
  match ws with
  | [] => None
  | w :: ws' =>
      match last_write ws' lba with
      | Some b => Some b
      | None => if decide (w.1 = lba) then Some w.2 else None
      end
  end.

(** How many of [n] writes the fault counter lets through. *)
Definition let_through (fa : Z) (n : nat) : nat :=
  if fa <? 0 then n else Nat.min (Z.to_nat fa) n.

(** The device after its power returns. *)
Definition with_fault (dev : m16_blockdev) (fa : Z) : m16_blockdev :=
  M16Dev (blocks dev) (total_blocks dev) (writes dev) fa.
Definition reboot (dev : m16_blockdev) : m16_blockdev := with_fault dev (-1).

(** The writes of a commit. *)
Fixpoint record_writes (i : Z) (tx : m16_tx) : wlist :=
  match tx with
  | [] => []
  | r :: tx' =>
      (desc_lba i, desc_bytes (desc_for r)) :: (data_lba i, r_payload r) ::
      record_writes (i + 1) tx'
  end.
Definition home_writes (tx : m16_tx) : wlist := (λ r, (r_target r, r_payload r)) <$> tx.
Definition clear_write : Z * list Z := (M16_JOURNAL_START, m16_zero 512).
Definition header_write (tx : m16_tx) (seq : Z) : Z * list Z :=
  (M16_JOURNAL_START, header_bytes (commit_header tx seq)).
Definition commit_writes (tx : m16_tx) (seq : Z) : wlist :=
  [clear_write] ++ record_writes 0 tx ++ [header_write tx seq] ++ home_writes tx ++
  [clear_write].

(** ** Their laws *)

Definition geometry (dev : m16_blockdev) : Prop :=
  zlen (blocks dev) = 128 ∧ 18 < total_blocks dev ≤ 128.
Definition in_range (dev : m16_blockdev) (ws : wlist) : Prop :=
  Forall (λ w, 0 ≤ w.1 < total_blocks dev) ws.

Lemma length_apply_writes ws bs : length (apply_writes ws bs) = length bs.
Proof.
  unfold apply_writes. revert bs. induction ws as [|w ws IH]; intros bs; simpl; [done|].
  by rewrite IH, length_insert.
Qed.

Lemma apply_writes_app ws1 ws2 bs :
  apply_writes (ws1 ++ ws2) bs = apply_writes ws2 (apply_writes ws1 bs).
Proof. unfold apply_writes. apply foldl_app. Qed.

Lemma apply_writes_lookup ws bs lba :
  Forall (λ w, 0 ≤ w.1 < zlen bs) ws → 0 ≤ lba →
  apply_writes ws bs !! Z.to_nat lba =
    match last_write ws lba with Some b => Some b | None => bs !! Z.to_nat lba end.
Proof.
  unfold apply_writes. revert bs.
  induction ws as [|w ws IH]; intros bs Hws Hl; simpl; [done|].
  apply Forall_cons in Hws as [Hw Hws].
  rewrite IH by (try rewrite zlen_insert; done).
  destruct (last_write ws lba); [done|]. case_decide as E.
  - rewrite E, list_lookup_insert_eq; [done|]. unfold zlen in Hw. lia.
  - apply list_lookup_insert_ne. lia.
Qed.

Lemma last_write_app ws1 ws2 lba :
  last_write (ws1 ++ ws2) lba =
    match last_write ws2 lba with Some b => Some b | None => last_write ws1 lba end.
Proof.
  induction ws1 as [|w ws1 IH]; simpl; [by destruct (last_write ws2 lba)|].
  rewrite IH. by destruct (last_write ws2 lba).
Qed.

Lemma last_write_None ws lba : Forall (λ w, w.1 ≠ lba) ws → last_write ws lba = None.
Proof.
  induction 1 as [|w ws Hw Hws IH]; simpl; [done|]. rewrite IH. by rewrite decide_False.
Qed.

Lemma last_write_take_None k ws lba :
  last_write ws lba = None → last_write (take k ws) lba = None.
Proof.
  rewrite <-(take_drop k ws) at 1. rewrite last_write_app.
  by destruct (last_write (drop k ws) lba).
Qed.

Lemma write_block_run dev lba data : geometry dev → 0 ≤ lba < total_blocks dev →
  m16_write_block lba data dev =
    if fail_after dev =? 0 then Some (dev, inl M16_E_IO) else
    Some (M16Dev (<[Z.to_nat lba := data]> (blocks dev)) (total_blocks dev)
      (u64 (writes dev + 1))
      (if 0 <? fail_after dev then fail_after dev - 1 else fail_after dev), inr tt).
Proof.
  intros [Hl Ht] Hlba. unfold m16_write_block, m16_valid_lba.
  replace (lba <? total_blocks dev) with true by (symmetry; apply Z.ltb_lt; lia).
  replace (lba <? M16_MAX_BLOCKS) with true
    by (symmetry; apply Z.ltb_lt; unfold M16_MAX_BLOCKS; lia).
  cbn [andb negb]. destruct (_ =? 0); [done|]. rewrite arr_set_ok by lia. done.
Qed.

Lemma read_block_run dev lba : geometry dev → 0 ≤ lba < total_blocks dev →
  ∃ b, m16_read_block lba dev = Some (dev, inr b) ∧ blocks dev !! Z.to_nat lba = Some b.
Proof.
  intros [Hl Ht] Hlba. unfold m16_read_block, m16_valid_lba.
  replace (lba <? total_blocks dev) with true by (symmetry; apply Z.ltb_lt; lia).
  replace (lba <? M16_MAX_BLOCKS) with true
    by (symmetry; apply Z.ltb_lt; unfold M16_MAX_BLOCKS; lia).
  cbn [andb negb].
  destruct (arr_get_is_Some (blocks dev) lba) as [b Hb]; [lia|].
  rewrite Hb. exists b. split; [done|]. by apply arr_get_Some in Hb as [_ ?].
Qed.

Lemma read_block_at dev lba b : geometry dev → 0 ≤ lba < total_blocks dev →
  blocks dev !! Z.to_nat lba = Some b → m16_read_block lba dev = Some (dev, inr b).
Proof.
  intros Hg Hl Hb. destruct (read_block_run dev lba Hg Hl) as (b' & -> & Hb'). congruence.
Qed.

(** What a list of writes does, for every value of the fault counter: a
    prefix of it reaches the device. *)
Lemma mwrites_run ws dev : geometry dev → in_range dev ws →
  ∃ w fa, let k := let_through (fail_after dev) (length ws) in
    mwrites ws dev = Some (M16Dev (apply_writes (take k ws) (blocks dev))
      (total_blocks dev) w fa,
      if decide (k = length ws) then inr tt else inl M16_E_IO) ∧
    (fail_after dev < 0 → fa = fail_after dev).
Proof.
  revert dev. induction ws as [|[lba d] ws IH]; intros dev Hg Hr; cbn zeta.
  { exists (writes dev), (fail_after dev). simpl. unfold let_through.
    rewrite Nat.min_0_r. destruct dev. simpl. by destruct (_ <? 0). }
  apply Forall_cons in Hr as [Hlba Hr]. simpl in Hlba. cbn [mwrites fst snd].
  unfold mseq at 1. rewrite write_block_run by done.
  destruct (Z.eqb_spec (fail_after dev) 0) as [E|E].
  - exists (writes dev), (fail_after dev). unfold let_through. rewrite E. simpl.
    split; [|done]. destruct dev; simpl in *. subst. done.
  - match goal with |- context [mwrites ws ?x] => set (dev1 := x) end.
    destruct (IH dev1) as (w & fa & H & Hfa).
    + destruct Hg. split; [|done]. simpl. by rewrite zlen_insert.
    + done.
    + cbn zeta in H. exists w, fa.
      assert (let_through (fail_after dev) (length ((lba, d) :: ws)) =
              S (let_through (fail_after dev1) (length ws))) as ->.
      { unfold let_through. subst dev1. simpl.
        destruct (Z.ltb_spec (fail_after dev) 0).
        - destruct (Z.ltb_spec 0 (fail_after dev)); [lia|].
          destruct (Z.ltb_spec (fail_after dev) 0); lia.
        - destruct (Z.ltb_spec 0 (fail_after dev)); [|lia].
          destruct (Z.ltb_spec (fail_after dev - 1) 0); lia. }
      rewrite H. simpl. split.
      * repeat f_equal. repeat case_decide; (done || lia).
      * intros. assert (fail_after dev1 = fail_after dev) as Hf.
        { subst dev1. simpl. destruct (Z.ltb_spec 0 (fail_after dev)); lia. }
        rewrite <-Hf. apply Hfa. lia.
Qed.

Lemma mwrites_app ws1 ws2 dev :
  mwrites (ws1 ++ ws2) dev = mseq (mwrites ws1) (λ _, mwrites ws2) dev.
Proof.
  revert dev. induction ws1 as [|w ws1 IH]; intros dev; simpl; [done|].
  unfold mseq in *. destruct (m16_write_block _ _ dev) as [[dev' [|[]]]|]; [done| |done].
  apply IH.
Qed.

(** ** The commit as a list of writes *)

Lemma commit_records_writes i tx dev :
  commit_records i tx dev = mwrites (record_writes i tx) dev.
Proof.
  revert i dev. induction tx as [|r tx IH]; intros i dev; simpl; [done|].
  unfold mseq. destruct (m16_write_block _ _ dev) as [[dev1 [|[]]]|]; [done| |done].
  destruct (m16_write_block _ _ dev1) as [[dev2 [|[]]]|]; [done| |done]. apply IH.
Qed.

Lemma commit_home_writes tx dev : commit_home tx dev = mwrites (home_writes tx) dev.
Proof.
  revert dev. induction tx as [|r tx IH]; intros dev; simpl; [done|].
  unfold mseq. destruct (m16_write_block _ _ dev) as [[dev1 [|[]]]|]; [done| |done].
  apply IH.
Qed.

Lemma mseq_ext {S A B} (m m' : M S A) (k k' : A → M S B) s :
  m s = m' s → (∀ a s', k a s' = k' a s') → mseq m k s = mseq m' k' s.
Proof. unfold mseq. intros -> Hk. by destruct (m' s) as [[s' [|a]]|]. Qed.

Lemma mwrites_one w dev : mwrites [w] dev = m16_write_block w.1 w.2 dev.
Proof. simpl. unfold mseq. by destruct (m16_write_block _ _ dev) as [[dev' [|[]]]|]. Qed.

Lemma commit_is_writes tx seq dev : zlen tx ≤ M16_JOURNAL_MAX_RECORDS →
  m16_journal_commit tx seq false dev = mwrites (commit_writes tx seq) dev.
Proof.
  intros Hn. unfold m16_journal_commit, commit_writes.
  rewrite (proj2 (Z.leb_le _ _) Hn). rewrite mwrites_app.
  apply mseq_ext; [symmetry; apply mwrites_one|intros _ d1]. rewrite mwrites_app.
  apply mseq_ext; [apply commit_records_writes|intros _ d2]. rewrite mwrites_app.
  apply mseq_ext; [symmetry; apply mwrites_one|intros _ d3]. rewrite mwrites_app.
  apply mseq_ext; [apply commit_home_writes|intros _ d4]. symmetry. apply mwrites_one.
Qed.

Lemma commit_stop_writes tx seq dev : zlen tx ≤ M16_JOURNAL_MAX_RECORDS →
  m16_journal_commit tx seq true dev =
    mwrites ([clear_write] ++ record_writes 0 tx ++ [header_write tx seq]) dev.
Proof.
  intros Hn. unfold m16_journal_commit.
  rewrite (proj2 (Z.leb_le _ _) Hn). rewrite mwrites_app.
  apply mseq_ext; [symmetry; apply mwrites_one|intros _ d1]. rewrite mwrites_app.
  apply mseq_ext; [apply commit_records_writes|intros _ d2]. symmetry.
  rewrite mwrites_one. unfold mseq, header_write. cbn [fst snd].
  by destruct (m16_write_block _ _ d2) as [[d3 [|[]]]|].
Qed.

(** ** Layouts *)

Lemma checksum_u32 l : is_u32 (m16_checksum l).
Proof.
  unfold m16_checksum.
  assert (∀ h, is_u32 h → is_u32 (foldl (λ h b, u32 (Z.lxor h b * 16777619)) h l)) as H.
  { induction l as [|b l IH]; intros h Hh; simpl; [done|]. apply IH, u32_range. }
  apply H. words.
Qed.

Definition header_ok (h : m16_journal_header) : Prop :=
  is_u64 (h_magic h) ∧ is_u32 (h_version h) ∧ is_u32 (h_state h) ∧ is_u32 (h_seq h) ∧
  is_u32 (h_count h) ∧ is_u32 (header_checksum h).

Lemma header_of_bytes h : header_ok h → header_of (header_bytes h) = h.
Proof.
  intros (H1 & H2 & H3 & H4 & H5 & H6). destruct h as [a b c d e f g].
  unfold header_of, header_bytes.
  cbn [h_magic h_version h_state h_seq h_count header_checksum h_reserved] in *.
  f_equal; layout.
Qed.

Definition desc_ok (d : m16_journal_desc) : Prop :=
  is_u64 (j_magic d) ∧ is_u32 (target_lba d) ∧ is_u32 (payload_checksum d).

Lemma desc_of_bytes d : desc_ok d → desc_of (desc_bytes d) = d.
Proof.
  intros (H1 & H2 & H3). destruct d as [a b c e]. unfold desc_of, desc_bytes.
  cbn [j_magic target_lba payload_checksum j_reserved] in *. f_equal; layout.
Qed.

Lemma commit_header_ok tx seq :
  is_u32 seq → zlen tx ≤ M16_JOURNAL_MAX_RECORDS → header_ok (commit_header tx seq).
Proof.
  intros Hs Hn. unfold commit_header, set_header_checksum, m16_header_checksum.
  pose proof (zlen_nonneg tx). unfold M16_JOURNAL_MAX_RECORDS in Hn.
  unfold header_ok. cbn [h_magic h_version h_state h_seq h_count header_checksum].
  unfold M16_JMAGIC, M16_VERSION, M16_J_COMMITTED.
  do 5 (split; [words|]). apply checksum_u32.
Qed.

(** The checksum the recovery computes is the one the commit stored. *)
#[local] Opaque m16_checksum.

Lemma header_checksum_set c h :
  m16_header_checksum (set_header_checksum c h) = m16_header_checksum h.
Proof.
  unfold m16_header_checksum. apply (f_equal (λ x, m16_checksum (header_bytes x))).
  reflexivity.
Qed.

Lemma commit_header_checks tx seq :
  m16_header_checksum (commit_header tx seq) = header_checksum (commit_header tx seq).
Proof. unfold commit_header. rewrite header_checksum_set. unfold set_header_checksum.
  by cbn [header_checksum]. Qed.

(** ** The states a crash can leave *)

(** Blocks that are not the journal's. *)
Definition outside (lba : Z) : Prop := 0 ≤ lba ∧ ¬ (1 ≤ lba < 18).
Definition same_outside (bs bs' : list (list Z)) : Prop :=
  ∀ lba, outside lba → bs !! Z.to_nat lba = bs' !! Z.to_nat lba.
Definition journal_clean (dev : m16_blockdev) : Prop :=
  blocks dev !! 1%nat = Some (m16_zero 512).

(** What [m16_write_file_ex] hands to the journal: at most 8 records, none of
    them for a block of the journal itself. *)
Definition tx_ok (total : Z) (tx : m16_tx) : Prop :=
  zlen tx ≤ M16_JOURNAL_MAX_RECORDS ∧
  Forall (λ r, outside (r_target r) ∧ r_target r < total) tx.

(** The disk that the transaction describes. *)
Definition apply_tx (tx : m16_tx) (bs : list (list Z)) : list (list Z) :=
  apply_writes (home_writes tx) bs.

(** [crash_state tx seq old b dev]: the journal of [dev] is clear or holds the
    committed [tx], and [b] says whether recovery will produce the new blocks
    rather than the [old] ones. *)
Inductive crash_state (tx : m16_tx) (seq : Z) (old : list (list Z)) (dev : m16_blockdev) :
    bool → Prop :=
| CS_old : journal_clean dev → same_outside (blocks dev) old →
    crash_state tx seq old dev false
| CS_committed :
    blocks dev !! 1%nat = Some (header_bytes (commit_header tx seq)) →
    Forall (λ w, blocks dev !! Z.to_nat w.1 = Some w.2) (record_writes 0 tx) →
    (∀ lba, outside lba → last_write (home_writes tx) lba = None →
       blocks dev !! Z.to_nat lba = old !! Z.to_nat lba) →
    crash_state tx seq old dev true
| CS_new : journal_clean dev → same_outside (blocks dev) (apply_tx tx old) →
    crash_state tx seq old dev true.

Lemma record_writes_range i tx :
  0 ≤ i → Forall (λ w, desc_lba i ≤ w.1 < desc_lba (i + zlen tx)) (record_writes i tx).
Proof.
  revert i. induction tx as [|r tx IH]; intros i Hi; simpl; [done|].
  pose proof (zlen_nonneg tx). unfold zlen in *. rewrite length_cons.
  unfold data_lba, desc_lba in *. repeat constructor; cbn [fst]; try lia.
  eapply Forall_impl; [apply IH; lia|]. intros w. simpl. lia.
Qed.

Lemma length_record_writes i tx : length (record_writes i tx) = (2 * length tx)%nat.
Proof. revert i. induction tx as [|r tx IH]; intros i; simpl; [done|]. rewrite IH. lia. Qed.

Lemma record_writes_last i tx : 0 ≤ i →
  Forall (λ w, last_write (record_writes i tx) w.1 = Some w.2) (record_writes i tx).
Proof.
  revert i. induction tx as [|r tx IH]; intros i Hi; simpl; [done|].
  assert (∀ lba, lba < desc_lba (i + 1) → last_write (record_writes (i + 1) tx) lba = None)
    as Hlow.
  { intros lba Hl. apply last_write_None. eapply Forall_impl;
      [apply record_writes_range; lia|]. intros w. simpl. unfold desc_lba in *. lia. }
  unfold data_lba, desc_lba in *. repeat constructor; cbn [fst snd].
  - rewrite Hlow by lia. rewrite decide_False by lia. by rewrite decide_True.
  - rewrite Hlow by lia. by rewrite decide_True.
  - eapply Forall_impl; [apply IH; lia|]. intros w Hw. simpl. by rewrite Hw.
Qed.

Lemma home_writes_range total tx : tx_ok total tx →
  Forall (λ w, outside w.1 ∧ w.1 < total) (home_writes tx).
Proof. intros [_ H]. unfold home_writes. apply Forall_fmap. apply H. Qed.

Section Crash.
Context (total : Z) (tx : m16_tx) (seq : Z) (old : list (list Z)).
Context (Htotal : 18 < total ≤ 128) (Hold : zlen old = 128).
Context (Htx : tx_ok total tx) (Hseq : is_u32 seq).

Lemma records_in_journal : Forall (λ w, 2 ≤ w.1 < 18) (record_writes 0 tx).
Proof.
  eapply Forall_impl; [apply record_writes_range; lia|]. intros w. simpl.
  destruct Htx as [Hn _]. unfold desc_lba, M16_JOURNAL_START, M16_JOURNAL_MAX_RECORDS in *. lia.
Qed.

Lemma records_outside lba : outside lba ∨ lba = 1 → last_write (record_writes 0 tx) lba = None.
Proof.
  intros Hl. apply last_write_None. eapply Forall_impl; [apply records_in_journal|].
  intros w. simpl. unfold outside in Hl. lia.
Qed.

Lemma home_in_journal lba k : 1 ≤ lba < 18 → last_write (take k (home_writes tx)) lba = None.
Proof.
  intros Hl. apply last_write_take_None, last_write_None.
  eapply Forall_impl; [by apply home_writes_range|]. intros w. simpl. unfold outside. lia.
Qed.

Lemma commit_in_range : Forall (λ w, 0 ≤ w.1 < total) (commit_writes tx seq).
Proof.
  pose proof records_in_journal as H1. pose proof (home_writes_range _ _ Htx) as H2.
  unfold commit_writes, clear_write, header_write, M16_JOURNAL_START.
  repeat (apply Forall_app; split).
  - by repeat constructor; simpl; lia.
  - eapply Forall_impl; [apply H1|]. simpl. intros w ?. lia.
  - by repeat constructor; simpl; lia.
  - eapply Forall_impl; [apply H2|]. simpl. unfold outside. intros w ?. lia.
  - by repeat constructor; simpl; lia.
Qed.

Lemma apply_tx_lookup lba : 0 ≤ lba →
  apply_tx tx old !! Z.to_nat lba =
    match last_write (home_writes tx) lba with
    | Some b => Some b | None => old !! Z.to_nat lba end.
Proof.
  intros. apply apply_writes_lookup; [|done].
  eapply Forall_impl; [by apply home_writes_range|]. simpl. unfold outside. lia.
Qed.

(** The blocks of [dev] are [old] after the writes [ws]. *)
Definition wrote (ws : wlist) (dev : m16_blockdev) : Prop :=
  ∀ lba, 0 ≤ lba → blocks dev !! Z.to_nat lba =
    match last_write ws lba with Some b => Some b | None => old !! Z.to_nat lba end.

Lemma crash_state_records k dev :
  wrote (clear_write :: take k (record_writes 0 tx)) dev → crash_state tx seq old dev false.
Proof.
  intros Hlk. apply CS_old.
  - unfold journal_clean. change 1%nat with (Z.to_nat 1). rewrite Hlk by lia.
    cbn [last_write]. by rewrite last_write_take_None by (apply records_outside; by right).
  - intros lba [Ho1 Ho2]. rewrite Hlk by lia. cbn [last_write].
    rewrite last_write_take_None by (apply records_outside; by left).
    by rewrite decide_False by (unfold clear_write, M16_JOURNAL_START; simpl; lia).
Qed.

Lemma crash_state_home j dev :
  wrote (clear_write :: record_writes 0 tx ++ header_write tx seq :: take j (home_writes tx)) dev →
  crash_state tx seq old dev true.
Proof.
  intros Hlk. apply CS_committed.
  - change 1%nat with (Z.to_nat 1). rewrite Hlk by lia.
    cbn [last_write]. rewrite last_write_app. cbn [last_write].
    by rewrite home_in_journal by lia.
  - pose proof (record_writes_last 0 tx) as Hrec.
    pose proof records_in_journal as Hrange.
    rewrite !Forall_forall in *. intros w Hw. specialize (Hrange w Hw). simpl in Hrange.
    rewrite Hlk by lia. cbn [last_write]. rewrite last_write_app. cbn [last_write].
    rewrite home_in_journal by lia.
    rewrite decide_False by (unfold header_write, M16_JOURNAL_START; simpl; lia).
    by rewrite Hrec.
  - intros lba Ho Hn. rewrite Hlk by apply Ho.
    cbn [last_write]. rewrite last_write_app. cbn [last_write].
    rewrite last_write_take_None by done. unfold outside in Ho.
    rewrite decide_False by (unfold header_write, M16_JOURNAL_START; simpl; lia).
    rewrite records_outside by (left; exact Ho).
    by rewrite decide_False by (unfold clear_write, M16_JOURNAL_START; simpl; lia).
Qed.

Lemma commit_done dev : wrote (commit_writes tx seq) dev →
  journal_clean dev ∧ same_outside (blocks dev) (apply_tx tx old).
Proof.
  unfold commit_writes. cbn [app]. intros Hlk. split.
  - unfold journal_clean. change 1%nat with (Z.to_nat 1). rewrite Hlk by lia.
    cbn [last_write]. rewrite last_write_app. cbn [last_write]. by rewrite last_write_app.
  - intros lba Ho. rewrite Hlk by apply Ho. rewrite apply_tx_lookup by apply Ho.
    cbn [last_write]. rewrite last_write_app. cbn [last_write]. rewrite last_write_app.
    unfold outside in Ho. cbn [last_write].
    unfold clear_write, header_write, M16_JOURNAL_START. cbn [fst snd].
    rewrite !(decide_False (P := (1 = lba))) by lia.
    destruct (last_write (home_writes tx) lba); [done|].
    by rewrite records_outside by (left; exact Ho).
Qed.

Lemma wrote_apply ws dev : Forall (λ w, 0 ≤ w.1 < total) ws →
  blocks dev = apply_writes ws old → wrote ws dev.
Proof.
  intros Hws Hb lba Hl. rewrite Hb. apply apply_writes_lookup; [|done].
  eapply Forall_impl; [apply Hws|]. simpl. lia.
Qed.

(** The point of no return is the write of the header: [2n + 2] writes. *)
Definition commit_point : nat := (2 * length tx + 2)%nat.

Lemma crash_state_take k dev :
  blocks dev = apply_writes (take k (commit_writes tx seq)) old →
  old !! 1%nat = Some (m16_zero 512) →
  crash_state tx seq old dev (bool_decide (commit_point ≤ k)%nat).
Proof.
  intros Hb Hclean. apply wrote_apply in Hb; [|apply Forall_take, commit_in_range].
  unfold commit_point. unfold commit_writes in Hb. cbn [app] in Hb.
  destruct k as [|k].
  { rewrite bool_decide_false by lia. rewrite take_0 in Hb.
    apply CS_old; [|by intros lba [??]; apply Hb].
    unfold journal_clean. rewrite <-Hclean. by apply (Hb 1). }
  cbn [take] in Hb. case_bool_decide as Hk.
  - rewrite take_app, take_ge in Hb by (rewrite length_record_writes; lia).
    rewrite length_record_writes in Hb.
    destruct (k - 2 * length tx)%nat as [|j] eqn:Ej; [lia|]. cbn [take] in Hb.
    destruct (decide (j ≤ length tx)%nat) as [Hj|Hj].
    + rewrite take_app_le in Hb by (unfold home_writes; by rewrite length_fmap).
      by apply crash_state_home in Hb.
    + rewrite take_ge in Hb by (unfold home_writes; rewrite length_app, length_fmap; simpl; lia).
      apply commit_done in Hb as [? ?]. by apply CS_new.
  - rewrite take_app_le in Hb by (rewrite length_record_writes; lia).
    by apply crash_state_records in Hb.
Qed.

(** ** Recovery *)

(** The records of [tx] from [i] on are in the journal. *)
Definition has_records (i : Z) (rs : m16_tx) (dev : m16_blockdev) : Prop :=
  Forall (λ w, blocks dev !! Z.to_nat w.1 = Some w.2) (record_writes i rs).

Lemma has_records_write i rs dev lba data w fa : 0 ≤ i → 0 ≤ lba → ¬ (1 ≤ lba < 18) →
  i + zlen rs ≤ 8 → has_records i rs dev →
  has_records i rs (M16Dev (<[Z.to_nat lba := data]> (blocks dev)) (total_blocks dev) w fa).
Proof.
  intros Hi Hl Ho Hn H. unfold has_records in *. pose proof (record_writes_range i rs Hi) as Hr.
  rewrite Forall_forall in *. intros x Hx. specialize (Hr x Hx). simpl in *.
  unfold desc_lba, M16_JOURNAL_START in Hr.
  rewrite list_lookup_insert_ne by lia. by apply H.
Qed.

Lemma recover_record_run i r dev : geometry dev → 0 ≤ i < 8 →
  has_records i [r] dev → outside (r_target r) → r_target r < total_blocks dev →
  recover_record i dev = m16_write_block (r_target r) (r_payload r) dev.
Proof.
  intros Hg Hi Hrec Ho Ht. destruct (Hg) as [_ Htot].
  apply Forall_cons in Hrec as [Hd Hrec]. apply Forall_cons in Hrec as [Hp _].
  cbn [fst snd] in Hd, Hp. unfold outside in Ho.
  unfold recover_record. unfold desc_lba, data_lba, desc_lba, M16_JOURNAL_START in *.
  erewrite mseq_inr by (apply read_block_at; [done|lia|exact Hd]). cbn zeta.
  rewrite desc_of_bytes.
  2:{ split; [unfold desc_for, M16_JMAGIC; cbn [j_magic]; words|].
      split; [unfold desc_for; cbn [target_lba]; words|apply checksum_u32]. }
  unfold mseq at 1, mget. unfold desc_for at 1 2. cbn [target_lba j_magic].
  assert (m16_valid_lba dev (r_target r) = true) as ->.
  { unfold m16_valid_lba, M16_MAX_BLOCKS. apply andb_true_iff. split; apply Z.ltb_lt; lia. }
  rewrite Z.eqb_refl. cbn [andb].
  erewrite mseq_inr by (apply read_block_at; [done|lia|exact Hp]).
  unfold desc_for. cbn [payload_checksum target_lba]. by rewrite Z.eqb_refl.
Qed.

Lemma recover_records_run i rs dev : geometry dev → 0 ≤ i → i + zlen rs ≤ 8 →
  has_records i rs dev →
  Forall (λ r, outside (r_target r) ∧ r_target r < total_blocks dev) rs →
  mfor (length rs) i recover_record dev = mwrites (home_writes rs) dev.
Proof.
  revert i dev. induction rs as [|r rs IH]; intros i dev Hg Hi Hn Hrec Ho; [done|].
  apply Forall_cons in Ho as [[Ho Ht] Hos].
  assert (has_records i [r] dev ∧ has_records (i + 1) rs dev) as [Hr Hrs].
  { unfold has_records in *. cbn [record_writes] in *. rewrite !Forall_cons in Hrec |- *.
    destruct Hrec as (? & ? & ?). split; [|done]. by split_and!. }
  unfold zlen in Hn. rewrite length_cons in Hn.
  cbn [mfor length home_writes fmap list_fmap mwrites fst snd].
  unfold mseq. rewrite (recover_record_run i r) by (done || lia).
  unfold outside in Ho.
  rewrite write_block_run by (done || lia). destruct (_ =? 0); [done|].
  apply IH; try done; try lia.
  - destruct Hg. split; simpl; [by rewrite zlen_insert|done].
  - unfold zlen. lia.
  - apply has_records_write; try done; try lia. unfold zlen. lia.
Qed.

Lemma recover_committed dev : geometry dev → total_blocks dev = total →
  blocks dev !! 1%nat = Some (header_bytes (commit_header tx seq)) →
  has_records 0 tx dev →
  m16_journal_recover dev = mwrites (home_writes tx ++ [clear_write]) dev.
Proof.
  intros Hg Ht Hh Hrec. destruct Htx as [Hn Hr]. unfold m16_journal_recover.
  erewrite mseq_inr by (apply read_block_at;
    [done|unfold M16_JOURNAL_START; destruct Hg; lia|exact Hh]).
  cbn zeta. rewrite header_of_bytes by (by apply commit_header_ok).
  rewrite commit_header_checks, Z.eqb_refl.
  unfold commit_header, set_header_checksum.
  cbn [h_magic h_version h_state h_count].
  change (M16_JMAGIC =? 0) with false. rewrite !Z.eqb_refl, (proj2 (Z.leb_le _ _) Hn).
  cbn [andb]. rewrite mwrites_app. unfold zlen. rewrite Nat2Z.id.
  apply mseq_ext; [|intros _ s; symmetry; apply mwrites_one].
  apply recover_records_run; try done. by rewrite Ht.
Qed.

Lemma recover_clean dev : geometry dev → journal_clean dev →
  m16_journal_recover dev = Some (dev, inr tt).
Proof.
  intros Hg Hc. unfold m16_journal_recover.
  erewrite mseq_inr by (apply read_block_at;
    [done|unfold M16_JOURNAL_START; destruct Hg; lia|exact Hc]).
  cbn zeta. by change (header_of (m16_zero 512)) with (M16Header 0 0 0 0 0 0 (m16_zero 484)).
Qed.
Lemma replay_in_range dev : total_blocks dev = total →
  in_range dev (home_writes tx ++ [clear_write]).
Proof.
  intros Ht. unfold in_range. rewrite Ht. apply Forall_app. split.
  - eapply Forall_impl; [by apply home_writes_range|]. simpl. unfold outside. lia.
  - repeat constructor; simpl; unfold M16_JOURNAL_START; lia.
Qed.

(** A prefix of the replay that stops before the journal is cleared leaves the
    transaction committed. *)
Lemma replay_partial dev dev' k : geometry dev → total_blocks dev = total →
  blocks dev !! 1%nat = Some (header_bytes (commit_header tx seq)) →
  has_records 0 tx dev →
  (∀ lba, outside lba → last_write (home_writes tx) lba = None →
     blocks dev !! Z.to_nat lba = old !! Z.to_nat lba) →
  blocks dev' = apply_writes (take k (home_writes tx)) (blocks dev) →
  crash_state tx seq old dev' true.
Proof.
  intros [Hl _] Ht Hh Hrec Hun Hb.
  assert (∀ lba, 0 ≤ lba → last_write (take k (home_writes tx)) lba = None →
    blocks dev' !! Z.to_nat lba = blocks dev !! Z.to_nat lba) as Hlk.
  { intros lba H0 Hlast. rewrite Hb, apply_writes_lookup; [by rewrite Hlast| |done].
    apply Forall_take. eapply Forall_impl; [by apply home_writes_range|].
    simpl. unfold outside. lia. }
  apply CS_committed.
  - rewrite <-Hh. apply (Hlk 1); [lia|]. apply home_in_journal. lia.
  - unfold has_records in *. pose proof records_in_journal as Hr.
    rewrite Forall_forall in *. intros w Hw. specialize (Hr w Hw). simpl in Hr.
    rewrite Hlk; [by apply Hrec|lia|]. apply home_in_journal. lia.
  - intros lba Ho Hn. rewrite Hlk; [by apply Hun|apply Ho|].
    by apply last_write_take_None.
Qed.

Lemma replay_full dev dev' : geometry dev → total_blocks dev = total →
  (∀ lba, outside lba → last_write (home_writes tx) lba = None →
     blocks dev !! Z.to_nat lba = old !! Z.to_nat lba) →
  blocks dev' = apply_writes (home_writes tx ++ [clear_write]) (blocks dev) →
  journal_clean dev' ∧ same_outside (blocks dev') (apply_tx tx old).
Proof.
  intros [Hl Htot] Ht Hun Hb. pose proof (replay_in_range dev Ht) as Hr.
  assert (Forall (λ w, 0 ≤ w.1 < zlen (blocks dev)) (home_writes tx ++ [clear_write])) as Hz.
  { rewrite Hl. eapply Forall_impl; [apply Hr|]. simpl. lia. }
  split.
  - unfold journal_clean. change 1%nat with (Z.to_nat 1).
    rewrite Hb, apply_writes_lookup by done. by rewrite last_write_app.
  - intros lba Ho. rewrite Hb, apply_writes_lookup by (done || apply Ho).
    rewrite apply_tx_lookup by apply Ho. rewrite last_write_app. cbn [last_write].
    unfold outside in Ho. rewrite decide_False by (unfold clear_write, M16_JOURNAL_START; simpl; lia).
    destruct (last_write (home_writes tx) lba) eqn:E; [done|]. by apply Hun.
Qed.

(** One recovery, interrupted or not. *)
Lemma recover_outcome dev b : geometry dev → total_blocks dev = total →
  crash_state tx seq old dev b →
  ∃ dev' r, m16_journal_recover dev = Some (dev', r) ∧ geometry dev' ∧
    total_blocks dev' = total ∧ crash_state tx seq old dev' b ∧
    (fail_after dev < 0 → fail_after dev' < 0) ∧
    (r = inr tt ∧ journal_clean dev' ∧ same_outside (blocks dev') (if b then apply_tx tx old else old) ∨
     r = inl M16_E_IO ∧ 0 ≤ fail_after dev).
Proof.
  intros Hg Ht Hc. destruct (Hc) as [Hcl Hs|Hh Hrec Hun|Hcl Hs].
  - exists dev, (inr tt). rewrite recover_clean by done. split_and!; try done. by left.
  - rewrite recover_committed by done.
    destruct (mwrites_run (home_writes tx ++ [clear_write]) dev) as (w & fa & Hrun & Hfa);
      [done|by apply replay_in_range|]. cbn zeta in Hrun.
    set (k := let_through _ _) in Hrun. rewrite Hrun. eexists _, _. split; [done|].
    split. { destruct Hg. split; [|done]. simpl. unfold zlen. by rewrite length_apply_writes. }
    split; [done|]. cbn [fail_after].
    assert (fail_after dev < 0 → fa < 0) as Hfa' by (intros; rewrite Hfa; done).
    destruct (decide (k = length (home_writes tx ++ [clear_write]))) as [Hk|Hk].
    + match goal with |- crash_state _ _ _ ?d _ ∧ _ => destruct (replay_full dev d) end;
        try done. { simpl. by rewrite take_ge by lia. }
      split; [by apply CS_new|]. split; [done|]. by left.
    + assert ((k < length (home_writes tx ++ [clear_write]))%nat ∧ 0 ≤ fail_after dev) as [Hlt Hf].
      { subst k. unfold let_through in *. destruct (Z.ltb_spec (fail_after dev) 0); [done|]. lia. }
      split; [|split; [done|by right]].
      assert (k ≤ length (home_writes tx))%nat by (rewrite length_app in Hlt; simpl in Hlt; lia).
      eapply (replay_partial dev _ k); try done. simpl. by rewrite take_app_le.
  - exists dev, (inr tt). rewrite recover_clean by done. split_and!; try done. by left.
Qed.

Lemma recover_step dev b : geometry dev → total_blocks dev = total →
  crash_state tx seq old dev b →
  ∃ dev' r, m16_journal_recover dev = Some (dev', r) ∧ geometry dev' ∧
    total_blocks dev' = total ∧ crash_state tx seq old dev' b ∧
    (fail_after dev < 0 → r = inr tt ∧ journal_clean dev' ∧
       same_outside (blocks dev') (if b then apply_tx tx old else old)).
Proof.
  intros Hg Ht Hc. destruct (recover_outcome dev b Hg Ht Hc) as (dev' & r & H1 & H2 & H3 & H4 & _ & H5).
  exists dev', r. split_and!; try done. intros Hf. destruct H5 as [?|[_ ?]]; [done|lia].
Qed.
End Crash.

(** Recoveries interrupted one after the other: the fault counters at which
    the power fails again. *)
Fixpoint interrupted_recoveries (ks : list Z) (dev : m16_blockdev) : option m16_blockdev :=
  match ks with
  | [] => Some dev
  | k :: ks' =>
      match m16_journal_recover (with_fault dev k) with
      | Some (dev', _) => interrupted_recoveries ks' dev'
      | None => None
      end
  end.

(** Whether a commit whose device fails after [fa] writes is durable. *)
Definition durable (tx : m16_tx) (fa : Z) : bool := (fa <? 0) || (2 * zlen tx + 2 <=? fa).

Section CrashTop.
Context (tx : m16_tx) (seq : Z) (old : list (list Z)).

Lemma crash_state_with_fault dev b fa :
  crash_state tx seq old dev b → crash_state tx seq old (with_fault dev fa) b.
Proof. intros []; by constructor. Qed.

Lemma interrupted_run total ks dev b :
  18 < total ≤ 128 → zlen old = 128 → tx_ok total tx → is_u32 seq →
  geometry dev → total_blocks dev = total → crash_state tx seq old dev b →
  ∃ dev', interrupted_recoveries ks dev = Some dev' ∧ geometry dev' ∧
    total_blocks dev' = total ∧ crash_state tx seq old dev' b.
Proof.
  intros Htot Hold Htx Hseq. revert dev. induction ks as [|k ks IH]; intros dev Hg Ht Hc; simpl.
  { by exists dev. }
  destruct (recover_step total tx seq old Htot Hold Htx Hseq (with_fault dev k) b)
    as (dev' & r & -> & Hg' & Ht' & Hc' & _); try done.
  { by apply crash_state_with_fault. }
  by apply IH.
Qed.
End CrashTop.

Lemma durable_let_through tx fa n :
  durable tx fa = bool_decide (commit_point tx ≤ let_through fa (commit_point tx + n))%nat.
Proof.
  unfold durable, let_through, commit_point, zlen.
  destruct (Z.ltb_spec fa 0); cbn [orb]; [by rewrite bool_decide_true by lia|].
  destruct (Z.leb_spec (2 * Z.of_nat (length tx) + 2) fa).
  - by rewrite bool_decide_true by lia.
  - by rewrite bool_decide_false by lia.
Qed.

(** The writes of a commit, with and without the replay. *)
Definition log_writes (tx : m16_tx) (seq : Z) : wlist :=
  [clear_write] ++ record_writes 0 tx ++ [header_write tx seq].
Definition stop_writes (tx : m16_tx) (seq : Z) (stop : bool) : wlist :=
  log_writes tx seq ++ if stop then [] else home_writes tx ++ [clear_write].

Lemma commit_run tx seq stop dev : zlen tx ≤ M16_JOURNAL_MAX_RECORDS →
  m16_journal_commit tx seq stop dev = mwrites (stop_writes tx seq stop) dev.
Proof.
  intros Hn. unfold stop_writes, log_writes. destruct stop.
  - rewrite app_nil_r. by apply commit_stop_writes.
  - rewrite <-!app_assoc. by apply commit_is_writes.
Qed.

Lemma length_log_writes tx seq : length (log_writes tx seq) = commit_point tx.
Proof.
  unfold log_writes, commit_point. rewrite !length_app, length_record_writes. simpl. lia.
Qed.

Lemma stop_writes_prefix tx seq stop k :
  (k ≤ length (stop_writes tx seq stop))%nat →
  take k (stop_writes tx seq stop) = take k (commit_writes tx seq).
Proof.
  assert (commit_writes tx seq = log_writes tx seq ++ home_writes tx ++ [clear_write]) as ->.
  { unfold log_writes. by rewrite <-!app_assoc. }
  unfold stop_writes. destruct stop; [|done]. rewrite app_nil_r. intros.
  by rewrite take_app_le.
Qed.

(** The commit, cut short by the fault counter: the state it leaves and the
    status. *)
Lemma commit_crash dev tx seq stop :
  geometry dev → journal_clean dev → is_u32 seq → tx_ok (total_blocks dev) tx →
  ∃ dev' r, m16_journal_commit tx seq stop dev = Some (dev', r) ∧ geometry dev' ∧
    total_blocks dev' = total_blocks dev ∧
    crash_state tx seq (blocks dev) dev' (durable tx (fail_after dev)) ∧
    (r = inr tt → durable tx (fail_after dev) = true) ∧
    (r = inr tt → stop = false →
       journal_clean dev' ∧ same_outside (blocks dev') (apply_tx tx (blocks dev))) ∧
    (fail_after dev < 0 → r = inr tt ∧ fail_after dev' = fail_after dev).
Proof.
  intros Hg Hcl Hseq Htx. destruct (Hg) as [Hl Htot]. destruct (Htx) as [Hn _].
  rewrite commit_run by done. set (ws := stop_writes tx seq stop).
  pose proof (commit_in_range (total_blocks dev) tx seq Htot Htx) as Hr.
  assert (in_range dev ws) as Hrw.
  { assert (ws = take (length ws) (commit_writes tx seq)) as ->.
    { rewrite <-(stop_writes_prefix _ _ stop) by done. by rewrite take_ge. }
    by apply Forall_take. }
  destruct (mwrites_run ws dev Hg Hrw) as (w & fa & Hrun & Hfa).
  cbn zeta in Hrun. set (k := let_through _ _) in Hrun.
  assert (k ≤ length ws)%nat as Hk.
  { subst k. unfold let_through. destruct (_ <? 0); lia. }
  assert (durable tx (fail_after dev) = bool_decide (commit_point tx ≤ k)%nat) as Hdur.
  { subst k ws. unfold stop_writes. rewrite length_app, length_log_writes.
    apply durable_let_through. }
  rewrite Hrun. eexists _, _. split; [done|].
  split. { split; [|done]. simpl. unfold zlen. by rewrite length_apply_writes. }
  split; [done|]. split; [|split; [|split]].
  - rewrite Hdur. eapply (crash_state_take (total_blocks dev)); try done.
    cbn [blocks]. by rewrite <-(stop_writes_prefix _ _ stop).
  - rewrite Hdur. case_decide as Ek; [|done]. rewrite bool_decide_true; [done|].
    rewrite Ek. subst ws. unfold stop_writes. rewrite length_app, length_log_writes. lia.
  - case_decide as Ek; [|done]. intros _ ->. apply (commit_done (total_blocks dev) tx seq); try done.
    eapply (wrote_apply (total_blocks dev)); try done. cbn [blocks]. subst ws.
    rewrite take_ge by lia. unfold stop_writes, log_writes. by rewrite <-!app_assoc.
  - intros Hneg. split; [|by apply Hfa]. rewrite decide_True; [done|].
    subst k. unfold let_through. by rewrite (proj2 (Z.ltb_lt _ _)).
Qed.

(** The only error a commit reports is that of the device. *)
Lemma commit_error dev tx seq stop :
  geometry dev → is_u32 seq → tx_ok (total_blocks dev) tx →
  ∃ dev' r, m16_journal_commit tx seq stop dev = Some (dev', r) ∧
    (fail_after dev < 0 → fail_after dev' < 0) ∧ (r = inr tt ∨ r = inl M16_E_IO ∧ 0 ≤ fail_after dev).
Proof.
  intros Hg Hseq Htx. destruct (Hg) as [_ Htot]. destruct (Htx) as [Hn _]. rewrite commit_run by done.
  set (ws := stop_writes tx seq stop). assert (in_range dev ws) as Hrw.
  { assert (ws = take (length ws) (commit_writes tx seq)) as ->.
    { rewrite <-(stop_writes_prefix _ _ stop) by done. by rewrite take_ge. }
    by apply Forall_take, commit_in_range. }
  destruct (mwrites_run ws dev Hg Hrw) as (w & fa & Hrun & Hfa).
  cbn zeta in Hrun. rewrite Hrun. eexists _, _. split; [done|].
  split; [intros; cbn; rewrite Hfa; done|].
  case_decide as E; [by left|right]. split; [done|]. unfold let_through in E.
  destruct (Z.ltb_spec (fail_after dev) 0); [done|lia].
Qed.

(** C3. Crash atomicity of the journal.  Whatever write of a commit the device
    fails at, and however many recoveries are themselves interrupted at any
    write, the recovery that finally runs to its end succeeds, clears the
    journal and leaves every block outside the journal either as before the
    commit or as the transaction says, all of them alike; they are the new
    ones exactly if the commit record had been written, which is the case
    whenever the commit reported success. *)
Theorem m16_journal_crash_atomic (dev : m16_blockdev) (tx : m16_tx) (seq : Z)
    (stop : bool) (ks : list Z) :
  geometry dev → journal_clean dev → is_u32 seq → tx_ok (total_blocks dev) tx →
  ∃ dev1 r1 dev2 dev3,
    m16_journal_commit tx seq stop dev = Some (dev1, r1) ∧
    interrupted_recoveries ks dev1 = Some dev2 ∧
    m16_journal_recover (reboot dev2) = Some (dev3, inr tt) ∧
    journal_clean dev3 ∧
    same_outside (blocks dev3)
      (if durable tx (fail_after dev) then apply_tx tx (blocks dev) else blocks dev) ∧
    (r1 = inr tt → durable tx (fail_after dev) = true).
Proof.
  intros Hg Hcl Hseq Htx. destruct (Hg) as [Hold Htot].
  destruct (commit_crash dev tx seq stop) as (dev1 & r1 & H1 & Hg1 & Ht1 & Hc1 & Hr1 & _); try done.
  destruct (interrupted_run tx seq (blocks dev) (total_blocks dev) ks dev1
    (durable tx (fail_after dev)))
    as (dev2 & H2 & Hg2 & Ht2 & Hc2); try done.
  destruct (recover_step (total_blocks dev) tx seq (blocks dev) Htot Hold Htx Hseq
    (reboot dev2) (durable tx (fail_after dev))) as (dev3 & r3 & H3 & _ & _ & _ & Hdone);
    try done. { by apply crash_state_with_fault. }
  destruct Hdone as (-> & Hcl3 & Hs); [simpl; lia|].
  by exists dev1, r1, dev2, dev3.
Qed.

(** A formatted device and a transaction of two records. *)
Definition demo_dev : m16_blockdev :=
  match m16_format (M16Dev [] 128 0 (-1)) with Some (d, _) => d | None => M16Dev [] 0 0 0 end.
Definition demo_tx : m16_tx :=
  [M16Jrec 23 (replicate 512 7); M16Jrec 24 (replicate 512 9)].

Lemma demo_geometry fa : geometry (with_fault demo_dev fa).
Proof. by vm_compute. Qed.

Lemma demo_tx_ok : tx_ok 128 demo_tx.
Proof. split; [done|]. repeat constructor; vm_compute; intuition congruence. Qed.

(** The device fails at the eighth write of the commit, the first home write,
    and the first two recoveries fail as well. *)
Lemma m16_journal_crash_atomic_witness :
  geometry (with_fault demo_dev 7) ∧ durable demo_tx 7 = true ∧
  ∃ dev1 r1 dev2 dev3,
    m16_journal_commit demo_tx 2 false (with_fault demo_dev 7) = Some (dev1, r1) ∧
    interrupted_recoveries [1; 0] dev1 = Some dev2 ∧
    m16_journal_recover (reboot dev2) = Some (dev3, inr tt) ∧
    journal_clean dev3 ∧
    same_outside (blocks dev3)
      (if durable demo_tx 7 then apply_tx demo_tx (blocks (with_fault demo_dev 7))
       else blocks (with_fault demo_dev 7)) ∧
    (r1 = inr tt → durable demo_tx 7 = true).
Proof.
  split; [apply demo_geometry|]. split; [done|].
  apply (m16_journal_crash_atomic (with_fault demo_dev 7) demo_tx 2 false [1; 0]).
  - apply demo_geometry.
  - by vm_compute.
  - by vm_compute.
  - exact demo_tx_ok.
Defined.

(** ** A damaged journal *)

(** Record [i] of the journal fails one of the checks of the replay. *)
Definition record_damaged (dev : m16_blockdev) (i : Z) : Prop :=
  ∃ db pb, blocks dev !! Z.to_nat (desc_lba i) = Some db ∧
    blocks dev !! Z.to_nat (data_lba i) = Some pb ∧
    (j_magic (desc_of db) ≠ M16_JMAGIC ∨
     m16_valid_lba dev (target_lba (desc_of db)) = false ∨
     m16_checksum pb ≠ payload_checksum (desc_of db)).

Lemma recover_record_damaged dev i : geometry dev → 0 ≤ i < 8 → record_damaged dev i →
  recover_record i dev = Some (dev, inl M16_E_CORRUPT).
Proof.
  intros Hg Hi (db & pb & Hd & Hp & Hbad). pose proof Hg as [_ Ht].
  unfold recover_record, data_lba in *. unfold desc_lba, M16_JOURNAL_START in *.
  erewrite mseq_inr by (apply read_block_at; [done|lia|exact Hd]). cbn zeta.
  unfold mseq at 1, mget.
  destruct (Z.eqb_spec (j_magic (desc_of db)) M16_JMAGIC); [|done].
  destruct (m16_valid_lba dev _); [|done]. cbn [andb].
  erewrite mseq_inr by (apply read_block_at; [done|lia|exact Hp]).
  destruct (Z.eqb_spec (m16_checksum pb) (payload_checksum (desc_of db))); [|done].
  by destruct Hbad as [?|[?|?]].
Qed.

Lemma mfor_app {S} n m i body (s : S) :
  mfor (n + m) i body s = mseq (mfor n i body) (λ _, mfor m (i + Z.of_nat n) body) s.
Proof.
  revert i s. induction n as [|n IH]; intros i s; cbn [mfor Nat.add].
  { unfold mseq, mok. by rewrite Z.add_0_r. }
  unfold mseq in *. destruct (body i s) as [[s' [|[]]]|]; [done| |done].
  rewrite IH. by replace (i + Z.of_nat (Datatypes.S n)) with (i + 1 + Z.of_nat n) by lia.
Qed.

Record damaged_journal (tx : m16_tx) (seq : Z) (n : nat) (dev : m16_blockdev) : Prop := {
  dj_geometry : geometry dev;
  dj_tx : tx_ok (total_blocks dev) tx;
  dj_seq : is_u32 seq;
  dj_power : fail_after dev < 0;
  dj_header : blocks dev !! 1%nat = Some (header_bytes (commit_header tx seq));
  dj_index : (n < length tx)%nat;
  dj_records : has_records 0 (take n tx) dev;
  dj_damage : record_damaged dev (Z.of_nat n);
}.

(** Only the journal's blocks matter. *)
Lemma damaged_journal_same tx seq n dev dev' :
  (∀ lba, 1 ≤ lba < 18 → blocks dev' !! Z.to_nat lba = blocks dev !! Z.to_nat lba) →
  geometry dev' → total_blocks dev' = total_blocks dev → fail_after dev' < 0 →
  damaged_journal tx seq n dev → damaged_journal tx seq n dev'.
Proof.
  intros Heq Hg Ht Hf [H1 H2 H3 H4 H5 H6 H7 H8]. destruct (H2) as [Hn _].
  unfold zlen, M16_JOURNAL_MAX_RECORDS in Hn.
  split; try done.
  - by rewrite Ht.
  - rewrite <-H5. apply (Heq 1). lia.
  - unfold has_records in *.
    pose proof (record_writes_range 0 (take n tx)) as Hr. specialize (Hr ltac:(lia)).
    unfold zlen in Hr. rewrite length_take in Hr.
    rewrite Forall_forall in *. intros w Hw. specialize (Hr w Hw). simpl in Hr.
    unfold desc_lba, M16_JOURNAL_START in Hr. rewrite Heq by lia. by apply H7.
  - destruct H8 as (db & pb & Hd & Hp & Hbad). exists db, pb.
    unfold data_lba, desc_lba, M16_JOURNAL_START in *. rewrite !Heq by lia.
    unfold m16_valid_lba in *. by rewrite Ht.
Qed.

Lemma apply_writes_outside ws dev lba : geometry dev →
  Forall (λ w, outside w.1 ∧ w.1 < total_blocks dev) ws → 1 ≤ lba < 18 →
  apply_writes ws (blocks dev) !! Z.to_nat lba = blocks dev !! Z.to_nat lba.
Proof.
  intros [Hl Ht] Hws Hlba. rewrite apply_writes_lookup.
  - rewrite last_write_None; [done|]. eapply Forall_impl; [done|]. simpl. unfold outside. lia.
  - eapply Forall_impl; [done|]. simpl. unfold outside. lia.
  - lia.
Qed.

Lemma apply_writes_idem ws bs : Forall (λ w, 0 ≤ w.1 < zlen bs) ws →
  apply_writes ws (apply_writes ws bs) = apply_writes ws bs.
Proof.
  intros Hws. apply list_eq. intros i. rewrite <-(Nat2Z.id i).
  rewrite !apply_writes_lookup; try done; try lia.
  - by destruct (last_write ws (Z.of_nat i)).
  - unfold zlen. by rewrite length_apply_writes.
Qed.

Lemma damaged_home_writes tx seq n dev : damaged_journal tx seq n dev →
  Forall (λ w, outside w.1 ∧ w.1 < total_blocks dev) (home_writes (take n tx)).
Proof.
  intros [_ [_ H] _ _ _ _ _ _]. unfold home_writes. by apply Forall_fmap, Forall_take.
Qed.

Lemma damaged_journal_writes tx seq n dev w : damaged_journal tx seq n dev →
  damaged_journal tx seq n (M16Dev (apply_writes (home_writes (take n tx)) (blocks dev))
    (total_blocks dev) w (fail_after dev)).
Proof.
  intros Hd. pose proof (damaged_home_writes _ _ _ _ Hd) as Hw. pose proof Hd as [Hg _ _ Hf _ _ _ _].
  apply (damaged_journal_same tx seq n dev); try done.
  - intros lba Hl. by apply apply_writes_outside.
  - destruct Hg. split; [|done]. simpl. unfold zlen. by rewrite length_apply_writes.
Qed.

(** The records before the damaged one are replayed. *)
Lemma replay_prefix tx seq n dev : damaged_journal tx seq n dev →
  ∃ w, mfor n 0 recover_record dev = Some
    (M16Dev (apply_writes (home_writes (take n tx)) (blocks dev)) (total_blocks dev) w
       (fail_after dev), inr tt).
Proof.
  intros Hd. pose proof (damaged_home_writes _ _ _ _ Hd) as Hw.
  destruct Hd as [Hg [Hn Ho] _ Hf _ Hi Hrec _].
  destruct (mwrites_run (home_writes (take n tx)) dev) as (w & fa & Hrun & Hfa); [done| |].
  { eapply Forall_impl; [apply Hw|]. simpl. unfold outside. lia. }
  cbn zeta in Hrun. specialize (Hfa Hf). subst fa.
  unfold let_through in Hrun. rewrite (proj2 (Z.ltb_lt _ _) Hf) in Hrun.
  rewrite (take_ge (home_writes _)), decide_True in Hrun by done. exists w. rewrite <-Hrun.
  unfold zlen, M16_JOURNAL_MAX_RECORDS in Hn.
  replace n with (length (take n tx)) at 1 by (rewrite length_take; lia).
  apply recover_records_run; try done; [|by apply Forall_take].
  unfold zlen. rewrite length_take. lia.
Qed.

Lemma recover_damaged_run tx seq n dev : damaged_journal tx seq n dev →
  ∃ w, m16_journal_recover dev = Some
    (M16Dev (apply_writes (home_writes (take n tx)) (blocks dev)) (total_blocks dev) w
       (fail_after dev), inl M16_E_CORRUPT).
Proof.
  intros Hd. destruct (replay_prefix _ _ _ _ Hd) as [w Hrun]. exists w.
  destruct (damaged_journal_writes _ _ _ _ w Hd) as [Hg1 _ _ _ _ _ _ Hdam1].
  destruct Hd as [Hg [Hn _] Hseq Hf Hh Hi Hrec Hdam].
  unfold m16_journal_recover.
  erewrite mseq_inr by (apply read_block_at;
    [done|unfold M16_JOURNAL_START; destruct Hg; lia|exact Hh]).
  cbn zeta. rewrite header_of_bytes by (by apply commit_header_ok).
  rewrite commit_header_checks, Z.eqb_refl.
  unfold commit_header, set_header_checksum. cbn [h_magic h_version h_state h_count].
  change (M16_JMAGIC =? 0) with false. rewrite !Z.eqb_refl, (proj2 (Z.leb_le _ _) Hn).
  cbn [andb]. apply mseq_inl. unfold zlen in *. rewrite Nat2Z.id.
  unfold M16_JOURNAL_MAX_RECORDS in Hn.
  replace (length tx) with (n + S (length tx - n - 1))%nat by lia.
  rewrite mfor_app. erewrite mseq_inr by exact Hrun.
  cbn [mfor]. apply mseq_inl. rewrite Z.add_0_l. apply recover_record_damaged; try done. lia.
Qed.

(** C36. A damaged journal record is detected: the replay writes the records
    before it to their home blocks, then stops with [M16_E_CORRUPT] and
    leaves the journal in place, so that the next mount reports the damage
    again instead of using a half-replayed disk. *)
Theorem m16_journal_recover_damaged (dev : m16_blockdev) (tx : m16_tx) (seq : Z) (n : nat) :
  damaged_journal tx seq n dev →
  ∃ dev', m16_journal_recover dev = Some (dev', inl M16_E_CORRUPT) ∧
    blocks dev' = apply_writes (home_writes (take n tx)) (blocks dev) ∧
    ∃ dev'', m16_mount dev' = Some (dev'', inl M16_E_CORRUPT) ∧ blocks dev'' = blocks dev'.
Proof.
  intros Hd. destruct (recover_damaged_run _ _ _ _ Hd) as [w Hrun]. rewrite Hrun.
  eexists. split; [done|]. split; [done|].
  destruct (recover_damaged_run _ _ _ _ (damaged_journal_writes _ _ _ _ w Hd)) as [w' Hrun'].
  eexists. split. { unfold m16_mount. by apply mseq_inl, Hrun'. }
  cbn [blocks]. apply apply_writes_idem.
  eapply Forall_impl; [apply (damaged_home_writes _ _ _ _ Hd)|].
  destruct Hd as [[Hl Ht] _ _ _ _ _ _ _]. simpl. unfold outside. lia.
Qed.

(** The demo transaction committed but not replayed, with the payload of its
    second record overwritten. *)
Definition demo_damaged : m16_blockdev :=
  match m16_journal_commit demo_tx 2 true demo_dev with
  | Some (d, _) =>
      M16Dev (<[5%nat := m16_zero 512]> (blocks d)) (total_blocks d) (writes d) (-1)
  | None => demo_dev
  end.

Lemma demo_damaged_ok : damaged_journal demo_tx 2 1 demo_damaged.
Proof.
  split.
  - by vm_compute.
  - exact demo_tx_ok.
  - by vm_compute.
  - by vm_compute.
  - by vm_compute.
  - by vm_compute; lia.
  - unfold has_records. repeat constructor; by vm_compute.
  - eexists _, _. split; [by vm_compute|]. split; [by vm_compute|]. right. right.
    by vm_compute.
Qed.

Lemma m16_journal_recover_damaged_witness :
  ∃ dev', m16_journal_recover demo_damaged = Some (dev', inl M16_E_CORRUPT) ∧
    blocks dev' = apply_writes (home_writes (take 1 demo_tx)) (blocks demo_damaged) ∧
    ∃ dev'', m16_mount dev' = Some (dev'', inl M16_E_CORRUPT) ∧ blocks dev'' = blocks dev'.
Proof. apply (m16_journal_recover_damaged demo_damaged demo_tx 2 1), demo_damaged_ok. Defined.
