(* ===== verification/JournalFiles.v ===== *)
(** The files of MCSFS1J: what the consistency check accepts, and that writing
    a file adds exactly that file and keeps the check passing. *)
From S2P Require Import Prelude Bitmap Bytes Cstr Err Journal JournalCrash.

#[local] Open Scope err_scope.

(** ** The blocks as the file system sees them *)

Definition img (dev : m16_blockdev) (lba : Z) : list Z :=
  default [] (blocks dev !! Z.to_nat lba).

Definition super_ok (b : list Z) : Prop :=
  s_magic (super_of b) = M16_MAGIC ∧ s_version (super_of b) = M16_VERSION ∧
  s_block_size (super_of b) = M16_BLOCK_SIZE ∧
  s_data_start_lba (super_of b) = M16_DATA_START_LBA ∧
  s_root_dir_lba (super_of b) = M16_ROOT_DIR_LBA.

(** A device of the size [m16_dev_init] gives, with an empty journal and a
    valid super block; it may be about to fail. *)
Record ready (dev : m16_blockdev) : Prop := {
  ready_length : zlen (blocks dev) = 128;
  ready_total : total_blocks dev = 128;
  ready_clean : journal_clean dev;
  ready_blocks : ∀ lba, outside lba → lba < 128 → block_ok (img dev lba);
  ready_super : super_ok (img dev 0);
}.

Lemma ready_geometry dev : ready dev → geometry dev.
Proof. intros [? Ht _ _ _]. split; [done|]. rewrite Ht. lia. Qed.

Lemma img_lookup dev lba : ready dev → 0 ≤ lba < 128 →
  blocks dev !! Z.to_nat lba = Some (img dev lba).
Proof.
  intros Hr Hl. unfold img. destruct (blocks dev !! Z.to_nat lba) eqn:E; [done|].
  apply lookup_ge_None in E. pose proof (ready_length _ Hr) as H. unfold zlen in H. lia.
Qed.

Lemma read_img dev lba : ready dev → 0 ≤ lba < 128 →
  m16_read_block lba dev = Some (dev, inr (img dev lba)).
Proof.
  intros Hr Hl. apply read_block_at; [by apply ready_geometry| |by apply img_lookup].
  by rewrite ready_total.
Qed.

Lemma mount_run dev : ready dev → m16_mount dev = Some (dev, inr (super_of (img dev 0))).
Proof.
  intros Hr. unfold m16_mount. destruct (ready_super _ Hr) as (H1 & H2 & H3 & H4 & H5).
  erewrite mseq_inr by (apply recover_clean; [by apply ready_geometry|by apply ready_clean]).
  erewrite mseq_inr by (apply read_img; [done|lia]). cbn zeta.
  by rewrite H1, H2, H3, H4, H5.
Qed.

(** ** The inode table *)

Definition inodes_of (raw : list Z) : list m16_inode := inode_of <$> chunks 16 128 raw.
Definition table_raw (D : Z → list Z) : list Z := D 20 ++ D 21 ++ D 22 ++ D 23.
Definition table (D : Z → list Z) : list m16_inode := inodes_of (table_raw D).

Definition inode_ok (i : m16_inode) : Prop :=
  is_u32 (i_used i) ∧ is_u32 (i_kind i) ∧ is_u32 (i_size i) ∧
  length (i_direct i) = 4%nat ∧ Forall is_u32 (i_direct i) ∧ length (i_reserved i) = 100%nat ∧
  Forall is_u8 (i_reserved i).

Lemma load_table_run dev : ready dev →
  m16_load_inode_table dev = Some (dev, inr (table (img dev))).
Proof.
  intros Hr. unfold m16_load_inode_table, M16_INODE_TABLE_LBA, M16_BLOCK_BITMAP_LBA,
    M16_INODE_BITMAP_LBA, M16_JOURNAL_BLOCKS, M16_JOURNAL_START, M16_JOURNAL_MAX_RECORDS.
  erewrite mseq_inr; [done|]. unfold mfold.
  do 4 (erewrite mseq_inr by (erewrite mseq_inr by (apply read_img; [done|lia]); apply mok_run)).
  unfold mok. unfold table, table_raw. rewrite app_nil_l. by rewrite <-!app_assoc.
Qed.

Lemma inode_of_bytes i : inode_ok i → inode_of (inode_bytes i) = i.
Proof.
  destruct i as [u k s d r]. unfold inode_ok, inode_of, inode_bytes.
  cbn [i_used i_kind i_size i_direct i_reserved].
  intros (Hu & Hk & Hs & Hl & Hd & _ & _).
  destruct d as [|d0 [|d1 [|d2 [|d3 []]]]]; try done.
  rewrite !Forall_cons in Hd. destruct Hd as (H0 & H1 & H2 & H3 & _).
  cbn [fmap list_fmap concat]. rewrite app_nil_r, <-!app_assoc.
  f_equal; try layout. by repeat (apply (f_equal2 cons); [layout|]).
Qed.

Lemma length_inode_bytes i : inode_ok i → length (inode_bytes i) = 128%nat.
Proof.
  destruct i as [u k s d r]. unfold inode_ok, inode_bytes.
  cbn [i_used i_kind i_size i_direct i_reserved].
  intros (Hu & Hk & Hs & Hl & Hd & Hr & _).
  destruct d as [|d0 [|d1 [|d2 [|d3 []]]]]; try done.
  cbn [fmap list_fmap concat]. rewrite !length_app, !length_le_encode, Hr. simpl. done.
Qed.

Lemma inode_bytes_u8 i : inode_ok i → Forall is_u8 (inode_bytes i).
Proof.
  destruct i as [u k s d r]. unfold inode_ok, inode_bytes.
  cbn [i_used i_kind i_size i_direct i_reserved].
  intros (Hu & Hk & Hs & Hl & Hd & _ & Hr).
  repeat (apply Forall_app; split); try apply le_encode_u8; try done.
  clear. induction d as [|x d IH]; [constructor|]. cbn [fmap list_fmap concat].
  apply Forall_app. split; [apply le_encode_u8|done].
Qed.

Lemma inode_of_ok l : length l = 128%nat → Forall is_u8 l → inode_ok (inode_of l).
Proof.
  intros Hl Hb. unfold inode_ok, inode_of. cbn [i_used i_kind i_size i_direct i_reserved].
  repeat split; try (by apply field_u32); repeat constructor; try (by apply field_u32).
  - rewrite length_drop. lia.
  - by apply Forall_drop.
Qed.

Lemma table_raw_ok D : (∀ lba, 20 ≤ lba < 24 → block_ok (D lba)) →
  length (table_raw D) = 2048%nat ∧ Forall is_u8 (table_raw D).
Proof.
  intros H. unfold table_raw.
  destruct (H 20) as [L0 B0]; [lia|]. destruct (H 21) as [L1 B1]; [lia|].
  destruct (H 22) as [L2 B2]; [lia|]. destruct (H 23) as [L3 B3]; [lia|].
  split; [rewrite !length_app; lia|]. by repeat (apply Forall_app; split).
Qed.

Lemma table_ok D : (∀ lba, 20 ≤ lba < 24 → block_ok (D lba)) →
  length (table D) = 16%nat ∧ Forall inode_ok (table D).
Proof.
  intros H. destruct (table_raw_ok D H) as [Hl Hb]. unfold table, inodes_of.
  split; [by rewrite length_fmap, length_chunks|].
  apply Forall_fmap. apply Forall_forall. intros c Hc. simpl.
  apply list_elem_of_lookup in Hc as [i Hi].
  assert (i < 16)%nat by (rewrite <-(length_chunks 16 128 (table_raw D)); by eapply lookup_lt_Some).
  rewrite chunks_lookup in Hi by done. injection Hi as <-. unfold slice.
  apply inode_of_ok; [rewrite length_take, length_drop; lia|by apply Forall_take, Forall_drop].
Qed.

(** Storing a table and loading it again. *)
Lemma length_inodes_raw tbl : Forall inode_ok tbl →
  length (inodes_raw tbl) = (length tbl * 128)%nat.
Proof.
  unfold inodes_raw. induction 1 as [|i tbl Hi Htbl IH]; [done|].
  cbn [fmap list_fmap concat]. rewrite length_app, length_inode_bytes by done.
  etransitivity; [apply f_equal; exact IH|]. simpl. lia.
Qed.

Lemma inodes_of_raw tbl : length tbl = 16%nat → Forall inode_ok tbl →
  inodes_of (inodes_raw tbl) = tbl.
Proof.
  intros Hl Htbl. unfold inodes_of, inodes_raw.
  rewrite <-Hl at 1. rewrite <-(length_fmap inode_bytes tbl), chunks_concat.
  - rewrite <-list_fmap_compose. rewrite <-(list_fmap_id tbl) at 2.
    apply Forall_fmap_ext_1. eapply Forall_impl; [apply Htbl|]. intros i Hi. by apply inode_of_bytes.
  - apply Forall_fmap. eapply Forall_impl; [apply Htbl|]. apply length_inode_bytes.
Qed.

(** ** The directory *)

Definition dirent_ok (d : m16_dirent) : Prop :=
  is_u32 (d_used d) ∧ is_u32 (d_ino d) ∧ length (d_name d) = 32%nat ∧ Forall is_u8 (d_name d).

Lemma dirent_of_bytes d : dirent_ok d → dirent_of (dirent_bytes d) = d.
Proof.
  destruct d as [u i n]. unfold dirent_ok, dirent_of, dirent_bytes. cbn [d_used d_ino d_name].
  intros (Hu & Hi & _). f_equal; layout.
Qed.

Lemma length_dirent_bytes d : dirent_ok d → length (dirent_bytes d) = 40%nat.
Proof.
  intros (_ & _ & Hn & _). unfold dirent_bytes. by rewrite !length_app, !length_le_encode, Hn.
Qed.

Lemma dir_entry_ok dir i : block_ok dir → (i < 12)%nat → dirent_ok (dir_entry dir i).
Proof.
  intros [Hl Hb] Hi. unfold dir_entry.
  assert (length (slice (i * 40) 40 dir) = 40%nat) as Hs by (apply slice_length; lia).
  assert (Forall is_u8 (slice (i * 40) 40 dir)) by (by apply Forall_take, Forall_drop).
  unfold dirent_ok, dirent_of. cbn [d_used d_ino d_name].
  split; [by apply field_u32|]. split; [by apply field_u32|].
  split; [rewrite length_drop; lia|by apply Forall_drop].
Qed.

Lemma dir_set_entry dir i j d : length dir = 512%nat → dirent_ok d → (i < 12)%nat → (j < 12)%nat →
  dir_entry (dir_set dir i d) j = if decide (j = i) then d else dir_entry dir j.
Proof.
  intros Hl Hd Hi Hj. pose proof (length_dirent_bytes d Hd) as Hlen.
  unfold dir_entry, dir_set. case_decide as E.
  - subst j. rewrite <-Hlen at 2. rewrite slice_splice_same by lia. by apply dirent_of_bytes.
  - rewrite slice_splice_other; [done|lia|]. rewrite Hlen. lia.
Qed.

Lemma dir_set_ok dir i d : block_ok dir → dirent_ok d → (i < 12)%nat →
  block_ok (dir_set dir i d).
Proof.
  intros [Hl Hb] Hd Hi. pose proof (length_dirent_bytes d Hd) as Hlen.
  destruct Hd as (_ & _ & _ & Hn). split.
  - unfold dir_set. rewrite length_splice; lia.
  - apply splice_u8; [|done]. unfold dirent_bytes.
    repeat (apply Forall_app; split); (apply le_encode_u8 || done).
Qed.

(** ** Names *)

Lemma streq_loop_spec fuel a b i s : 0 ≤ i →
  length (drop (Z.to_nat i) a) = fuel → holds (drop (Z.to_nat i) b) s → (length s < fuel)%nat →
  m16_streq_loop fuel a b i = Some (bool_decide (cstr (drop (Z.to_nat i) a) = s)).
Proof.
  revert i s. induction fuel as [|fuel IH]; intros i s Hi Ha [Hs [r Hb]] Hlt; [lia|].
  destruct (drop (Z.to_nat i) a) as [|x a'] eqn:Ea; [done|]. simpl in Ha.
  assert (∀ (l l' : list Z) c, drop (Z.to_nat i) l = c :: l' →
    arr_get l i = Some c ∧ drop (Z.to_nat (i + 1)) l = l') as Hget.
  { intros l l' c E. rewrite arr_get_nat by done. split.
    - by rewrite <-(Nat.add_0_r (Z.to_nat i)), <-lookup_drop, E.
    - replace (Z.to_nat (i + 1)) with (Z.to_nat i + 1)%nat by lia.
      by rewrite <-drop_drop, E. }
  destruct (Hget _ _ _ Ea) as [Hga Hda]. cbn [m16_streq_loop]. rewrite Hga.
  destruct s as [|c s]; cbn [app] in Hb; destruct (Hget _ _ _ Hb) as [Hgb Hdb]; rewrite Hgb;
    cbn [mbind option_bind].
  - cbn [cstr]. destruct (Z.eqb_spec x 0) as [->|Hx]; [done|].
    cbn [negb]. by rewrite bool_decide_false.
  - apply Forall_cons in Hs as [Hc Hs]. simpl in Hlt.
    destruct (Z.eqb_spec x c) as [->|Hx]; cbn [negb cstr].
    + rewrite (proj2 (Z.eqb_neq c 0)) by done.
      rewrite (IH (i + 1) s); try lia.
      * rewrite Hda. apply f_equal, bool_decide_ext. split; [by intros ->|by intros [= ->]].
      * rewrite Hda. lia.
      * rewrite Hdb. split; [done|by exists r].
    + destruct (Z.eqb_spec x 0); [by rewrite bool_decide_false|].
      rewrite bool_decide_false; [done|]. congruence.
Qed.

Lemma streq_spec a nm s : length a = 32%nat → holds nm s → (length s < 32)%nat →
  m16_streq a nm = Some (bool_decide (cstr a = s)).
Proof. intros. unfold m16_streq. by apply (streq_loop_spec 32 a nm 0 s). Qed.

(** The directory's entries, and the ones that carry a name or are unused. *)
Definition slots (dir : list Z) : list m16_dirent := dir_entry dir <$> seq 0 12.
Definition named (s : list Z) (d : m16_dirent) : Prop := d_used d ≠ 0 ∧ cstr (d_name d) = s.
Definition unused (d : m16_dirent) : Prop := d_used d = 0.
#[export] Instance named_dec s d : Decision (named s d).
Proof. unfold named. apply _. Defined.
#[export] Instance unused_dec d : Decision (unused d).
Proof. unfold unused. apply _. Defined.

Lemma find_dirent_loop_spec n i dir nm s : block_ok dir → (i + n ≤ 12)%nat →
  holds nm s → (length s < 32)%nat →
  find_dirent_loop n i dir nm =
    Some match list_find (named s) (dir_entry dir <$> seq i n) with
         | Some (j, _) => Z.of_nat (i + j) | None => M16_E_NOENT end.
Proof.
  intros Hd. revert i. induction n as [|n IH]; intros i Hi Hh Hl; [done|].
  cbn [find_dirent_loop seq fmap list_fmap list_find].
  assert (dirent_ok (dir_entry dir i)) as (_ & _ & Hn & _) by (apply dir_entry_ok; [done|lia]).
  rewrite IH by (done || lia).
  assert (∀ o : option (nat * m16_dirent), (match prod_map S id <$> o with
    | Some (j, _) => Z.of_nat (i + j) | None => M16_E_NOENT end) =
    match o with Some (j, _) => Z.of_nat (S i + j) | None => M16_E_NOENT end) as Hshift.
  { intros [[j d]|]; simpl; [f_equal; lia|done]. }
  destruct (Z.eqb_spec (d_used (dir_entry dir i)) 0) as [E|E].
  - rewrite decide_False by (unfold named; tauto). by rewrite Hshift.
  - rewrite (streq_spec _ _ s) by done. cbn [mbind option_bind].
    case_bool_decide as Hc.
    + rewrite decide_True by done. by rewrite Nat.add_0_r.
    + rewrite decide_False by (unfold named; tauto). by rewrite Hshift.
Qed.

Lemma find_dirent_spec dir nm s : block_ok dir → holds nm s → (length s < 32)%nat →
  m16_find_dirent dir nm =
    Some match list_find (named s) (slots dir) with
         | Some (j, _) => Z.of_nat j | None => M16_E_NOENT end.
Proof. intros. unfold m16_find_dirent. by rewrite (find_dirent_loop_spec 12 0 dir nm s). Qed.

Lemma find_free_dirent_spec dir :
  m16_find_free_dirent dir =
    match list_find unused (slots dir) with Some (j, _) => Z.of_nat j | None => M16_E_NOSPC end.
Proof.
  unfold m16_find_free_dirent, slots.
  assert (∀ n i, find_free_dirent_loop n i dir =
    match list_find unused (dir_entry dir <$> seq i n) with
    | Some (j, _) => Z.of_nat (i + j) | None => M16_E_NOSPC end) as H; [|apply H].
  induction n as [|n IH]; intros i; [done|].
  cbn [find_free_dirent_loop seq fmap list_fmap list_find]. rewrite IH.
  destruct (Z.eqb_spec (d_used (dir_entry dir i)) 0) as [E|E].
  - rewrite decide_True by done. by rewrite Nat.add_0_r.
  - rewrite decide_False by done.
    destruct (list_find _ _) as [[j d]|]; simpl; [f_equal; lia|done].
Qed.

(** ** Free bits *)

Lemma find_clear_spec n i bm : 0 ≤ i → i + Z.of_nat n ≤ 8 * zlen bm →
  ∃ r, find_clear n i bm = Some r ∧
    match r with
    | None => ∀ j, i ≤ j < i + Z.of_nat n → bit bm j = true
    | Some j => i ≤ j < i + Z.of_nat n ∧ bit bm j = false ∧
                ∀ k, i ≤ k < j → bit bm k = true
    end.
Proof.
  revert i. induction n as [|n IH]; intros i Hi Hn; cbn [find_clear].
  { exists None. split; [done|]. intros j ?. lia. }
  change (m16_bitmap_get bm i) with (bm_test bm i). rewrite bm_test_ok by lia.
  cbn [mbind option_bind]. destruct (bit bm i) eqn:E.
  - destruct (IH (i + 1)) as (r & Hr & Hs); [lia|lia|]. exists r. split; [done|].
    destruct r as [j|].
    + destruct Hs as (Hj & Hb & Hlow). split_and!; [lia|lia|done|].
      intros k Hk. destruct (decide (k = i)) as [->|]; [done|]. apply Hlow. lia.
    + intros j Hj. destruct (decide (j = i)) as [->|]; [done|]. apply Hs. lia.
  - exists (Some i). split; [done|]. split_and!; [lia|lia|done|]. intros. lia.
Qed.

(** ** The files on a disk, and its consistency *)

Definition file_entry (D : Z → list Z) (s : list Z) : option m16_dirent :=
  snd <$> list_find (named s) (slots (D 24)).

(** The contents of the file [s]. *)
Definition file (D : Z → list Z) (s : list Z) : option (list Z) :=
  d ← file_entry D s;
  i ← table D !! Z.to_nat (d_ino d);
  b ← i_direct i !! 0%nat;
  Some (take (Z.to_nat (i_size i)) (D b)).

(** A file's inode number [n]: the inode is allocated and its block is a data
    block marked in use. *)
Definition file_inode_ok (D : Z → list Z) (n : Z) : Prop :=
  n < 16 ∧ bit (D 18) n = true ∧
  ∃ i b, table D !! Z.to_nat n = Some i ∧ i_used i ≠ 0 ∧ i_kind i = 1 ∧ i_size i ≤ 512 ∧
    i_direct i !! 0%nat = Some b ∧ 25 ≤ b < 128 ∧ bit (D 19) b = true.

Definition entry_ok (D : Z → list Z) (d : m16_dirent) : Prop :=
  d_used d ≠ 0 → file_inode_ok D (d_ino d).

Record consistent (D : Z → list Z) : Prop := {
  cons_root : bit (D 18) 0 = true ∧
    ∃ i, table D !! 0%nat = Some i ∧ i_used i = 1 ∧ i_kind i = 2 ∧ i_direct i !! 0%nat = Some 24;
  cons_system : ∀ b, 0 ≤ b < 25 → bit (D 19) b = true;
  cons_entries : Forall (entry_ok D) (slots (D 24));
}.

Lemma ready_block dev lba : ready dev → 18 ≤ lba < 128 → block_ok (img dev lba).
Proof. intros Hr Hl. apply ready_blocks; [done|split; lia|lia]. Qed.

Lemma ready_table dev : ready dev →
  length (table (img dev)) = 16%nat ∧ Forall inode_ok (table (img dev)).
Proof. intros Hr. apply table_ok. intros. apply ready_block; [done|lia]. Qed.

Lemma block_zlen b : block_ok b → zlen b = 512.
Proof. intros [Hl _]. unfold zlen. lia. Qed.

Lemma all_set_spec n i bm : 0 ≤ i → i + Z.of_nat n ≤ 8 * zlen bm →
  ∃ r : bool, all_set n i bm = Some r ∧
    (r = true ↔ ∀ j, i ≤ j < i + Z.of_nat n → bit bm j = true).
Proof.
  revert i. induction n as [|n IH]; intros i Hi Hn; cbn [all_set].
  { exists true. split; [done|]. split; [|done]. intros _ j ?. lia. }
  change (m16_bitmap_get bm i) with (bm_test bm i). rewrite bm_test_ok by lia.
  cbn [mbind option_bind]. destruct (bit bm i) eqn:E.
  - destruct (IH (i + 1)) as (r & Hr & Hs); [lia|lia|]. exists r. split; [done|].
    rewrite Hs. split; intros H j Hj.
    + destruct (decide (j = i)) as [->|]; [done|]. apply H. lia.
    + apply H. lia.
  - exists false. split; [done|]. split; [done|]. intros H. rewrite H in E; [done|lia].
Qed.

Lemma fsck_entry_spec D d : length (table D) = 16%nat → Forall inode_ok (table D) →
  block_ok (D 18) → block_ok (D 19) → 0 ≤ d_ino d →
  ∃ r : bool, fsck_entry 128 (D 18) (D 19) (table D) d = Some r ∧ (r = true ↔ entry_ok D d).
Proof.
  intros Hl Ht Hib%block_zlen Hbb%block_zlen Hino. unfold fsck_entry, entry_ok, file_inode_ok.
  destruct (Z.eqb_spec (d_used d) 0) as [|Hu]; [exists true; split; [done|tauto]|].
  destruct (Z.leb_spec M16_MAX_INODES (d_ino d)) as [Hi|Hi]; unfold M16_MAX_INODES in Hi.
  { exists false. split; [done|]. split; [done|]. intros H. destruct (H Hu). lia. }
  change (m16_bitmap_get ?b ?i) with (bm_test b i). rewrite bm_test_ok by lia.
  cbn [mbind option_bind]. destruct (bit (D 18) (d_ino d)) eqn:Eb; cbn [negb].
  2:{ exists false. split; [done|]. split; [done|]. intros H. destruct (H Hu) as (_ & ? & _). done. }
  rewrite arr_get_nat by done.
  destruct (lookup_lt_is_Some_2 (table D) (Z.to_nat (d_ino d))) as [i Hin]; [lia|].
  rewrite Hin. cbn [mbind option_bind].
  assert (inode_ok i) as (_ & _ & _ & Hd4 & Hdu & _) by (by eapply Forall_lookup_1).
  destruct ((i_used i =? 0) || negb (i_kind i =? 1) || (M16_BLOCK_SIZE <? i_size i)) eqn:Ec.
  { exists false. split; [done|]. split; [done|]. intros H.
    destruct (H Hu) as (_ & _ & i' & b & Hi' & ? & ? & ? & _). simplify_eq.
    unfold M16_BLOCK_SIZE in Ec. bool_prop. lia. }
  assert (i_used i ≠ 0 ∧ i_kind i = 1 ∧ i_size i ≤ 512) as (Hiu & Hik & His).
  { unfold M16_BLOCK_SIZE in Ec. bool_prop. lia. }
  destruct (lookup_lt_is_Some_2 (i_direct i) 0) as [b Hb]; [lia|].
  rewrite arr_get_nat by done. change (Z.to_nat 0) with 0%nat. rewrite Hb.
  cbn [mbind option_bind].
  assert (is_u32 b) as Hbu by (by eapply Forall_lookup_1).
  destruct ((b <? M16_DATA_START_LBA) || (128 <=? b)) eqn:Er.
  { exists false. split; [done|]. split; [done|]. intros H.
    destruct (H Hu) as (_ & _ & i' & b' & Hi' & ? & ? & ? & Hb' & Hrange & _). simplify_eq.
    change M16_DATA_START_LBA with 25 in Er. bool_prop. lia. }
  assert (25 ≤ b < 128) as Hrng by (change M16_DATA_START_LBA with 25 in Er; bool_prop; lia).
  change (m16_bitmap_get ?b ?i) with (bm_test b i). rewrite bm_test_ok by lia.
  exists (bit (D 19) b). split; [done|]. split.
  - intros Hbit _. split_and!; [done|done|]. by exists i, b.
  - intros H. destruct (H Hu) as (_ & _ & i' & b' & Hi' & ? & ? & ? & Hb' & _ & Hbit).
    by simplify_eq.
Qed.

Lemma fsck_dir_spec D n i : length (table D) = 16%nat → Forall inode_ok (table D) →
  block_ok (D 18) → block_ok (D 19) → block_ok (D 24) → (i + n ≤ 12)%nat →
  ∃ r : bool, fsck_dir n i 128 (D 18) (D 19) (D 24) (table D) = Some r ∧
    (r = true ↔ Forall (entry_ok D) (dir_entry (D 24) <$> seq i n)).
Proof.
  intros Hl Ht Hib Hbb Hd. revert i. induction n as [|n IH]; intros i Hi.
  { by exists true. }
  cbn [fsck_dir seq fmap list_fmap].
  assert (dirent_ok (dir_entry (D 24) i)) as (_ & [Hino _] & _ & _) by (apply dir_entry_ok; [done|lia]).
  destruct (fsck_entry_spec D (dir_entry (D 24) i)) as (r & -> & Hr); try done.
  cbn [mbind option_bind]. destruct r.
  - destruct (IH (S i)) as (r & -> & Hr'); [lia|]. exists r. split; [done|].
    rewrite Hr', Forall_cons. split; [|tauto]. intros. split; [by apply Hr|done].
  - exists false. split; [done|]. split; [done|].
    rewrite Forall_cons. intros [H _]. by apply Hr in H.
Qed.

Lemma fsck_spec (dev : m16_blockdev) : ready dev →
  (m16_fsck dev = Some (dev, inr tt) ∧ consistent (img dev)) ∨
  (m16_fsck dev = Some (dev, inl M16_E_CORRUPT) ∧ ¬ consistent (img dev)).
Proof.
  intros Hr. set (D := img dev).
  assert (∀ lba, 18 ≤ lba < 128 → block_ok (D lba)) as Hok by (intros; by apply ready_block).
  destruct (ready_table dev Hr) as [Htl Hti]. fold D in Htl, Hti.
  enough (∃ r, m16_fsck dev = Some (dev, r) ∧ ((r = inr tt ∧ consistent D) ∨
    (r = inl M16_E_CORRUPT ∧ ¬ consistent D))) as (r & -> & [[-> ?]|[-> ?]]) by tauto.
  unfold m16_fsck. erewrite mseq_inr by by apply mount_run.
  erewrite mseq_inr by (apply read_img; [done|by vm_compute]).
  erewrite mseq_inr by (apply read_img; [done|by vm_compute]).
  erewrite mseq_inr by by apply load_table_run.
  erewrite mseq_inr by (apply read_img; [done|by vm_compute]). fold D.
  change (D M16_INODE_BITMAP_LBA) with (D 18). change (D M16_BLOCK_BITMAP_LBA) with (D 19).
  change (D M16_ROOT_DIR_LBA) with (D 24).
  destruct (lookup_lt_is_Some_2 (table D) 0) as [i0 Hi0]; [lia|].
  assert (inode_ok i0) as (_ & _ & _ & Hd4 & _) by (by eapply Forall_lookup_1).
  destruct (lookup_lt_is_Some_2 (i_direct i0) 0) as [b0 Hb0]; [lia|].
  erewrite mseq_mub by (apply bm_test_ok; rewrite block_zlen by (apply Hok; lia); lia).
  erewrite mseq_mub by exact Hi0. erewrite mseq_mub by exact Hb0. cbv beta.
  destruct (bit (D 18) 0 && _ && _ && _) eqn:Eroot.
  2:{ eexists. split; [done|]. right. split; [done|].
      intros [(Hb & i & Hi & Hu & Hk & Hd) _ _]. simplify_eq. by rewrite Hb, Hu, Hk in Eroot. }
  destruct (all_set_spec (Z.to_nat M16_DATA_START_LBA) 0 (D 19)) as (rs & Hrs & Hsys);
    [lia|rewrite block_zlen by (apply Hok; lia); by vm_compute|].
  erewrite mseq_mub by exact Hrs. destruct rs.
  2:{ eexists. split; [done|]. right. split; [done|]. intros [_ Hb _].
      assert (false = true); [|done]. apply Hsys. intros j Hj. apply Hb.
      by change (0 + Z.of_nat (Z.to_nat M16_DATA_START_LBA)) with 25 in Hj. }
  rewrite mseq_mget, ready_total by done.
  destruct (fsck_dir_spec D 12 0) as (re & Hre & Hent); try done; try (apply Hok; lia).
  erewrite mseq_mub by exact Hre. destruct re; eexists; (split; [done|]).
  - left. split; [done|]. split.
    + change M16_ROOT_DIR_LBA with 24 in Eroot. bool_prop. split; [done|].
      exists i0. subst. done.
    + intros b Hb. apply Hsys; [done|].
      by change (0 + Z.of_nat (Z.to_nat M16_DATA_START_LBA)) with 25.
    + by apply Hent.
  - right. split; [done|]. intros [_ _ He]. by apply Hent in He.
Qed.

(** C16. The consistency check of MCSFS1J decides consistency: on a mounted
    device with valid super block and empty journal it returns 0 exactly if
    inode 0 is marked allocated, in use, a directory, with block 24 as its
    first; blocks 0 to 24 are marked in use; and every directory entry in use
    names an inode below 16 that is marked allocated, in use, a file, of at
    most 512 bytes, whose first block is in 25..127 and marked in use.
    Otherwise it returns [M16_E_CORRUPT]. It does not change the device. *)
Theorem m16_fsck_decides (dev : m16_blockdev) : ready dev →
  (m16_fsck dev = Some (dev, inr tt) ∧ consistent (img dev)) ∨
  (m16_fsck dev = Some (dev, inl M16_E_CORRUPT) ∧ ¬ consistent (img dev)).
Proof. apply fsck_spec. Qed.

(** ** Transactions seen through the blocks *)

(** The disk after the records of [tx] are home. *)
Definition after (tx : m16_tx) (D : Z → list Z) (lba : Z) : list Z :=
  default (D lba) (last_write (home_writes tx) lba).

(** Records for blocks other than the journal and the super block. *)
Definition tx_fits (tx : m16_tx) : Prop :=
  zlen tx ≤ M16_JOURNAL_MAX_RECORDS ∧
  Forall (λ r, 18 ≤ r_target r < 128 ∧ block_ok (r_payload r)) tx.

Lemma tx_fits_ok tx : tx_fits tx → tx_ok 128 tx.
Proof.
  intros [Hn H]. split; [done|]. eapply Forall_impl; [apply H|]. simpl. unfold outside. lia.
Qed.

Lemma last_write_payload (P : list Z → Prop) tx lba b :
  Forall (λ r, P (r_payload r)) tx → last_write (home_writes tx) lba = Some b → P b.
Proof.
  induction 1 as [|r tx Hr Htx IH]; simpl; [done|].
  unfold home_writes in IH. destruct (last_write _ lba); [naive_solver|].
  case_decide; naive_solver.
Qed.

(** The two disks agree outside the journal. *)
Definition same_img (D D' : Z → list Z) : Prop := ∀ lba, outside lba → lba < 128 → D lba = D' lba.

Lemma same_outside_img dev bs : zlen bs = 128 → same_outside (blocks dev) bs →
  ∀ lba, outside lba → img dev lba = default [] (bs !! Z.to_nat lba).
Proof. intros _ H lba Hl. unfold img. by rewrite H. Qed.

Lemma ready_same dev dev' : ready dev → geometry dev' → total_blocks dev' = 128 →
  journal_clean dev' → same_img (img dev') (img dev) → ready dev'.
Proof.
  intros [H1 H2 H3 H4 H5] [Hl _] Ht Hcl Hs. split; try done.
  - intros lba Ho Hlt. rewrite Hs by done. by apply H4.
  - rewrite Hs; [done|split; lia|lia].
Qed.

Lemma img_apply_tx dev tx lba : ready dev → tx_fits tx → outside lba → lba < 128 →
  default [] (apply_tx tx (blocks dev) !! Z.to_nat lba) = after tx (img dev) lba.
Proof.
  intros Hr Htx Ho Hl. unfold after.
  rewrite (apply_tx_lookup 128 tx (blocks dev)); [|lia|by apply ready_length|by apply tx_fits_ok|apply Ho].
  by destruct (last_write (home_writes tx) lba).
Qed.

Lemma ready_after dev dev' tx : ready dev → tx_fits tx → geometry dev' →
  total_blocks dev' = 128 → journal_clean dev' →
  same_img (img dev') (after tx (img dev)) → ready dev'.
Proof.
  intros Hr [Hn Htx] [Hl _] Ht Hcl Hs. split; try done.
  - intros lba Ho Hlt. rewrite Hs by done. unfold after.
    destruct (last_write (home_writes tx) lba) as [b|] eqn:E; simpl; [|by apply ready_blocks].
    eapply last_write_payload; [|exact E]. eapply Forall_impl; [apply Htx|]. simpl. tauto.
  - rewrite Hs by (lia || (split; lia)). unfold after. rewrite last_write_None.
    + by apply ready_super.
    + unfold home_writes. apply Forall_fmap. eapply Forall_impl; [apply Htx|]. simpl. lia.
Qed.

(** What one transaction followed by a crash and recoveries leads to. *)
Lemma commit_view dev tx seq stop : ready dev → tx_fits tx → is_u32 seq →
  ∃ dev' r, m16_journal_commit tx seq stop dev = Some (dev', r) ∧
    (r = inr tt → stop = false → ready dev' ∧ same_img (img dev') (after tx (img dev))) ∧
    (fail_after dev < 0 → r = inr tt ∧ fail_after dev' = fail_after dev) ∧
    (∀ ks, ∃ dev2 dev3, interrupted_recoveries ks dev' = Some dev2 ∧
       m16_journal_recover (reboot dev2) = Some (dev3, inr tt) ∧ ready dev3 ∧
       (same_img (img dev3) (after tx (img dev)) ∨
        same_img (img dev3) (img dev) ∧ r ≠ inr tt)).
Proof.
  intros Hr Htx Hseq. pose proof (ready_geometry _ Hr) as Hg.
  pose proof (ready_total _ Hr) as Ht. pose proof (ready_length _ Hr) as Hlen.
  assert (tx_ok (total_blocks dev) tx) as Hok by (rewrite Ht; by apply tx_fits_ok).
  destruct (commit_crash dev tx seq stop) as (dev' & r & Hrun & Hg' & Ht' & Hc & Hd & Hdone & Hpow);
    try done; [by apply ready_clean|].
  exists dev', r. split; [done|]. rewrite Ht in Ht'. split; [|split; [done|]].
  - intros Hr0 Hs0. destruct (Hdone Hr0 Hs0) as [Hcl Hs].
    assert (same_img (img dev') (after tx (img dev))) as Hi.
    { intros lba Ho Hl. rewrite (same_outside_img _ (apply_tx tx (blocks dev))); try done.
      - by apply img_apply_tx.
      - unfold apply_tx, zlen. rewrite length_apply_writes. apply Hlen. }
    split; [|done]. by eapply ready_after.
  - intros ks.
    destruct (interrupted_run tx seq (blocks dev) (total_blocks dev) ks dev'
      (durable tx (fail_after dev))) as (dev2 & H2 & Hg2 & Ht2 & Hc2); try done; [lia|lia|].
    destruct (recover_step (total_blocks dev) tx seq (blocks dev) ltac:(lia) Hlen Hok Hseq
      (reboot dev2) (durable tx (fail_after dev))) as (dev3 & r3 & H3 & Hg3 & Ht3 & _ & Hfin);
      try done. { by apply crash_state_with_fault. }
    destruct Hfin as (-> & Hcl3 & Hs3); [simpl; lia|].
    exists dev2, dev3. split; [done|]. split; [done|].
    destruct (durable tx (fail_after dev)) eqn:Edur.
    + assert (same_img (img dev3) (after tx (img dev))) as Hi.
      { intros lba Ho Hl. rewrite (same_outside_img _ (apply_tx tx (blocks dev))); try done.
        - by apply img_apply_tx.
        - unfold apply_tx, zlen. rewrite length_apply_writes. apply Hlen. }
      split; [|by left]. eapply ready_after; try done. lia.
    + assert (same_img (img dev3) (img dev)) as Hi.
      { intros lba Ho Hl. by rewrite (same_outside_img _ (blocks dev)). }
      split; [by eapply ready_same; try done; lia|]. right. split; [done|]. intros ?. by specialize (Hd H).
Qed.

(** ** Growing the disk by one inode and one block *)

(** What a directory entry leads to. *)
Definition content (D : Z → list Z) (d : m16_dirent) : option (list Z) :=
  i ← table D !! Z.to_nat (d_ino d);
  b ← i_direct i !! 0%nat;
  Some (take (Z.to_nat (i_size i)) (D b)).

Lemma file_content D s : file D s = file_entry D s ≫= content D.
Proof. done. Qed.

(** [D'] is [D] with the free inode [ino] and the free block [db] allocated
    to a file of [size] bytes. *)
Record grown (D D' : Z → list Z) (ino db size : Z) : Prop := {
  gr_ino : 1 ≤ ino < 16 ∧ bit (D 18) ino = false;
  gr_block : 25 ≤ db < 128 ∧ bit (D 19) db = false;
  gr_ib : ∀ j, 0 ≤ j < 16 → bit (D' 18) j = if decide (j = ino) then true else bit (D 18) j;
  gr_bb : ∀ j, 0 ≤ j < 128 → bit (D' 19) j = if decide (j = db) then true else bit (D 19) j;
  gr_table : ∃ i, table D !! Z.to_nat ino = Some i ∧
    table D' = <[Z.to_nat ino := fill_inode size db i]> (table D) ∧
    length (i_direct i) = 4%nat;
  gr_size : 0 ≤ size ≤ 512;
  gr_data : ∀ b, 25 ≤ b < 128 → b ≠ db → D' b = D b;
}.

Section Grown.
Context (D D' : Z → list Z) (ino db size : Z) (Hgr : grown D D' ino db size).

Lemma grown_inode_ok n : 0 ≤ n → file_inode_ok D n →
  n ≠ ino ∧ file_inode_ok D' n ∧ table D' !! Z.to_nat n = table D !! Z.to_nat n ∧
  ∀ i b, table D !! Z.to_nat n = Some i → i_direct i !! 0%nat = Some b → b ≠ db.
Proof.
  intros Hn (Hlt & Hbit & i & b & Hi & Hu & Hk & Hs & Hb & Hr & Hbb).
  destruct Hgr as [[Hino Hf] [Hdb Hfb] Hib' Hbb' (i0 & Hi0 & Ht & _) _ _].
  assert (n ≠ ino) as Hne by congruence. split; [done|].
  assert (table D' !! Z.to_nat n = table D !! Z.to_nat n) as Heq.
  { rewrite Ht. apply list_lookup_insert_ne. lia. }
  split; [|split; [done|]].
  - split; [done|]. split; [rewrite Hib' by lia; by rewrite decide_False|].
    exists i, b. rewrite Heq. repeat (split; [done|]).
    rewrite Hbb' by lia. by case_decide.
  - intros i' b' Hi' Hb'. simplify_eq. congruence.
Qed.

Lemma grown_new_inode : file_inode_ok D' ino.
Proof.
  destruct Hgr as [[Hino Hf] [Hdb Hfb] Hib' Hbb' (i0 & Hi0 & Ht & Hl) Hs _].
  split; [lia|]. split; [rewrite Hib' by lia; by rewrite decide_True|].
  exists (fill_inode size db i0), db. split.
  { rewrite Ht. apply list_lookup_insert_eq. by eapply lookup_lt_Some. }
  unfold fill_inode. cbn [i_used i_kind i_size i_direct]. split_and!; try lia.
  - apply list_lookup_insert_eq. lia.
  - rewrite Hbb' by lia. by rewrite decide_True.
Qed.

Lemma grown_entry_ok d : 0 ≤ d_ino d → entry_ok D d → entry_ok D' d.
Proof. intros Hi Hd Hu. by apply grown_inode_ok; [|apply Hd]. Qed.

Lemma grown_content d : 0 ≤ d_ino d → d_used d ≠ 0 → entry_ok D d →
  content D' d = content D d.
Proof.
  intros Hi Hu Hd. specialize (Hd Hu).
  destruct (grown_inode_ok _ Hi Hd) as (_ & _ & Ht & Hb).
  destruct Hd as (_ & _ & i & b & Hti & _ & _ & _ & Hdi & Hr & _).
  unfold content. rewrite Ht, Hti. cbn [mbind option_bind]. rewrite Hdi.
  cbn [mbind option_bind]. rewrite (gr_data _ _ _ _ _ Hgr b Hr); [done|].
  by eapply Hb.
Qed.

Lemma grown_consistent : consistent D →
  Forall (entry_ok D') (slots (D' 24)) → consistent D'.
Proof.
  intros [[Hr0 (i & Hi & Hu & Hk & Hd)] Hs _] He.
  destruct Hgr as [[Hino Hf] [Hdb Hfb] Hib' Hbb' (i0 & Hi0 & Ht & Hl) _ _].
  split; [|intros b Hb; rewrite Hbb' by lia; case_decide; [done|by apply Hs]|done].
  split; [rewrite Hib' by lia; by case_decide|].
  exists i. rewrite Ht, list_lookup_insert_ne by lia. done.
Qed.
End Grown.

(** ** What is in use *)

Definition used_in (bm : list Z) (i n : Z) : nat :=
  length (filter (λ j, bit bm j = true) (seqZ i n)).
Definition entries (dir : list Z) : nat := length (filter (λ d, ¬ unused d) (slots dir)).

(** At most [k] inodes and [k] data blocks are marked in use, and at most [e]
    directory entries. *)
Definition within (D : Z → list Z) (k e : nat) : Prop :=
  (used_in (D 18%Z) 1 15 ≤ k)%nat ∧ (used_in (D 19%Z) 25 103 ≤ k)%nat ∧ (entries (D 24%Z) ≤ e)%nat.

Lemma filter_length_mono {A} (P Q : A → Prop) `{∀ x, Decision (P x), ∀ x, Decision (Q x)} l :
  (∀ x, x ∈ l → P x → Q x) → (length (filter P l) ≤ length (filter Q l))%nat.
Proof.
  induction l as [|x l IH]; intros H1; [done|]. rewrite !filter_cons.
  specialize (IH ltac:(intros y ?; apply H1; by right)).
  destruct (decide (P x)); [|case_decide; simpl; lia].
  rewrite decide_True by (apply H1; [by left|done]). simpl. lia.
Qed.

Lemma filter_one_more (f f' : Z → bool) x l : NoDup l →
  (∀ j, j ∈ l → f' j = if decide (j = x) then true else f j) →
  (length (filter (λ j, f' j = true) l) ≤ S (length (filter (λ j, f j = true) l)))%nat.
Proof.
  intros Hnd Hf. induction Hnd as [|j l Hj Hnd IH]; [simpl; lia|].
  rewrite !filter_cons, (Hf j) by (by left).
  assert (∀ i, i ∈ l → f' i = if decide (i = x) then true else f i) as Hf'.
  { intros i Hi. apply Hf. by right. }
  destruct (decide (j = x)) as [->|Hne].
  - assert (length (filter (λ i, f' i = true) l) ≤ length (filter (λ i, f i = true) l))%nat.
    { apply filter_length_mono. intros i Hi. rewrite Hf' by done.
      by rewrite decide_False by congruence. }
    rewrite decide_True by done. case_decide; simpl; lia.
  - specialize (IH Hf'). case_decide; simpl; lia.
Qed.

Lemma filter_insert_le {A} (P : A → Prop) `{∀ x, Decision (P x)} l i x :
  (length (filter P (<[i:=x]> l)) ≤ S (length (filter P l)))%nat.
Proof.
  revert i. induction l as [|y l IH]; intros [|i]; simpl; try lia; rewrite !filter_cons.
  - repeat case_decide; simpl; lia.
  - specialize (IH i). case_decide; simpl; lia.
Qed.

Lemma used_in_all bm i n : 0 ≤ n → (∀ j, i ≤ j < i + n → bit bm j = true) →
  (Z.to_nat n ≤ used_in bm i n)%nat.
Proof.
  intros Hn H. unfold used_in. rewrite <-(length_seqZ i n) at 1.
  assert (∀ l : list Z, (∀ j, j ∈ l → bit bm j = true) → filter (λ j, bit bm j = true) l = l) as Hall.
  { induction l as [|x l IH]; intros Hl; [done|]. rewrite filter_cons_True by (apply Hl; by left).
    f_equal. apply IH. intros y Hy. apply Hl. by right. }
  rewrite Hall; [done|]. intros j Hj%elem_of_seqZ. by apply H.
Qed.

Lemma grown_within D D' ino db size k e e' : grown D D' ino db size → within D k e →
  (entries (D' 24%Z) ≤ e')%nat → within D' (S k) e'.
Proof.
  intros [_ _ Hi Hb _ _ _] (H1 & H2 & _) He. split; [|split; [|done]]; unfold used_in.
  - etransitivity; [apply (filter_one_more (bit (D 18)) _ ino); [apply NoDup_seqZ|]|].
    + intros j Hj%elem_of_seqZ. apply Hi. lia.
    + unfold used_in in H1. lia.
  - etransitivity; [apply (filter_one_more (bit (D 19)) _ db); [apply NoDup_seqZ|]|].
    + intros j Hj%elem_of_seqZ. apply Hb. lia.
    + unfold used_in in H2. lia.
Qed.

Lemma within_same_img D D' k e : same_img D' D → within D k e → within D' k e.
Proof. intros Hs. unfold within. by rewrite !Hs by (lia || (split; lia)). Qed.

Lemma slots_ino D : block_ok (D 24) → Forall (λ d, 0 ≤ d_ino d) (slots (D 24)).
Proof.
  intros Hd. unfold slots. apply Forall_fmap, Forall_forall. intros i Hi. simpl.
  apply elem_of_seq in Hi.
  assert (dirent_ok (dir_entry (D 24) i)) as (_ & [? _] & _ & _) by (apply dir_entry_ok; [done|lia]).
  done.
Qed.

(** The first transaction alone changes no file. *)
Lemma grown_same_files D D' ino db size : grown D D' ino db size → block_ok (D 24) →
  D' 24 = D 24 → consistent D →
  consistent D' ∧ ∀ s, file D' s = file D s.
Proof.
  intros Hgr Hok H24 Hc. pose proof (slots_ino D Hok) as Hino.
  pose proof (cons_entries _ Hc) as Hent. split.
  - apply (grown_consistent _ _ _ _ _ Hgr); [done|]. rewrite H24.
    rewrite Forall_forall in *. intros d Hd.
    apply (grown_entry_ok _ _ _ _ _ Hgr); [by apply Hino|by apply Hent].
  - intros s. rewrite !file_content. unfold file_entry. rewrite H24.
    destruct (list_find (named s) (slots (D 24))) as [[j d]|] eqn:E; [|done].
    apply list_find_Some in E as (Hj & [Hu _] & _).
    apply list_elem_of_lookup_2 in Hj. rewrite Forall_forall in *.
    apply (grown_content _ _ _ _ _ Hgr); [by apply Hino|done|by apply Hent].
Qed.

Lemma list_find_insert_other {A} (P : A → Prop) `{∀ x, Decision (P x)} l k x y :
  l !! k = Some y → ¬ P x → ¬ P y → list_find P (<[k:=x]> l) = list_find P l.
Proof.
  revert k. induction l as [|z l IH]; intros k Hk Hx Hy; [done|].
  destruct k as [|k]; simpl in *.
  - simplify_eq. by rewrite !decide_False.
  - by rewrite (IH k).
Qed.

Lemma list_find_insert_first {A} (P : A → Prop) `{∀ x, Decision (P x)} l k x :
  (k < length l)%nat → list_find P l = None → P x → list_find P (<[k:=x]> l) = Some (k, x).
Proof.
  intros Hk Hn Hx. apply list_find_Some. split; [by apply list_lookup_insert_eq|].
  split; [done|]. intros j y Hj Hlt. rewrite list_lookup_insert_ne in Hj by lia.
  apply list_find_None in Hn. by eapply Forall_lookup_1 in Hn.
Qed.

(** Both transactions: the new file appears, the others stay. *)
Lemma grown_new_file D D' ino db size s slot d0 d blk :
  grown D D' ino db size → block_ok (D 24) → consistent D →
  list_find (named s) (slots (D 24)) = None →
  slots (D 24) !! slot = Some d0 → unused d0 →
  slots (D' 24) = <[slot := d]> (slots (D 24)) →
  d_used d = 1 → d_ino d = ino → cstr (d_name d) = s → D' db = blk →
  consistent D' ∧ file D' s = Some (take (Z.to_nat size) blk) ∧
  ∀ s', s' ≠ s → file D' s' = file D s'.
Proof.
  intros Hgr Hok Hc Hnone Hslot H0 H24 Hu Hdi Hn Hblk. pose proof (slots_ino D Hok) as Hino.
  pose proof (cons_entries _ Hc) as Hent.
  pose proof (grown_new_inode _ _ _ _ _ Hgr) as Hnew. split; [|split].
  - apply (grown_consistent _ _ _ _ _ Hgr); [done|]. rewrite H24.
    apply Forall_insert; [|intros _; by rewrite Hdi].
    rewrite Forall_forall in *. intros x Hx.
    apply (grown_entry_ok _ _ _ _ _ Hgr); [by apply Hino|by apply Hent].
  - rewrite file_content. unfold file_entry. rewrite H24, (list_find_insert_first _ _ slot d);
      [|by eapply lookup_lt_Some|done|split; [lia|done]].
    cbn [fmap option_fmap option_map snd mbind option_bind]. unfold content. rewrite Hdi.
    destruct Hgr as [[? _] _ _ _ (i0 & Hi0 & Ht & Hl) _ _].
    rewrite Ht, list_lookup_insert_eq by (by eapply lookup_lt_Some).
    cbn [mbind option_bind fill_inode i_direct i_size].
    rewrite list_lookup_insert_eq by lia. cbn [mbind option_bind]. by rewrite Hblk.
  - intros s' Hs'. rewrite !file_content. unfold file_entry. rewrite H24.
    rewrite (list_find_insert_other _ _ slot d d0); [|done|unfold named; intros [_ ?]; congruence|
      unfold named; unfold unused in H0; tauto].
    destruct (list_find (named s') (slots (D 24))) as [[j x]|] eqn:E; [|done].
    apply list_find_Some in E as (Hj & [Hux _] & _).
    apply list_elem_of_lookup_2 in Hj. rewrite Forall_forall in *.
    apply (grown_content _ _ _ _ _ Hgr); [by apply Hino|done|by apply Hent].
Qed.

Lemma table_same_img D D' : same_img D' D → table D' = table D.
Proof.
  intros H. unfold table, table_raw.
  by rewrite !H by (lia || (split; lia)).
Qed.

Lemma grown_same_img D D1 D2 ino db size :
  grown D D1 ino db size → same_img D2 D1 → grown D D2 ino db size.
Proof.
  intros [H1 H2 H3 H4 H5 H6 H7] Hs. split; try done.
  - intros j Hj. rewrite Hs by (lia || (split; lia)). by apply H3.
  - intros j Hj. rewrite Hs by (lia || (split; lia)). by apply H4.
  - by rewrite (table_same_img D1 D2).
  - intros b Hb Hne. rewrite Hs by (lia || (split; lia)). by apply H7.
Qed.

Lemma consistent_same_img D D' : same_img D' D → consistent D →
  consistent D' ∧ ∀ s, file D' s = file D s.
Proof.
  intros Hs Hc. pose proof (table_same_img D D' Hs) as Ht.
  assert (D' 18 = D 18 ∧ D' 19 = D 19 ∧ D' 24 = D 24) as (H18 & H19 & H24).
  { split_and!; apply Hs; (lia || (split; lia)). }
  split.
  - destruct Hc as [Hr Hsys He]. split; [by rewrite H18, Ht|by rewrite H19|].
    rewrite H24. eapply Forall_impl; [apply He|]. intros d Hd Hu. specialize (Hd Hu).
    unfold file_inode_ok in *. by rewrite H18, H19, Ht.
  - intros s. rewrite !file_content. unfold file_entry. rewrite H24.
    destruct (list_find (named s) (slots (D 24))) as [[j d]|] eqn:E; [|done].
    apply list_find_Some in E as (Hj & [Hu _] & _).
    eapply Forall_lookup_1 in Hj; [|apply Hc]. destruct (Hj Hu) as (_ & _ & i & b & Hi & _ & _ & _ & Hb & Hr & _).
    cbn [fmap option_fmap option_map snd mbind option_bind].
    unfold content. rewrite Ht, Hi. cbn [mbind option_bind]. rewrite Hb.
    cbn [mbind option_bind]. by rewrite Hs by (lia || (split; lia)).
Qed.

(** ** The two transactions of a file write *)

Definition tx_alloc (ib bb raw : list Z) : m16_tx :=
  [M16Jrec 18 ib; M16Jrec 19 bb; M16Jrec 20 (slice 0 512 raw); M16Jrec 21 (slice 512 512 raw);
   M16Jrec 22 (slice 1024 512 raw); M16Jrec 23 (slice 1536 512 raw)].
Definition tx_link (dir : list Z) (db : Z) (blk : list Z) : m16_tx :=
  [M16Jrec 24 dir; M16Jrec db blk].

Lemma slice_chunks raw k : (k < 4)%nat → slice (k * 512) 512 raw = chunks 4 512 raw !!! k.
Proof. intros Hk. symmetry. apply list_lookup_total_correct. by rewrite chunks_lookup. Qed.

Lemma slices_raw raw : length raw = 2048%nat →
  slice 0 512 raw ++ slice 512 512 raw ++ slice 1024 512 raw ++ slice 1536 512 raw = raw.
Proof.
  intros Hl. rewrite <-(concat_chunks 4 512 raw) at 5 by done.
  unfold slice. cbn [chunks concat]. rewrite app_nil_r, !drop_drop. done.
Qed.

Lemma after_alloc D ib bb raw :
  after (tx_alloc ib bb raw) D 18 = ib ∧ after (tx_alloc ib bb raw) D 19 = bb ∧
  after (tx_alloc ib bb raw) D 24 = D 24 ∧
  (length raw = 2048%nat → table (after (tx_alloc ib bb raw) D) = inodes_of raw) ∧
  (∀ b, 25 ≤ b → after (tx_alloc ib bb raw) D b = D b).
Proof.
  split; [done|]. split; [done|]. split; [done|]. split.
  - intros Hl. unfold table, table_raw. rewrite <-(slices_raw raw Hl) at 5. done.
  - intros b Hb. unfold after. rewrite last_write_None; [done|].
    unfold home_writes, tx_alloc. repeat constructor; simpl; lia.
Qed.

Lemma after_link D dir db blk : 25 ≤ db →
  after (tx_link dir db blk) D 18 = D 18 ∧ after (tx_link dir db blk) D 19 = D 19 ∧
  after (tx_link dir db blk) D 24 = dir ∧
  table (after (tx_link dir db blk) D) = table D ∧
  after (tx_link dir db blk) D db = blk ∧
  (∀ b, 25 ≤ b → b ≠ db → after (tx_link dir db blk) D b = D b).
Proof.
  intros Hdb.
  assert (∀ b, b ≠ 24 → b ≠ db → after (tx_link dir db blk) D b = D b) as Ho.
  { intros b H1 H2. unfold after. rewrite last_write_None; [done|].
    unfold home_writes, tx_link. repeat constructor; simpl; lia. }
  split_and!; try (apply Ho; lia).
  - unfold after. simpl. by rewrite decide_False by lia.
  - unfold table, table_raw. by rewrite !Ho by lia.
  - unfold after. simpl. by rewrite decide_True.
  - intros b ? ?. apply Ho; lia.
Qed.

Lemma bitmap_set_ok b i : block_ok b → 0 ≤ i < 4096 →
  ∃ b', m16_bitmap_set b i = Some b' ∧ block_ok b' ∧ bit_updated b b' i true.
Proof.
  intros [Hl Hb] Hi. destruct (bm_set_ok b i) as (b' & Hs & Hu); [unfold zlen; lia|].
  exists b'. split; [exact Hs|]. split; [|done].
  unfold bm_set in Hs. ub_inv Hs. apply arr_set_Some in Hs as [_ ->].
  split; [by rewrite length_insert|]. apply Forall_insert; [done|apply u8_range].
Qed.

Lemma copy_block_ok data size : 0 ≤ size ≤ 512 → size ≤ zlen data → Forall is_u8 data →
  ∃ blk, m16_copy (m16_zero 512) data size = Some blk ∧ block_ok blk ∧
    take (Z.to_nat size) blk = take (Z.to_nat size) data.
Proof.
  intros Hs Hd Hu. unfold m16_copy, m16_zero, zlen in *.
  rewrite mem_copy_ok by (rewrite ?length_replicate; lia).
  eexists. split; [done|]. split; [split|].
  - rewrite length_app, length_take, length_drop, length_replicate. lia.
  - apply Forall_app. split; [by apply Forall_take|].
    apply Forall_drop, Forall_replicate. words.
  - rewrite take_app_le by (rewrite length_take; lia). rewrite take_take. f_equal. lia.
Qed.

Lemma copy_name_ok nm s : holds nm s → (length s < 32)%nat → Forall is_u8 s →
  ∃ dn, m16_copy (m16_zero 32) nm (Z.of_nat (length s)) = Some dn ∧
    length dn = 32%nat ∧ Forall is_u8 dn ∧ cstr dn = s.
Proof.
  intros [Hs [r ->]] Hl Hu. unfold m16_copy, m16_zero. rewrite Nat2Z.id.
  rewrite mem_copy_ok by (rewrite ?length_replicate, ?length_app; lia).
  rewrite take_app_length, drop_replicate. eexists. split; [done|]. split_and!.
  - rewrite length_app, length_replicate. lia.
  - apply Forall_app. split; [done|]. apply Forall_replicate. words.
  - by apply cstr_pad.
Qed.

Lemma slots_set dir slot d : block_ok dir → dirent_ok d → (slot < 12)%nat →
  slots (dir_set dir slot d) = <[slot := d]> (slots dir).
Proof.
  intros [Hl _] Hd Hslot. apply list_eq. intros j.
  unfold slots. destruct (decide (j < 12)%nat) as [Hj|Hj].
  - rewrite list_lookup_fmap, lookup_seq_lt by done. cbn [fmap option_fmap option_map].
    rewrite Nat.add_0_l, dir_set_entry by done. case_decide as E.
    + subst j. rewrite list_lookup_insert_eq; [done|]. by rewrite length_fmap, length_seq.
    + rewrite list_lookup_insert_ne by done. by rewrite list_lookup_fmap, lookup_seq_lt by done.
  - rewrite !lookup_ge_None_2; [done|..];
      rewrite ?length_insert, length_fmap, length_seq; lia.
Qed.

Lemma inodes_raw_u8 tbl : Forall inode_ok tbl → Forall is_u8 (inodes_raw tbl).
Proof.
  intros Ht. unfold inodes_raw. induction Ht as [|x l Hx Hl IH]; [constructor|].
  cbn [fmap list_fmap concat]. apply Forall_app. split; [by apply inode_bytes_u8|exact IH].
Qed.

Lemma fill_inode_ok size db i : inode_ok i → is_u32 size → is_u32 db →
  inode_ok (fill_inode size db i).
Proof.
  intros (_ & _ & _ & Hl & Hd & Hrl & Hru) Hs Hb. unfold inode_ok, fill_inode.
  cbn [i_used i_kind i_size i_direct i_reserved]. split_and!; try done; try words.
  - by rewrite length_insert.
  - by apply Forall_insert.
Qed.

(** What the two transactions of a successful check promise. *)
Record write_plan (D : Z → list Z) (s c : list Z) (size : Z) (tx1 tx2 : m16_tx) : Prop := {
  wp_fits1 : tx_fits tx1;
  wp_fits2 : tx_fits tx2;
  wp_absent : file_entry D s = None;
  wp_first : ∀ D1, same_img D1 (after tx1 D) → consistent D →
    consistent D1 ∧ ∀ s', file D1 s' = file D s';
  wp_within1 : ∀ D1 k e, same_img D1 (after tx1 D) → within D k e → within D1 (S k) e;
  wp_within2 : ∀ D1 D2 k e, same_img D1 (after tx1 D) → same_img D2 (after tx2 D1) →
    within D k e → within D2 (S k) (S e);
  wp_second : ∀ D1 D2, same_img D1 (after tx1 D) → same_img D2 (after tx2 D1) → consistent D →
    consistent D2 ∧ file D2 s = Some c ∧ ∀ s', s' ≠ s → file D2 s' = file D s';
}.

Lemma grown_alloc D ino db size i ib bb :
  (∀ lba, 18 ≤ lba < 24 → block_ok (D lba)) → 1 ≤ ino < 16 → bit (D 18) ino = false →
  bit_updated (D 18) ib ino true → 25 ≤ db < 128 → bit (D 19) db = false →
  bit_updated (D 19) bb db true → table D !! Z.to_nat ino = Some i → 0 ≤ size ≤ 512 →
  let raw := inodes_raw (<[Z.to_nat ino := fill_inode size db i]> (table D)) in
  length raw = 2048%nat ∧ Forall is_u8 raw ∧ grown D (after (tx_alloc ib bb raw) D) ino db size.
Proof.
  intros Hok Hino Hfi Hbi Hdb Hfb Hbd Hi Hsz. cbv zeta.
  destruct (table_ok D) as [Htl Hti]; [intros; apply Hok; lia|].
  assert (inode_ok i) as Hio by (by eapply Forall_lookup_1).
  assert (inode_ok (fill_inode size db i)) as Hfo by (apply fill_inode_ok; (done || words)).
  set (T' := <[Z.to_nat ino := fill_inode size db i]> (table D)).
  assert (length T' = 16%nat) as HTl by (unfold T'; by rewrite length_insert).
  assert (Forall inode_ok T') as HTi by (by apply Forall_insert).
  assert (length (inodes_raw T') = 2048%nat) as Hraw by (rewrite length_inodes_raw by done; lia).
  split; [done|]. split; [by apply inodes_raw_u8|].
  destruct (after_alloc D ib bb (inodes_raw T')) as (A18 & A19 & A24 & At & Ao).
  destruct Hbi as [_ Hbi]. destruct Hbd as [_ Hbd].
  pose proof (block_zlen _ (Hok 18 ltac:(lia))). pose proof (block_zlen _ (Hok 19 ltac:(lia))).
  split; try done.
  - intros j Hj. rewrite A18. apply Hbi. lia.
  - intros j Hj. rewrite A19. apply Hbd. lia.
  - exists i. split; [done|]. split; [|apply Hio].
    rewrite At by done. by apply inodes_of_raw.
  - intros b Hb _. apply Ao. lia.
Qed.

Lemma grown_link D D1 ino db size dir blk :
  grown D D1 ino db size → grown D (after (tx_link dir db blk) D1) ino db size.
Proof.
  intros [G1 G2 G3 G4 G5 G6 G7].
  destruct (after_link D1 dir db blk) as (L18 & L19 & L24 & Lt & Lb & Lo); [lia|].
  split; try done.
  - by rewrite L18.
  - by rewrite L19.
  - by rewrite Lt.
  - intros b Hb Hne. rewrite Lo by (done || lia). by apply G7.
Qed.

Lemma make_plan dev s data size ino db ib' bb' i slot d0 dn blk :
  let D := img dev in
  ready dev →
  1 ≤ ino < 16 → bit (D 18) ino = false → block_ok ib' → bit_updated (D 18) ib' ino true →
  25 ≤ db < 128 → bit (D 19) db = false → block_ok bb' → bit_updated (D 19) bb' db true →
  table D !! Z.to_nat ino = Some i → 0 ≤ size ≤ 512 →
  list_find (named s) (slots (D 24)) = None → (slot < 12)%nat →
  slots (D 24) !! slot = Some d0 → unused d0 →
  length dn = 32%nat → Forall is_u8 dn → cstr dn = s →
  block_ok blk → take (Z.to_nat size) blk = take (Z.to_nat size) data →
  write_plan D s (take (Z.to_nat size) data) size
    (tx_alloc ib' bb' (inodes_raw (<[Z.to_nat ino := fill_inode size db i]> (table D))))
    (tx_link (dir_set (D 24) slot (M16Dirent 1 ino dn)) db blk).
Proof.
  intros D Hr Hino Hfi Hib Hbi Hdb Hfb Hbb Hbd Hi Hsz Hnone Hslot Hs0 Hun Hdn Hdu Hdc Hblk Htake.
  destruct (grown_alloc D ino db size i ib' bb') as (Hraw & Hrawu & Hg); try done.
  { intros. apply ready_block; [done|lia]. }
  set (raw := inodes_raw _) in *. set (tx1 := tx_alloc ib' bb' raw) in *.
  set (d := M16Dirent 1 ino dn). set (tx2 := tx_link (dir_set (D 24) slot d) db blk).
  assert (block_ok (D 24)) as H24ok by (apply ready_block; [done|lia]).
  assert (dirent_ok d) as Hdok.
  { unfold dirent_ok, d. cbn [d_used d_ino d_name]. split_and!; try done; words. }
  assert (∀ D1, same_img D1 (after tx1 D) → grown D D1 ino db size ∧ D1 24 = D 24) as Hg1.
  { intros D1 Hs. split; [by eapply grown_same_img|]. by rewrite Hs by (lia || (split; lia)). }
  assert (∀ D1 D2, same_img D1 (after tx1 D) → same_img D2 (after tx2 D1) →
    grown D D2 ino db size ∧ slots (D2 24) = <[slot := d]> (slots (D 24)) ∧ D2 db = blk) as Hg2.
  { intros D1 D2 Hs1 Hs2. destruct (Hg1 D1 Hs1) as [Hgr _].
    destruct (after_link D1 (dir_set (D 24) slot d) db blk) as (_ & _ & L24 & _ & Lb & _); [lia|].
    split; [eapply grown_same_img; [by apply grown_link|exact Hs2]|].
    rewrite !Hs2 by (lia || (split; lia)). fold tx2 in L24, Lb. rewrite L24.
    split; [by apply slots_set|done]. }
  split.
  - split; [done|]. unfold tx1, tx_alloc. repeat constructor; try (simpl; lia);
      try apply Hib; try apply Hbb; try (by apply Forall_take, Forall_drop);
      cbn [r_payload]; rewrite slice_length; lia.
  - split; [done|]. unfold tx2, tx_link.
    repeat constructor; try (simpl; lia); try apply Hblk; by apply dir_set_ok.
  - unfold file_entry. by rewrite Hnone.
  - intros D1 Hs Hc. destruct (Hg1 D1 Hs). by eapply grown_same_files.
  - intros D1 k e Hs Hw. destruct (Hg1 D1 Hs) as [Hgr H24].
    eapply grown_within; [done..|]. rewrite H24. apply Hw.
  - intros D1 D2 k e Hs1 Hs2 Hw. destruct (Hg2 D1 D2 Hs1 Hs2) as (Hgr & H24 & _).
    eapply grown_within; [done..|]. unfold entries. rewrite H24.
    etransitivity; [apply filter_insert_le|]. apply le_n_S, Hw.
  - intros D1 D2 Hs1 Hs2 Hc. destruct (Hg2 D1 D2 Hs1 Hs2) as (Hgr & H24 & Hdb2).
    rewrite <-Htake. by eapply (grown_new_file D D2 ino db size s slot d0 d).
Qed.

(** ** Writing a file *)

Definition disk_full (D : Z → list Z) : Prop :=
  (∀ j, 1 ≤ j < 16 → bit (D 18) j = true) ∨
  (∀ j, 25 ≤ j < 128 → bit (D 19) j = true) ∨
  Forall (λ d, ¬ unused d) (slots (D 24)).

(** A proper call: a name of 1 to 31 characters, at most a block of data. *)
Record write_args (nm s data : list Z) (size : Z) : Prop := {
  wa_name : holds nm s;
  wa_length : (0 < length s < 32)%nat;
  wa_chars : Forall is_u8 s;
  wa_size : 0 ≤ size ≤ 512;
  wa_data : size ≤ zlen data;
  wa_bytes : Forall is_u8 data;
}.

Lemma free_inode_spec ib : block_ok ib →
  (m16_find_free_inode ib = Some M16_E_NOSPC ∧ ∀ j, 1 ≤ j < 16 → bit ib j = true) ∨
  (∃ ino, m16_find_free_inode ib = Some ino ∧ 1 ≤ ino < 16 ∧ bit ib ino = false).
Proof.
  intros Hb%block_zlen. unfold m16_find_free_inode.
  destruct (find_clear_spec (Z.to_nat (M16_MAX_INODES - 1)) 1 ib) as (r & -> & Hs);
    [lia|unfold M16_MAX_INODES; lia|].
  change (1 + Z.of_nat (Z.to_nat (M16_MAX_INODES - 1))) with 16 in Hs.
  destruct r as [j|]; [right|by left]. exists j. destruct Hs as (Hj & Hb' & _). done.
Qed.

Lemma free_block_spec bb : block_ok bb →
  (m16_find_free_block bb = Some M16_E_NOSPC ∧ ∀ j, 25 ≤ j < 128 → bit bb j = true) ∨
  (∃ db, m16_find_free_block bb = Some db ∧ 25 ≤ db < 128 ∧ bit bb db = false).
Proof.
  intros Hb%block_zlen. unfold m16_find_free_block.
  destruct (find_clear_spec (Z.to_nat (M16_MAX_BLOCKS - M16_DATA_START_LBA))
    M16_DATA_START_LBA bb) as (r & -> & Hs);
    [done|rewrite Hb; by vm_compute|].
  change M16_DATA_START_LBA with 25 in Hs.
  change (25 + Z.of_nat (Z.to_nat (M16_MAX_BLOCKS - 25))) with 128 in Hs.
  destruct r as [j|]; [right|by left]. exists j. destruct Hs as (Hj & Hb' & _). done.
Qed.

Lemma name_length nm s : holds nm s → (0 < length s < 32)%nat →
  m16_strlen_bounded nm M16_MAX_NAME = Some (Z.of_nat (length s)).
Proof.
  intros Hh Hl. unfold m16_strlen_bounded.
  rewrite strlen_loop_cstr by (left; by exists s).
  rewrite (cstr_holds _ _ Hh). f_equal. change (Z.to_nat M16_MAX_NAME) with 32%nat. lia.
Qed.

Lemma store_table_run ib bb tbl : Forall inode_ok tbl → length tbl = 16%nat →
  m16_store_inode_table [M16Jrec 18 ib; M16Jrec 19 bb] tbl =
    inr (tx_alloc ib bb (inodes_raw tbl)).
Proof.
  intros Hi Hl. unfold m16_store_inode_table.
  change (M16_JOURNAL_MAX_RECORDS <? _) with false. cbv iota.
  unfold tx_alloc, slice. cbn [chunks imap]. rewrite drop_0, !drop_drop. done.
Qed.

(** What a call of [m16_write_file_ex] amounts to: an error that leaves the
    device alone, or the two commits. *)
Definition write_result (dev : m16_blockdev) (s c : list Z) (size : Z) (stop : bool)
    (o : option (m16_blockdev * (Z + unit))) : Prop :=
  (∃ rc, o = Some (dev, inl rc) ∧
     ((rc = M16_E_EXISTS ∧ file_entry (img dev) s ≠ None) ∨
      (rc = M16_E_NOSPC ∧ file_entry (img dev) s = None ∧ disk_full (img dev)))) ∨
  (∃ tx1 tx2 seq1 seq2, is_u32 seq1 ∧ is_u32 seq2 ∧
     write_plan (img dev) s c size tx1 tx2 ∧
     o = mseq (m16_journal_commit tx1 seq1 false) (λ _, m16_journal_commit tx2 seq2 stop) dev).

Lemma write_result_err dev s c size stop rc :
  (rc = M16_E_EXISTS ∧ file_entry (img dev) s ≠ None) ∨
  (rc = M16_E_NOSPC ∧ file_entry (img dev) s = None ∧ disk_full (img dev)) →
  write_result dev s c size stop (Some (dev, inl rc)).
Proof. intros H. left. by exists rc. Qed.

Lemma write_commit_run dev nm s data size stop sb ino db slot d0 :
  let D := img dev in
  ready dev → write_args nm s data size →
  1 ≤ ino < 16 → bit (D 18) ino = false → 25 ≤ db < 128 → bit (D 19) db = false →
  list_find (named s) (slots (D 24)) = None → slots (D 24) !! slot = Some d0 → unused d0 →
  write_result dev s (take (Z.to_nat size) data) size stop
    (write_file_commit sb (D 18) (D 19) (table D) (D 24) nm (Z.of_nat (length s)) data size
       ino db (Z.of_nat slot) stop dev).
Proof.
  intros D Hr [Hnm Hns Hnu Hsz Hd Hdu] Hino Hbi Hdb Hbd Hnone Hslot Hun.
  assert (∀ lba, 18 ≤ lba < 128 → block_ok (D lba)) as Hok by (intros; by apply ready_block).
  destruct (ready_table dev Hr) as [Htl Hti]. fold D in Htl, Hti.
  assert (slot < 12)%nat.
  { apply lookup_lt_Some in Hslot. unfold slots in Hslot. by rewrite length_fmap in Hslot. }
  unfold write_file_commit.
  destruct (copy_block_ok data size) as (blk & Hblk & Hbok & Htake); try done.
  erewrite mseq_mub by exact Hblk.
  destruct (bitmap_set_ok (D 18) ino) as (ib' & Hib & Hibok & Hiu); [apply Hok; lia|lia|].
  erewrite mseq_mub by exact Hib.
  destruct (bitmap_set_ok (D 19) db) as (bb' & Hbb & Hbbok & Hbu); [apply Hok; lia|lia|].
  erewrite mseq_mub by exact Hbb.
  destruct (lookup_lt_is_Some_2 (table D) (Z.to_nat ino)) as [i Hi]; [lia|].
  assert (inode_ok i) as Hio by (by eapply Forall_lookup_1).
  assert (update_inode (table D) ino (fill_inode size db) =
    Some (<[Z.to_nat ino := fill_inode size db i]> (table D))) as Hupd.
  { unfold update_inode. rewrite arr_get_nat by lia. rewrite Hi. cbn [mbind option_bind].
    apply arr_set_ok. unfold zlen. lia. }
  erewrite mseq_mub by exact Hupd.
  destruct (copy_name_ok nm s) as (dn & Hdn & Hdnl & Hdnu & Hdnc); [done|lia|done|].
  erewrite mseq_mub by exact Hdn. rewrite Nat2Z.id. cbv zeta.
  erewrite mseq_inr by reflexivity. erewrite mseq_inr by reflexivity.
  erewrite mseq_inr by (unfold mtx; cbn [app];
    rewrite store_table_run; [reflexivity| |by rewrite length_insert];
    apply Forall_insert; [done|apply fill_inode_ok; (done || words)]).
  right. do 4 eexists. split; [|split; [|split]].
  3: eapply (make_plan dev s data size ino db ib' bb' i slot d0 dn blk); done.
  3: apply mseq_ext; [reflexivity|intros _ d1]; reflexivity.
  all: apply u32_range.
Qed.

Lemma write_file_run dev nm s data size stop :
  ready dev → write_args nm s data size →
  write_result dev s (take (Z.to_nat size) data) size stop
    (m16_write_file_ex (Ref nm) (Ref data) size stop dev).
Proof.
  intros Hr [Hnm Hns Hnu Hsz Hd Hdu]. set (D := img dev).
  assert (∀ lba, 18 ≤ lba < 128 → block_ok (D lba)) as Hok by (intros; by apply ready_block).
  destruct (ready_table dev Hr) as [Htl Hti]. fold D in Htl, Hti.
  unfold m16_write_file_ex.
  erewrite mseq_mub by by apply name_length.
  assert ((Z.of_nat (length s) =? 0) || (M16_MAX_NAME <=? Z.of_nat (length s)) = false) as ->.
  { apply orb_false_iff. unfold M16_MAX_NAME. split; [apply Z.eqb_neq|apply Z.leb_gt]; lia. }
  assert ((size <=? M16_BLOCK_SIZE) = true) as -> by (apply Z.leb_le; unfold M16_BLOCK_SIZE; lia).
  cbn [negb]. erewrite mseq_inr by by apply mount_run.
  erewrite mseq_inr by (apply read_img; [done|by vm_compute]).
  erewrite mseq_inr by (apply read_img; [done|by vm_compute]).
  erewrite mseq_inr by by apply load_table_run.
  erewrite mseq_inr by (apply read_img; [done|by vm_compute]). fold D.
  change (D M16_INODE_BITMAP_LBA) with (D 18). change (D M16_BLOCK_BITMAP_LBA) with (D 19).
  change (D M16_ROOT_DIR_LBA) with (D 24).
  erewrite mseq_mub by (apply find_dirent_spec; [apply Hok; lia|done|lia]).
  destruct (list_find (named s) (slots (D 24))) as [[j d]|] eqn:Ef.
  { rewrite (proj2 (Z.ltb_ge _ _)) by lia. apply write_result_err. left.
    unfold file_entry. fold D. by rewrite Ef. }
  assert (file_entry D s = None) as Hfe by (unfold file_entry; by rewrite Ef).
  change (M16_E_NOENT <? 0) with true. cbv iota.
  destruct (free_inode_spec (D 18)) as [[Hfi Hfull]|(ino & Hfi & Hino & Hbi)]; [apply Hok; lia|..];
    erewrite mseq_mub by exact Hfi.
  { apply write_result_err. right. split; [done|]. split; [done|]. by left. }
  rewrite (proj2 (Z.leb_le 0 ino)) by lia.
  destruct (free_block_spec (D 19)) as [[Hfb Hfull]|(db & Hfb & Hdb & Hbd)]; [apply Hok; lia|..];
    erewrite mseq_mub by exact Hfb.
  { apply write_result_err. right. split; [done|]. split; [done|]. right. by left. }
  rewrite (proj2 (Z.leb_le 0 db)) by lia. cbv zeta. rewrite find_free_dirent_spec.
  destruct (list_find unused (slots (D 24))) as [[slot d0]|] eqn:Es.
  2:{ change (0 <=? M16_E_NOSPC) with false. apply write_result_err. right.
      split; [done|]. split; [done|]. right. right. by apply list_find_None in Es. }
  rewrite (proj2 (Z.leb_le 0 (Z.of_nat slot))) by lia.
  apply list_find_Some in Es as (Hslot & Hun & _).
  assert (slot < 12)%nat.
  { apply lookup_lt_Some in Hslot. unfold slots in Hslot. by rewrite length_fmap in Hslot. }
  eapply (write_commit_run dev nm s data size stop _ ino db slot d0); done.
Qed.

(** Writing a file.  On a mounted, consistent MCSFS1J disk whose device
    works, [m16_write_file] with a proper name and at most one block of data
    returns [M16_E_EXISTS] and changes nothing exactly if the file exists,
    returns [M16_E_NOSPC] and changes nothing only if inodes, blocks or
    directory slots are exhausted, and otherwise succeeds: the new disk is
    again consistent, holds the file with exactly the bytes given, and every
    other file is as it was. *)
Theorem m16_write_file_correct (dev : m16_blockdev) (nm s data : list Z) (size : Z) :
  ready dev → consistent (img dev) → fail_after dev < 0 → write_args nm s data size →
  ∃ dev' r, m16_write_file (Ref nm) (Ref data) size dev = Some (dev', r) ∧
    match r with
    | inl rc => dev' = dev ∧
        ((rc = M16_E_EXISTS ∧ file_entry (img dev) s ≠ None) ∨
         (rc = M16_E_NOSPC ∧ file_entry (img dev) s = None ∧ disk_full (img dev)))
    | inr _ => file_entry (img dev) s = None ∧ ready dev' ∧ consistent (img dev') ∧
        file (img dev') s = Some (take (Z.to_nat size) data) ∧
        ∀ s', s' ≠ s → file (img dev') s' = file (img dev) s'
    end.
Proof.
  intros Hr Hc Hp Ha. unfold m16_write_file.
  destruct (write_file_run dev nm s data size false Hr Ha)
    as [(rc & -> & Hrc)|(tx1 & tx2 & q1 & q2 & Hq1 & Hq2 & Hplan & ->)].
  { by exists dev, (inl rc). }
  destruct (commit_view dev tx1 q1 false Hr (wp_fits1 _ _ _ _ _ _ Hplan) Hq1)
    as (dev1 & r1 & H1 & Hd1 & Hp1 & _).
  destruct (Hp1 Hp) as [-> Hp1']. destruct Hd1 as [Hr1 Hi1]; [done|done|].
  destruct (commit_view dev1 tx2 q2 false Hr1 (wp_fits2 _ _ _ _ _ _ Hplan) Hq2)
    as (dev2 & r2 & H2 & Hd2 & Hp2 & _).
  destruct Hp2 as [-> _]; [lia|]. destruct Hd2 as [Hr2 Hi2]; [done|done|].
  exists dev2, (inr tt). split; [by rewrite (mseq_inr _ _ _ _ _ H1)|].
  split; [by apply (wp_absent _ _ _ _ _ _ Hplan)|]. split; [done|].
  by apply (wp_second _ _ _ _ _ _ Hplan (img dev1)).
Qed.

Lemma recover_mount dev dev' : m16_journal_recover dev = Some (dev', inr tt) → ready dev' →
  m16_mount dev = Some (dev', inr (super_of (img dev' 0))).
Proof.
  intros Hrec Hr. rewrite <-(mount_run dev' Hr). unfold m16_mount.
  erewrite mseq_inr by exact Hrec. symmetry.
  by erewrite mseq_inr by (apply recover_clean; [by apply ready_geometry|by apply ready_clean]).
Qed.

Lemma ready_with_fault dev fa : ready dev → ready (with_fault dev fa).
Proof. intros [H1 H2 H3 H4 H5]. by split. Qed.

Lemma interrupted_clean ks dev : ready dev →
  ∃ dev2, interrupted_recoveries ks dev = Some dev2 ∧ blocks dev2 = blocks dev ∧
    ready (reboot dev2).
Proof.
  revert dev. induction ks as [|k ks IH]; intros dev Hr; simpl.
  { exists dev. split; [done|]. split; [done|]. by apply ready_with_fault. }
  pose proof (ready_with_fault dev k Hr) as Hk.
  rewrite recover_clean by (by apply ready_geometry || by apply ready_clean).
  destruct (IH _ Hk) as (dev2 & H2 & Hb & Hr2). by exists dev2.
Qed.

(** C4. Writing a file is crash safe.  Whatever write the device fails at
    during [m16_write_file_ex] (two journal transactions), and however many
    of the following recoveries are interrupted, the mount that finally runs
    to its end succeeds on a consistent disk with either exactly the files of
    before or those and the complete new file; the latter whenever the call
    reported success. *)
Theorem m16_write_file_crash_safe (dev : m16_blockdev) (nm s data : list Z) (size : Z)
    (stop : bool) (ks : list Z) :
  ready dev → consistent (img dev) → write_args nm s data size →
  ∃ dev1 r dev2 dev3 sb,
    m16_write_file_ex (Ref nm) (Ref data) size stop dev = Some (dev1, r) ∧
    interrupted_recoveries ks dev1 = Some dev2 ∧
    m16_mount (reboot dev2) = Some (dev3, inr sb) ∧
    ready dev3 ∧ consistent (img dev3) ∧
    ((∀ s', file (img dev3) s' = file (img dev) s') ∧ r ≠ inr tt ∨
     file (img dev3) s = Some (take (Z.to_nat size) data) ∧
     ∀ s', s' ≠ s → file (img dev3) s' = file (img dev) s').
Proof.
  intros Hr Hc Ha.
  destruct (write_file_run dev nm s data size stop Hr Ha)
    as [(rc & -> & Hrc)|(tx1 & tx2 & q1 & q2 & Hq1 & Hq2 & Hplan & ->)].
  { destruct (interrupted_clean ks dev Hr) as (dev2 & H2 & Hb2 & Hr2).
    exists dev, (inl rc), dev2, (reboot dev2), (super_of (img (reboot dev2) 0)).
    split; [done|]. split; [done|].
    split; [by apply mount_run|]. split; [done|].
    assert (img (reboot dev2) = img dev) as Hi by (unfold img, reboot; simpl; by rewrite Hb2).
    rewrite Hi. split; [done|]. by left. }
  destruct (commit_view dev tx1 q1 false Hr (wp_fits1 _ _ _ _ _ _ Hplan) Hq1)
    as (dev1 & r1 & H1 & Hd1 & _ & Hks1).
  destruct r1 as [rc|[]].
  - rewrite (mseq_inl _ _ _ _ _ H1).
    destruct (Hks1 ks) as (dev2 & dev3 & H2 & H3 & Hr3 & Hv).
    exists dev1, (inl rc), dev2, dev3, (super_of (img dev3 0)).
    split; [done|]. split; [done|]. split; [by apply recover_mount|]. split; [done|].
    destruct Hv as [Hv|[Hv _]].
    + destruct (wp_first _ _ _ _ _ _ Hplan _ Hv Hc) as [Hc3 Hf]. split; [done|]. by left.
    + destruct (consistent_same_img _ _ Hv Hc) as [Hc3 Hf]. split; [done|]. by left.
  - rewrite (mseq_inr _ _ _ _ _ H1). destruct Hd1 as [Hr1 Hi1]; [done|done|].
    destruct (commit_view dev1 tx2 q2 stop Hr1 (wp_fits2 _ _ _ _ _ _ Hplan) Hq2)
      as (dev' & r2 & H2 & _ & _ & Hks2).
    destruct (Hks2 ks) as (dev2 & dev3 & H3 & H4 & Hr3 & Hv).
    exists dev', r2, dev2, dev3, (super_of (img dev3 0)).
    split; [done|]. split; [done|]. split; [by apply recover_mount|]. split; [done|].
    destruct Hv as [Hv|[Hv Hne]].
    + destruct (wp_second _ _ _ _ _ _ Hplan _ _ Hi1 Hv Hc) as (Hc3 & Hf & Ho). by split; [|right].
    + assert (same_img (img dev3) (after tx1 (img dev))) as Hv'.
      { intros lba Ho Hl. rewrite Hv by done. by apply Hi1. }
      destruct (wp_first _ _ _ _ _ _ Hplan _ Hv' Hc) as [Hc3 Hf]. split; [done|]. by left.
Qed.

(** ** Reading a file *)

Lemma file_found D s d : consistent D → block_ok (D 24) → file_entry D s = Some d →
  0 ≤ d_ino d < 16 ∧ ∃ i b, table D !! Z.to_nat (d_ino d) = Some i ∧
    i_used i ≠ 0 ∧ i_kind i = 1 ∧ i_size i ≤ 512 ∧
    i_direct i !! 0%nat = Some b ∧ 25 ≤ b < 128 ∧ file D s = Some (take (Z.to_nat (i_size i)) (D b)).
Proof.
  intros Hc Hok Hd. pose proof (slots_ino D Hok) as Hino. pose proof (cons_entries _ Hc) as He.
  rewrite file_content, Hd. unfold file_entry in Hd.
  destruct (list_find (named s) (slots (D 24))) as [[j x]|] eqn:E; [|done].
  injection Hd as <-. apply list_find_Some in E as (Hj & [Hu _] & _).
  apply list_elem_of_lookup_2 in Hj. rewrite Forall_forall in *.
  destruct (He x Hj Hu) as (Hlt & _ & i & b & Hi & ? & ? & ? & Hb & ? & _).
  split; [split; [by apply Hino|done]|]. exists i, b. split_and!; [done..|lia|lia|].
  cbn [mbind option_bind]. unfold content. rewrite Hi. cbn [mbind option_bind]. by rewrite Hb.
Qed.

Lemma m16_read_file_run (dev : m16_blockdev) (nm s out : list Z) (cap sz : Z) :
  ready dev → consistent (img dev) → holds nm s → (length s < 32)%nat → cap ≤ zlen out →
  m16_read_file (Ref nm) (Ref out) cap (Ref sz) dev =
    Some (dev, match file (img dev) s with
               | None => inl M16_E_NOENT
               | Some c => if cap <? zlen c then inl M16_E_INVAL
                           else inr (c ++ drop (length c) out, zlen c)
               end).
Proof.
  intros Hr Hc Hnm Hs Hcap. set (D := img dev) in *.
  assert (∀ lba, 18 ≤ lba < 128 → block_ok (D lba)) as Hok by (intros; by apply ready_block).
  destruct (ready_table dev Hr) as [Htl Hti]. fold D in Htl, Hti.
  unfold m16_read_file. erewrite mseq_inr by by apply mount_run.
  erewrite mseq_inr by by apply load_table_run.
  erewrite mseq_inr by (apply read_img; [done|by vm_compute]). fold D.
  change (D M16_ROOT_DIR_LBA) with (D 24).
  erewrite mseq_mub by (apply find_dirent_spec; [apply Hok; lia|done|lia]).
  destruct (file_entry D s) as [d|] eqn:Ed.
  2:{ assert (file D s = None) as -> by (by rewrite file_content, Ed).
      unfold file_entry in Ed. by destruct (list_find (named s) (slots (D 24))) as [[j x]|]. }
  destruct (file_found D s d Hc ltac:(apply Hok; lia) Ed)
    as (Hino & i & b & Hi & Hu & Hk & Hsz & Hb & Hbr & ->).
  unfold file_entry in Ed.
  destruct (list_find (named s) (slots (D 24))) as [[j x]|] eqn:E; [|done].
  injection Ed as ->. apply list_find_Some in E as (Hj & _ & _).
  rewrite (proj2 (Z.leb_le 0 _)) by lia. cbv zeta. rewrite Nat2Z.id.
  assert (dir_entry (D 24) j = d) as ->.
  { unfold slots in Hj. rewrite list_lookup_fmap in Hj.
    apply fmap_Some in Hj as (k & Hk' & ->). apply lookup_seq in Hk' as [-> _]. done. }
  rewrite (proj2 (Z.ltb_lt (d_ino d) M16_MAX_INODES)) by (unfold M16_MAX_INODES; lia).
  erewrite mseq_mub by (rewrite arr_get_nat by lia; exact Hi).
  assert ((i_used i =? 0) || negb (i_kind i =? 1) = false) as ->.
  { rewrite Hk. apply orb_false_iff. split; [by apply Z.eqb_neq|done]. }
  cbn [negb]. erewrite mseq_mub by exact Hb. rewrite mseq_mget, ready_total by done.
  assert (inode_ok i) as (_ & _ & [Hs0 _] & _) by (by eapply Forall_lookup_1).
  destruct (Hok b) as [Hbl _]; [lia|].
  assert (zlen (take (Z.to_nat (i_size i)) (D b)) = i_size i) as Hz.
  { unfold zlen. rewrite length_take. lia. }
  rewrite Hz. rewrite (proj2 (Z.leb_gt 128 b)), orb_false_r by lia.
  destruct (Z.ltb_spec cap (i_size i)) as [|Hge]; [done|]. cbn [negb].
  erewrite mseq_inr by (apply read_img; [done|lia]). fold D.
  unfold zlen in Hcap. unfold m16_copy.
  erewrite mseq_mub by (apply mem_copy_ok; lia).
  rewrite length_take, Nat.min_l by lia. done.
Qed.

(** Reading a file.  On a mounted, consistent disk [m16_read_file] does
    not change the device; it reports [M16_E_NOENT] for a name no entry
    carries, [M16_E_INVAL] when the caller's buffer is too small, and
    otherwise stores exactly the file's bytes and its size, leaving the rest
    of the buffer alone. *)
Theorem m16_read_file_correct (dev : m16_blockdev) (nm s out : list Z) (cap sz : Z) :
  ready dev → consistent (img dev) → holds nm s → (length s < 32)%nat → cap ≤ zlen out →
  m16_read_file (Ref nm) (Ref out) cap (Ref sz) dev =
    Some (dev, match file (img dev) s with
               | None => inl M16_E_NOENT
               | Some c => if cap <? zlen c then inl M16_E_INVAL
                           else inr (c ++ drop (length c) out, zlen c)
               end).
Proof. apply m16_read_file_run. Qed.

(** ** Formatting *)

(** The image that formatting produces. *)
Definition fresh_blocks : list (list Z) := blocks demo_dev.
#[local] Opaque demo_dev.

Definition block_okb (b : list Z) : bool :=
  (length b =? 512)%nat && forallb (λ x, (0 <=? x) && (x <? 256)) b.

Lemma block_okb_spec b : block_okb b = true → block_ok b.
Proof.
  unfold block_okb, block_ok. intros [Hl Hb]%andb_true_iff. apply Nat.eqb_eq in Hl.
  split; [done|]. apply Forall_forall. intros x Hx.
  rewrite forallb_forall in Hb. apply list_elem_of_In in Hx. specialize (Hb x Hx).
  bool_prop. unfold is_u8. lia.
Qed.

Lemma ready_check dev : zlen (blocks dev) = 128 → total_blocks dev = 128 →
  journal_clean dev → forallb block_okb (blocks dev) = true → super_ok (img dev 0) → ready dev.
Proof.
  intros Hl Ht Hc Hall Hs. split; try assumption.
  intros lba [H0 _] Hlt. apply block_okb_spec. unfold img.
  rewrite forallb_forall in Hall. unfold zlen in Hl.
  destruct (blocks dev !! Z.to_nat lba) as [b|] eqn:E; simpl.
  - apply Hall, list_elem_of_In. by apply list_elem_of_lookup_2 in E.
  - apply lookup_ge_None in E. lia.
Qed.

(** Evaluate the conditions of [ready_check] on a concrete device. *)
Ltac ready_compute :=
  apply ready_check; [vm_compute; reflexivity..|vm_compute; repeat split; reflexivity].

Lemma fresh_ready dev : blocks dev = fresh_blocks → total_blocks dev = 128 → ready dev.
Proof.
  intros Hb Ht. apply ready_check; unfold journal_clean, img; rewrite ?Hb; try assumption; clear;
    [vm_compute; reflexivity..|vm_compute; repeat split; reflexivity].
Qed.

Lemma demo_journal_ready : ready demo_dev.
Proof. apply fresh_ready; [reflexivity|vm_compute; reflexivity]. Qed.

Lemma fresh_consistent dev : blocks dev = fresh_blocks → total_blocks dev = 128 →
  consistent (img dev) ∧ ∀ s, file (img dev) s = None.
Proof.
  intros Hb Ht. assert (img dev = img demo_dev) as ->.
  { unfold img, fresh_blocks in *. rewrite Hb. reflexivity. }
  split.
  - destruct (fsck_spec demo_dev demo_journal_ready) as [[_ Hc]|[H _]]; [exact Hc|].
    assert (m16_fsck demo_dev = Some (demo_dev, inr tt)) as H' by (vm_compute; reflexivity).
    rewrite H' in H. congruence.
  - intros s. rewrite file_content. unfold file_entry.
    assert (Forall unused (slots (img demo_dev 24))) as Hu by (vm_compute; repeat constructor).
    assert (list_find (named s) (slots (img demo_dev 24)) = None) as ->; [|done].
    apply list_find_None. eapply Forall_impl; [apply Hu|].
    unfold unused, named. tauto.
Qed.

(** Formatting as a list of writes over a zeroed image. *)
Definition format_ib : list Z := default [] (m16_bitmap_set (m16_zero 512) 0).
Definition format_bb : list Z :=
  default [] (set_bits (Z.to_nat M16_DATA_START_LBA) 0 (m16_zero 512)).
Definition format_raw : list Z := inodes_raw (root_inode :: replicate 15 zero_inode).
Definition format_table_write (i : Z) : Z * list Z :=
  (M16_INODE_TABLE_LBA + i, slice (Z.to_nat i * 512) 512 format_raw).
Definition format_writes : wlist :=
  [(0, super_bytes (format_super 128))] ++ [(M16_INODE_BITMAP_LBA, format_ib)] ++
  [(M16_BLOCK_BITMAP_LBA, format_bb)] ++
  (format_table_write <$> [0; 1; 2; 3]) ++ [(M16_ROOT_DIR_LBA, m16_zero 512)] ++ [clear_write].

Lemma mseq_mub_ok {S A B} (o : option A) (k : A → M S B) s a d :
  default d o = a → match o with Some _ => True | None => False end → mseq (mub o) k s = k a s.
Proof. intros <-. by destruct o. Qed.

Lemma format_is_writes dev : total_blocks dev = 128 →
  m16_format dev = mwrites format_writes
    (M16Dev (replicate 128 (m16_zero 512)) 128 (writes dev) (fail_after dev)).
Proof.
  intros Ht. unfold m16_format, format_writes. rewrite Ht.
  set (d0 := M16Dev _ _ _ _). rewrite mwrites_app.
  apply mseq_ext; [symmetry; apply mwrites_one|intros _ d1].
  rewrite (mseq_mub_ok _ _ _ format_ib []); [|done|by vm_compute].
  rewrite (mseq_mub_ok _ _ _ format_bb []); [|done|by vm_compute]. rewrite mwrites_app.
  apply mseq_ext; [symmetry; apply mwrites_one|intros _ d2]. rewrite mwrites_app.
  apply mseq_ext; [symmetry; apply mwrites_one|intros _ d3]. cbv zeta. fold format_raw.
  rewrite mwrites_app. apply mseq_ext; [reflexivity|intros _ d4]. rewrite mwrites_app.
  apply mseq_ext; [symmetry; apply mwrites_one|intros _ d5]. symmetry. apply mwrites_one.
Qed.

Lemma format_run dev : total_blocks dev = 128 → fail_after dev < 0 →
  ∃ w, m16_format dev = Some (M16Dev fresh_blocks 128 w (fail_after dev), inr tt).
Proof.
  intros Ht Hf. destruct dev as [bs total w fa]. cbn [total_blocks fail_after] in *. subst total.
  rewrite format_is_writes by done. cbn [writes fail_after].
  destruct (mwrites_run format_writes (M16Dev (replicate 128 (m16_zero 512)) 128 w fa))
    as (w' & fa' & Hrun & Hfa).
  - by vm_compute.
  - repeat constructor; by vm_compute.
  - cbn zeta in Hrun. cbn [fail_after total_blocks] in Hrun, Hfa. rewrite (Hfa Hf) in Hrun.
    unfold let_through in Hrun. rewrite (proj2 (Z.ltb_lt _ _) Hf) in Hrun.
    rewrite decide_True, take_ge in Hrun by done. exists w'. rewrite Hrun.
    assert (apply_writes format_writes (replicate 128 (m16_zero 512)) = fresh_blocks) as <-;
      [vm_compute; reflexivity|reflexivity].
Qed.

(** Formatting.  On a working 128-block device, whatever it held,
    [m16_format] succeeds and leaves a mountable file system that passes the
    consistency check and contains no file. *)
Theorem m16_format_correct (dev : m16_blockdev) :
  total_blocks dev = 128 → fail_after dev < 0 →
  ∃ dev', m16_format dev = Some (dev', inr tt) ∧ ready dev' ∧ fail_after dev' < 0 ∧
    consistent (img dev') ∧ m16_fsck dev' = Some (dev', inr tt) ∧
    ∀ s, file (img dev') s = None.
Proof.
  intros Ht Hf. destruct (format_run dev Ht Hf) as [w ->]. eexists. split; [done|].
  set (dev' := M16Dev _ _ _ _). assert (ready dev') as Hr by by apply fresh_ready.
  destruct (fresh_consistent dev') as [Hc Hn]; [done|done|].
  split; [done|]. split; [done|]. split; [done|]. split; [|done].
  by destruct (fsck_spec _ Hr) as [[? _]|[_ ?]].
Qed.

(** ** Concrete runs *)

Definition demo_name : list Z := [97; 46; 116; 120; 116; 0].
Definition demo_data : list Z := replicate 300 65.

Lemma demo_write_args : write_args demo_name [97; 46; 116; 120; 116] demo_data 300.
Proof.
  split.
  - split; [repeat constructor; lia|]. by exists [].
  - simpl. lia.
  - repeat constructor; words.
  - lia.
  - unfold zlen, demo_data. rewrite length_replicate. lia.
  - apply Forall_replicate. words.
Qed.

Definition demo_with_file : m16_blockdev :=
  match m16_write_file (Ref demo_name) (Ref demo_data) 300 demo_dev with
  | Some (d, _) => d | None => demo_dev end.

Lemma demo_file_ready : ready demo_with_file.
Proof. ready_compute. Qed.

Lemma demo_consistent dev : ready dev → m16_fsck dev = Some (dev, inr tt) → consistent (img dev).
Proof. intros Hr H. destruct (fsck_spec dev Hr) as [[_ Hc]|[H' _]]; [exact Hc|congruence]. Qed.

Lemma demo_file_consistent : consistent (img demo_with_file).
Proof. apply demo_consistent; [apply demo_file_ready|vm_compute; reflexivity]. Qed.

Lemma m16_fsck_decides_witness :
  (m16_fsck demo_with_file = Some (demo_with_file, inr tt) ∧ consistent (img demo_with_file)) ∨
  (m16_fsck demo_with_file = Some (demo_with_file, inl M16_E_CORRUPT) ∧
     ¬ consistent (img demo_with_file)).
Proof. apply (m16_fsck_decides demo_with_file), demo_file_ready. Defined.

Lemma m16_write_file_correct_witness :
  fail_after demo_dev < 0 ∧
  ∃ dev' r, m16_write_file (Ref demo_name) (Ref demo_data) 300 demo_dev = Some (dev', r) ∧
    match r with
    | inl rc => dev' = demo_dev ∧
        ((rc = M16_E_EXISTS ∧ file_entry (img demo_dev) [97; 46; 116; 120; 116] ≠ None) ∨
         (rc = M16_E_NOSPC ∧ file_entry (img demo_dev) [97; 46; 116; 120; 116] = None ∧
          disk_full (img demo_dev)))
    | inr _ => file_entry (img demo_dev) [97; 46; 116; 120; 116] = None ∧ ready dev' ∧
        consistent (img dev') ∧
        file (img dev') [97; 46; 116; 120; 116] = Some (take (Z.to_nat 300) demo_data) ∧
        ∀ s', s' ≠ [97; 46; 116; 120; 116] → file (img dev') s' = file (img demo_dev) s'
    end.
Proof.
  assert (fail_after demo_dev < 0) as Hf by (vm_compute; reflexivity). split; [exact Hf|].
  apply (m16_write_file_correct demo_dev demo_name [97; 46; 116; 120; 116] demo_data 300
    demo_journal_ready (proj1 (fresh_consistent demo_dev eq_refl (ready_total _ demo_journal_ready))) Hf
    demo_write_args).
Defined.

(** The device fails at the ninth write, and the next recovery at its third. *)
Lemma m16_write_file_crash_safe_witness :
  ∃ dev1 r dev2 dev3 sb,
    m16_write_file_ex (Ref demo_name) (Ref demo_data) 300 false (with_fault demo_dev 8) =
      Some (dev1, r) ∧
    interrupted_recoveries [2] dev1 = Some dev2 ∧
    m16_mount (reboot dev2) = Some (dev3, inr sb) ∧
    ready dev3 ∧ consistent (img dev3) ∧
    ((∀ s', file (img dev3) s' = file (img (with_fault demo_dev 8)) s') ∧ r ≠ inr tt ∨
     file (img dev3) [97; 46; 116; 120; 116] = Some (take (Z.to_nat 300) demo_data) ∧
     ∀ s', s' ≠ [97; 46; 116; 120; 116] →
       file (img dev3) s' = file (img (with_fault demo_dev 8)) s').
Proof.
  apply (m16_write_file_crash_safe (with_fault demo_dev 8) demo_name [97; 46; 116; 120; 116]
    demo_data 300 false [2]); [apply (ready_with_fault demo_dev 8 demo_journal_ready)| |exact demo_write_args].
  apply (proj1 (fresh_consistent (with_fault demo_dev 8) eq_refl (ready_total _ demo_journal_ready))).
Defined.

Lemma m16_read_file_correct_witness :
  m16_read_file (Ref demo_name) (Ref (replicate 400 1)) 400 (Ref 0) demo_with_file =
    Some (demo_with_file, match file (img demo_with_file) [97; 46; 116; 120; 116] with
      | None => inl M16_E_NOENT
      | Some c => if 400 <? zlen c then inl M16_E_INVAL
                  else inr (c ++ drop (length c) (replicate 400 1), zlen c) end).
Proof.
  apply (m16_read_file_correct demo_with_file demo_name [97; 46; 116; 120; 116]
    (replicate 400 1) 400 0 demo_file_ready demo_file_consistent).
  - apply (wa_name _ _ _ _ demo_write_args).
  - simpl. lia.
  - vm_compute. discriminate.
Defined.

Lemma m16_format_correct_witness :
  ∃ dev', m16_format (M16Dev [] 128 5 (-1)) = Some (dev', inr tt) ∧ ready dev' ∧
    fail_after dev' < 0 ∧ consistent (img dev') ∧ m16_fsck dev' = Some (dev', inr tt) ∧
    ∀ s, file (img dev') s = None.
Proof. apply (m16_format_correct (M16Dev [] 128 5 (-1))); [reflexivity|reflexivity]. Defined.
