(* ===== verification/JournalSpec.v ===== *)
(** What MCSFS1J promises over any number of calls and power failures: the
    disk stands for a finite map from names to contents, which every call
    changes as the specification says and no failure damages. *)
From Stdlib Require Import String.
From S2P Require Import Prelude Bitmap Bytes Cstr Err Journal JournalCrash JournalFiles.

#[local] Open Scope err_scope.

(** ** Calls *)

(** The entry points with their arguments, a name as a string without its
    terminator, and the event that the device's fault counter is set: [JPower
    (-1)] is a repaired device, [JPower n] one that fails after [n] writes. *)
Inductive jcall :=
| JMount
| JRecover
| JFsck
| JRead (s : list Z) (cap : nat)
| JWrite (s data : list Z) (stop : bool)
| JPower (fa : Z).

(** The device after a call, and its status or the bytes it returns. *)
Definition do_jcall (c : jcall) : M m16_blockdev (list Z) :=
  match c with
  | JMount => m16_mount ;;; mok []
  | JRecover => m16_journal_recover ;;; mok []
  | JFsck => m16_fsck ;;; mok []
  | JRead s cap =>
      x <- m16_read_file (Ref (s ++ [0])) (Ref (replicate cap 0)) (Z.of_nat cap) (Ref 0) ;;
      mok (take (Z.to_nat x.2) x.1)
  | JWrite s data stop =>
      m16_write_file_ex (Ref (s ++ [0])) (Ref data) (zlen data) stop ;;; mok []
  | JPower fa => λ dev, Some (with_fault dev fa, inr [])
  end.

Fixpoint do_jcalls (cs : list jcall) (dev : m16_blockdev) :
    option (m16_blockdev * list (Z + list Z)) :=
  match cs with
  | [] => Some (dev, [])
  | c :: cs' =>
      '(dev1, r) ← do_jcall c dev;
      '(dev2, rs) ← do_jcalls cs' dev1;
      Some (dev2, r :: rs)
  end.

(** Arguments C strings and buffers can have; the name of a read is one that
    fits a directory entry. *)
Definition jcall_ok (c : jcall) : Prop :=
  match c with
  | JRead s _ => Forall (λ b, b ≠ 0) s ∧ (length s < 32)%nat
  | JWrite s data _ => Forall (λ b, b ≠ 0) s ∧ Forall is_u8 s ∧ Forall is_u8 data
  | _ => True
  end.

(** ** The specification *)

(** The files; how many inodes and blocks may be in use, those included that
    an interrupted write has lost; and whether the device may fail. *)
Record jspace := JSpace {
  js_files : gmap (list Z) (list Z);
  js_spent : nat;
  js_faulty : bool;
}.

Definition jname_ok (s : list Z) : Prop := (0 < length s < 32)%nat.
Definition simple_call (c : jcall) : Prop :=
  match c with JWrite _ _ _ | JPower _ => False | _ => True end.

Inductive jspec : jspace → jcall → Z + list Z → jspace → Prop :=
| JS_power m k f fa : jspec (JSpace m k f) (JPower fa) (inr []) (JSpace m k (0 <=? fa))
| JS_io m k c : simple_call c → jspec (JSpace m k true) c (inl M16_E_IO) (JSpace m k true)
| JS_mount st : jspec st JMount (inr []) st
| JS_recover st : jspec st JRecover (inr []) st
| JS_fsck st : jspec st JFsck (inr []) st
| JS_read st s cap c : js_files st !! s = Some c → zlen c ≤ Z.of_nat cap →
    jspec st (JRead s cap) (inr c) st
| JS_read_small st s cap c : js_files st !! s = Some c → Z.of_nat cap < zlen c →
    jspec st (JRead s cap) (inl M16_E_INVAL) st
| JS_read_none st s cap : js_files st !! s = None →
    jspec st (JRead s cap) (inl M16_E_NOENT) st
| JS_write_name st s data stop : ¬ jname_ok s →
    jspec st (JWrite s data stop) (inl M16_E_TOOLONG) st
| JS_write_size st s data stop : jname_ok s → 512 < zlen data →
    jspec st (JWrite s data stop) (inl M16_E_INVAL) st
| JS_write_exists st s data stop : jname_ok s → is_Some (js_files st !! s) →
    jspec st (JWrite s data stop) (inl M16_E_EXISTS) st
| JS_write_full st s data stop : jname_ok s → js_files st !! s = None →
    (12 ≤ size (js_files st) ∨ 15 ≤ js_spent st)%nat →
    jspec st (JWrite s data stop) (inl M16_E_NOSPC) st
| JS_write m k f s data stop : jname_ok s → zlen data ≤ 512 → m !! s = None →
    jspec (JSpace m k f) (JWrite s data stop) (inr []) (JSpace (<[s := data]> m) (S k) f)
| JS_write_lost m k s data stop : jname_ok s → zlen data ≤ 512 →
    jspec (JSpace m k true) (JWrite s data stop) (inl M16_E_IO) (JSpace m (S k) true)
| JS_write_kept m k s data stop : jname_ok s → zlen data ≤ 512 → m !! s = None →
    jspec (JSpace m k true) (JWrite s data stop) (inl M16_E_IO)
      (JSpace (<[s := data]> m) (S k) true).

Inductive jspecs : jspace → list jcall → list (Z + list Z) → jspace → Prop :=
| JSS_nil st : jspecs st [] [] st
| JSS_cons st1 st2 st3 c r cs rs : jspec st1 c r st2 → jspecs st2 cs rs st3 →
    jspecs st1 (c :: cs) (r :: rs) st3.

(** ** The disk a device stands for *)

(** The blocks of [D] are those that recovery will produce: the journal of
    [dev] is clear, or holds a committed transaction on the way to [D]. *)
Definition jdisk (dev : m16_blockdev) (D : Z → list Z) : Prop :=
  ∃ tx seq dev0 b, tx_fits tx ∧ is_u32 seq ∧ ready dev0 ∧ geometry dev ∧
    total_blocks dev = 128 ∧ crash_state tx seq (blocks dev0) dev b ∧
    same_img D (if b then after tx (img dev0) else img dev0).

(** [D] holds what the specification's state says. *)
Record shows (D : Z → list Z) (st : jspace) : Prop := {
  sh_consistent : consistent D;
  sh_files : ∀ s, file D s = js_files st !! s;
  sh_within : within D (js_spent st) (size (js_files st));
}.

Definition power_of (dev : m16_blockdev) (st : jspace) : Prop :=
  js_faulty st = false → fail_after dev < 0.

Definition represents (dev : m16_blockdev) (st : jspace) : Prop :=
  ∃ D, jdisk dev D ∧ shows D st ∧ power_of dev st.

Definition mounted (dev : m16_blockdev) (st : jspace) : Prop :=
  ready dev ∧ shows (img dev) st ∧ power_of dev st.

Lemma shows_same_img D D' st : same_img D' D → shows D st → shows D' st.
Proof.
  intros Hs [Hc Hf Hw]. destruct (consistent_same_img D D' Hs Hc) as [Hc' Hf'].
  split; [done| |by eapply within_same_img]. intros s. by rewrite Hf'.
Qed.

Lemma same_img_sym D D' : same_img D D' → same_img D' D.
Proof. intros H lba Ho Hl. symmetry. by apply H. Qed.

Lemma same_img_trans D1 D2 D3 : same_img D1 D2 → same_img D2 D3 → same_img D1 D3.
Proof. intros H1 H2 lba Ho Hl. by rewrite H1, H2. Qed.

Lemma within_mono D k k' e : (k ≤ k')%nat → within D k e → within D k' e.
Proof. intros ? (? & ? & ?). unfold within. lia. Qed.

Lemma full_within D k e : disk_full D → within D k e → (12 ≤ e ∨ 15 ≤ k)%nat.
Proof.
  intros Hfull (H1 & H2 & H3). destruct Hfull as [Hi|[Hb|Hs]].
  - right. pose proof (used_in_all (D 18) 1 15 ltac:(done) Hi). lia.
  - right. pose proof (used_in_all (D 19) 25 103 ltac:(done) Hb). lia.
  - left. unfold entries in H3. rewrite <-H3.
    change 12%nat with (length (seq 0 12)). rewrite <-(length_fmap (dir_entry (D 24)) (seq 0 12)).
    fold (slots (D 24)). clear H3. induction Hs as [|d l Hd Hl IH]; [done|].
    rewrite filter_cons_True by done. simpl. lia.
Qed.

Lemma ready_jdisk dev : ready dev → jdisk dev (img dev).
Proof.
  intros Hr. exists [], 0, dev, false. split; [by split|]. split; [words|]. split; [done|].
  split; [by apply ready_geometry|]. split; [by apply ready_total|].
  split; [|done]. apply CS_old; [by apply ready_clean|done].
Qed.

Lemma mounted_represents dev st : mounted dev st → represents dev st.
Proof. intros (Hr & Hs & Hp). exists (img dev). split; [by apply ready_jdisk|done]. Qed.

(** ** Recovery and commit *)

Lemma jdisk_recover dev D : jdisk dev D →
  ∃ dev' r, m16_journal_recover dev = Some (dev', r) ∧ jdisk dev' D ∧
    (fail_after dev < 0 → fail_after dev' < 0) ∧
    (r = inr tt ∧ ready dev' ∧ same_img (img dev') D ∨ r = inl M16_E_IO ∧ 0 ≤ fail_after dev).
Proof.
  intros (tx & seq & dev0 & b & Htx & Hseq & Hr0 & Hg & Ht & Hc & HD).
  pose proof (ready_length _ Hr0) as Hl0.
  destruct (recover_outcome 128 tx seq (blocks dev0) ltac:(lia) Hl0 (tx_fits_ok _ Htx) Hseq dev b)
    as (dev' & r & Hrun & Hg' & Ht' & Hc' & Hfa & Hres); try done.
  exists dev', r. split; [done|]. split; [by exists tx, seq, dev0, b|]. split; [done|].
  destruct Hres as [(-> & Hcl & Hso)|Hio]; [left|by right]. split; [done|].
  assert (same_img (img dev') (if b then after tx (img dev0) else img dev0)) as Hi.
  { intros lba Ho Hl. destruct b.
    - rewrite (same_outside_img _ (apply_tx tx (blocks dev0))); try done.
      + by apply img_apply_tx.
      + unfold apply_tx, zlen. by rewrite length_apply_writes.
    - by rewrite (same_outside_img _ (blocks dev0)). }
  split; [|by eapply same_img_trans, same_img_sym].
  destruct b; [by eapply ready_after|by eapply ready_same].
Qed.

Lemma jdisk_commit dev tx seq stop : ready dev → tx_fits tx → is_u32 seq →
  ∃ dev' r D', m16_journal_commit tx seq stop dev = Some (dev', r) ∧ jdisk dev' D' ∧
    (fail_after dev < 0 → fail_after dev' < 0) ∧
    (r = inr tt ∨ r = inl M16_E_IO ∧ 0 ≤ fail_after dev) ∧
    (same_img D' (after tx (img dev)) ∨ same_img D' (img dev) ∧ r ≠ inr tt) ∧
    (r = inr tt → stop = false → ready dev' ∧ same_img (img dev') (after tx (img dev))).
Proof.
  intros Hr Htx Hseq. pose proof (ready_geometry _ Hr) as Hg.
  pose proof (ready_total _ Hr) as Ht.
  assert (tx_ok (total_blocks dev) tx) as Hok by (rewrite Ht; by apply tx_fits_ok).
  destruct (commit_crash dev tx seq stop) as (dev' & r & Hrun & Hg' & Ht' & Hc & Hd & _ & _);
    try done; [by apply ready_clean|].
  destruct (commit_error dev tx seq stop Hg Hseq Hok) as (dev1 & r1 & Hrun1 & Hfa & Hr1).
  destruct (commit_view dev tx seq stop Hr Htx Hseq) as (dev2 & r2 & Hrun2 & Hview & _).
  rewrite Hrun in Hrun1, Hrun2. injection Hrun1 as <- <-. injection Hrun2 as <- <-.
  rewrite Ht in Ht'. exists dev', r, (if durable tx (fail_after dev) then after tx (img dev) else img dev).
  split; [done|]. split; [by exists tx, seq, dev, (durable tx (fail_after dev))|].
  do 2 (split; [done|]). split; [|done].
  destruct (durable tx (fail_after dev)) eqn:E; [by left|right].
  split; [done|]. intros ->. by specialize (Hd eq_refl).
Qed.

(** A mount brings the device to a mounted state that answers every further
    step alike, or reports the device's failure. *)
Lemma represents_recover dev st : represents dev st →
  (∃ dev1, m16_journal_recover dev = Some (dev1, inr tt) ∧ mounted dev1 st) ∨
  (∃ dev1, m16_journal_recover dev = Some (dev1, inl M16_E_IO) ∧ represents dev1 st ∧
     js_faulty st = true).
Proof.
  intros (D & HD & Hs & Hp).
  destruct (jdisk_recover dev D HD) as (dev1 & r & Hrun & HD1 & Hfa & Hres).
  assert (power_of dev1 st) as Hp1 by (intros ?; auto).
  destruct Hres as [(-> & Hr & Hi)|[-> Hneg]]; [left|right]; exists dev1; (split; [done|]).
  - split; [done|]. split; [by eapply shows_same_img|done].
  - split; [by exists D|]. destruct (js_faulty st) eqn:E; [done|]. specialize (Hp E). lia.
Qed.

Lemma represents_mount dev st : represents dev st →
  (∃ dev1, mounted dev1 st ∧
     ∀ A (K : m16_super → M m16_blockdev A), mseq m16_mount K dev = mseq m16_mount K dev1) ∨
  (∃ dev1, represents dev1 st ∧ js_faulty st = true ∧
     ∀ A (K : m16_super → M m16_blockdev A), mseq m16_mount K dev = Some (dev1, inl M16_E_IO)).
Proof.
  intros [(dev1 & Hrec & Hm)|(dev1 & Hrec & Hm & Hf)]%represents_recover;
    [left|right]; exists dev1.
  - split; [done|]. intros A K. destruct Hm as [Hr _].
    rewrite (mseq_inr _ _ _ _ _ (recover_mount _ _ Hrec Hr)).
    by rewrite (mseq_inr _ _ _ _ _ (mount_run _ Hr)).
  - do 2 (split; [done|]). intros A K. apply mseq_inl. unfold m16_mount. by apply mseq_inl.
Qed.

(** ** One call *)

(** A call from [dev] ends in a state that [dev'] represents, with a result
    the specification allows. *)
Definition runs_jcall (c : jcall) (dev : m16_blockdev) (st : jspace) : Prop :=
  ∃ dev' r st', do_jcall c dev = Some (dev', r) ∧ represents dev' st' ∧ jspec st c r st'.

Lemma do_jrecover_runs dev st : represents dev st → runs_jcall JRecover dev st.
Proof.
  intros [(dev1 & Hrec & Hm)|(dev1 & Hrec & Hm & Hf)]%represents_recover.
  - exists dev1, (inr []), st. split; [|split; [by apply mounted_represents|constructor]].
    cbn [do_jcall]. by rewrite (mseq_inr _ _ _ _ _ Hrec).
  - exists dev1, (inl M16_E_IO), st. split; [|split; [done|]].
    + cbn [do_jcall]. by rewrite (mseq_inl _ _ _ _ _ Hrec).
    + destruct st as [m k f]. simpl in Hf. subst f. by apply JS_io.
Qed.

(** A call that mounts first needs only be looked at on a mounted device. *)
Lemma runs_after_mount c dev st (K : m16_super → M m16_blockdev (list Z)) :
  represents dev st → (∀ dev, do_jcall c dev = mseq m16_mount K dev) →
  jspec (JSpace (js_files st) (js_spent st) true) c (inl M16_E_IO)
    (JSpace (js_files st) (js_spent st) true) ∨
  jspec (JSpace (js_files st) (js_spent st) true) c (inl M16_E_IO)
    (JSpace (js_files st) (S (js_spent st)) true) →
  (∀ dev1, mounted dev1 st → runs_jcall c dev1 st) → runs_jcall c dev st.
Proof.
  intros Hrep Heq Hio Hrun.
  destruct (represents_mount _ _ Hrep) as [(dev1 & Hm & HK)|(dev1 & Hm & Hf & HK)].
  - destruct (Hrun dev1 Hm) as (dev' & r & st' & H1 & H2). exists dev', r, st'.
    by rewrite Heq, HK, <-Heq.
  - destruct st as [m k f]. simpl in Hf. subst f. destruct Hio as [Hio|Hio].
    + exists dev1, (inl M16_E_IO), (JSpace m k true). by rewrite Heq, HK.
    + exists dev1, (inl M16_E_IO), (JSpace m (S k) true). rewrite Heq, HK.
      split; [done|]. split; [|done]. destruct Hm as (D & HD & [Hc Hfi Hw] & Hp).
      exists D. split; [done|]. split; [|done]. split; [done|done|].
      eapply within_mono; [|exact Hw]. simpl. lia.
Qed.

Lemma mseq_assoc {S A B C} (m : M S A) (f : A → M S B) (g : B → M S C) s :
  mseq (mseq m f) g s = mseq m (λ a, mseq (f a) g) s.
Proof. unfold mseq. by destruct (m s) as [[s' [|a]]|]. Qed.

Lemma do_jmount_runs dev st : represents dev st → runs_jcall JMount dev st.
Proof.
  intros Hrep. eapply (runs_after_mount JMount); [done|intros d; reflexivity|left; by apply JS_io|].
  intros dev1 Hm. exists dev1, (inr []), st.
  split; [|split; [by apply mounted_represents|constructor]].
  cbn [do_jcall]. destruct Hm as [Hr _]. by rewrite (mseq_inr _ _ _ _ _ (mount_run _ Hr)).
Qed.

Lemma do_jfsck_runs dev st : represents dev st → runs_jcall JFsck dev st.
Proof.
  intros Hrep. eapply (runs_after_mount JFsck); [done|intros d; apply mseq_assoc|left; by apply JS_io|].
  intros dev1 Hm. exists dev1, (inr []), st.
  split; [|split; [by apply mounted_represents|constructor]].
  cbn [do_jcall]. destruct Hm as (Hr & Hs & _).
  destruct (fsck_spec _ Hr) as [[Hf _]|[_ Hn]]; [by rewrite (mseq_inr _ _ _ _ _ Hf)|].
  by destruct Hn; apply Hs.
Qed.

Lemma holds_snoc s : Forall (λ b, b ≠ 0) s → holds (s ++ [0]) s.
Proof. intros Hs. split; [done|]. by exists []. Qed.

Lemma do_jread_runs s cap dev st : jcall_ok (JRead s cap) → represents dev st →
  runs_jcall (JRead s cap) dev st.
Proof.
  intros [Hs Hl] Hrep.
  eapply (runs_after_mount (JRead s cap)); [done|intros d; apply mseq_assoc|left; by apply JS_io|].
  intros dev1 Hm. destruct (Hm) as (Hr & [Hc Hf _] & _).
  pose proof (m16_read_file_run dev1 (s ++ [0]) s (replicate cap 0) (Z.of_nat cap) 0 Hr Hc
    (holds_snoc s Hs) Hl) as Hrun.
  unfold zlen at 1 in Hrun. rewrite length_replicate, Hf in Hrun. specialize (Hrun ltac:(lia)).
  unfold runs_jcall. cbn [do_jcall].
  destruct (js_files st !! s) as [c|] eqn:E; [destruct (Z.ltb_spec (Z.of_nat cap) (zlen c)) as [Hlt|Hge]|].
  - exists dev1, (inl M16_E_INVAL), st. rewrite (mseq_inl _ _ _ _ _ Hrun).
    split; [done|]. split; [by apply mounted_represents|by eapply JS_read_small].
  - exists dev1, (inr c), st. rewrite (mseq_inr _ _ _ _ _ Hrun). cbn [fst snd].
    split; [|split; [by apply mounted_represents|by apply JS_read]].
    unfold mok, zlen. by rewrite Nat2Z.id, take_app_length.
  - exists dev1, (inl M16_E_NOENT), st. rewrite (mseq_inl _ _ _ _ _ Hrun).
    split; [done|]. split; [by apply mounted_represents|by apply JS_read_none].
Qed.

(** What the specification says of the two transactions of a write. *)
Lemma shows_first D s c size tx1 tx2 D1 st : write_plan D s c size tx1 tx2 →
  same_img D1 (after tx1 D) → shows D st →
  shows D1 (JSpace (js_files st) (S (js_spent st)) (js_faulty st)).
Proof.
  intros Hp Hs [Hc Hf Hw]. destruct (wp_first _ _ _ _ _ _ Hp D1 Hs Hc) as [Hc1 Hf1].
  split; [done|intros s'; by rewrite Hf1|]. by eapply wp_within1.
Qed.

Lemma shows_second D s c size tx1 tx2 D1 D2 st : write_plan D s c size tx1 tx2 →
  same_img D1 (after tx1 D) → same_img D2 (after tx2 D1) → js_files st !! s = None → shows D st →
  shows D2 (JSpace (<[s := c]> (js_files st)) (S (js_spent st)) (js_faulty st)).
Proof.
  intros Hp Hs1 Hs2 Hn [Hc Hf Hw].
  destruct (wp_second _ _ _ _ _ _ Hp D1 D2 Hs1 Hs2 Hc) as (Hc2 & Hf2 & Ho2).
  split; [done| |].
  - intros s'. cbn [js_files]. destruct (decide (s' = s)) as [->|Hne].
    + by rewrite lookup_insert_eq.
    + rewrite lookup_insert_ne by done. by rewrite Ho2.
  - cbn [js_files js_spent]. rewrite map_size_insert_None by done. by eapply wp_within2.
Qed.

Lemma file_entry_file D s : consistent D → block_ok (D 24) →
  file_entry D s = None ↔ file D s = None.
Proof.
  intros Hc Hok. split; [intros H; by rewrite file_content, H|].
  destruct (file_entry D s) as [d|] eqn:E; [|done].
  destruct (file_found D s d Hc Hok E) as (_ & i & b & _ & _ & _ & _ & _ & _ & ->). done.
Qed.

(** A write's two transactions end in the disk with the file or in one
    without it; the second only when the device has failed. *)
Definition lost (st : jspace) : jspace :=
  JSpace (js_files st) (S (js_spent st)) (js_faulty st).
Definition added (s c : list Z) (st : jspace) : jspace :=
  JSpace (<[s := c]> (js_files st)) (S (js_spent st)) (js_faulty st).

Lemma shows_lost D st : shows D st → shows D (lost st).
Proof.
  intros [Hc Hf Hw]. split; [done|done|]. eapply within_mono; [|exact Hw]. simpl. lia.
Qed.

Lemma write_commits dev st s c size tx1 tx2 q1 q2 stop :
  mounted dev st → write_plan (img dev) s c size tx1 tx2 → is_u32 q1 → is_u32 q2 →
  js_files st !! s = None →
  ∃ dev' r st', mseq (m16_journal_commit tx1 q1 false) (λ _, m16_journal_commit tx2 q2 stop) dev =
      Some (dev', r) ∧ represents dev' st' ∧
    (r = inr tt ∧ st' = added s c st ∨
     r = inl M16_E_IO ∧ js_faulty st = true ∧ (st' = lost st ∨ st' = added s c st)).
Proof.
  intros (Hr & Hs & Hp) Hplan Hq1 Hq2 Hn.
  assert (∀ dev0, 0 ≤ fail_after dev0 → power_of dev0 st → js_faulty st = true) as Hfaulty.
  { intros dev0 H0 Hp0. destruct (js_faulty st) eqn:E; [done|]. specialize (Hp0 E). lia. }
  destruct (jdisk_commit dev tx1 q1 false Hr (wp_fits1 _ _ _ _ _ _ Hplan) Hq1)
    as (dev1 & r1 & D1 & Hrun1 & HD1 & Hfa1 & Hr1 & Himg1 & Hdone1).
  assert (power_of dev1 st) as Hp1 by (intros ?; auto).
  destruct Hr1 as [->|[-> Hneg]].
  2:{ exists dev1, (inl M16_E_IO), (lost st). split; [by apply mseq_inl|].
      split; [|right; split; [done|split; [by eapply Hfaulty|by left]]].
      exists D1. split; [done|]. split; [|done].
      destruct Himg1 as [Hi|[Hi _]]; [by eapply shows_first|].
      by eapply shows_lost, shows_same_img. }
  destruct Hdone1 as [Hr1 Hi1]; [done|done|].
  destruct (jdisk_commit dev1 tx2 q2 stop Hr1 (wp_fits2 _ _ _ _ _ _ Hplan) Hq2)
    as (dev2 & r2 & D2 & Hrun2 & HD2 & Hfa2 & Hr2 & Himg2 & _).
  assert (power_of dev2 st) as Hp2 by (intros ?; auto).
  rewrite (mseq_inr _ _ _ _ _ Hrun1).
  assert (represents dev2 (lost st) ∧ r2 ≠ inr tt ∨ represents dev2 (added s c st)) as Hrep.
  { destruct Himg2 as [Hi2|[Hi2 Hne]]; [right|left; split; [|done]]; exists D2;
      (split; [done|split; [|done]]).
    - by eapply shows_second.
    - eapply shows_same_img; [exact Hi2|]. by eapply shows_first. }
  destruct Hr2 as [->|[-> Hneg]].
  - destruct Hrep as [[_ ?]|Hrep]; [done|]. exists dev2, (inr tt), (added s c st). auto.
  - assert (js_faulty st = true) by by eapply Hfaulty.
    destruct Hrep as [[Hrep _]|Hrep]; [exists dev2, (inl M16_E_IO), (lost st)|
      exists dev2, (inl M16_E_IO), (added s c st)]; auto 10.
Qed.

(** The checks before the mount. *)
Lemma write_name_long s data stop dev : Forall (λ b, b ≠ 0) s → ¬ jname_ok s →
  m16_write_file_ex (Ref (s ++ [0])) (Ref data) (zlen data) stop dev =
    Some (dev, inl M16_E_TOOLONG).
Proof.
  intros Hs Hn. unfold m16_write_file_ex.
  erewrite mseq_mub by (unfold m16_strlen_bounded; apply strlen_loop_cstr; left; exists s;
    by apply holds_snoc).
  rewrite (cstr_holds _ _ (holds_snoc s Hs)). change (Z.to_nat M16_MAX_NAME) with 32%nat.
  assert (((Z.of_nat (32 `min` length s) =? 0) || (M16_MAX_NAME <=? Z.of_nat (32 `min` length s)))
    = true) as ->; [|done].
  unfold jname_ok in Hn. unfold M16_MAX_NAME.
  destruct (Z.eqb_spec (Z.of_nat (32 `min` length s)) 0); [done|]. apply Z.leb_le. lia.
Qed.

Lemma write_name_good s data stop : Forall (λ b, b ≠ 0) s → jname_ok s →
  ∃ K : m16_super → M m16_blockdev unit, ∀ dev,
    m16_write_file_ex (Ref (s ++ [0])) (Ref data) (zlen data) stop dev =
      if 512 <? zlen data then Some (dev, inl M16_E_INVAL) else mseq m16_mount K dev.
Proof.
  intros Hs Hn. unfold m16_write_file_ex. eexists. intros dev.
  erewrite mseq_mub by (apply name_length; [by apply holds_snoc|exact Hn]).
  unfold jname_ok in Hn.
  assert ((Z.of_nat (length s) =? 0) || (M16_MAX_NAME <=? Z.of_nat (length s)) = false) as ->.
  { apply orb_false_iff. unfold M16_MAX_NAME. split; [apply Z.eqb_neq|apply Z.leb_gt]; lia. }
  cbn [negb]. change M16_BLOCK_SIZE with 512.
  destruct (Z.ltb_spec 512 (zlen data)).
  - by rewrite (proj2 (Z.leb_gt _ _)) by lia.
  - rewrite (proj2 (Z.leb_le _ _)) by lia. reflexivity.
Qed.

Lemma do_jwrite_mounted s data stop dev st :
  jcall_ok (JWrite s data stop) → jname_ok s → zlen data ≤ 512 → mounted dev st →
  runs_jcall (JWrite s data stop) dev st.
Proof.
  intros (Hs & Hu & Hd) Hn Hlen Hm. destruct (Hm) as (Hr & Hsh & Hp).
  assert (write_args (s ++ [0]) s data (zlen data)) as Ha.
  { split; try done; [by apply holds_snoc|]. split; [apply zlen_nonneg|done]. }
  pose proof (file_entry_file _ s (sh_consistent _ _ Hsh) (ready_block _ 24 Hr ltac:(lia))) as Hent.
  rewrite (sh_files _ _ Hsh) in Hent. unfold runs_jcall. cbn [do_jcall].
  assert (take (Z.to_nat (zlen data)) data = data) as Htake
    by (apply take_ge; unfold zlen; lia).
  destruct (write_file_run dev (s ++ [0]) s data (zlen data) stop Hr Ha)
    as [(rc & Hrun & Hrc)|(tx1 & tx2 & q1 & q2 & Hq1 & Hq2 & Hplan & Hrun)].
  - exists dev, (inl rc), st. rewrite (mseq_inl _ _ _ _ _ Hrun).
    split; [done|]. split; [by apply mounted_represents|].
    destruct Hrc as [[-> He]|(-> & He & Hfull)].
    + apply JS_write_exists; [done|]. rewrite Hent in He.
      destruct (js_files st !! s); [by eexists|by destruct He].
    + apply JS_write_full; [done|by apply Hent|]. eapply full_within; [exact Hfull|].
      apply Hsh.
  - rewrite Htake in Hplan. pose proof (proj1 Hent (wp_absent _ _ _ _ _ _ Hplan)) as Hnone.
    destruct (write_commits dev st s data _ tx1 tx2 q1 q2 stop Hm Hplan Hq1 Hq2 Hnone)
      as (dev' & r & st' & Hc & Hrep & Hres).
    rewrite Hc in Hrun. destruct st as [m k f].
    destruct Hres as [[-> ->]|(-> & Hf & Hst)].
    + exists dev', (inr []), (added s data (JSpace m k f)). rewrite (mseq_inr _ _ _ _ _ Hrun).
      split; [done|]. split; [done|]. by apply JS_write.
    + simpl in Hf. subst f. exists dev', (inl M16_E_IO), st'. rewrite (mseq_inl _ _ _ _ _ Hrun).
      split; [done|]. split; [done|]. destruct Hst as [-> | ->]; [by apply JS_write_lost|].
      by apply JS_write_kept.
Qed.

Lemma do_jwrite_runs s data stop dev st : jcall_ok (JWrite s data stop) → represents dev st →
  runs_jcall (JWrite s data stop) dev st.
Proof.
  intros Hok Hrep. pose proof Hok as (Hs & _).
  destruct (decide (0 < length s < 32)%nat) as [Hn|Hn].
  2:{ exists dev, (inl M16_E_TOOLONG), st. cbn [do_jcall].
      erewrite mseq_inl by by apply write_name_long.
      split; [done|]. split; [done|]. by apply JS_write_name. }
  destruct (write_name_good s data stop Hs Hn) as [K HK].
  destruct (Z.ltb_spec 512 (zlen data)) as [Hbig|Hsmall].
  - exists dev, (inl M16_E_INVAL), st. cbn [do_jcall].
    erewrite mseq_inl by by apply HK. split; [done|]. split; [done|]. by apply JS_write_size.
  - eapply (runs_after_mount (JWrite s data stop)); [done| |right; by apply JS_write_lost|].
    + intros d. cbn [do_jcall]. unfold mseq at 1. rewrite HK. apply mseq_assoc.
    + intros dev1 Hm. by apply do_jwrite_mounted.
Qed.

Lemma do_jcall_runs c dev st : jcall_ok c → represents dev st → runs_jcall c dev st.
Proof.
  intros Hc Hrep. destruct c as [| | |s cap|s data stop|fa].
  - by apply do_jmount_runs.
  - by apply do_jrecover_runs.
  - by apply do_jfsck_runs.
  - by apply do_jread_runs.
  - by apply do_jwrite_runs.
  - destruct st as [m k f]. exists (with_fault dev fa), (inr []), (JSpace m k (0 <=? fa)).
    split; [done|]. split; [|constructor].
    destruct Hrep as (D & (tx & seq & dev0 & b & H1 & H2 & H3 & H4 & H5 & H6 & H7) & [Hc1 Hf Hw] & _).
    exists D. split; [|split; [done|]].
    + exists tx, seq, dev0, b. do 5 (split; [done|]). split; [by apply crash_state_with_fault|done].
    + intros Hfa. simpl in *. apply Z.leb_gt in Hfa. lia.
Qed.

(** ** Any calls *)

Lemma do_jcalls_run (cs : list jcall) (dev : m16_blockdev) (st : jspace) :
  represents dev st → Forall jcall_ok cs →
  ∃ dev' rs st', do_jcalls cs dev = Some (dev', rs) ∧ represents dev' st' ∧ jspecs st cs rs st'.
Proof.
  intros Hrep Hok. revert dev st Hrep. induction Hok as [|c cs Hc Hcs IH]; intros dev st Hrep.
  { exists dev, [], st. by split_and!; [|  |constructor]. }
  destruct (do_jcall_runs c dev st Hc Hrep) as (dev1 & r & st1 & Hrun & Hrep1 & Hspec).
  destruct (IH dev1 st1 Hrep1) as (dev2 & rs & st2 & Hruns & Hrep2 & Hspecs).
  exists dev2, (r :: rs), st2. cbn [do_jcalls]. rewrite Hrun. cbn [mbind option_bind].
  rewrite Hruns. split; [done|]. split; [done|]. by econstructor.
Qed.

(** C1. MCSFS1J refines a finite map from names to contents, whatever fails.
    For any sequence of mounts, recoveries, checks, reads (of names of less than
    32 characters) and writes, in which the device is made to fail after any number of writes and repaired any
    number of times, every call returns, with a result the specification
    allows, and the disk then stands for the specification's files: a write
    that reports success has added exactly the file, one that the device
    failed has added all of it or nothing, reads return a file's exact bytes,
    only a faulty device reports [M16_E_IO], no check ever reports damage,
    and [M16_E_NOSPC] needs 12 files, or 15 inodes spent on files and on
    interrupted writes. *)
Theorem m16_calls_refine (cs : list jcall) (dev : m16_blockdev) (st : jspace) :
  represents dev st → Forall jcall_ok cs →
  ∃ dev' rs st', do_jcalls cs dev = Some (dev', rs) ∧ represents dev' st' ∧ jspecs st cs rs st'.
Proof. apply do_jcalls_run. Qed.

(** ** Formatting, and what a success means *)

Lemma fresh_mounted dev f : blocks dev = fresh_blocks → total_blocks dev = 128 →
  (f = false → fail_after dev < 0) → mounted dev (JSpace ∅ 0 f).
Proof.
  intros Hb Ht Hf. split; [by apply fresh_ready|]. split; [|done].
  destruct (fresh_consistent dev Hb Ht) as [Hc Hn].
  split; [done|intros s; by rewrite Hn|].
  cbn [js_spent js_files]. rewrite map_size_empty. unfold within, img. rewrite Hb.
  vm_compute. repeat split; apply le_n.
Qed.

(** A formatted device stands for no files. *)
Theorem m16_format_represents (dev : m16_blockdev) : total_blocks dev = 128 → fail_after dev < 0 →
  ∃ dev', m16_format dev = Some (dev', inr tt) ∧ represents dev' (JSpace ∅ 0 false).
Proof.
  intros Ht Hf. destruct (format_run dev Ht Hf) as [w ->]. eexists. split; [done|].
  by apply mounted_represents, fresh_mounted.
Qed.

Lemma jspec_keeps st c r st' s x : jspec st c r st' → js_files st !! s = Some x →
  js_files st' !! s = Some x.
Proof.
  intros H Hs. destruct H; cbn [js_files] in *; try done;
    rewrite lookup_insert_ne; [done|congruence|done|congruence].
Qed.

Lemma jspecs_keeps st cs rs st' s x : jspecs st cs rs st' → js_files st !! s = Some x →
  js_files st' !! s = Some x.
Proof. induction 1; [done|]. intros. by eauto using jspec_keeps. Qed.

Lemma jspecs_app st cs1 cs2 rs st' : jspecs st (cs1 ++ cs2) rs st' →
  ∃ rs1 rs2 st1, rs = rs1 ++ rs2 ∧ length rs1 = length cs1 ∧
    jspecs st cs1 rs1 st1 ∧ jspecs st1 cs2 rs2 st'.
Proof.
  revert st rs. induction cs1 as [|c cs1 IH]; intros st rs H; simpl in H.
  { exists [], rs, st. split_and!; [done..|constructor|done]. }
  inversion H as [|st1 st2 st3 c' r cs rs' H1 H2]; subst.
  destruct (IH _ _ H2) as (rs1 & rs2 & st4 & -> & Hl & Hs1 & Hs2).
  exists (r :: rs1), rs2, st4. split; [done|]. split; [simpl; by rewrite Hl|].
  split; [by econstructor|done].
Qed.

(** The device is repaired and the file read back. *)
Lemma jspecs_read_back st s cap data rs st' : js_files st !! s = Some data →
  (length data ≤ cap)%nat → jspecs st [JPower (-1); JRead s cap] rs st' →
  rs = [inr []; inr data].
Proof.
  intros Hs Hcap H.
  inversion H as [|? st1 ? ? ? ? ? H1 H2]; subst. inversion H1; subst; [|done].
  inversion H2 as [|? st3 ? ? ? ? ? H3 H4]; subst. inversion H4; subst.
  inversion H3; subst; cbn [js_files] in *; simplify_eq; [done|unfold zlen in *; lia].
Qed.

(** C2. A write that has reported success is never lost.  Whatever calls
    precede and follow it, and however often the device fails at any write
    and is repaired, every call returns, and once the device works again a
    read with a large enough buffer returns exactly the bytes written. *)
Theorem m16_acknowledged_write_kept (dev : m16_blockdev) (st : jspace)
    (before later : list jcall) (s data : list Z) (stop : bool) (cap : nat) :
  represents dev st → Forall jcall_ok (before ++ JWrite s data stop :: later) →
  (length s < 32)%nat → (length data ≤ cap)%nat →
  ∃ dev' rs1 r rs2 r',
    do_jcalls (before ++ (JWrite s data stop :: later) ++ [JPower (-1); JRead s cap]) dev =
      Some (dev', rs1 ++ (r :: rs2) ++ [inr []; r']) ∧
    length rs1 = length before ∧ length rs2 = length later ∧
    (r = inr [] → r' = inr data).
Proof.
  intros Hrep Hok Hl Hcap. set (w := JWrite s data stop) in *.
  assert (Forall jcall_ok (before ++ (w :: later) ++ [JPower (-1); JRead s cap])) as Hok'.
  { rewrite app_assoc. pose proof Hok as [_ [(Hs & _) _]%Forall_cons]%Forall_app.
    apply Forall_app. split; [done|]. apply Forall_cons. split; [done|]. by apply Forall_singleton. }
  destruct (do_jcalls_run _ dev st Hrep Hok') as (dev' & rs & st' & Hrun & _ & Hspec).
  apply jspecs_app in Hspec as (rs1 & rs2 & st1 & -> & Hl1 & _ & Hspec).
  apply jspecs_app in Hspec as (rs3 & rs4 & st3 & -> & Hl3 & Hw & Hr).
  inversion Hw as [|? st2 ? ? r ? rs2 H1 H2]; subst.
  assert (∃ r', rs4 = [inr []; r'] ∧ (r = inr [] → r' = inr data)) as (r' & -> & Hr').
  { inversion Hr as [|? st5 ? ? ? ? ? H3 H4]; subst. inversion H3; subst; [|done].
    inversion H4 as [|? ? ? ? r' ? ? H5 H6]; subst. inversion H6; subst.
    exists r'. split; [done|]. intros ->.
    assert (js_files st2 !! s = Some data) as Hin.
    { inversion H1; subst. cbn [js_files]. by rewrite lookup_insert_eq. }
    pose proof (jspecs_keeps _ _ _ _ _ _ H2 Hin) as Hin'.
    by apply (jspecs_read_back _ s cap data _ _ Hin' Hcap) in Hr as [= ->]. }
  exists dev', rs1, r, rs2, r'. split; [done|]. split; [done|]. split; [simpl in Hl3; lia|done].
Qed.

(** ** The host self test *)

Definition status_of {A} (r : Z + A) : Z := match r with inl rc => rc | inr _ => 0 end.

(** [m16_expect(cond, msg)], without the message. *)
Definition m16_expect (cond : bool) : Z := if cond then 0 else 1.
Definition expect_rc {A} (rc : Z) (m : M m16_blockdev A) : M m16_blockdev Z :=
  r <- mstatus m ;; mok (m16_expect (status_of r =? rc)).

(** A read into the test's [out] and [out_size], which an error leaves. *)
Definition host_read (name : list Z) (buf : list Z * Z) : M m16_blockdev (Z * (list Z * Z)) :=
  r <- mstatus (m16_read_file (Ref name) (Ref buf.1) 64 (Ref buf.2)) ;;
  mok (m16_expect (status_of r =? 0), match r with inl _ => buf | inr b => b end).

Definition host_init : M m16_blockdev unit := λ dev,
  match m16_dev_init (Ref dev) with Ref d => Some (d, inr tt) | Null => None end.

(** [dev.blocks[lba][0] ^= x]. *)
Definition host_damage (lba x : Z) : M m16_blockdev unit := λ dev,
  match b ← arr_get (blocks dev) lba; y ← arr_get b 0;
        b' ← arr_set b 0 (u8 (Z.lxor y x)); arr_set (blocks dev) lba b' with
  | Some bs => Some (M16Dev bs (total_blocks dev) (writes dev) (fail_after dev), inr tt)
  | None => None
  end.

Definition host_hello : list Z := text "hello-m16".
Definition host_crashy : list Z := text "crash-replay".

(** [main] of the test; the buffer [out] is not initialised. *)
Definition m16_host_main (out : list Z) : M m16_blockdev Z :=
  host_init ;;;
  f1 <- expect_rc 0 m16_format ;;
  f2 <- expect_rc 0 m16_fsck ;;
  f3 <- expect_rc 0 (m16_write_file (Ref (literal "hello.txt")) (Ref host_hello) 9) ;;
  r4 <- host_read (literal "hello.txt") (out, 0) ;;
  c0 <- mub (arr_get r4.2.1 0) ;;
  c8 <- mub (arr_get r4.2.1 8) ;;
  let f5 := m16_expect (r4.2.2 =? 9) + m16_expect ((c0 =? 104) && (c8 =? 54)) in
  f6 <- expect_rc 0 m16_fsck ;;
  f7 <- expect_rc 0
    (m16_write_file_ex (Ref (literal "crash.txt")) (Ref host_crashy) 12 true) ;;
  f8 <- expect_rc 0 m16_journal_recover ;;
  r9 <- host_read (literal "crash.txt") r4.2 ;;
  c0 <- mub (arr_get r9.2.1 0) ;;
  c11 <- mub (arr_get r9.2.1 11) ;;
  let f10 := m16_expect (r9.2.2 =? 12) + m16_expect ((c0 =? 99) && (c11 =? 121)) in
  f11 <- expect_rc 0 m16_fsck ;;
  host_init ;;;
  f12 <- expect_rc 0 m16_format ;;
  f13 <- expect_rc 0
    (m16_write_file_ex (Ref (literal "bad.txt")) (Ref host_crashy) 12 true) ;;
  host_damage (M16_JOURNAL_START + 1) 0x7f ;;;
  f14 <- expect_rc M16_E_CORRUPT m16_journal_recover ;;
  let fails := f1 + f2 + f3 + r4.1 + f5 + f6 + f7 + f8 + r9.1 + f10 + f11 + f12 + f13 + f14 in
  mok (if fails =? 0 then 0 else 1).

(** The self test passes, whatever its buffer held. *)
Theorem m16_host_main_passes (dev : m16_blockdev) (out : list Z) :
  length out = 64%nat → ∃ dev', m16_host_main out dev = Some (dev', inr 0).
Proof.
  intros Hl. do 12 (destruct out as [|? out]; [discriminate|]). clear Hl.
  eexists. vm_compute. reflexivity.
Qed.

(** ** Concrete runs *)

#[local] Opaque demo_dev.

Lemma demo_represents : represents demo_dev (JSpace ∅ 0 false).
Proof.
  apply mounted_represents, fresh_mounted; [reflexivity|vm_compute; reflexivity|].
  intros _. vm_compute. reflexivity.
Qed.

(** A write; a second one that the device fails at its ninth block write; the
    power returns and both files are read. *)
Definition demo_s : list Z := [97; 46; 116; 120; 116].
Definition demo_calls : list jcall :=
  [JWrite demo_s demo_data false; JPower 8; JWrite [98] [1; 2; 3] false; JPower (-1);
   JRead demo_s 400; JRead [98] 10; JFsck].

Lemma demo_calls_run :
  snd <$> do_jcalls demo_calls demo_dev =
    Some [inr []; inr []; inl M16_E_IO; inr []; inr demo_data; inl M16_E_NOENT; inr []].
Proof. vm_compute. reflexivity. Qed.

Lemma demo_data_bytes : Forall is_u8 demo_data.
Proof. apply Forall_replicate. words. Qed.

Lemma demo_calls_ok : Forall jcall_ok demo_calls.
Proof.
  unfold demo_calls, demo_s. repeat (apply Forall_cons; split); try done.
  - split; [repeat constructor; lia|]. split; [repeat constructor; words|apply demo_data_bytes].
  - split; [repeat constructor; lia|]. split; repeat constructor; words.
  - split; [repeat constructor; lia|]. simpl. lia.
  - split; [repeat constructor; lia|]. simpl. lia.
Qed.

Lemma m16_format_represents_witness :
  ∃ dev', m16_format (M16Dev [] 128 5 (-1)) = Some (dev', inr tt) ∧
    represents dev' (JSpace ∅ 0 false).
Proof. apply (m16_format_represents (M16Dev [] 128 5 (-1))); reflexivity. Defined.

Lemma m16_calls_refine_witness :
  ∃ dev' rs st', do_jcalls demo_calls demo_dev = Some (dev', rs) ∧ represents dev' st' ∧
    jspecs (JSpace ∅ 0 false) demo_calls rs st'.
Proof. apply (m16_calls_refine demo_calls demo_dev _ demo_represents demo_calls_ok). Defined.

Lemma m16_acknowledged_write_kept_witness :
  ∃ dev' rs1 r rs2 r',
    do_jcalls ([JPower 40; JFsck] ++ (JWrite demo_s demo_data true :: [JPower 0; JMount; JRecover]) ++
      [JPower (-1); JRead demo_s 512]) demo_dev = Some (dev', rs1 ++ (r :: rs2) ++ [inr []; r']) ∧
    length rs1 = length [JPower 40; JFsck] ∧ length rs2 = length [JPower 0; JMount; JRecover] ∧
    (r = inr [] → r' = inr demo_data).
Proof.
  apply (m16_acknowledged_write_kept demo_dev (JSpace ∅ 0 false) [JPower 40; JFsck]
    [JPower 0; JMount; JRecover] demo_s demo_data true 512 demo_represents).
  - simpl. repeat (apply Forall_cons; split); try done.
    split; [unfold demo_s; repeat constructor; lia|].
    split; [unfold demo_s; repeat constructor; words|apply demo_data_bytes].
  - simpl. lia.
  - unfold demo_data. rewrite length_replicate. lia.
Defined.

Lemma m16_host_main_passes_witness :
  ∃ dev', m16_host_main (replicate 64 0) demo_dev = Some (dev', inr 0).
Proof. apply (m16_host_main_passes demo_dev). reflexivity. Defined.
