(* ===== verification/Thread.v ===== *)
(** Kernel threads and the cooperative scheduler
    ([src/kernel/mcsos_thread.c], [src/include/mcsos_thread.h] and the register
    switch of [src/arch/x86_64/context_switch.S]).  Threads live at addresses;
    the ready queue is the linked list the source threads through them. *)
From S2P Require Import Prelude Err.

#[local] Open Scope err_scope.

(** ** Data *)

Definition MCSOS_THREAD_MAGIC : Z := 0x4d43534f53544852.
Definition MCSOS_STACK_ALIGN : Z := 16.
Definition MCSOS_MIN_KERNEL_STACK : Z := 4096.

Inductive mcsos_thread_state :=
| MCSOS_THREAD_NEW
| MCSOS_THREAD_READY
| MCSOS_THREAD_RUNNING
| MCSOS_THREAD_BLOCKED
| MCSOS_THREAD_ZOMBIE.

#[export] Instance thread_state_eq_dec : EqDecision mcsos_thread_state.
Proof. solve_decision. Defined.

Definition MCSOS_SCHED_EINVAL : Z := -1.
Definition MCSOS_SCHED_ESTATE : Z := -2.
Definition MCSOS_SCHED_ESTACK : Z := -3.
Definition MCSOS_SCHED_ECORRUPT : Z := -4.

Record mcsos_context := MContext {
  rsp : Z; rbp : Z; rbx : Z; r12 : Z; r13 : Z; r14 : Z; r15 : Z; rip : Z;
}.

(** Pointers are addresses; 0 is the null pointer. *)
Record mcsos_thread := MThread {
  magic : Z;
  id : Z;
  name : Z;
  state : mcsos_thread_state;
  context : mcsos_context;
  entry : Z;
  arg : Z;
  stack_base : Z;
  stack_size : Z;
  next : Z;
  switches : Z;
  ticks : Z;
  exit_code : Z;
}.

Record mcsos_scheduler := MSched {
  current : Z;
  idle : Z;
  ready_head : Z;
  ready_tail : Z;
  next_id : Z;
  runnable_count : Z;
  context_switches : Z;
  sched_ticks : Z;
  initialized : Z;
}.

(** What the functions touch: the thread objects, the scheduler, the 8-byte
    words of the stacks, and the registers of the processor. *)
Record machine := Machine {
  threads : gmap Z mcsos_thread;
  sched : mcsos_scheduler;
  stacks : gmap Z Z;
  cpu : mcsos_context;
}.

(** ** Field updates *)

Definition set_state (x : mcsos_thread_state) (t : mcsos_thread) : mcsos_thread :=
  MThread (magic t) (id t) (name t) x (context t) (entry t) (arg t) (stack_base t)
    (stack_size t) (next t) (switches t) (ticks t) (exit_code t).
Definition set_next (x : Z) (t : mcsos_thread) : mcsos_thread :=
  MThread (magic t) (id t) (name t) (state t) (context t) (entry t) (arg t) (stack_base t)
    (stack_size t) x (switches t) (ticks t) (exit_code t).
Definition set_context (x : mcsos_context) (t : mcsos_thread) : mcsos_thread :=
  MThread (magic t) (id t) (name t) (state t) x (entry t) (arg t) (stack_base t)
    (stack_size t) (next t) (switches t) (ticks t) (exit_code t).
Definition inc_switches (t : mcsos_thread) : mcsos_thread :=
  MThread (magic t) (id t) (name t) (state t) (context t) (entry t) (arg t) (stack_base t)
    (stack_size t) (next t) (u64 (switches t + 1)) (ticks t) (exit_code t).
Definition inc_ticks (t : mcsos_thread) : mcsos_thread :=
  MThread (magic t) (id t) (name t) (state t) (context t) (entry t) (arg t) (stack_base t)
    (stack_size t) (next t) (switches t) (u64 (ticks t + 1)) (exit_code t).

Definition set_current (x : Z) (s : mcsos_scheduler) : mcsos_scheduler :=
  MSched x (idle s) (ready_head s) (ready_tail s) (next_id s) (runnable_count s)
    (context_switches s) (sched_ticks s) (initialized s).
Definition set_head (x : Z) (s : mcsos_scheduler) : mcsos_scheduler :=
  MSched (current s) (idle s) x (ready_tail s) (next_id s) (runnable_count s)
    (context_switches s) (sched_ticks s) (initialized s).
Definition set_tail (x : Z) (s : mcsos_scheduler) : mcsos_scheduler :=
  MSched (current s) (idle s) (ready_head s) x (next_id s) (runnable_count s)
    (context_switches s) (sched_ticks s) (initialized s).
Definition set_runnable (x : Z) (s : mcsos_scheduler) : mcsos_scheduler :=
  MSched (current s) (idle s) (ready_head s) (ready_tail s) (next_id s) x
    (context_switches s) (sched_ticks s) (initialized s).
Definition inc_context_switches (s : mcsos_scheduler) : mcsos_scheduler :=
  MSched (current s) (idle s) (ready_head s) (ready_tail s) (next_id s) (runnable_count s)
    (u64 (context_switches s + 1)) (sched_ticks s) (initialized s).
Definition inc_sched_ticks (s : mcsos_scheduler) : mcsos_scheduler :=
  MSched (current s) (idle s) (ready_head s) (ready_tail s) (next_id s) (runnable_count s)
    (context_switches s) (u64 (sched_ticks s + 1)) (initialized s).

(** ** Accesses *)

(** [*p]; undefined when no thread object is there. *)
Definition get_thread (p : Z) : M machine mcsos_thread := λ m,
  match threads m !! p with Some t => Some (m, inr t) | None => None end.
Definition upd_thread (p : Z) (f : mcsos_thread → mcsos_thread) : M machine unit := λ m,
  match threads m !! p with
  | Some t => Some (Machine (<[p := f t]> (threads m)) (sched m) (stacks m) (cpu m), inr tt)
  | None => None
  end.
(** An assignment of a whole object, which need not hold a thread before. *)
Definition put_thread (p : Z) (t : mcsos_thread) : M machine unit := λ m,
  Some (Machine (<[p := t]> (threads m)) (sched m) (stacks m) (cpu m), inr tt).
Definition upd_sched (f : mcsos_scheduler → mcsos_scheduler) : M machine unit := λ m,
  Some (Machine (threads m) (f (sched m)) (stacks m) (cpu m), inr tt).
Definition put_stack (a v : Z) : M machine unit := λ m,
  Some (Machine (threads m) (sched m) (<[a := v]> (stacks m)) (cpu m), inr tt).
Definition get_sched {A} (f : mcsos_scheduler → A) : M machine A := mget (λ m, f (sched m)).

Definition align_down_uintptr (value alignment : Z) : Z :=
  Z.land value (u64 (Z.lnot (u64 (alignment - 1)))).

Definition valid_thread_object (p : Z) : M machine bool :=
  if p =? 0 then mok false else
  t <- get_thread p ;; mok (magic t =? MCSOS_THREAD_MAGIC).

Definition zero_context : mcsos_context := MContext 0 0 0 0 0 0 0 0.

(** ** The operations

    [s] is the scheduler pointer: null, or the scheduler object. *)

Section Operations.
(** Addresses the linker chooses: the string literal, the trampoline, and the
    label at which a suspended thread resumes. *)
Context (boot_name trampoline resume : Z).

Definition mcsos_scheduler_init (s : ptr unit) (boot_thread : Z) : M machine unit :=
  guard_err negb (is_null s || (boot_thread =? 0)) else MCSOS_SCHED_EINVAL ;;
  put_thread boot_thread
    (MThread MCSOS_THREAD_MAGIC 0 boot_name MCSOS_THREAD_RUNNING zero_context 0 0 0 0 0 0 0 0) ;;;
  upd_sched (λ _, MSched boot_thread boot_thread 0 0 1 0 0 0 1).

Definition mcsos_thread_prepare (thread name entry arg stack_base stack_size id : Z) :
    M machine unit :=
  guard_err negb ((thread =? 0) || (entry =? 0) || (stack_base =? 0)) else MCSOS_SCHED_EINVAL ;;
  guard_err negb (stack_size <? MCSOS_MIN_KERNEL_STACK) else MCSOS_SCHED_ESTACK ;;
  let low := stack_base in
  let high := u64 (low + stack_size) in
  guard_err negb (high <=? low) else MCSOS_SCHED_ESTACK ;;
  let top := align_down_uintptr high MCSOS_STACK_ALIGN in
  guard_err negb (top <=? u64 (low + 128)) else MCSOS_SCHED_ESTACK ;;
  let top := u64 (top - 8) in
  put_stack top 0 ;;;
  put_thread thread
    (MThread MCSOS_THREAD_MAGIC id name MCSOS_THREAD_NEW
       (MContext top 0 0 0 0 0 0 trampoline) entry arg stack_base stack_size 0 0 0 0).

(** [sched == NULL || sched->initialized == 0 || !valid_thread_object(p)]. *)
Definition bad_call (s : ptr unit) (p : mcsos_scheduler → Z) : M machine bool :=
  init <- get_sched initialized ;;
  if is_null s || (init =? 0) then mok true else
  q <- get_sched p ;;
  v <- valid_thread_object q ;; mok (negb v).

Definition mcsos_sched_enqueue (s : ptr unit) (thread : Z) : M machine unit :=
  bad <- bad_call s (λ _, thread) ;;
  guard_err negb bad else MCSOS_SCHED_EINVAL ;;
  t <- get_thread thread ;;
  guard_err bool_decide (state t = MCSOS_THREAD_NEW) ||
            bool_decide (state t = MCSOS_THREAD_READY) ||
            bool_decide (state t = MCSOS_THREAD_BLOCKED) else MCSOS_SCHED_ESTATE ;;
  upd_thread thread (set_state MCSOS_THREAD_READY) ;;;
  upd_thread thread (set_next 0) ;;;
  tail <- get_sched ready_tail ;;
  (if tail =? 0 then
     upd_sched (set_head thread) ;;; upd_sched (set_tail thread)
   else
     upd_thread tail (set_next thread) ;;; upd_sched (set_tail thread)) ;;;
  upd_sched (λ s, set_runnable (u64 (runnable_count s + 1)) s).

Definition mcsos_sched_pick_next (s : ptr unit) : M machine Z :=
  init <- get_sched initialized ;;
  if is_null s || (init =? 0) then mok 0 else
  thread <- get_sched ready_head ;;
  if thread =? 0 then get_sched idle else
  t <- get_thread thread ;;
  upd_sched (set_head (next t)) ;;;
  (if next t =? 0 then upd_sched (set_tail 0) else mok tt) ;;;
  upd_thread thread (set_next 0) ;;;
  upd_sched (λ s, if 0 <? runnable_count s then set_runnable (runnable_count s - 1) s else s) ;;;
  mok thread.

(** The assembly routine: the callee-saved registers go to the old context,
    with the address of label [1:] as the resume point, and are loaded from
    the new one. *)
Definition mcsos_context_switch (old new : Z) : M machine unit := λ m,
  let c := cpu m in
  let saved := MContext (rsp c) (rbp c) (rbx c) (r12 c) (r13 c) (r14 c) (r15 c) resume in
  match upd_thread old (set_context saved) m with
  | Some (m', _) =>
      match threads m' !! new with
      | Some t => Some (Machine (threads m') (sched m') (stacks m') (context t), inr tt)
      | None => None
      end
  | None => None
  end.

Definition mcsos_sched_yield (s : ptr unit) : M machine unit :=
  bad <- bad_call s current ;;
  guard_err negb bad else MCSOS_SCHED_EINVAL ;;
  old_thread <- get_sched current ;;
  next_thread <- mcsos_sched_pick_next s ;;
  valid <- valid_thread_object next_thread ;;
  guard_err valid else MCSOS_SCHED_ECORRUPT ;;
  if next_thread =? old_thread then
    upd_thread old_thread (set_state MCSOS_THREAD_RUNNING)
  else
    t <- get_thread old_thread ;;
    idle <- get_sched idle ;;
    (if bool_decide (state t = MCSOS_THREAD_RUNNING) && negb (old_thread =? idle) then
       upd_thread old_thread (set_state MCSOS_THREAD_READY) ;;;
       mcsos_sched_enqueue s old_thread
     else mok tt) ;;;
    upd_thread next_thread (set_state MCSOS_THREAD_RUNNING) ;;;
    upd_sched (set_current next_thread) ;;;
    upd_thread old_thread inc_switches ;;;
    upd_thread next_thread inc_switches ;;;
    upd_sched inc_context_switches ;;;
    mcsos_context_switch old_thread next_thread.

Definition mcsos_sched_tick (s : ptr unit) : M machine unit :=
  bad <- bad_call s current ;;
  guard_err negb bad else MCSOS_SCHED_EINVAL ;;
  upd_sched inc_sched_ticks ;;;
  cur <- get_sched current ;;
  upd_thread cur inc_ticks.

Definition mcsos_thread_block_current (s : ptr unit) : M machine unit :=
  bad <- bad_call s current ;;
  guard_err negb bad else MCSOS_SCHED_EINVAL ;;
  cur <- get_sched current ;;
  idle <- get_sched idle ;;
  guard_err negb (cur =? idle) else MCSOS_SCHED_ESTATE ;;
  upd_thread cur (set_state MCSOS_THREAD_BLOCKED) ;;;
  mcsos_sched_yield s.

Definition mcsos_thread_mark_ready (s : ptr unit) (thread : Z) : M machine unit :=
  v <- valid_thread_object thread ;;
  guard_err v else MCSOS_SCHED_EINVAL ;;
  t <- get_thread thread ;;
  guard_err bool_decide (state t = MCSOS_THREAD_BLOCKED) else MCSOS_SCHED_ESTATE ;;
  mcsos_sched_enqueue s thread.

(** The walk of [mcsos_sched_ready_count]. The loop of the source has no
    bound: [Some None] is a walk still going on after [fuel] threads. *)
Fixpoint ready_count_loop (fuel : nat) (m : machine) (cursor count : Z) : option (option Z) :=
  if cursor =? 0 then Some (Some count) else
  match fuel with
  | O => Some None
  | S fuel' =>
      t ← threads m !! cursor;
      ready_count_loop fuel' m (next t) (u64 (count + 1))
  end.

Definition mcsos_sched_ready_count (fuel : nat) (s : ptr unit) (m : machine) :
    option (option Z) :=
  if is_null s || (initialized (sched m) =? 0) then Some (Some 0) else
  ready_count_loop fuel m (ready_head (sched m)) 0.

(** The walk of [mcsos_sched_validate]: the queue's last thread and length, or
    a status. It gives up after [runnable_count + 2] threads. *)
Fixpoint validate_loop (fuel : nat) (cursor last count : Z) : M machine (Z * Z) :=
  if cursor =? 0 then mok (last, count) else
  match fuel with
  | O => mub None
  | S fuel' =>
      v <- valid_thread_object cursor ;;
      guard_err v else MCSOS_SCHED_ECORRUPT ;;
      t <- get_thread cursor ;;
      guard_err bool_decide (state t = MCSOS_THREAD_READY) else MCSOS_SCHED_ECORRUPT ;;
      cur <- get_sched current ;;
      guard_err negb (cursor =? cur) else MCSOS_SCHED_ECORRUPT ;;
      let count := u64 (count + 1) in
      runnable <- get_sched runnable_count ;;
      guard_err negb (u64 (runnable + 1) <? count) else MCSOS_SCHED_ECORRUPT ;;
      validate_loop fuel' (next t) cursor count
  end.

Definition mcsos_sched_validate (s : ptr unit) : M machine unit :=
  bad <- bad_call s current ;;
  guard_err negb bad else MCSOS_SCHED_EINVAL ;;
  head <- get_sched ready_head ;;
  runnable <- get_sched runnable_count ;;
  r <- validate_loop (Z.to_nat (runnable + 2)) head 0 0 ;;
  tail <- get_sched ready_tail ;;
  guard_err r.1 =? tail else MCSOS_SCHED_ECORRUPT ;;
  guard_err r.2 =? runnable else MCSOS_SCHED_ECORRUPT ;;
  mok tt.
End Operations.

(** ** The ready queue as a list *)

(** The list [l] is threaded through the [next] fields from [h] on. *)
Fixpoint linked (T : gmap Z mcsos_thread) (h : Z) (l : list Z) : Prop :=
  match l with
  | [] => h = 0
  | p :: l' => h = p ∧ p ≠ 0 ∧ ∃ t, T !! p = Some t ∧ linked T (next t) l'
  end.

(** What a thread is to the others: its state, its saved registers, and
    whether it is a thread. *)
Definition view (T : gmap Z mcsos_thread) (p : Z) :
    option (mcsos_thread_state * mcsos_context * Z) :=
  (λ t, (state t, context t, magic t)) <$> T !! p.

Record queue_ok (m : machine) (q : list Z) : Prop := {
  qo_linked : linked (threads m) (ready_head (sched m)) q;
  qo_tail : ready_tail (sched m) = default 0 (last q);
  qo_nodup : NoDup q;
  qo_count : runnable_count (sched m) = zlen q;
  qo_bound : zlen q < 2 ^ 62;
  qo_ready : Forall (λ p, ∃ c, view (threads m) p =
    Some (MCSOS_THREAD_READY, c, MCSOS_THREAD_MAGIC)) q;
}.

(** The parts of the scheduler that are not the queue. *)
Definition same_rest (m m' : machine) : Prop :=
  current (sched m') = current (sched m) ∧ idle (sched m') = idle (sched m) ∧
  initialized (sched m') = initialized (sched m) ∧
  context_switches (sched m') = context_switches (sched m) ∧ cpu m' = cpu m.

Lemma linked_nonzero T h l : linked T h l → 0 ∉ l.
Proof.
  revert h. induction l as [|p l IH]; intros h Hl; simpl in Hl; [apply not_elem_of_nil|].
  destruct Hl as (-> & Hp & t & _ & Hl). apply not_elem_of_cons. split; [done|by eapply IH].
Qed.

Lemma linked_head T h l : linked T h l → h = default 0 (head l).
Proof. destruct l; simpl; [done|by intros [-> _]]. Qed.

Lemma linked_frame T T' h l :
  (∀ p, p ∈ l → next <$> T' !! p = next <$> T !! p) → linked T h l → linked T' h l.
Proof.
  revert h. induction l as [|p l IH]; intros h Hf Hl; simpl in *; [done|].
  destruct Hl as (-> & Hp & t & Ht & Hl). split; [done|]. split; [done|].
  assert (next <$> T' !! p = Some (next t)) as Hn.
  { rewrite Hf by apply list_elem_of_here. by rewrite Ht. }
  apply fmap_Some in Hn as (t' & Ht' & Hn). exists t'. split; [done|]. rewrite <-Hn.
  apply IH; [|done]. intros x Hx. apply Hf. by right.
Qed.

Lemma linked_snoc T T' h l p t :
  linked T h l → p ≠ 0 → p ∉ l → NoDup l → T' !! p = Some t → next t = 0 →
  (∀ x, x ∈ l → next <$> T' !! x = if decide (last l = Some x) then Some p else next <$> T !! x) →
  linked T' (match l with [] => p | _ => h end) (l ++ [p]).
Proof.
  intros Hl Hp Hpl Hnd Ht Hn Hf. revert h Hl. induction l as [|x l IH]; intros h Hl.
  { simpl. split; [done|]. split; [done|]. by exists t. }
  simpl in Hl. destruct Hl as (-> & Hx & tx & Htx & Hl).
  apply not_elem_of_cons in Hpl as [Hpx Hpl]. apply NoDup_cons in Hnd as [Hxl Hnd].
  cbn [app linked]. split; [done|]. split; [done|].
  pose proof (Hf x (list_elem_of_here _ _)) as Hfx. destruct l as [|y l].
  - simpl in Hfx. rewrite decide_True in Hfx by done.
    apply fmap_Some in Hfx as (tx' & Htx' & Hnx). exists tx'. split; [done|].
    rewrite <-Hnx. simpl. split; [done|]. split; [done|]. by exists t.
  - rewrite last_cons_cons in Hfx.
    destruct (decide (last (y :: l) = Some x)) as [Hl'|Hl'].
    { exfalso. apply Hxl. by apply last_Some_elem_of. }
    rewrite Htx in Hfx. apply fmap_Some in Hfx as (tx' & Htx' & Hnx).
    exists tx'. split; [done|]. rewrite <-Hnx. apply IH; try done.
    intros z Hz. rewrite (Hf z) by (by right). by rewrite last_cons_cons.
Qed.

Lemma view_insert T p t x :
  view (<[p := t]> T) x =
    if decide (x = p) then Some (state t, context t, magic t) else view T x.
Proof.
  unfold view. case_decide as E.
  - subst. by rewrite lookup_insert_eq.
  - by rewrite lookup_insert_ne.
Qed.

Lemma valid_run m p t : p ≠ 0 → threads m !! p = Some t →
  valid_thread_object p m = Some (m, inr (magic t =? MCSOS_THREAD_MAGIC)).
Proof.
  intros Hp Ht. unfold valid_thread_object. rewrite (proj2 (Z.eqb_neq p 0)) by done.
  unfold mseq, get_thread. by rewrite Ht.
Qed.

Lemma view_Some T p s c g : view T p = Some (s, c, g) →
  ∃ t, T !! p = Some t ∧ state t = s ∧ context t = c ∧ magic t = g.
Proof. unfold view. intros (t & Ht & [= -> -> ->])%fmap_Some. by exists t. Qed.

Lemma get_thread_run m p t : threads m !! p = Some t → get_thread p m = Some (m, inr t).
Proof. unfold get_thread. by intros ->. Qed.

Lemma upd_thread_run m p t f : threads m !! p = Some t →
  upd_thread p f m =
    Some (Machine (<[p := f t]> (threads m)) (sched m) (stacks m) (cpu m), inr tt).
Proof. unfold upd_thread. by intros ->. Qed.

Lemma bad_call_run m p t (f : mcsos_scheduler → Z) : initialized (sched m) ≠ 0 →
  f (sched m) = p → p ≠ 0 → threads m !! p = Some t → magic t = MCSOS_THREAD_MAGIC →
  bad_call (Ref tt) f m = Some (m, inr false).
Proof.
  intros Hi Hf Hp Ht Hm. unfold bad_call, get_sched. rewrite !mseq_mget.
  rewrite (proj2 (Z.eqb_neq _ 0)) by done. cbn [is_null orb]. rewrite mseq_mget, Hf.
  erewrite mseq_inr by (by apply valid_run). by rewrite Hm, Z.eqb_refl.
Qed.

(** ** The queue operations *)

Lemma queue_snoc m q p t' T' h' c :
  queue_ok m q → p ≠ 0 → p ∉ q → zlen q + 1 < 2 ^ 62 →
  T' !! p = Some t' → state t' = MCSOS_THREAD_READY → context t' = c →
  magic t' = MCSOS_THREAD_MAGIC → next t' = 0 →
  (∀ x, x ≠ p → view T' x = view (threads m) x) →
  (∀ x, x ∈ q → next <$> T' !! x =
     if decide (last q = Some x) then Some p else next <$> threads m !! x) →
  h' = match q with [] => p | _ => ready_head (sched m) end →
  let m' := Machine T' (set_runnable (zlen q + 1) (set_tail p (set_head h' (sched m))))
    (stacks m) (cpu m) in
  queue_ok m' (q ++ [p]) ∧ same_rest m m' ∧
  ∀ x, view (threads m') x = if decide (x = p) then
    Some (MCSOS_THREAD_READY, c, MCSOS_THREAD_MAGIC) else view (threads m) x.
Proof.
  intros [Hl Ht Hnd Hc Hb Hr] Hp Hpq Hlen Htp Hs Hcx Hmg Hn Hv Hnx -> m'.
  assert (view T' p = Some (MCSOS_THREAD_READY, c, MCSOS_THREAD_MAGIC)) as Hvp.
  { unfold view. rewrite Htp. simpl. by rewrite Hs, Hcx, Hmg. }
  split; [|split; [done|]].
  - split; cbn [m' threads sched ready_head ready_tail runnable_count set_runnable set_tail set_head].
    + by eapply linked_snoc.
    + by rewrite last_snoc.
    + apply NoDup_app. split; [done|]. split; [|apply NoDup_singleton].
      intros x Hx ->%list_elem_of_singleton. done.
    + unfold zlen. rewrite length_app. simpl. lia.
    + unfold zlen in *. rewrite length_app. simpl. lia.
    + apply Forall_app. split; [|by constructor; [eauto|]].
      rewrite Forall_forall in *. intros x Hx. rewrite Hv by congruence. by apply Hr.
  - intros x. case_decide as E; [by subst|by apply Hv].
Qed.

(** The count is read through the updates of head and tail. *)
Ltac fold_count :=
  match goal with
  | m : machine |- context [u64 (runnable_count ?s + 1)] =>
      change (runnable_count s) with (runnable_count (sched m))
  end.

(** What an accepted thread does to the store: it is entered behind the last of
    the queue, and is the head of an empty one. *)
Definition entered (t : mcsos_thread) : mcsos_thread := set_next 0 (set_state MCSOS_THREAD_READY t).

Lemma enqueue_exec m q p t : queue_ok m q → initialized (sched m) ≠ 0 → p ≠ 0 → zlen q + 1 < 2 ^ 62 →
  threads m !! p = Some t → magic t = MCSOS_THREAD_MAGIC →
  state t = MCSOS_THREAD_NEW ∨ state t = MCSOS_THREAD_READY ∨ state t = MCSOS_THREAD_BLOCKED →
  match last q with
  | None => mcsos_sched_enqueue (Ref tt) p m =
      Some (Machine (<[p := entered t]> (threads m))
        (set_runnable (zlen q + 1) (set_tail p (set_head p (sched m)))) (stacks m) (cpu m), inr tt)
  | Some z => ∀ tz, z ≠ 0 → <[p := entered t]> (threads m) !! z = Some tz →
      mcsos_sched_enqueue (Ref tt) p m =
      Some (Machine (<[z := set_next p tz]> (<[p := entered t]> (threads m)))
        (set_runnable (zlen q + 1) (set_tail p (sched m))) (stacks m) (cpu m), inr tt)
  end.
Proof.
  intros Hq Hi Hp Hlen Htp Hmg Hs.
  assert (u64 (runnable_count (sched m) + 1) = zlen q + 1) as Hcount.
  { rewrite (qo_count _ _ Hq). apply u64_small. pose proof (zlen_nonneg q). words. }
  assert (bool_decide (state t = MCSOS_THREAD_NEW) || bool_decide (state t = MCSOS_THREAD_READY) ||
    bool_decide (state t = MCSOS_THREAD_BLOCKED) = true) as Hst by (by destruct Hs as [->|[->| ->]]).
  destruct (last q) as [z|] eqn:El; [intros tz Hz Htz|];
    unfold mcsos_sched_enqueue; erewrite mseq_inr by (by eapply (bad_call_run m p t));
    cbn [negb]; erewrite mseq_inr by (by apply get_thread_run); rewrite Hst;
    erewrite mseq_inr by (by apply upd_thread_run);
    erewrite mseq_inr by (apply upd_thread_run; cbn [threads]; apply lookup_insert_eq);
    cbn [threads sched stacks cpu]; rewrite insert_insert_eq;
    unfold get_sched; rewrite mseq_mget; cbn [sched]; rewrite (qo_tail _ _ Hq), El.
  - change (default 0 (Some z)) with z. rewrite (proj2 (Z.eqb_neq z 0)) by done.
    erewrite mseq_inr by (erewrite mseq_inr by (apply upd_thread_run; exact Htz); reflexivity).
    unfold upd_sched. cbn [threads sched stacks cpu]. fold_count. by rewrite Hcount.
  - change (default 0 None =? 0) with true. cbv iota. erewrite mseq_inr by reflexivity.
    unfold upd_sched. cbn [threads sched stacks cpu]. fold_count. by rewrite Hcount.
Qed.

Lemma enqueue_run m q p s c :
  queue_ok m q → initialized (sched m) ≠ 0 → p ≠ 0 → p ∉ q → zlen q + 1 < 2 ^ 62 →
  view (threads m) p = Some (s, c, MCSOS_THREAD_MAGIC) →
  s = MCSOS_THREAD_NEW ∨ s = MCSOS_THREAD_READY ∨ s = MCSOS_THREAD_BLOCKED →
  ∃ m', mcsos_sched_enqueue (Ref tt) p m = Some (m', inr tt) ∧ queue_ok m' (q ++ [p]) ∧
    same_rest m m' ∧
    ∀ x, view (threads m') x = if decide (x = p) then
      Some (MCSOS_THREAD_READY, c, MCSOS_THREAD_MAGIC) else view (threads m) x.
Proof.
  intros Hq Hi Hp Hpq Hlen Hv Hs.
  destruct (view_Some _ _ _ _ _ Hv) as (t & Htp & Hst & Hct & Hmg).
  rewrite <-Hst in Hs. pose proof (enqueue_exec m q p t Hq Hi Hp Hlen Htp Hmg Hs) as E.
  destruct (last q) as [z|] eqn:El.
  - assert (z ∈ q) as Hzq by by apply last_Some_elem_of.
    assert (z ≠ 0) as Hz by (intros ->; by eapply linked_nonzero; [apply Hq|]).
    assert (z ≠ p) as Hzp by (by intros ->).
    pose proof (qo_ready _ _ Hq) as Hr. rewrite Forall_forall in Hr.
    destruct (Hr z Hzq) as (cz & Hvz).
    destruct (view_Some _ _ _ _ _ Hvz) as (tz & Htz & _).
    eexists. split; [apply (E tz); [done|by rewrite lookup_insert_ne]|].
    apply (queue_snoc m q p (entered t) _ (ready_head (sched m)) c); try done.
    + rewrite lookup_insert_ne by done. apply lookup_insert_eq.
    + intros x Hx. rewrite !view_insert. case_decide as Exz; [|by rewrite decide_False].
      subst x. unfold view. by rewrite Htz.
    + intros x Hx. case_decide as Exz.
      * assert (x = z) as -> by congruence. by rewrite lookup_insert_eq.
      * rewrite !lookup_insert_ne by congruence. done.
    + by destruct q.
  - apply last_None in El as ->. eexists. split; [exact E|].
    apply (queue_snoc m [] p (entered t) _ p c); try done.
    + apply lookup_insert_eq.
    + intros x Hx. rewrite view_insert. by rewrite decide_False.
    + intros x Hx. by apply elem_of_nil in Hx.
Qed.

Lemma pick_empty m : queue_ok m [] → initialized (sched m) ≠ 0 →
  mcsos_sched_pick_next (Ref tt) m = Some (m, inr (idle (sched m))).
Proof.
  intros Hq Hi. unfold mcsos_sched_pick_next, get_sched. rewrite mseq_mget.
  rewrite (proj2 (Z.eqb_neq _ 0)) by done. cbn [is_null orb]. rewrite mseq_mget.
  pose proof (qo_linked _ _ Hq) as Hl. simpl in Hl. by rewrite Hl.
Qed.

Lemma pick_run m p q : queue_ok m (p :: q) → initialized (sched m) ≠ 0 →
  ∃ m', mcsos_sched_pick_next (Ref tt) m = Some (m', inr p) ∧ queue_ok m' q ∧
    same_rest m m' ∧ ∀ x, view (threads m') x = view (threads m) x.
Proof.
  intros [Hl Ht Hnd Hc Hb Hr] Hi. unfold mcsos_sched_pick_next, get_sched. rewrite mseq_mget.
  rewrite (proj2 (Z.eqb_neq _ 0)) by done. cbn [is_null orb]. rewrite mseq_mget.
  simpl in Hl. destruct Hl as (Hh & Hp & t & Htp & Hl). rewrite Hh.
  rewrite (proj2 (Z.eqb_neq p 0)) by done.
  erewrite mseq_inr by (by apply get_thread_run). erewrite mseq_inr by reflexivity.
  apply NoDup_cons in Hnd as [Hpq Hnd]. apply Forall_cons in Hr as [Hrp Hr].
  set (s' := if next t =? 0 then set_tail 0 (set_head (next t) (sched m))
             else set_head (next t) (sched m)).
  rewrite (mseq_inr _ _ _ (Machine (threads m) s' (stacks m) (cpu m)) tt)
    by (subst s'; by destruct (next t =? 0)).
  erewrite mseq_inr by (apply upd_thread_run; exact Htp).
  erewrite mseq_inr by reflexivity. eexists. split; [reflexivity|].
  assert (runnable_count s' = zlen q + 1) as Hcs.
  { assert (runnable_count s' = runnable_count (sched m)) as ->.
    { subst s'. by destruct (next t =? 0). }
    rewrite Hc. unfold zlen. simpl. lia. }
  cbn [threads sched stacks cpu]. rewrite Hcs.
  pose proof (zlen_nonneg q) as Hz. rewrite (proj2 (Z.ltb_lt 0 _)) by lia.
  assert (∀ x, view (<[p:=set_next 0 t]> (threads m)) x = view (threads m) x) as Hv.
  { intros x. rewrite view_insert. case_decide as E; [|done]. subst x.
    unfold view. by rewrite Htp. }
  split; [|split; [|done]].
  - split; cbn [threads sched stacks cpu].
    + assert (ready_head (set_runnable (zlen q + 1 - 1) s') = next t) as ->.
      { subst s'. by destruct (next t =? 0). }
      eapply linked_frame; [|exact Hl]. intros x Hx.
      rewrite lookup_insert_ne; [done|]. by intros ->.
    + assert (ready_tail (set_runnable (zlen q + 1 - 1) s') =
        if next t =? 0 then 0 else ready_tail (sched m)) as ->.
      { subst s'. by destruct (next t =? 0). }
      destruct q as [|x q]; [simpl in Hl; by rewrite Hl|].
      simpl in Hl. destruct Hl as (-> & Hx & _). rewrite (proj2 (Z.eqb_neq x 0)) by done.
      by rewrite Ht.
    + done.
    + assert (runnable_count (set_runnable (zlen q + 1 - 1) s') = zlen q + 1 - 1) as -> by done.
      lia.
    + unfold zlen in *. simpl in Hb. lia.
    + eapply Forall_impl; [apply Hr|]. intros x Hx. cbn. by rewrite Hv.
  - unfold same_rest. cbn [sched cpu]. subst s'. by destruct (next t =? 0).
Qed.

(** Updating a thread outside the queue, or nothing the queue depends on. *)
Lemma queue_upd m q p t f : queue_ok m q → p ∉ q → threads m !! p = Some t →
  queue_ok (Machine (<[p := f t]> (threads m)) (sched m) (stacks m) (cpu m)) q.
Proof.
  intros [Hl Ht Hnd Hc Hb Hr] Hp Htp. split; try done; cbn [threads sched].
  - eapply linked_frame; [|exact Hl]. intros x Hx. rewrite lookup_insert_ne; [done|]. by intros ->.
  - rewrite Forall_forall in *. intros x Hx. rewrite view_insert.
    rewrite decide_False by (by intros ->). by apply Hr.
Qed.

Lemma queue_sched m q f c :
  ready_head (f (sched m)) = ready_head (sched m) →
  ready_tail (f (sched m)) = ready_tail (sched m) →
  runnable_count (f (sched m)) = runnable_count (sched m) →
  queue_ok m q → queue_ok (Machine (threads m) (f (sched m)) (stacks m) c) q.
Proof.
  intros H1 H2 H3 [Hl Ht Hnd Hc Hb Hr]. split; try done; cbn [threads sched]; congruence.
Qed.

(** ** The scheduler's invariant *)

(** The state of the running thread, the idle thread and the queue; [cs] is
    [RUNNING], or [BLOCKED] while [block_current] is about to yield. *)
Record sched_ok (cs : mcsos_thread_state) (m : machine) (q : list Z) : Prop := {
  so_init : initialized (sched m) ≠ 0;
  so_queue : queue_ok m q;
  so_current : current (sched m) ≠ 0 ∧
    ∃ c, view (threads m) (current (sched m)) = Some (cs, c, MCSOS_THREAD_MAGIC);
  so_idle : idle (sched m) ≠ 0 ∧
    ∃ c, view (threads m) (idle (sched m)) =
      Some (MCSOS_THREAD_RUNNING, c, MCSOS_THREAD_MAGIC);
  so_ready : ∀ p s c g, view (threads m) p = Some (s, c, g) → s = MCSOS_THREAD_READY → p ∈ q;
}.

Lemma in_queue_ready m q p s c g : queue_ok m q → p ∈ q →
  view (threads m) p = Some (s, c, g) → s = MCSOS_THREAD_READY ∧ g = MCSOS_THREAD_MAGIC.
Proof.
  intros Hq Hp Hv. pose proof (qo_ready _ _ Hq) as Hr. rewrite Forall_forall in Hr.
  destruct (Hr p Hp) as [c' Hv']. rewrite Hv in Hv'. by injection Hv'.
Qed.

Lemma current_not_queued cs m q : sched_ok cs m q → cs ≠ MCSOS_THREAD_READY →
  current (sched m) ∉ q.
Proof.
  intros Hok Hcs Hin. destruct (so_current _ _ _ Hok) as [_ [c Hc]].
  by destruct (in_queue_ready _ _ _ _ _ _ (so_queue _ _ _ Hok) Hin Hc).
Qed.

Lemma idle_not_queued cs m q : sched_ok cs m q → idle (sched m) ∉ q.
Proof.
  intros Hok Hin. destruct (so_idle _ _ _ Hok) as [_ [c Hc]].
  by destruct (in_queue_ready _ _ _ _ _ _ (so_queue _ _ _ Hok) Hin Hc).
Qed.

(** Updates of a queued thread that keep its link, state and magic. *)
Lemma queue_keep m q p t f : queue_ok m q → threads m !! p = Some t →
  next (f t) = next t → state (f t) = state t → magic (f t) = magic t →
  queue_ok (Machine (<[p := f t]> (threads m)) (sched m) (stacks m) (cpu m)) q.
Proof.
  intros [Hl Ht Hnd Hc Hb Hr] Htp Hn Hs Hg. split; try done; cbn [threads sched].
  - eapply linked_frame; [|exact Hl]. intros x Hx.
    destruct (decide (x = p)) as [->|]; [|by rewrite lookup_insert_ne].
    rewrite lookup_insert_eq, Htp. simpl. by rewrite Hn.
  - rewrite Forall_forall in *. intros x Hx. rewrite view_insert. case_decide as E; [|by apply Hr].
    subst x. destruct (Hr p Hx) as [c Hv]. unfold view in Hv. rewrite Htp in Hv.
    injection Hv as Hs' Hc' Hg'. exists (context (f t)). by rewrite Hs, Hg, Hs', Hg'.
Qed.

Section Switch.
Context (resume : Z).

(** The registers the switch stores. *)
Definition saved_cpu (c : mcsos_context) : mcsos_context :=
  MContext (rsp c) (rbp c) (rbx c) (r12 c) (r13 c) (r14 c) (r15 c) resume.

(** The tail of [mcsos_sched_yield]: [n] becomes the running thread. *)
Definition switch_to (cur n : Z) : M machine unit :=
  upd_thread n (set_state MCSOS_THREAD_RUNNING) ;;;
  upd_sched (set_current n) ;;;
  upd_thread cur inc_switches ;;;
  upd_thread n inc_switches ;;;
  upd_sched inc_context_switches ;;;
  mcsos_context_switch resume cur n.

Lemma switch_to_run m q cur n sc cc gc sn cn gn :
  queue_ok m q → n ∉ q → n ≠ cur →
  view (threads m) cur = Some (sc, cc, gc) → view (threads m) n = Some (sn, cn, gn) →
  ∃ m', switch_to cur n m = Some (m', inr tt) ∧ queue_ok m' q ∧
    current (sched m') = n ∧ idle (sched m') = idle (sched m) ∧
    initialized (sched m') = initialized (sched m) ∧
    context_switches (sched m') = u64 (context_switches (sched m) + 1) ∧
    cpu m' = cn ∧
    ∀ x, view (threads m') x =
      if decide (x = n) then Some (MCSOS_THREAD_RUNNING, cn, gn) else
      if decide (x = cur) then Some (sc, saved_cpu (cpu m), gc) else view (threads m) x.
Proof.
  intros Hq Hn Hne Hvc Hvn.
  destruct (view_Some _ _ _ _ _ Hvc) as (tc & Htc & <- & <- & <-).
  destruct (view_Some _ _ _ _ _ Hvn) as (tn & Htn & <- & <- & <-).
  pose proof (queue_upd m q n tn (set_state MCSOS_THREAD_RUNNING) Hq Hn Htn) as Hq1.
  apply (queue_sched _ _ (set_current n) (cpu m)) in Hq1; try done.
  eapply (queue_keep _ _ cur tc inc_switches) in Hq1; try done.
  2:{ cbn [threads]. by rewrite lookup_insert_ne. }
  eapply (queue_upd _ _ n (set_state MCSOS_THREAD_RUNNING tn) inc_switches) in Hq1; [|done|].
  2:{ cbn [threads]. rewrite lookup_insert_ne by done. apply lookup_insert_eq. }
  apply (queue_sched _ _ inc_context_switches (cpu m)) in Hq1; try done.
  eapply (queue_keep _ _ cur (inc_switches tc) (set_context (saved_cpu (cpu m)))) in Hq1; try done.
  2:{ cbn [threads]. rewrite lookup_insert_ne by done. apply lookup_insert_eq. }
  cbn [threads sched stacks cpu] in Hq1.
  unfold switch_to. erewrite mseq_inr by (by apply upd_thread_run).
  erewrite mseq_inr by reflexivity. cbn [threads sched stacks cpu].
  erewrite mseq_inr by (apply upd_thread_run; cbn [threads]; rewrite lookup_insert_ne by done;
    exact Htc).
  erewrite mseq_inr by (apply upd_thread_run; cbn [threads]; rewrite lookup_insert_ne by done;
    apply lookup_insert_eq).
  erewrite mseq_inr by reflexivity. cbn [threads sched stacks cpu].
  unfold mcsos_context_switch. erewrite upd_thread_run.
  2:{ cbn [threads]. rewrite lookup_insert_ne by done. apply lookup_insert_eq. }
  cbn [threads sched stacks cpu]. rewrite lookup_insert_ne, lookup_insert_eq by done.
  eexists. split; [reflexivity|].
  split; [apply (queue_sched _ _ (λ s, s) (context tn)) in Hq1; [exact Hq1|done..]|].
  repeat (split; [done|]). intros x. cbn [threads]. rewrite !view_insert.
  repeat case_decide; simplify_eq; done.
Qed.
End Switch.

(** ** What a yield does *)

Section Yield.
Context (resume : Z).

(** The thread that runs next, and the queue afterwards. *)
Definition next_thread (m : machine) (q : list Z) : Z :=
  match q with [] => idle (sched m) | n :: _ => n end.
Definition requeued (cs : mcsos_thread_state) (m : machine) : list Z :=
  if decide (cs = MCSOS_THREAD_RUNNING ∧ current (sched m) ≠ idle (sched m))
  then [current (sched m)] else [].
Definition yield_queue (cs : mcsos_thread_state) (m : machine) (q : list Z) : list Z :=
  tail q ++ requeued cs m.

Lemma pick_next_run cs m q : sched_ok cs m q →
  ∃ m', mcsos_sched_pick_next (Ref tt) m = Some (m', inr (next_thread m q)) ∧
    queue_ok m' (tail q) ∧ same_rest m m' ∧ (∀ x, view (threads m') x = view (threads m) x) ∧
    (q = [] → m' = m) ∧ (next_thread m q ∉ tail q) ∧ next_thread m q ≠ 0 ∧
    ∃ s c, view (threads m) (next_thread m q) = Some (s, c, MCSOS_THREAD_MAGIC).
Proof.
  intros Hok. pose proof (so_queue _ _ _ Hok) as Hq. destruct q as [|p q].
  - exists m. rewrite pick_empty by (done || apply Hok). split; [done|].
    destruct (so_idle _ _ _ Hok) as [Hi [c Hc]].
    repeat (split; [done|]). split; [apply not_elem_of_nil|]. split; [done|]. by eexists _, _.
  - destruct (pick_run m p q Hq) as (m' & H1 & H2 & H3 & H4); [apply Hok|].
    exists m'. split; [done|]. split; [done|]. split; [done|]. split; [done|]. split; [done|].
    pose proof (qo_nodup _ _ Hq) as [Hpq _]%NoDup_cons.
    pose proof (qo_linked _ _ Hq) as (_ & Hp & _).
    pose proof (qo_ready _ _ Hq) as [[c Hc] _]%Forall_cons.
    split; [done|]. split; [done|]. by eexists _, _.
Qed.

Lemma requeue_run cs m q : sched_ok cs m q → cs ≠ MCSOS_THREAD_READY →
  ∀ m1, queue_ok m1 (tail q) → same_rest m m1 →
  (∀ x, view (threads m1) x = view (threads m) x) → zlen q + 1 < 2 ^ 62 →
  ∃ m2, (t <- get_thread (current (sched m)) ;; i <- get_sched idle ;;
     (if bool_decide (state t = MCSOS_THREAD_RUNNING) && negb (current (sched m) =? i) then
       upd_thread (current (sched m)) (set_state MCSOS_THREAD_READY) ;;;
       mcsos_sched_enqueue (Ref tt) (current (sched m))
     else mok tt)) m1 = Some (m2, inr tt) ∧
    queue_ok m2 (yield_queue cs m q) ∧ same_rest m m2 ∧
    ∃ c, view (threads m) (current (sched m)) = Some (cs, c, MCSOS_THREAD_MAGIC) ∧
    ∀ x, view (threads m2) x = if decide (x = current (sched m)) then
       Some (if decide (requeued cs m = []) then cs else MCSOS_THREAD_READY, c, MCSOS_THREAD_MAGIC)
     else view (threads m) x.
Proof.
  intros Hok Hcs m1 Hq1 Hr1 Hv1 Hlen. set (cur := current (sched m)).
  destruct (so_current _ _ _ Hok) as [Hc0 [c Hc]]. fold cur in Hc0, Hc.
  pose proof (current_not_queued _ _ _ Hok Hcs) as Hnq. fold cur in Hnq.
  assert (cur ∉ tail q) as Hnt by (destruct q; [done|by intros ?; apply Hnq; right]).
  rewrite <-Hv1 in Hc. destruct (view_Some _ _ _ _ _ Hc) as (t & Ht & Hst & Hct & Hgt).
  rewrite Hv1 in Hc. erewrite mseq_inr by (by apply get_thread_run).
  unfold get_sched. rewrite mseq_mget. destruct (Hr1) as (H1 & H2 & H3 & H4 & H5).
  rewrite H2, Hst. unfold yield_queue, requeued. fold cur.
  case_bool_decide as Hrun; cbn [andb].
  2:{ rewrite !(decide_False (P := _ ∧ _)) by tauto. rewrite app_nil_r.
      exists m1. split; [done|]. split; [done|]. split; [done|]. exists c. split; [done|].
      intros x. rewrite (decide_True (P := [] = [])) by done. rewrite Hv1. case_decide as E; [by rewrite E|done]. }
  destruct (Z.eqb_spec cur (idle (sched m))) as [Hi|Hi]; cbn [negb].
  { rewrite !(decide_False (P := _ ∧ _)) by tauto. rewrite app_nil_r.
    exists m1. split; [done|]. split; [done|]. split; [done|]. exists c. split; [done|].
    intros x. rewrite (decide_True (P := [] = [])) by done. rewrite Hv1. case_decide as E; [by rewrite E|done]. }
  rewrite !(decide_True (P := _ ∧ _)) by done. rewrite (decide_False (P := [cur] = [])) by done.
  erewrite mseq_inr by (by apply upd_thread_run).
  pose proof (queue_upd m1 (tail q) cur t (set_state MCSOS_THREAD_READY) Hq1 Hnt Ht) as Hq2.
  destruct (enqueue_run _ (tail q) cur MCSOS_THREAD_READY c Hq2) as (m2 & E1 & E2 & E3 & E4);
    try done.
  - cbn [sched]. rewrite H3. apply Hok.
  - assert (zlen (tail q) ≤ zlen q) by (destruct q; unfold zlen; simpl; lia). lia.
  - cbn [threads]. rewrite view_insert, decide_True by done. simpl. by rewrite Hct, Hgt.
  - tauto.
  - exists m2. split; [done|]. split; [done|]. split.
    + destruct E3 as (F1 & F2 & F3 & F4 & F5). cbn [sched cpu] in *.
      unfold same_rest. by rewrite F1, F2, F3, F4, F5.
    + exists c. split; [done|]. intros x. rewrite E4. case_decide as E; [done|].
      cbn [threads]. rewrite view_insert, decide_False by done. apply Hv1.
Qed.

(** What a yield leaves: who runs, with which registers, and everybody's state. *)
Record yielded (cs : mcsos_thread_state) (m m' : machine) (q : list Z) : Prop := {
  yi_current : current (sched m') = next_thread m q;
  yi_idle : idle (sched m') = idle (sched m);
  yi_switches : context_switches (sched m') = u64 (context_switches (sched m) + 1);
  yi_cpu : ∃ s, view (threads m) (next_thread m q) = Some (s, cpu m', MCSOS_THREAD_MAGIC);
  yi_old : view (threads m') (current (sched m)) =
    Some (if decide (requeued cs m = []) then cs else MCSOS_THREAD_READY,
          saved_cpu resume (cpu m), MCSOS_THREAD_MAGIC);
  yi_new : view (threads m') (next_thread m q) =
    Some (MCSOS_THREAD_RUNNING, cpu m', MCSOS_THREAD_MAGIC);
  yi_others : ∀ x, x ≠ current (sched m) → x ≠ next_thread m q →
    view (threads m') x = view (threads m) x;
}.

(** Who is ready when the running thread has become [cs] or ready again and
    thread [n] runs, and that the idle thread is in place. *)
Lemma yield_views cs m q c c' cn T : sched_ok cs m q →
  view (threads m) (current (sched m)) = Some (cs, c, MCSOS_THREAD_MAGIC) → cs ≠ MCSOS_THREAD_READY →
  (∀ x, view T x =
    if decide (x = next_thread m q) then Some (MCSOS_THREAD_RUNNING, cn, MCSOS_THREAD_MAGIC)
    else if decide (x = current (sched m)) then
      Some (if decide (requeued cs m = []) then cs else MCSOS_THREAD_READY, c', MCSOS_THREAD_MAGIC)
    else view (threads m) x) →
  (∃ ci, view T (idle (sched m)) = Some (MCSOS_THREAD_RUNNING, ci, MCSOS_THREAD_MAGIC)) ∧
  (∀ x s cx g, view T x = Some (s, cx, g) → s = MCSOS_THREAD_READY → x ∈ yield_queue cs m q).
Proof.
  intros Hok Hc Hcs HT. split.
  - rewrite HT. destruct (so_idle _ _ _ Hok) as [Hi [ci Hci]].
    destruct (decide (idle (sched m) = next_thread m q)); [by eexists|].
    destruct (decide (idle (sched m) = current (sched m))) as [Hic|Hic]; [|by eexists].
    assert (cs = MCSOS_THREAD_RUNNING) as -> by (rewrite Hic, Hc in Hci; congruence).
    unfold requeued. rewrite (decide_False (P := _ ∧ _)) by (intros [_ ?]; congruence). by eexists.
  - intros x sx cx gx Hx Hsx. rewrite HT in Hx. unfold yield_queue. rewrite elem_of_app.
    destruct (decide (x = next_thread m q)) as [|Hxn]; [by simplify_eq|].
    destruct (decide (x = current (sched m))) as [->|].
    + injection Hx as Hs _ _. right. unfold requeued in *.
      destruct (decide (cs = _ ∧ _)); [by apply list_elem_of_singleton|]. simpl in Hs. congruence.
    + left. pose proof (so_ready _ _ _ Hok x sx cx gx Hx Hsx) as Hin.
      destruct q as [|n' q']; [done|]. by apply elem_of_cons in Hin as [->|?].
Qed.

Lemma yield_switch cs m q : sched_ok cs m q → cs ≠ MCSOS_THREAD_READY →
  zlen q + 1 < 2 ^ 62 → next_thread m q ≠ current (sched m) →
  ∃ m', mcsos_sched_yield resume (Ref tt) m = Some (m', inr tt) ∧
    sched_ok MCSOS_THREAD_RUNNING m' (yield_queue cs m q) ∧ yielded cs m m' q.
Proof.
  intros Hok Hcs Hlen Hne. set (n := next_thread m q) in *. set (cur := current (sched m)) in *.
  destruct (so_current _ _ _ Hok) as [Hc0 [c0 Hc]]. fold cur in Hc0, Hc.
  destruct (view_Some _ _ _ _ _ Hc) as (t & Ht & _ & _ & Hgt).
  destruct (pick_next_run cs m q Hok) as (m1 & P1 & P2 & P3 & P4 & _ & P6 & P7 & sn & cn & P8).
  fold n in P1, P6, P7, P8.
  destruct (requeue_run cs m q Hok Hcs m1 P2 P3 P4 Hlen) as (m2 & R1 & R2 & R3 & c & R4 & R5).
  fold cur in R1, R4, R5. rewrite Hc in R4. injection R4 as ->.
  assert (n ∉ yield_queue cs m q) as Hnq.
  { unfold yield_queue, requeued. fold cur. rewrite elem_of_app. intros [H|H]; [done|].
    case_decide; [|by apply elem_of_nil in H]. by apply list_elem_of_singleton in H. }
  assert (view (threads m2) cur =
    Some (if decide (requeued cs m = []) then cs else MCSOS_THREAD_READY, c, MCSOS_THREAD_MAGIC))
    as V2c by (by rewrite R5, decide_True).
  assert (view (threads m2) n = Some (sn, cn, MCSOS_THREAD_MAGIC)) as V2n
    by (by rewrite R5, decide_False).
  destruct R3 as (S1 & S2 & S3 & S4 & S5).
  destruct (switch_to_run resume m2 _ cur n _ _ _ _ _ _ R2 Hnq Hne V2c V2n)
    as (m' & W1 & W2 & W3 & W4 & W5 & W6 & W7 & W8).
  destruct (yield_views cs m q c (saved_cpu resume (cpu m2)) cn (threads m') Hok Hc Hcs) as [Hidle Hready].
  { intros x. rewrite W8, R5. fold n cur. by repeat case_decide. }
  exists m'. split; [|split].
  - unfold mcsos_sched_yield.
    erewrite mseq_inr by (eapply (bad_call_run m cur t); [apply Hok|reflexivity|done..]).
    cbn [negb]. unfold get_sched at 1. rewrite mseq_mget. fold cur.
    erewrite mseq_inr by exact P1. rewrite <-P4 in P8.
    destruct (view_Some _ _ _ _ _ P8) as (tn & Htn & _ & _ & Hgn).
    erewrite mseq_inr by (by apply valid_run). rewrite Hgn, Z.eqb_refl.
    rewrite (proj2 (Z.eqb_neq n cur)) by done.
    rewrite (mseq_assoc2 (get_thread cur) (λ _, get_sched idle)).
    erewrite mseq_inr by exact R1. exact W1.
  - split; [by rewrite W5, S3; apply Hok|done|..].
    + rewrite W3. split; [done|]. exists cn. by rewrite W8, decide_True.
    + rewrite W4, S2. split; [apply Hok|exact Hidle].
    + exact Hready.
  - split; rewrite ?W3, ?W4, ?W6, ?S2, ?S4, ?W7; try done.
    + by exists sn.
    + fold cur. by rewrite W8, decide_False, decide_True, S5 by done.
    + fold n. by rewrite W8, decide_True.
    + fold cur n. intros x Hx1 Hx2. by rewrite W8, R5, !decide_False.
Qed.
End Yield.

Section Ops.
Context (boot_name trampoline resume : Z).

Lemma sched_keep cs m m' q : sched_ok cs m q → queue_ok m' q →
  current (sched m') = current (sched m) → idle (sched m') = idle (sched m) →
  initialized (sched m') = initialized (sched m) →
  (∀ x, view (threads m') x = view (threads m) x) → sched_ok cs m' q.
Proof.
  intros [H1 H2 H3 H4 H5] Hq Hc Hi Hn Hv. split; rewrite ?Hc, ?Hi, ?Hn; try done.
  - split; [apply H3|]. rewrite Hv. apply H3.
  - split; [apply H4|]. rewrite Hv. apply H4.
  - intros p s c g Hp. rewrite Hv in Hp. by eapply H5.
Qed.

Lemma next_is_current cs m q : sched_ok cs m q → cs ≠ MCSOS_THREAD_READY →
  next_thread m q = current (sched m) →
  q = [] ∧ current (sched m) = idle (sched m) ∧ cs = MCSOS_THREAD_RUNNING.
Proof.
  intros Hok Hcs Hn. pose proof (current_not_queued _ _ _ Hok Hcs) as Hnq.
  destruct q as [|x q]; [|exfalso; apply Hnq; rewrite <-Hn; by left].
  simpl in Hn. split; [done|]. split; [done|].
  destruct (so_current _ _ _ Hok) as [_ [c Hc]]. destruct (so_idle _ _ _ Hok) as [_ [d Hd]].
  rewrite Hn, Hc in Hd. congruence.
Qed.

Lemma yield_alone m : sched_ok MCSOS_THREAD_RUNNING m [] →
  current (sched m) = idle (sched m) →
  ∃ m', mcsos_sched_yield resume (Ref tt) m = Some (m', inr tt) ∧
    sched_ok MCSOS_THREAD_RUNNING m' [] ∧ sched m' = sched m ∧ cpu m' = cpu m ∧
    ∀ x, view (threads m') x = view (threads m) x.
Proof.
  intros Hok Hci. destruct (so_current _ _ _ Hok) as [Hc0 [c Hc]].
  destruct (view_Some _ _ _ _ _ Hc) as (t & Ht & Hst & Hct & Hgt).
  pose proof (so_queue _ _ _ Hok) as Hq.
  assert (∀ x, view (<[current (sched m) := set_state MCSOS_THREAD_RUNNING t]> (threads m)) x =
    view (threads m) x) as Hv.
  { intros x. rewrite view_insert. case_decide as E; [|done]. subst x. rewrite Hc. simpl.
    by rewrite Hct, Hgt. }
  eexists. split.
  - unfold mcsos_sched_yield.
    erewrite mseq_inr by (eapply bad_call_run; [apply Hok|reflexivity|done..]).
    cbn [negb]. unfold get_sched at 1. rewrite mseq_mget.
    erewrite mseq_inr by (apply pick_empty; [done|apply Hok]). rewrite <-Hci.
    erewrite mseq_inr by (by apply valid_run). rewrite Hgt, !Z.eqb_refl.
    by apply upd_thread_run.
  - split; [|done]. eapply sched_keep; try done.
    eapply (queue_upd m [] _ t (set_state MCSOS_THREAD_RUNNING)); try done. apply not_elem_of_nil.
Qed.

Lemma yield_queue_bound cs m q : zlen (yield_queue cs m q) ≤ Z.max 1 (zlen q).
Proof.
  unfold yield_queue, zlen, requeued. rewrite length_app.
  destruct q as [|x q]; destruct (decide _); simpl; lia.
Qed.

(** ** Runs of yields *)

Fixpoint yields (k : nat) (m : machine) : option machine :=
  match k with
  | O => Some m
  | S k' =>
      match mcsos_sched_yield resume (Ref tt) m with
      | Some (m', inr _) => yields k' m'
      | _ => None
      end
  end.

Lemma yields_reach i m q t s c :
  sched_ok MCSOS_THREAD_RUNNING m q → zlen q + 1 < 2 ^ 62 → q !! i = Some t →
  view (threads m) t = Some (s, c, MCSOS_THREAD_MAGIC) →
  ∃ m' q', yields (S i) m = Some m' ∧ sched_ok MCSOS_THREAD_RUNNING m' q' ∧
    current (sched m') = t ∧ cpu m' = c.
Proof.
  revert m q. induction i as [|i IH]; intros m q Hok Hlen Hi Hv.
  all: assert (next_thread m q ≠ current (sched m)) as Hne
    by (intros Hn; apply (next_is_current _ _ _ Hok) in Hn as [-> _]; done).
  all: destruct (yield_switch resume _ m q Hok ltac:(done) Hlen Hne) as (m1 & H1 & Hok1 & Y).
  - exists m1, (yield_queue MCSOS_THREAD_RUNNING m q). cbn [yields]. rewrite H1.
    destruct q as [|x q]; [done|]. simpl in Hi. injection Hi as ->.
    destruct Y as [Yc _ _ (sx & Yp) _ _ _]. simpl in *. rewrite Hv in Yp.
    split; [done|]. split; [done|]. split; [done|]. congruence.
  - cbn [yields]. rewrite H1. destruct q as [|x q]; [done|]. simpl in Hi.
    apply (IH m1 (yield_queue MCSOS_THREAD_RUNNING m (x :: q))); [done| | |].
    + pose proof (yield_queue_bound MCSOS_THREAD_RUNNING m (x :: q)). lia.
    + unfold yield_queue. simpl. by apply lookup_app_l_Some.
    + rewrite (yi_others _ _ _ _ _ Y); [done| |].
      * intros ->. eapply (current_not_queued _ _ _ Hok); [done|]. right.
        by eapply list_elem_of_lookup_2.
      * simpl. intros ->. pose proof (qo_nodup _ _ (so_queue _ _ _ Hok)) as Hnd.
        apply NoDup_cons in Hnd as [Hx _]. apply Hx. by eapply list_elem_of_lookup_2.
Qed.

(** ** Preservation by every operation *)

Lemma queue_size m q : queue_ok m q → zlen q ≤ Z.of_nat (size (threads m)).
Proof.
  intros [_ _ Hnd _ _ Hr]. unfold zlen. apply inj_le.
  rewrite <-(size_list_to_set (C := gset Z) q) by done.
  rewrite <-(size_dom (D := gset Z)). apply subseteq_size. intros p Hp.
  apply elem_of_list_to_set in Hp. rewrite Forall_forall in Hr. destruct (Hr p Hp) as [c Hv].
  apply elem_of_dom. unfold view in Hv. destruct (threads m !! p); [by eexists|done].
Qed.

Lemma enqueue_ok cs m q p s c : sched_ok cs m q → cs ≠ MCSOS_THREAD_READY → p ≠ 0 →
  p ≠ current (sched m) → zlen q + 1 < 2 ^ 62 →
  view (threads m) p = Some (s, c, MCSOS_THREAD_MAGIC) →
  s = MCSOS_THREAD_NEW ∨ s = MCSOS_THREAD_BLOCKED →
  ∃ m', mcsos_sched_enqueue (Ref tt) p m = Some (m', inr tt) ∧ sched_ok cs m' (q ++ [p]) ∧
    same_rest m m' ∧
    ∀ x, view (threads m') x = if decide (x = p) then
      Some (MCSOS_THREAD_READY, c, MCSOS_THREAD_MAGIC) else view (threads m) x.
Proof.
  intros Hok Hcs Hp Hpc Hlen Hv Hs.
  assert (p ∉ q) as Hpq.
  { intros Hin. destruct (in_queue_ready _ _ _ _ _ _ (so_queue _ _ _ Hok) Hin Hv) as [-> _].
    by destruct Hs. }
  destruct (enqueue_run m q p s c (so_queue _ _ _ Hok) (so_init _ _ _ Hok) Hp Hpq Hlen Hv)
    as (m' & H1 & H2 & H3 & H4); [tauto|].
  exists m'. split; [done|]. split; [|done]. destruct (H3) as (E1 & E2 & E3 & E4 & E5).
  assert (p ≠ idle (sched m)) as Hpi.
  { intros ->. destruct (so_idle _ _ _ Hok) as [_ [d Hd]]. rewrite Hd in Hv.
    injection Hv as <- _. by destruct Hs. }
  split; rewrite ?E1, ?E2, ?E3; try done.
  - apply Hok.
  - split; [apply Hok|]. rewrite H4, decide_False by done. apply Hok.
  - split; [apply Hok|]. rewrite H4, decide_False by done. apply Hok.
  - intros x sx cx gx Hx Hsx. rewrite H4 in Hx. apply elem_of_app.
    case_decide as E; [right; subst; by apply list_elem_of_singleton|].
    left. by eapply (so_ready _ _ _ Hok).
Qed.

(** An object that may be given to [mcsos_thread_prepare]: not the running or
    the idle thread, not one waiting in the queue. *)
Definition not_in_use (m : machine) (p : Z) : Prop :=
  p ≠ current (sched m) ∧ p ≠ idle (sched m) ∧
  ∀ c g, view (threads m) p ≠ Some (MCSOS_THREAD_READY, c, g).

(** A call of the scheduler's interface; [mcsos_sched_enqueue] is called on
    threads that are not already ready. *)
Inductive api_step (m : machine) : machine → Prop :=
| AS_prepare p nm e a sb ss i m' r : not_in_use m p →
    mcsos_thread_prepare trampoline p nm e a sb ss i m = Some (m', r) → api_step m m'
| AS_enqueue p m' r : (∀ c g, view (threads m) p ≠ Some (MCSOS_THREAD_READY, c, g)) →
    mcsos_sched_enqueue (Ref tt) p m = Some (m', r) → api_step m m'
| AS_yield m' r : mcsos_sched_yield resume (Ref tt) m = Some (m', r) → api_step m m'
| AS_tick m' r : mcsos_sched_tick (Ref tt) m = Some (m', r) → api_step m m'
| AS_block m' r : mcsos_thread_block_current resume (Ref tt) m = Some (m', r) → api_step m m'
| AS_ready p m' r : mcsos_thread_mark_ready (Ref tt) p m = Some (m', r) → api_step m m'.

(** Machines reached from an initialised scheduler; there are fewer than
    [2^60] thread objects. *)
Inductive reachable : machine → Prop :=
| R_init boot m m' :
    boot ≠ 0 → (∀ p c g, view (threads m) p ≠ Some (MCSOS_THREAD_READY, c, g)) →
    mcsos_scheduler_init boot_name (Ref tt) boot m = Some (m', inr tt) → reachable m'
| R_step m m' : reachable m → Z.of_nat (size (threads m)) < 2 ^ 60 → api_step m m' → reachable m'.

Lemma init_ok boot m : boot ≠ 0 →
  (∀ p c g, view (threads m) p ≠ Some (MCSOS_THREAD_READY, c, g)) →
  ∃ m', mcsos_scheduler_init boot_name (Ref tt) boot m = Some (m', inr tt) ∧
    sched_ok MCSOS_THREAD_RUNNING m' [].
Proof.
  intros Hb Hn. unfold mcsos_scheduler_init. rewrite (proj2 (Z.eqb_neq boot 0)) by done.
  eexists. split; [reflexivity|]. cbn [threads sched stacks cpu].
  split; cbn [threads sched initialized current idle]; try done.
  - split; try done. constructor.
  - split; [done|]. rewrite view_insert, decide_True by done. by eexists.
  - split; [done|]. rewrite view_insert, decide_True by done. by eexists.
  - intros p s c g Hp ->. rewrite view_insert in Hp. case_decide; [done|]. by apply Hn in Hp.
Qed.

Lemma prepare_ok p nm e a sb ss i m m' r q :
  sched_ok MCSOS_THREAD_RUNNING m q → not_in_use m p →
  mcsos_thread_prepare trampoline p nm e a sb ss i m = Some (m', r) →
  sched_ok MCSOS_THREAD_RUNNING m' q.
Proof.
  intros Hok (Hc & Hi & Hn) H. unfold mcsos_thread_prepare in H.
  repeat (case_match; [|unfold merr in H; by injection H as <- _]).
  unfold mseq, put_stack, put_thread in H. cbn [threads sched stacks cpu] in H.
  injection H as <- _.
  assert (p ∉ q) as Hpq.
  { intros Hin. pose proof (qo_ready _ _ (so_queue _ _ _ Hok)) as Hr.
    rewrite Forall_forall in Hr. destruct (Hr p Hin) as [c Hv]. by apply Hn in Hv. }
  destruct Hok as [A1 A2 A3 A4 A5]. split; cbn [threads sched]; try done.
  - destruct A2 as [Q1 Q2 Q3 Q4 Q5 Q6]. split; try done; cbn [threads sched].
    + eapply linked_frame; [|exact Q1]. intros x Hx. rewrite lookup_insert_ne; [done|]. by intros ->.
    + rewrite Forall_forall in *. intros x Hx. rewrite view_insert, decide_False by (by intros ->).
      by apply Q6.
  - split; [apply A3|]. rewrite view_insert, decide_False by done. apply A3.
  - split; [apply A4|]. rewrite view_insert, decide_False by done. apply A4.
  - intros x s c g Hx Hs. rewrite view_insert in Hx. case_decide; [by simplify_eq|]. by eapply A5.
Qed.

Lemma enqueue_step_ok p m m' r q :
  sched_ok MCSOS_THREAD_RUNNING m q → zlen q + 1 < 2 ^ 62 →
  (∀ c g, view (threads m) p ≠ Some (MCSOS_THREAD_READY, c, g)) →
  mcsos_sched_enqueue (Ref tt) p m = Some (m', r) →
  ∃ q', sched_ok MCSOS_THREAD_RUNNING m' q'.
Proof.
  intros Hok Hlen Hn H.
  destruct (decide (p = 0)) as [->|Hp].
  { unfold mcsos_sched_enqueue, bad_call, get_sched, mseq, mget in H.
    rewrite (proj2 (Z.eqb_neq _ 0)) in H by apply Hok. cbn in H. injection H as <- _. eauto. }
  destruct (threads m !! p) as [t|] eqn:Ht.
  2:{ unfold mcsos_sched_enqueue, bad_call, get_sched, mseq, mget in H.
      rewrite (proj2 (Z.eqb_neq _ 0)) in H by apply Hok. cbn [is_null orb] in H.
      unfold valid_thread_object in H. rewrite (proj2 (Z.eqb_neq p 0)) in H by done.
      unfold mseq, get_thread in H. by rewrite Ht in H. }
  destruct (decide (magic t = MCSOS_THREAD_MAGIC)) as [Hg|Hg].
  2:{ unfold mcsos_sched_enqueue, bad_call, get_sched in H.
      unfold mseq at 1 2 3, mget in H. rewrite (proj2 (Z.eqb_neq _ 0)) in H by apply Hok.
      cbn [is_null orb] in H. erewrite mseq_inr in H by (by apply valid_run).
      rewrite (proj2 (Z.eqb_neq _ _)) in H by done. cbn in H. injection H as <- _. eauto. }
  assert (view (threads m) p = Some (state t, context t, MCSOS_THREAD_MAGIC)) as Hv
    by (unfold view; by rewrite Ht, <-Hg).
  destruct (decide (state t = MCSOS_THREAD_NEW ∨ state t = MCSOS_THREAD_BLOCKED)) as [Hs|Hs].
  - destruct (enqueue_ok MCSOS_THREAD_RUNNING m q p (state t) (context t)) as (m2 & E & Hok2 & _);
      try done.
    + intros ->. destruct (so_current _ _ _ Hok) as [_ [c Hc]]. rewrite Hv in Hc.
      injection Hc as Hst _. rewrite Hst in Hs. by destruct Hs.
    + rewrite E in H. injection H as <- _. eauto.
  - unfold mcsos_sched_enqueue in H.
    erewrite mseq_inr in H by (eapply (bad_call_run m p t); [apply Hok|reflexivity|done..]).
    cbn [negb] in H. erewrite mseq_inr in H by (by apply get_thread_run).
    rewrite !bool_decide_false in H.
    + cbn in H. injection H as <- _. eauto.
    + tauto.
    + intros Hst. rewrite Hst in Hv. by apply Hn in Hv.
    + tauto.
Qed.

Lemma yield_ok m q : sched_ok MCSOS_THREAD_RUNNING m q → zlen q + 1 < 2 ^ 62 →
  ∃ m', mcsos_sched_yield resume (Ref tt) m = Some (m', inr tt) ∧
    ∃ q', sched_ok MCSOS_THREAD_RUNNING m' q'.
Proof.
  intros Hok Hlen. destruct (decide (next_thread m q = current (sched m))) as [Hn|Hn].
  - destruct (next_is_current _ _ _ Hok ltac:(done) Hn) as (-> & Hi & _).
    destruct (yield_alone m Hok Hi) as (m' & H & Hok' & _). eauto.
  - destruct (yield_switch resume _ m q Hok ltac:(done) Hlen Hn) as (m' & H & Hok' & _). eauto.
Qed.

Lemma tick_ok m q : sched_ok MCSOS_THREAD_RUNNING m q →
  ∃ m', mcsos_sched_tick (Ref tt) m = Some (m', inr tt) ∧ sched_ok MCSOS_THREAD_RUNNING m' q.
Proof.
  intros Hok. destruct (so_current _ _ _ Hok) as [Hc0 [c Hc]].
  destruct (view_Some _ _ _ _ _ Hc) as (t & Ht & Hst & Hct & Hgt).
  eexists. split.
  - unfold mcsos_sched_tick.
    erewrite mseq_inr by (eapply bad_call_run; [apply Hok|reflexivity|done..]).
    cbn [negb]. erewrite mseq_inr by reflexivity. unfold get_sched. rewrite mseq_mget.
    apply upd_thread_run. exact Ht.
  - cbn [threads sched stacks cpu]. eapply sched_keep; try done.
    + pose proof (queue_keep m q _ t inc_ticks (so_queue _ _ _ Hok) Ht eq_refl eq_refl eq_refl) as Hk.
      apply (queue_sched _ _ inc_sched_ticks (cpu m)) in Hk; [exact Hk|done..].
    + intros x. cbn [threads]. rewrite view_insert. case_decide as E; [|done].
      subst x. cbn. by rewrite Hc, <-Hst, <-Hct, <-Hgt.
Qed.

(** Blocking: everything a yield does, and the thread is not queued again. *)
Lemma block_ok m q : sched_ok MCSOS_THREAD_RUNNING m q → zlen q + 1 < 2 ^ 62 →
  (current (sched m) = idle (sched m) ∧
   mcsos_thread_block_current resume (Ref tt) m = Some (m, inl MCSOS_SCHED_ESTATE)) ∨
  (current (sched m) ≠ idle (sched m) ∧
   ∃ m', mcsos_thread_block_current resume (Ref tt) m = Some (m', inr tt) ∧
     sched_ok MCSOS_THREAD_RUNNING m' (tail q) ∧ current (sched m') = next_thread m q ∧
     view (threads m') (current (sched m)) =
       Some (MCSOS_THREAD_BLOCKED, saved_cpu resume (cpu m), MCSOS_THREAD_MAGIC) ∧
     ∃ s, view (threads m) (next_thread m q) = Some (s, cpu m', MCSOS_THREAD_MAGIC)).
Proof.
  intros Hok Hlen. destruct (so_current _ _ _ Hok) as [Hc0 [c Hc]].
  destruct (view_Some _ _ _ _ _ Hc) as (t & Ht & Hst & Hct & Hgt).
  unfold mcsos_thread_block_current.
  erewrite mseq_inr by (eapply bad_call_run; [apply Hok|reflexivity|done..]).
  cbn [negb]. unfold get_sched. rewrite !mseq_mget.
  destruct (Z.eqb_spec (current (sched m)) (idle (sched m))) as [Hi|Hi]; [by left|right].
  cbn [negb]. split; [done|]. erewrite mseq_inr by (by apply upd_thread_run).
  set (m1 := Machine (<[current (sched m) := set_state MCSOS_THREAD_BLOCKED t]> (threads m))
    (sched m) (stacks m) (cpu m)).
  assert (∀ x, view (threads m1) x = if decide (x = current (sched m)) then
    Some (MCSOS_THREAD_BLOCKED, c, MCSOS_THREAD_MAGIC) else view (threads m) x) as Hv.
  { intros x. cbn [m1 threads]. rewrite view_insert. case_decide; [|done]. cbn.
    by rewrite Hct, Hgt. }
  assert (sched_ok MCSOS_THREAD_BLOCKED m1 q) as Hok1.
  { pose proof (current_not_queued _ _ _ Hok ltac:(done)) as Hnq.
    split; cbn [m1 sched]; try apply Hok.
    - eapply (queue_upd m q _ t (set_state MCSOS_THREAD_BLOCKED)); try done. apply Hok.
    - split; [done|]. rewrite Hv, decide_True by done. by eexists.
    - split; [apply Hok|]. rewrite Hv, decide_False by done. apply Hok.
    - intros x s cx g Hx Hs. rewrite Hv in Hx. case_decide; [by simplify_eq|].
      by eapply (so_ready _ _ _ Hok). }
  assert (next_thread m1 q ≠ current (sched m1)) as Hne.
  { intros Hn. by destruct (next_is_current _ _ _ Hok1 ltac:(done) Hn) as (_ & _ & ?). }
  destruct (yield_switch resume _ m1 q Hok1 ltac:(done) Hlen Hne) as (m' & H & Hok' & Y).
  exists m'. split; [exact H|].
  assert (requeued MCSOS_THREAD_BLOCKED m1 = []) as Hrq.
  { unfold requeued. by rewrite decide_False by (intros [? _]; done). }
  unfold yield_queue in Hok'. rewrite Hrq, app_nil_r in Hok'.
  destruct Y as [Y1 _ _ (s & Y4) Y5 _ _]. rewrite Hrq in Y5. split; [done|]. split; [done|].
  split; [exact Y5|]. rewrite Hv, decide_False in Y4 by exact Hne. by exists s.
Qed.

Lemma mark_ready_step_ok p m m' r q :
  sched_ok MCSOS_THREAD_RUNNING m q → zlen q + 1 < 2 ^ 62 →
  mcsos_thread_mark_ready (Ref tt) p m = Some (m', r) →
  ∃ q', sched_ok MCSOS_THREAD_RUNNING m' q'.
Proof.
  intros Hok Hlen H. unfold mcsos_thread_mark_ready, valid_thread_object in H.
  destruct (Z.eqb_spec p 0) as [->|Hp].
  { cbn in H. injection H as <- _. eauto. }
  unfold mseq at 1 2, get_thread at 1 in H.
  destruct (threads m !! p) as [t|] eqn:Ht; [|done]. cbn [mok] in H. unfold mok in H.
  destruct (magic t =? MCSOS_THREAD_MAGIC); [|unfold merr in H; injection H as <- _; eauto].
  erewrite mseq_inr in H by (by apply get_thread_run).
  case_bool_decide as Hb; [|unfold merr in H; injection H as <- _; eauto].
  eapply enqueue_step_ok; [done|done| |exact H].
  intros c g Hv. unfold view in Hv. rewrite Ht in Hv. simpl in Hv. congruence.
Qed.

Lemma reachable_ok m : reachable m → ∃ q, sched_ok MCSOS_THREAD_RUNNING m q.
Proof.
  induction 1 as [boot m m' Hb Hn H|m m' Hr [q Hok] Hsz Hstep].
  - destruct (init_ok boot m Hb Hn) as (m2 & E & Hok). rewrite E in H. injection H as <-. eauto.
  - pose proof (queue_size m q (so_queue _ _ _ Hok)) as Hq.
    assert (zlen q + 1 < 2 ^ 62) as Hlen by lia.
    destruct Hstep as [p nm e a sb ss i m' r Hnu E|p m' r Hn E|m' r E|m' r E|m' r E|p m' r E].
    + exists q. by eapply prepare_ok.
    + by eapply enqueue_step_ok.
    + destruct (yield_ok m q Hok Hlen) as (m2 & E2 & q2 & Hok2). rewrite E2 in E.
      injection E as <- _. eauto.
    + destruct (tick_ok m q Hok) as (m2 & E2 & Hok2). rewrite E2 in E. injection E as <- _. eauto.
    + destruct (block_ok m q Hok Hlen) as [[_ E2]|(_ & m2 & E2 & Hok2 & _)];
        rewrite E2 in E; injection E as <- _; eauto.
    + by eapply mark_ready_step_ok.
Qed.

(** ** The checks *)

Lemma ready_count_walk T m h l fuel n : threads m = T → linked T h l →
  (length l ≤ fuel)%nat → 0 ≤ n → n + zlen l < 2 ^ 63 →
  ready_count_loop fuel m h n = Some (Some (n + zlen l)).
Proof.
  intros HT. revert h fuel n. induction l as [|p l IH]; intros h fuel n Hl Hf Hn Hb.
  { simpl in Hl. subst h. unfold zlen. rewrite Z.add_0_r. by destruct fuel. }
  simpl in Hl. destruct Hl as (-> & Hp & t & Ht & Hl). destruct fuel as [|fuel]; [simpl in Hf; lia|].
  cbn [ready_count_loop]. rewrite (proj2 (Z.eqb_neq p 0)) by done. rewrite HT, Ht.
  cbn [mbind option_bind]. unfold zlen in *. rewrite length_cons in *.
  rewrite u64_small by words. rewrite IH by (done || lia). do 2 f_equal. lia.
Qed.

Lemma default_last_cons (z p : Z) l : default z (last (p :: l)) = default p (last l).
Proof.
  destruct l as [|x l]; [done|]. rewrite last_cons_cons.
  destruct (last_is_Some (x :: l)) as [_ H]. by destruct H as [y ->].
Qed.

Lemma validate_walk m h l last n fuel : linked (threads m) h l →
  Forall (λ p, ∃ c, view (threads m) p = Some (MCSOS_THREAD_READY, c, MCSOS_THREAD_MAGIC)) l →
  current (sched m) ∉ l → (length l ≤ fuel)%nat → 0 ≤ n →
  n + zlen l = runnable_count (sched m) → runnable_count (sched m) < 2 ^ 62 →
  validate_loop fuel h last n m =
    Some (m, inr (default last (list.last l), n + zlen l)).
Proof.
  revert h last n fuel. induction l as [|p l IH]; intros h z n fuel Hl Hr Hc Hf Hn Hk Hb.
  { simpl in Hl. subst h. unfold zlen. rewrite Z.add_0_r. by destruct fuel. }
  simpl in Hl. destruct Hl as (-> & Hp & t & Ht & Hl). destruct fuel as [|fuel]; [simpl in Hf; lia|].
  apply Forall_cons in Hr as [[c Hv] Hr]. apply not_elem_of_cons in Hc as [Hpc Hc].
  destruct (view_Some _ _ _ _ _ Hv) as (t' & Ht' & Hs & _ & Hg). simplify_eq.
  cbn [validate_loop]. rewrite (proj2 (Z.eqb_neq p 0)) by done.
  erewrite mseq_inr by (by apply valid_run). rewrite Hg, Z.eqb_refl.
  erewrite mseq_inr by (by apply get_thread_run). rewrite bool_decide_true by done.
  unfold get_sched. rewrite mseq_mget. rewrite (proj2 (Z.eqb_neq p _)) by done.
  cbn [negb]. cbv zeta. rewrite mseq_mget.
  unfold zlen in *. rewrite length_cons in *.
  rewrite !u64_small by words. rewrite (proj2 (Z.ltb_ge _ _)) by lia. cbn [negb].
  rewrite IH by (done || lia). rewrite (default_last_cons z p l).
  replace (n + 1 + Z.of_nat (length l)) with (n + Z.of_nat (S (length l))) by lia. done.
Qed.

Lemma validate_ok m q : sched_ok MCSOS_THREAD_RUNNING m q →
  mcsos_sched_validate (Ref tt) m = Some (m, inr tt).
Proof.
  intros Hok. destruct (so_current _ _ _ Hok) as [Hc0 [c Hc]].
  destruct (view_Some _ _ _ _ _ Hc) as (t & Ht & _ & _ & Hgt).
  destruct (so_queue _ _ _ Hok) as [Q1 Q2 Q3 Q4 Q5 Q6].
  unfold mcsos_sched_validate.
  erewrite mseq_inr by (eapply bad_call_run; [apply Hok|reflexivity|done..]).
  cbn [negb]. unfold get_sched. rewrite !mseq_mget. pose proof (zlen_nonneg q).
  erewrite mseq_inr.
  2:{ apply (validate_walk m _ q 0 0); try done; try lia.
      - by eapply current_not_queued.
      - rewrite Q4. unfold zlen. lia. }
  rewrite mseq_mget, Q2. cbn [fst snd]. rewrite Z.eqb_refl.
  rewrite Q4. replace (0 + zlen q) with (zlen q) by lia. by rewrite Z.eqb_refl.
Qed.
End Ops.

(** ** A thread put in the queue twice *)

Section Twice.
Context (resume : Z).

(** The links lead from [h] through [l] to [e]. *)
Fixpoint segment (T : gmap Z mcsos_thread) (h : Z) (l : list Z) (e : Z) : Prop :=
  match l with
  | [] => h = e
  | p :: l' => h = p ∧ p ≠ 0 ∧ ∃ t, T !! p = Some t ∧ segment T (next t) l' e
  end.

Lemma linked_split T h l1 p l2 : linked T h (l1 ++ p :: l2) → segment T h l1 p.
Proof.
  revert h. induction l1 as [|x l1 IH]; intros h Hl; simpl in *; [by destruct Hl|].
  destruct Hl as (-> & Hx & t & Ht & Hl). split; [done|]. split; [done|]. exists t. auto.
Qed.

Lemma segment_frame T T' h l e :
  (∀ p, p ∈ l → next <$> T' !! p = next <$> T !! p) → segment T h l e → segment T' h l e.
Proof.
  revert h. induction l as [|p l IH]; intros h Hf Hl; simpl in *; [done|].
  destruct Hl as (-> & Hp & t & Ht & Hl). split; [done|]. split; [done|].
  assert (next <$> T' !! p = Some (next t)) as Hn.
  { rewrite Hf by apply list_elem_of_here. by rewrite Ht. }
  apply fmap_Some in Hn as (t' & Ht' & Hn). exists t'. split; [done|]. rewrite <-Hn.
  apply IH; [|done]. intros x Hx. apply Hf. by right.
Qed.

Definition all_ready (m : machine) (l : list Z) : Prop :=
  Forall (λ p, ∃ c, view (threads m) p = Some (MCSOS_THREAD_READY, c, MCSOS_THREAD_MAGIC)) l.

(** One step of the validation walk. *)
Lemma validate_step m p t z n fuel : p ≠ 0 → threads m !! p = Some t → all_ready m [p] →
  p ≠ current (sched m) → 0 ≤ n < 2 ^ 62 → 0 ≤ runnable_count (sched m) < 2 ^ 62 →
  validate_loop (S fuel) p z n m =
    if runnable_count (sched m) + 1 <? n + 1 then Some (m, inl MCSOS_SCHED_ECORRUPT)
    else validate_loop fuel (next t) p (n + 1) m.
Proof.
  intros Hp Ht [[c Hv] _]%Forall_cons Hc Hn Hb.
  destruct (view_Some _ _ _ _ _ Hv) as (t' & Ht' & Hs & _ & Hg). simplify_eq.
  cbn [validate_loop]. rewrite (proj2 (Z.eqb_neq p 0)) by done.
  erewrite mseq_inr by (by apply valid_run). rewrite Hg, Z.eqb_refl.
  erewrite mseq_inr by (by apply get_thread_run). rewrite bool_decide_true by done.
  unfold get_sched. rewrite mseq_mget. rewrite (proj2 (Z.eqb_neq p _)) by done.
  cbn [negb]. cbv zeta. rewrite mseq_mget. rewrite !u64_small by words.
  by destruct (_ <? _).
Qed.

Lemma validate_segment m h l e z n fuel : segment (threads m) h l e → all_ready m l →
  current (sched m) ∉ l → 0 ≤ n → n + zlen l ≤ runnable_count (sched m) + 1 →
  runnable_count (sched m) < 2 ^ 61 →
  ∃ z', validate_loop (length l + fuel) h z n m = validate_loop fuel e z' (n + zlen l) m.
Proof.
  revert h z n. induction l as [|p l IH]; intros h z n Hl Hr Hc Hn Hb Hb'.
  { simpl in Hl. subst h. exists z. unfold zlen. by rewrite Z.add_0_r. }
  simpl in Hl. destruct Hl as (-> & Hp & t & Ht & Hl).
  apply Forall_cons in Hr as [Hr1 Hr]. apply not_elem_of_cons in Hc as [Hpc Hc].
  unfold zlen in *. rewrite length_cons in *. cbn [Nat.add].
  rewrite (validate_step m p t) by (try done; try (split; lia); by constructor).
  rewrite (proj2 (Z.ltb_ge _ _)) by lia.
  destruct (IH (next t) p (n + 1)) as [z' Hz]; try done; try lia.
  exists z'. rewrite Hz. f_equal. lia.
Qed.

Lemma validate_cycle m p t z n fuel : p ≠ 0 → threads m !! p = Some t → next t = p →
  all_ready m [p] → p ≠ current (sched m) → 0 ≤ n → n ≤ runnable_count (sched m) + 1 →
  0 ≤ runnable_count (sched m) < 2 ^ 61 → runnable_count (sched m) + 2 ≤ n + Z.of_nat fuel →
  validate_loop fuel p z n m = Some (m, inl MCSOS_SCHED_ECORRUPT).
Proof.
  revert z n. induction fuel as [|fuel IH]; intros z n Hp Ht Hn Hr Hc Hn0 Hn1 Hb Hf; [lia|].
  rewrite (validate_step m p t) by (try done; split; lia).
  destruct (Z.ltb_spec (runnable_count (sched m) + 1) (n + 1)); [done|].
  rewrite Hn. apply IH; try done; lia.
Qed.

(** The walk of [mcsos_sched_ready_count] never leaves a cycle. *)
Lemma ready_count_cycle m p t n fuel : p ≠ 0 → threads m !! p = Some t → next t = p →
  ready_count_loop fuel m p n = Some None.
Proof.
  intros Hp Ht Hn. revert n. induction fuel as [|fuel IH]; intros n; cbn [ready_count_loop];
    rewrite (proj2 (Z.eqb_neq p 0)) by done; [done|].
  rewrite Ht. cbn [mbind option_bind]. rewrite Hn. apply IH.
Qed.

Lemma ready_count_stuck m h l e n fuel : segment (threads m) h l e →
  (∀ n fuel, ready_count_loop fuel m e n = Some None) →
  ready_count_loop fuel m h n = Some None.
Proof.
  intros Hl He. revert h n fuel Hl.
  induction l as [|p l IH]; intros h n fuel Hl; simpl in Hl; [by subst|].
  destruct Hl as (-> & Hp & t & Ht & Hl).
  destruct fuel as [|fuel]; cbn [ready_count_loop];
    rewrite (proj2 (Z.eqb_neq p 0)) by done; [done|].
  rewrite Ht. cbn [mbind option_bind]. by apply IH.
Qed.

(** The machine after the second insertion. *)
Lemma enqueue_twice_run m q p : sched_ok MCSOS_THREAD_RUNNING m q → p ∈ q → zlen q + 1 < 2 ^ 60 →
  ∃ m' t', mcsos_sched_enqueue (Ref tt) p m = Some (m', inr tt) ∧
    threads m' !! p = Some t' ∧ next t' = (if decide (last q = Some p) then p else 0) ∧
    (∀ x, x ≠ p → last q ≠ Some x → next <$> threads m' !! x = next <$> threads m !! x) ∧
    (∀ x, view (threads m') x = view (threads m) x) ∧
    ready_head (sched m') = ready_head (sched m) ∧ ready_tail (sched m') = p ∧
    runnable_count (sched m') = zlen q + 1 ∧ same_rest m m'.
Proof.
  intros Hok Hpq Hlen. pose proof (so_queue _ _ _ Hok) as Hq.
  pose proof (qo_ready _ _ Hq) as Hr. rewrite Forall_forall in Hr.
  destruct (Hr p Hpq) as [c Hv]. destruct (view_Some _ _ _ _ _ Hv) as (t & Ht & Hst & Hct & Hgt).
  assert (p ≠ 0) as Hp by (intros ->; by eapply linked_nonzero; [apply Hq|]).
  destruct (last q) as [z|] eqn:El; [|apply last_None in El; subst; by apply elem_of_nil in Hpq].
  assert (z ∈ q) as Hzq by by apply last_Some_elem_of.
  assert (z ≠ 0) as Hz by (intros ->; by eapply linked_nonzero; [apply Hq|]).
  destruct (Hr z Hzq) as [cz Hvz]. destruct (view_Some _ _ _ _ _ Hvz) as (tz & Htz & _).
  set (t1 := entered t).
  assert (∃ tz1, <[p:=t1]> (threads m) !! z = Some tz1 ∧
    tz1 = if decide (z = p) then t1 else tz) as (tz1 & Htz1 & Htz1').
  { case_decide as E; [subst z; rewrite lookup_insert_eq; eauto|].
    rewrite lookup_insert_ne by done. eauto. }
  exists (Machine (<[z := set_next p tz1]> (<[p:=t1]> (threads m)))
    (set_runnable (zlen q + 1) (set_tail p (sched m))) (stacks m) (cpu m)).
  exists (if decide (z = p) then set_next p t1 else t1).
  split; [|split; [|split; [|split; [|split; [|done]]]]].
  - pose proof (enqueue_exec m q p t Hq (so_init _ _ _ Hok) Hp ltac:(lia) Ht Hgt) as E.
    rewrite El in E. apply E; [by right; left|done|done].
  - cbn [threads]. case_decide as E.
    + subst z. rewrite lookup_insert_eq. by rewrite Htz1'.
    + rewrite lookup_insert_ne by done. apply lookup_insert_eq.
  - destruct (decide (z = p)) as [->|E]; [by rewrite decide_True|].
    rewrite decide_False by congruence. done.
  - intros x Hx Hxz. cbn [threads]. by rewrite !lookup_insert_ne by congruence.
  - intros x. cbn [threads]. rewrite !view_insert. subst tz1.
    destruct (decide (x = z)) as [->|Hxz].
    + destruct (decide (z = p)) as [->|E].
      * rewrite Hv. cbn. by rewrite Hct, Hgt.
      * unfold view. by rewrite Htz.
    + destruct (decide (x = p)) as [->|]; [|done]. rewrite Hv. cbn. by rewrite Hct, Hgt.
Qed.
End Twice.

(** ** Properties *)

Lemma align_down_16 v : is_u64 v → align_down_uintptr v MCSOS_STACK_ALIGN = v / 16 * 16.
Proof.
  intros Hv. unfold align_down_uintptr, MCSOS_STACK_ALIGN. rewrite land_u64_mask by done.
  exact (land_high v 4 ltac:(lia)).
Qed.

(** C7. The scheduler's structure is sound in every state reached from
    [mcsos_scheduler_init] (called when no thread is ready) by calls of prepare,
    enqueue, yield, tick, block and wake-up, as long as [mcsos_thread_prepare]
    is given thread objects that are not in use (not the running or the idle
    thread, none waiting in the queue), [mcsos_sched_enqueue] threads that are
    not already ready, and there are fewer than 2^60 thread objects:
    [mcsos_sched_validate] succeeds, the walk of [mcsos_sched_ready_count]
    terminates with the number of queued threads, the queue holds exactly the
    ready threads, each once, and the running thread is not among them. *)
Theorem scheduler_reachable_valid (boot_name trampoline resume : Z) (m : machine) :
  reachable boot_name trampoline resume m →
  ∃ q, NoDup q ∧ (current (sched m) ∉ q) ∧
    mcsos_sched_validate (Ref tt) m = Some (m, inr tt) ∧
    runnable_count (sched m) = zlen q ∧
    (∀ fuel, (length q ≤ fuel)%nat →
       mcsos_sched_ready_count fuel (Ref tt) m = Some (Some (zlen q))) ∧
    ∀ p, p ∈ q ↔ ∃ c g, view (threads m) p = Some (MCSOS_THREAD_READY, c, g).
Proof.
  intros Hr. destruct (reachable_ok _ _ _ _ Hr) as [q Hok].
  pose proof (so_queue _ _ _ Hok) as Hq. exists q.
  split; [apply Hq|]. split; [by eapply current_not_queued|]. split; [by eapply validate_ok|].
  split; [apply Hq|]. split.
  - intros fuel Hf. unfold mcsos_sched_ready_count.
    rewrite (proj2 (Z.eqb_neq _ 0)) by apply Hok. cbn [is_null orb].
    pose proof (qo_bound _ _ Hq). pose proof (zlen_nonneg q).
    rewrite (ready_count_walk (threads m) m _ q); try done; try lia. apply Hq.
  - intros p. split.
    + intros Hp. pose proof (qo_ready _ _ Hq) as HR. rewrite Forall_forall in HR.
      destruct (HR p Hp) as [c Hc]. eauto.
    + intros (c & g & Hv). by eapply (so_ready _ _ _ Hok).
Qed.

(** C17. Scheduling is fair: the thread at position [i] of the ready queue is
    running, with exactly the registers it had saved, after [i + 1] yields,
    and the scheduler's invariant still holds then. *)
Theorem mcsos_sched_yield_fair (resume : Z) (m : machine) (q : list Z) (i : nat) (t : Z) :
  sched_ok MCSOS_THREAD_RUNNING m q → zlen q + 1 < 2 ^ 62 → q !! i = Some t →
  ∃ m' q' c, view (threads m) t = Some (MCSOS_THREAD_READY, c, MCSOS_THREAD_MAGIC) ∧
    yields resume (S i) m = Some m' ∧ sched_ok MCSOS_THREAD_RUNNING m' q' ∧
    current (sched m') = t ∧ cpu m' = c.
Proof.
  intros Hok Hlen Hi. pose proof (qo_ready _ _ (so_queue _ _ _ Hok)) as Hr.
  destruct (proj1 (Forall_lookup _ _) Hr i t Hi) as [c Hv].
  destruct (yields_reach resume i m q t _ c Hok Hlen Hi Hv) as (m' & q' & H1 & H2 & H3 & H4).
  exists m', q', c. done.
Qed.

(** C33. A context switch loses nothing: a running thread that yields (and is
    not the idle thread) runs again after all the others had one turn, and
    then finds every callee-saved register as it left it, resuming at the
    instruction after the switch. *)
Theorem mcsos_sched_yield_resumes (resume : Z) (m : machine) (q : list Z) :
  sched_ok MCSOS_THREAD_RUNNING m q → zlen q + 1 < 2 ^ 62 →
  current (sched m) ≠ idle (sched m) →
  ∃ m', yields resume (S (Nat.max 1 (length q))) m = Some m' ∧
    current (sched m') = current (sched m) ∧ cpu m' = saved_cpu resume (cpu m).
Proof.
  intros Hok Hlen Hci.
  assert (next_thread m q ≠ current (sched m)) as Hne
    by (intros Hn; by destruct (next_is_current _ _ _ Hok ltac:(done) Hn) as (_ & ? & _)).
  destruct (yield_switch resume _ m q Hok ltac:(done) Hlen Hne) as (m1 & H1 & Hok1 & Y).
  assert (requeued MCSOS_THREAD_RUNNING m = [current (sched m)]) as Hrq
    by (unfold requeued; by rewrite decide_True).
  pose proof (yi_old _ _ _ _ _ Y) as Hv. unfold yield_queue in Hok1.
  rewrite Hrq in Hok1, Hv. simpl in Hv.
  destruct (yields_reach resume (length (tail q)) m1 _ (current (sched m))
    MCSOS_THREAD_READY (saved_cpu resume (cpu m)) Hok1)
    as (m' & q' & H2 & _ & H3 & H4); [|by apply list_lookup_middle|exact Hv|].
  - unfold zlen in *. rewrite length_app. destruct q; simpl in *; lia.
  - exists m'. split; [|done].
    assert (S (Nat.max 1 (length q)) = S (S (length (tail q)))) as -> by (destruct q; simpl; lia).
    cbn [yields]. rewrite H1. exact H2.
Qed.

Lemma prepare_run (trampoline thread name entry arg base size id : Z) (m : machine) :
  is_u64 base → is_u64 size →
  mcsos_thread_prepare trampoline thread name entry arg base size id m =
    if decide (thread = 0 ∨ entry = 0 ∨ base = 0) then Some (m, inl MCSOS_SCHED_EINVAL) else
    if decide (size < 4096 ∨ 2 ^ 64 ≤ base + size) then Some (m, inl MCSOS_SCHED_ESTACK) else
    let sp := (base + size) / 16 * 16 - 8 in
    Some (Machine
      (<[thread := MThread MCSOS_THREAD_MAGIC id name MCSOS_THREAD_NEW
           (MContext sp 0 0 0 0 0 0 trampoline) entry arg base size 0 0 0 0]> (threads m))
      (sched m) (<[sp := 0]> (stacks m)) (cpu m), inr tt).
Proof.
  intros Hb Hs. unfold mcsos_thread_prepare, MCSOS_MIN_KERNEL_STACK.
  case_decide as E1.
  { replace ((thread =? 0) || (entry =? 0) || (base =? 0)) with true; [done|].
    destruct (Z.eqb_spec thread 0), (Z.eqb_spec entry 0), (Z.eqb_spec base 0); tauto. }
  replace ((thread =? 0) || (entry =? 0) || (base =? 0)) with false.
  2:{ destruct (Z.eqb_spec thread 0), (Z.eqb_spec entry 0), (Z.eqb_spec base 0); tauto. }
  cbn [negb]. destruct (Z.ltb_spec size 4096) as [H|H]; cbn [negb].
  { rewrite decide_True by (by left). done. }
  cbv zeta. change (2 ^ 64) with 18446744073709551616.
  destruct (decide (18446744073709551616 ≤ base + size)) as [Hw|Hw].
  { rewrite decide_True by (by right).
    assert (u64 (base + size) <= base) by (unfold u64; dlia).
    by rewrite (proj2 (Z.leb_le _ _)). }
  rewrite decide_False by lia. rewrite (u64_small (base + size)) by words.
  rewrite (proj2 (Z.leb_gt (base + size) base)) by words. cbn [negb].
  rewrite align_down_16 by words. rewrite (u64_small (base + 128)) by words.
  rewrite (proj2 (Z.leb_gt _ _)) by dlia. cbn [negb].
  rewrite u64_small by dlia. done.
Qed.

(** [mcsos_thread_prepare] rejects null pointers, stacks under 4096 bytes
    and stacks that wrap around the address space, without touching anything;
    otherwise it initialises the thread in state [NEW] with the trampoline as
    its program counter and a stack pointer that lies inside the stack, is 8
    modulo 16 as the calling convention wants it at a function's entry, and
    points to a zero word. *)
Theorem mcsos_thread_prepare_correct (trampoline thread name entry arg base size id : Z)
    (m : machine) :
  is_u64 base → is_u64 size →
  let sp := (base + size) / 16 * 16 - 8 in
  (mcsos_thread_prepare trampoline thread name entry arg base size id m =
    if decide (thread = 0 ∨ entry = 0 ∨ base = 0) then Some (m, inl MCSOS_SCHED_EINVAL) else
    if decide (size < 4096 ∨ 2 ^ 64 ≤ base + size) then Some (m, inl MCSOS_SCHED_ESTACK) else
    Some (Machine
      (<[thread := MThread MCSOS_THREAD_MAGIC id name MCSOS_THREAD_NEW
           (MContext sp 0 0 0 0 0 0 trampoline) entry arg base size 0 0 0 0]> (threads m))
      (sched m) (<[sp := 0]> (stacks m)) (cpu m), inr tt)) ∧
  (4096 ≤ size → base < sp ∧ sp + 8 ≤ base + size ∧ sp mod 16 = 8).
Proof. intros Hb Hs sp. split; [by apply prepare_run|]. intros. subst sp. dlia. Qed.

(** A prepared thread never runs its entry function: whatever [entry] and
    [arg] it was given, when the scheduler first switches to it the processor
    continues at the trampoline, which halts for ever, with every callee-saved
    register zero, so nothing it executes depends on them. *)
Theorem first_switch_ignores_entry (boot_name trampoline resume boot thread name entry arg base
    size id : Z) (m : machine) :
  boot ≠ 0 → thread ≠ 0 → thread ≠ boot → entry ≠ 0 → base ≠ 0 → is_u64 base →
  4096 ≤ size → base + size < 2 ^ 64 → threads m = ∅ →
  ∃ m', (mcsos_scheduler_init boot_name (Ref tt) boot ;;;
         mcsos_thread_prepare trampoline thread name entry arg base size id ;;;
         mcsos_sched_enqueue (Ref tt) thread ;;;
         mcsos_sched_yield resume (Ref tt)) m = Some (m', inr tt) ∧
    current (sched m') = thread ∧
    cpu m' = MContext ((base + size) / 16 * 16 - 8) 0 0 0 0 0 0 trampoline.
Proof.
  intros Hboot Hth Hne Hen Hba Hbu Hsz Hw Hm.
  set (ctx := MContext ((base + size) / 16 * 16 - 8) 0 0 0 0 0 0 trampoline).
  destruct (init_ok boot_name boot m Hboot) as (m1 & E1 & Hok1).
  { intros p c g. unfold view. by rewrite Hm, lookup_empty. }
  erewrite mseq_inr by exact E1.
  assert (threads m1 !! thread = None ∧ current (sched m1) = boot ∧ idle (sched m1) = boot)
    as (Hn1 & Hc1 & Hi1).
  { unfold mcsos_scheduler_init in E1. rewrite (proj2 (Z.eqb_neq boot 0)) in E1 by done.
    injection E1 as <-. cbn [threads sched current idle]. split; [|done].
    by rewrite lookup_insert_ne, Hm, lookup_empty. }
  assert (not_in_use m1 thread) as Hnu.
  { split; [congruence|]. split; [congruence|]. intros c g. unfold view. by rewrite Hn1. }
  pose proof (prepare_run trampoline thread name entry arg base size id m1) as E2.
  rewrite !decide_False in E2 by (intuition lia). cbv zeta in E2.
  specialize (E2 Hbu ltac:(words)). erewrite mseq_inr by exact E2.
  pose proof (prepare_ok _ _ _ _ _ _ _ _ _ _ _ _ Hok1 Hnu E2) as Hok2.
  match goal with |- context [mseq _ _ ?x] => set (m2 := x) in * end.
  destruct (enqueue_ok MCSOS_THREAD_RUNNING m2 [] thread MCSOS_THREAD_NEW ctx)
    as (m3 & E3 & Hok3 & S3 & V3); try done.
  { cbn [m2 sched]. congruence. }
  { unfold view. cbn [m2 threads]. by rewrite lookup_insert_eq. }
  { by left. }
  erewrite mseq_inr by exact E3. destruct S3 as (Sc & Si & _).
  destruct (yield_switch resume _ m3 [thread] Hok3) as (m4 & E4 & Hok4 & Y4); try done.
  { simpl. rewrite Sc. cbn [m2 sched]. congruence. }
  exists m4. split; [exact E4|]. split; [apply (yi_current _ _ _ _ _ Y4)|].
  destruct (yi_cpu _ _ _ _ _ Y4) as [s4 Hv4]. simpl in Hv4.
  rewrite V3, decide_True in Hv4 by done. by injection Hv4.
Qed.

(** The queue up to [p] is walked, and then comes [p] again and again, or the end
    too early: [p] was entered a second time at the end. *)
Lemma validate_twice m l1 l2 p t c : initialized (sched m) ≠ 0 → current (sched m) ≠ 0 →
  (∃ s, view (threads m) (current (sched m)) = Some (s, c, MCSOS_THREAD_MAGIC)) →
  segment (threads m) (ready_head (sched m)) l1 p → all_ready m (l1 ++ p :: l2) →
  current (sched m) ∉ l1 ++ p :: l2 → p ≠ 0 → threads m !! p = Some t →
  next t = (if decide (l2 = []) then p else 0) → ready_tail (sched m) = p →
  runnable_count (sched m) = zlen l1 + 1 + zlen l2 + 1 → zlen l1 + 1 + zlen l2 + 1 < 2 ^ 60 →
  mcsos_sched_validate (Ref tt) m = Some (m, inl MCSOS_SCHED_ECORRUPT).
Proof.
  intros Hi Hc0 [cs Hcc] Hseg Hr Hnc Hp Ht Hnt Htl Hc Hlen.
  pose proof (zlen_nonneg l1). pose proof (zlen_nonneg l2).
  destruct (view_Some _ _ _ _ _ Hcc) as (tc & Htc & _ & _ & Hgc).
  unfold mcsos_sched_validate. erewrite mseq_inr by (by eapply bad_call_run).
  cbn [negb]. unfold get_sched. rewrite !mseq_mget. rewrite Hc.
  replace (Z.to_nat (zlen l1 + 1 + zlen l2 + 1 + 2)) with (length l1 + (S (Z.to_nat (zlen l2 + 3))))%nat
    by (unfold zlen in *; lia).
  apply Forall_app in Hr as [Hr1 [Hrp _]%Forall_cons].
  apply not_elem_of_app in Hnc as [Hnc1 [Hpc _]%not_elem_of_cons].
  destruct (validate_segment m (ready_head (sched m)) l1 p 0 0 (S (Z.to_nat (zlen l2 + 3))))
    as [z' Hz']; try done; try lia.
  case_decide as El.
  - apply mseq_inl. rewrite Hz'. apply (validate_cycle m p t); try done; try lia. by constructor.
  - erewrite mseq_inr.
    2:{ rewrite Hz'. rewrite (validate_step m p t); try done; try lia; [|by constructor].
        rewrite (proj2 (Z.ltb_ge _ _)) by lia. rewrite Hnt.
        destruct (Z.to_nat (zlen l2 + 3)); reflexivity. }
    rewrite mseq_mget, Htl. cbn [fst snd]. rewrite Z.eqb_refl.
    rewrite (proj2 (Z.eqb_neq _ _)); [done|].
    destruct l2; [done|]. unfold zlen in *; simpl in *; lia.
Qed.

(** Enqueueing a thread twice corrupts the queue: [mcsos_sched_enqueue]
    accepts a thread that is already ready and waiting and returns 0, and
    from then on [mcsos_sched_validate] reports [MCSOS_SCHED_ECORRUPT]; if
    the thread was the last one, its [next] points to itself and the walk of
    [mcsos_sched_ready_count] never ends. *)
Theorem mcsos_sched_enqueue_twice (m : machine) (q : list Z) (p : Z) :
  sched_ok MCSOS_THREAD_RUNNING m q → p ∈ q → zlen q + 1 < 2 ^ 60 →
  ∃ m', mcsos_sched_enqueue (Ref tt) p m = Some (m', inr tt) ∧
    mcsos_sched_validate (Ref tt) m' = Some (m', inl MCSOS_SCHED_ECORRUPT) ∧
    (last q = Some p → ∀ fuel, mcsos_sched_ready_count fuel (Ref tt) m' = Some None).
Proof.
  intros Hok Hpq Hlen. pose proof (so_queue _ _ _ Hok) as Hq.
  destruct (enqueue_twice_run m q p Hok Hpq Hlen)
    as (m' & t' & E & Ht' & Hnt & Hnx & Hv & Hh & Htl & Hc & Hcur & Hidle & Hinit & _).
  exists m'. split; [done|].
  destruct (list_elem_of_split _ _ Hpq) as (l1 & l2 & Hsplit).
  pose proof (qo_nodup _ _ Hq) as Hnd. rewrite Hsplit in Hnd.
  apply NoDup_app in Hnd as (Hnd1 & Hdis & Hnd2%NoDup_cons).
  assert (p ≠ 0) as Hp by (intros ->; by eapply linked_nonzero; [apply Hq|]).
  assert (segment (threads m') (ready_head (sched m')) l1 p) as Hseg.
  { rewrite Hh. eapply segment_frame; [|eapply linked_split; rewrite <-Hsplit; apply Hq].
    intros x Hx. apply Hnx.
    - intros ->. apply (Hdis p Hx). by left.
    - intros Hl. rewrite Hsplit, last_app_cons in Hl. apply last_Some_elem_of in Hl.
      by apply (Hdis x Hx). }
  pose proof (current_not_queued _ _ _ Hok ltac:(done)) as Hnc. rewrite <-Hcur in Hnc.
  assert (all_ready m' q) as Hr.
  { eapply Forall_impl; [apply (qo_ready _ _ Hq)|]. intros x [c Hx]. exists c. by rewrite Hv. }
  assert (zlen q = zlen l1 + 1 + zlen l2) as Hz.
  { rewrite Hsplit. unfold zlen. rewrite length_app. simpl. lia. }
  pose proof (zlen_nonneg l1). pose proof (zlen_nonneg l2).
  split.
  - destruct (so_current _ _ _ Hok) as [Hc0 [cc Hcc]]. rewrite <-Hv, <-Hcur in Hcc.
    rewrite Hsplit in Hr, Hnc. eapply (validate_twice m' l1 l2 p t'); try done; try lia.
    + rewrite Hinit. apply Hok.
    + eauto.
    + rewrite Hnt, Hsplit. destruct l2 as [|x l2]; [by rewrite last_snoc, !decide_True|].
      rewrite (decide_False (P := _ = [])) by done. apply decide_False.
      rewrite last_app_cons. intros Hl. apply (proj1 Hnd2). rewrite last_cons_cons in Hl.
      by apply last_Some_elem_of.
  - intros El fuel. rewrite decide_True in Hnt by done.
    unfold mcsos_sched_ready_count. rewrite Hinit, (proj2 (Z.eqb_neq _ 0)) by apply Hok.
    cbn [is_null orb]. eapply ready_count_stuck; [exact Hseg|].
    intros. by eapply ready_count_cycle.
Qed.

(** ** A concrete system: the boot thread and two others *)

Definition demo_program : M machine unit :=
  mcsos_scheduler_init 1 (Ref tt) 4096 ;;;
  mcsos_thread_prepare 2 8192 3 65536 0 1048576 8192 1 ;;;
  mcsos_thread_prepare 2 12288 4 65536 0 2097152 8192 2 ;;;
  mcsos_sched_enqueue (Ref tt) 8192 ;;;
  mcsos_sched_enqueue (Ref tt) 12288.
Definition demo_empty : machine :=
  Machine ∅ (MSched 0 0 0 0 0 0 0 0 0) ∅ (MContext 100 101 102 103 104 105 106 107).
Definition demo_run (p : M machine unit) (m : machine) : machine :=
  match p m with Some (m', _) => m' | None => m end.
Definition demo_machine : machine := demo_run demo_program demo_empty.
(** The same once thread [8192] runs. *)
Definition demo_running : machine := demo_run (mcsos_sched_yield 5 (Ref tt)) demo_machine.

Lemma sched_ok_compute m q :
  initialized (sched m) ≠ 0 → queue_ok m q → current (sched m) ≠ 0 → idle (sched m) ≠ 0 →
  (∃ c, view (threads m) (current (sched m)) =
    Some (MCSOS_THREAD_RUNNING, c, MCSOS_THREAD_MAGIC)) →
  (∃ c, view (threads m) (idle (sched m)) =
    Some (MCSOS_THREAD_RUNNING, c, MCSOS_THREAD_MAGIC)) →
  bool_decide (map_Forall (λ p t, state t = MCSOS_THREAD_READY → p ∈ q) (threads m)) = true →
  sched_ok MCSOS_THREAD_RUNNING m q.
Proof.
  intros Hi Hq Hc Hid Hvc Hvi Hr. apply bool_decide_eq_true in Hr. split; try done.
  intros p s c g Hv Hs. destruct (view_Some _ _ _ _ _ Hv) as (t & Ht & Hst & _).
  apply (Hr p t Ht). congruence.
Qed.

Lemma demo_ok : sched_ok MCSOS_THREAD_RUNNING demo_machine [8192; 12288].
Proof.
  apply sched_ok_compute.
  1,3,4: vm_compute; discriminate.
  2,3: eexists; by vm_compute.
  2: by vm_compute.
  split; try by vm_compute.
  - cbn [linked]. split; [by vm_compute|]. split; [done|]. eexists. split; [by vm_compute|].
    split; [by vm_compute|]. split; [done|]. eexists. split; [by vm_compute|]. by vm_compute.
  - apply NoDup_cons. split; [|apply NoDup_singleton]. by intros ?%list_elem_of_singleton.
  - repeat constructor; eexists; by vm_compute.
Qed.

(** The states of [demo_program]. *)
Definition demo_1 : machine := demo_run (mcsos_scheduler_init 1 (Ref tt) 4096) demo_empty.
Definition demo_2 : machine :=
  demo_run (mcsos_thread_prepare 2 8192 3 65536 0 1048576 8192 1) demo_1.
Definition demo_3 : machine := demo_run (mcsos_sched_enqueue (Ref tt) 8192) demo_2.

Lemma demo_sched_reachable : reachable 1 2 5 demo_3.
Proof.
  assert (reachable 1 2 5 demo_1) as H1.
  { apply (R_init 1 2 5 4096 demo_empty); [done| |vm_compute; reflexivity].
    intros p c g. unfold view. change (threads demo_empty) with (∅ : gmap Z mcsos_thread).
    by rewrite lookup_empty. }
  assert (reachable 1 2 5 demo_2) as H2.
  { eapply (R_step 1 2 5 demo_1); [exact H1|by vm_compute|].
    apply (AS_prepare 2 5 demo_1 8192 3 65536 0 1048576 8192 1 demo_2 (inr tt));
      [|vm_compute; reflexivity].
    split; [vm_compute; discriminate|]. split; [vm_compute; discriminate|].
    intros c g. vm_compute. discriminate. }
  eapply (R_step 1 2 5 demo_2); [exact H2|by vm_compute|].
  apply (AS_enqueue 2 5 demo_2 8192 demo_3 (inr tt)); [|vm_compute; reflexivity].
  intros c g. vm_compute. discriminate.
Qed.

Lemma scheduler_reachable_valid_witness :
  ∃ q, NoDup q ∧ (current (sched demo_3) ∉ q) ∧
    mcsos_sched_validate (Ref tt) demo_3 = Some (demo_3, inr tt) ∧
    runnable_count (sched demo_3) = zlen q ∧
    (∀ fuel, (length q ≤ fuel)%nat →
       mcsos_sched_ready_count fuel (Ref tt) demo_3 = Some (Some (zlen q))) ∧
    ∀ p, p ∈ q ↔ ∃ c g, view (threads demo_3) p = Some (MCSOS_THREAD_READY, c, g).
Proof. apply (scheduler_reachable_valid 1 2 5 demo_3), demo_sched_reachable. Defined.

Lemma mcsos_sched_yield_fair_witness :
  ∃ m' q' c, view (threads demo_machine) 12288 = Some (MCSOS_THREAD_READY, c, MCSOS_THREAD_MAGIC) ∧
    yields 5 2 demo_machine = Some m' ∧ sched_ok MCSOS_THREAD_RUNNING m' q' ∧
    current (sched m') = 12288 ∧ cpu m' = c.
Proof.
  apply (mcsos_sched_yield_fair 5 demo_machine [8192; 12288] 1 12288 demo_ok); [done|done].
Defined.

Lemma demo_running_ok : sched_ok MCSOS_THREAD_RUNNING demo_running [12288].
Proof.
  apply sched_ok_compute.
  1,3,4: vm_compute; discriminate.
  2,3: eexists; by vm_compute.
  2: by vm_compute.
  split; try by vm_compute.
  - cbn [linked]. split; [by vm_compute|]. split; [done|]. eexists. split; [by vm_compute|].
    by vm_compute.
  - apply NoDup_singleton.
  - repeat constructor; eexists; by vm_compute.
Qed.

Lemma mcsos_sched_yield_resumes_witness :
  current (sched demo_running) = 8192 ∧
  ∃ m', yields 5 (S (Nat.max 1 (length [12288]))) demo_running = Some m' ∧
    current (sched m') = current (sched demo_running) ∧
    cpu m' = saved_cpu 5 (cpu demo_running).
Proof.
  split; [by vm_compute|].
  apply (mcsos_sched_yield_resumes 5 demo_running [12288] demo_running_ok); [done|].
  vm_compute. discriminate.
Defined.

Lemma mcsos_thread_prepare_correct_witness :
  (mcsos_thread_prepare 2 8192 3 65536 0 1048579 8192 1 demo_1 =
    if decide (8192 = 0 ∨ 65536 = 0 ∨ 1048579 = 0) then Some (demo_1, inl MCSOS_SCHED_EINVAL) else
    if decide (8192 < 4096 ∨ 2 ^ 64 ≤ 1048579 + 8192)
    then Some (demo_1, inl MCSOS_SCHED_ESTACK) else
    Some (Machine
      (<[8192 := MThread MCSOS_THREAD_MAGIC 1 3 MCSOS_THREAD_NEW
           (MContext ((1048579 + 8192) / 16 * 16 - 8) 0 0 0 0 0 0 2) 65536 0 1048579 8192 0 0 0 0]>
         (threads demo_1))
      (sched demo_1) (<[(1048579 + 8192) / 16 * 16 - 8 := 0]> (stacks demo_1)) (cpu demo_1),
      inr tt)) ∧
  (4096 ≤ 8192 → 1048579 < (1048579 + 8192) / 16 * 16 - 8 ∧
     (1048579 + 8192) / 16 * 16 - 8 + 8 ≤ 1048579 + 8192 ∧
     ((1048579 + 8192) / 16 * 16 - 8) mod 16 = 8).
Proof. apply (mcsos_thread_prepare_correct 2 8192 3 65536 0 1048579 8192 1 demo_1); words. Defined.

Lemma first_switch_ignores_entry_witness :
  ∃ m', (mcsos_scheduler_init 1 (Ref tt) 4096 ;;;
         mcsos_thread_prepare 2 8192 3 65536 77 1048576 8192 1 ;;;
         mcsos_sched_enqueue (Ref tt) 8192 ;;;
         mcsos_sched_yield 5 (Ref tt)) demo_empty = Some (m', inr tt) ∧
    current (sched m') = 8192 ∧
    cpu m' = MContext ((1048576 + 8192) / 16 * 16 - 8) 0 0 0 0 0 0 2.
Proof.
  apply (first_switch_ignores_entry 1 2 5 4096 8192 3 65536 77 1048576 8192 1 demo_empty);
    (done || words).
Defined.

Lemma mcsos_sched_enqueue_twice_witness :
  ∃ m', mcsos_sched_enqueue (Ref tt) 12288 demo_machine = Some (m', inr tt) ∧
    mcsos_sched_validate (Ref tt) m' = Some (m', inl MCSOS_SCHED_ECORRUPT) ∧
    (last [8192; 12288] = Some 12288 →
       ∀ fuel, mcsos_sched_ready_count fuel (Ref tt) m' = Some None).
Proof.
  apply (mcsos_sched_enqueue_twice demo_machine [8192; 12288] 12288 demo_ok); [|done].
  right. left.
Defined.
