(* ===== verification/Sync.v ===== *)
(** Synchronisation ([src/include/mcs_sync.h], [src/kernel/sync/]): the
    lock-order checker, the spinlock and the mutex.  The locks are written as
    sequences of atomic accesses, so that the same definitions run alone and
    interleaved with other threads. *)
From stdpp Require Import relations.
From S2P Require Import Prelude.

#[local] Open Scope Z_scope.

(** ** Constants and data *)

Definition MCS_LOCKDEP_MAX_HELD : Z := 16.
Definition MCS_SYNC_OK : Z := 0.
Definition MCS_SYNC_EINVAL : Z := -22.
Definition MCS_SYNC_EBUSY : Z := -16.
Definition MCS_SYNC_EPERM : Z := -1.
Definition MCS_SYNC_EDEADLK : Z := -35.
Definition MCS_SYNC_EOVERFLOW : Z := -75.

Record mcs_lockdep_state := MLockdep {
  held_class : list Z;
  held_name : list Z;
  depth : Z;
  violation_count : Z;
}.

Record mcs_spinlock := MSpin {
  s_locked : Z;
  s_class_id : Z;
  s_name : Z;
}.

Record mcs_mutex := MMutex {
  m_locked : Z;
  m_owner : Z;
  m_class_id : Z;
  m_name : Z;
}.

(** ** The lock-order checker *)

Module Lockdep.

Definition mcs_lockdep_init (s : ptr mcs_lockdep_state) : ptr mcs_lockdep_state :=
  match s with
  | Null => Null
  | Ref _ => Ref (MLockdep (replicate 16 0) (replicate 16 0) 0 0)
  end.

(** [held_class[i] == class_id] for some [i] in [i .. i + n - 1]. *)
Fixpoint held_loop (n : nat) (i : Z) (held : list Z) (class_id : Z) : option bool :=
  match n with
  | O => Some false
  | S n' =>
      c ← arr_get held i;
      if c =? class_id then Some true else held_loop n' (i + 1) held class_id
  end.

Definition mcs_lockdep_is_held (s : ptr mcs_lockdep_state) (class_id : Z) : option bool :=
  match s with
  | Null => Some false
  | Ref s =>
      if class_id =? 0 then Some false
      else held_loop (Z.to_nat (Z.min (depth s) MCS_LOCKDEP_MAX_HELD)) 0 (held_class s) class_id
  end.

(** [state->violation_count++; return rc;] *)
Definition violation (s : mcs_lockdep_state) (rc : Z) : option (mcs_lockdep_state * Z) :=
  Some (MLockdep (held_class s) (held_name s) (depth s) (u32 (violation_count s + 1)), rc).

Definition mcs_lockdep_before_acquire (s : ptr mcs_lockdep_state) (class_id name : Z) :
    option (ptr mcs_lockdep_state * Z) :=
  match s with
  | Null => Some (Null, MCS_SYNC_EINVAL)
  | Ref s =>
      r ←
        (if class_id =? 0 then Some (s, MCS_SYNC_EINVAL) else
         if MCS_LOCKDEP_MAX_HELD <=? depth s then violation s MCS_SYNC_EOVERFLOW else
         dup ← held_loop (Z.to_nat (depth s)) 0 (held_class s) class_id;
         if (dup : bool) then violation s MCS_SYNC_EDEADLK else
         low ← (if 0 <? depth s then
                  top ← arr_get (held_class s) (depth s - 1); Some (class_id <? top)
                else Some false);
         if (low : bool) then violation s MCS_SYNC_EDEADLK else
         hc ← arr_set (held_class s) (depth s) class_id;
         hn ← arr_set (held_name s) (depth s) name;
         Some (MLockdep hc hn (depth s + 1) (violation_count s), MCS_SYNC_OK));
      Some (Ref r.1, r.2)
  end.

Definition mcs_lockdep_after_release (s : ptr mcs_lockdep_state) (class_id name : Z) :
    option (ptr mcs_lockdep_state * Z) :=
  match s with
  | Null => Some (Null, MCS_SYNC_EINVAL)
  | Ref s =>
      r ←
        (if class_id =? 0 then Some (s, MCS_SYNC_EINVAL) else
         if depth s =? 0 then violation s MCS_SYNC_EPERM else
         let index := depth s - 1 in
         top ← arr_get (held_class s) index;
         if negb (top =? class_id) then violation s MCS_SYNC_EDEADLK else
         hc ← arr_set (held_class s) index 0;
         hn ← arr_set (held_name s) index 0;
         Some (MLockdep hc hn (depth s - 1) (violation_count s), MCS_SYNC_OK));
      Some (Ref r.1, r.2)
  end.

(** *** The stack of held classes *)

(** The classes held, the most recent last. *)
Definition held (s : mcs_lockdep_state) : list Z := take (Z.to_nat (depth s)) (held_class s).

(** Strictly increasing from the bottom of the stack to its top. *)
Fixpoint increasing (l : list Z) : Prop :=
  match l with
  | [] => True
  | c :: l' => Forall (λ d, c < d) l' ∧ increasing l'
  end.

Record lockdep_ok (s : mcs_lockdep_state) : Prop := {
  lo_class : length (held_class s) = 16%nat;
  lo_name : length (held_name s) = 16%nat;
  lo_depth : 0 ≤ depth s ≤ 16;
  lo_order : increasing (held s);
  lo_nonzero : Forall (λ c, c ≠ 0) (held s);
}.

Lemma increasing_app l c : increasing (l ++ [c]) ↔ increasing l ∧ Forall (λ d, d < c) l.
Proof.
  induction l as [|d l IH]; simpl; [split; [done|intros _; by split; [|constructor]]|].
  rewrite IH, Forall_app, Forall_cons, !Forall_cons. split.
  - intros ([H1 [H2 _]] & H3 & H4). done.
  - intros ((H1 & H2) & H3 & H4). done.
Qed.

Lemma held_length s : lockdep_ok s → zlen (held s) = depth s.
Proof.
  intros [Hc _ Hd _ _]. unfold held, zlen. rewrite length_take. lia.
Qed.

Lemma held_loop_spec n i l c : 0 ≤ i → i + Z.of_nat n ≤ zlen l →
  held_loop n i l c = Some (bool_decide (c ∈ take n (drop (Z.to_nat i) l))).
Proof.
  revert i. induction n as [|n IH]; intros i Hi Hn; cbn [held_loop].
  { rewrite take_0. by rewrite bool_decide_false by apply not_elem_of_nil. }
  rewrite arr_get_nat by done. unfold zlen in *.
  destruct (lookup_lt_is_Some_2 l (Z.to_nat i)) as [x Hx]; [lia|]. rewrite Hx.
  rewrite (drop_S l x) by done. cbn [mbind option_bind take].
  destruct (Z.eqb_spec x c) as [->|Hxc].
  - by rewrite bool_decide_true by left.
  - rewrite IH by lia. replace (Z.to_nat (i + 1)) with (S (Z.to_nat i)) by lia.
    f_equal. apply bool_decide_ext. rewrite elem_of_cons. split; [by right|]. by intros [-> |].
Qed.

(** Replacing the array's entry [depth] pushes, entry [depth - 1] pops. *)
Lemma held_push s c n : lockdep_ok s → depth s < 16 →
  held (MLockdep (<[Z.to_nat (depth s) := c]> (held_class s)) n (depth s + 1)
    (violation_count s)) = held s ++ [c].
Proof.
  intros [Hc _ Hd _ _] Hlt. unfold held. cbn [depth held_class].
  replace (Z.to_nat (depth s + 1)) with (S (Z.to_nat (depth s))) by lia.
  rewrite (take_S_r _ _ c) by (apply list_lookup_insert_eq; lia).
  by rewrite take_insert_ge by lia.
Qed.

Lemma held_pop s n : lockdep_ok s → 0 < depth s →
  ∃ l c, held s = l ++ [c] ∧ arr_get (held_class s) (depth s - 1) = Some c ∧
    held (MLockdep (<[Z.to_nat (depth s - 1) := 0]> (held_class s)) n (depth s - 1)
      (violation_count s)) = l.
Proof.
  intros [Hc _ Hd _ _] Hlt.
  destruct (lookup_lt_is_Some_2 (held_class s) (Z.to_nat (depth s - 1))) as [c Hx]; [lia|].
  exists (take (Z.to_nat (depth s - 1)) (held_class s)), c. split; [|split].
  - unfold held. replace (Z.to_nat (depth s)) with (S (Z.to_nat (depth s - 1))) by lia.
    by apply take_S_r.
  - rewrite arr_get_nat by lia. done.
  - unfold held. cbn [depth held_class]. by rewrite take_insert_ge by lia.
Qed.

(** Whether the checker lets class [c] be acquired. *)
Definition may_acquire (s : mcs_lockdep_state) (c : Z) : Prop :=
  depth s < 16 ∧ Forall (λ d, d < c) (held s).

Lemma increasing_last l c d : increasing (l ++ [c]) → d ∈ l ++ [c] → d ≤ c.
Proof.
  rewrite increasing_app. intros [_ H]. rewrite elem_of_app, list_elem_of_singleton.
  intros [Hd| ->]; [|lia]. rewrite Forall_forall in H. specialize (H d Hd). simpl in H. lia.
Qed.

(** A class above all those held is pushed. *)
Lemma push_held s c n : lockdep_ok s → c ≠ 0 → depth s < 16 → Forall (λ d, d < c) (held s) →
  ∃ s', (hc ← arr_set (held_class s) (depth s) c;
         hn ← arr_set (held_name s) (depth s) n;
         Some (MLockdep hc hn (depth s + 1) (violation_count s), MCS_SYNC_OK)) = Some (s', MCS_SYNC_OK) ∧
    lockdep_ok s' ∧ held s' = held s ++ [c] ∧ violation_count s' = violation_count s.
Proof.
  intros Hok Hc0 Hlt Hf. pose proof Hok as [Hc Hn Hd Ho Hz].
  rewrite !arr_set_ok by (unfold zlen; lia). cbn [mbind option_bind]. eexists. split; [done|].
  pose proof (held_push s c (<[Z.to_nat (depth s):=n]> (held_name s)) Hok Hlt) as Hp.
  split; [|done]. split; cbn [held_class held_name depth]; rewrite ?length_insert; try done; try lia.
  - rewrite Hp. by apply increasing_app.
  - rewrite Hp. apply Forall_app. by split; [|constructor].
Qed.

Lemma before_acquire_run s c n : lockdep_ok s → c ≠ 0 →
  (may_acquire s c ∧
   ∃ s', mcs_lockdep_before_acquire (Ref s) c n = Some (Ref s', MCS_SYNC_OK) ∧
     lockdep_ok s' ∧ held s' = held s ++ [c] ∧ violation_count s' = violation_count s) ∨
  (¬ may_acquire s c ∧
   ∃ s' rc, mcs_lockdep_before_acquire (Ref s) c n = Some (Ref s', rc) ∧ lockdep_ok s' ∧
     rc = (if decide (depth s = 16) then MCS_SYNC_EOVERFLOW else MCS_SYNC_EDEADLK) ∧
     held s' = held s ∧ violation_count s' = u32 (violation_count s + 1)).
Proof.
  intros Hok Hc0. destruct (Hok) as [Hc Hn Hd Ho Hz].
  assert (∀ rc, violation s rc = Some (MLockdep (held_class s) (held_name s) (depth s)
    (u32 (violation_count s + 1)), rc)) as Hviol by done.
  unfold mcs_lockdep_before_acquire, may_acquire. rewrite (proj2 (Z.eqb_neq c 0)) by done.
  unfold MCS_LOCKDEP_MAX_HELD. destruct (Z.leb_spec 16 (depth s)).
  { right. split; [lia|]. rewrite Hviol. eexists _, _. split; [done|]. split; [by split|].
    split; [by rewrite decide_True by lia|done]. }
  rewrite (decide_False (P := depth s = 16)) by lia.
  rewrite held_loop_spec by (unfold zlen; lia). change (Z.to_nat 0) with 0%nat.
  rewrite drop_0. change (take _ _) with (held s). cbn [mbind option_bind].
  case_bool_decide as Hin.
  { right. split.
    - rewrite Forall_forall. intros [_ Hf]. specialize (Hf c Hin). simpl in Hf. lia.
    - rewrite Hviol. eexists _, _. split; [done|]. by split. }
  destruct (Z.ltb_spec 0 (depth s)) as [Hpos|Hzero].
  - destruct (held_pop s [] Hok Hpos) as (l & top & Hl & Htop & _). rewrite Htop.
    cbn [mbind option_bind]. rewrite Hl. rewrite Hl in Ho, Hin.
    destruct (Z.ltb_spec c top) as [Hlow|Hhigh].
    { right. split.
      - intros [_ Hf]. apply Forall_app in Hf as [_ [Hf _]%Forall_cons]. lia.
      - rewrite Hviol. eexists _, _. split; [done|]. rewrite <-Hl in *. by split. }
    assert (Forall (λ d, d < c) (l ++ [top])) as Hf.
    { rewrite Forall_forall. intros d Hd'. pose proof (increasing_last _ _ _ Ho Hd').
      assert (d ≠ c) by congruence. lia. }
    rewrite <-Hl in Hf |- *. left. split; [done|].
    destruct (push_held s c n Hok Hc0 ltac:(lia) Hf) as (s' & -> & Hs'). by exists s'.
  - cbn [mbind option_bind]. left.
    assert (held s = []) as Hnil.
    { apply length_zero_iff_nil. pose proof (held_length s Hok) as Hl. unfold zlen in Hl. lia. }
    assert (Forall (λ d, d < c) (held s)) as Hf by (rewrite Hnil; constructor).
    destruct (push_held s c n Hok Hc0 ltac:(lia) Hf) as (s' & -> & Hs'). split; [done|]. by exists s'.
Qed.

Lemma after_release_run s c n : lockdep_ok s → c ≠ 0 →
  (∃ l s', held s = l ++ [c] ∧
     mcs_lockdep_after_release (Ref s) c n = Some (Ref s', MCS_SYNC_OK) ∧
     lockdep_ok s' ∧ held s' = l ∧ violation_count s' = violation_count s) ∨
  (last (held s) ≠ Some c ∧
   ∃ s' rc, mcs_lockdep_after_release (Ref s) c n = Some (Ref s', rc) ∧ lockdep_ok s' ∧
     rc = (if decide (held s = []) then MCS_SYNC_EPERM else MCS_SYNC_EDEADLK) ∧
     held s' = held s ∧ violation_count s' = u32 (violation_count s + 1)).
Proof.
  intros Hok Hc0. destruct (Hok) as [Hc Hn Hd Ho Hz].
  unfold mcs_lockdep_after_release. rewrite (proj2 (Z.eqb_neq c 0)) by done.
  destruct (Z.eqb_spec (depth s) 0) as [E|E].
  - right. assert (held s = []) as Hnil.
    { apply length_zero_iff_nil. pose proof (held_length s Hok) as Hl. unfold zlen in Hl. lia. }
    rewrite Hnil. split; [done|]. eexists _, _. split; [done|]. split; [by split|].
    split; [by rewrite decide_True|]. done.
  - destruct (held_pop s (<[Z.to_nat (depth s - 1):=0]> (held_name s)) Hok) as
      (l & top & Hl & Htop & Hp); [lia|].
    cbv zeta. rewrite Htop. cbn [mbind option_bind].
    destruct (Z.eqb_spec top c) as [->|Hne]; cbn [negb].
    + left. rewrite !arr_set_ok by (unfold zlen; lia). cbn [mbind option_bind fst snd].
      eexists l, _. split; [done|]. split; [done|]. split; [|done].
      rewrite Hl in Ho, Hz. apply increasing_app in Ho as [Ho _]. apply Forall_app in Hz as [Hz _].
      split; cbn [held_class held_name depth fst]; rewrite ?length_insert, ?Hp; try done; lia.
    + right. split; [rewrite Hl, last_snoc; congruence|].
      eexists _, _. split; [done|]. split; [by split|]. split; [|done].
      rewrite decide_False; [done|]. rewrite Hl. by destruct l.
Qed.

(** *** Deadlock *)

(** A thread that called [before_acquire] and now waits for the lock has that
    class on top of its stack; the locks it really holds are below. *)
Definition wants (s : mcs_lockdep_state) : option Z := last (held s).
Definition owns (s : mcs_lockdep_state) (c : Z) : Prop := ∃ l w, held s = l ++ [w] ∧ c ∈ l.

Lemma owns_below s c w : lockdep_ok s → owns s c → wants s = Some w → c < w.
Proof.
  intros [_ _ _ Ho _] (l & w' & Hl & Hc) Hw. unfold wants in Hw.
  rewrite Hl in *. rewrite last_snoc in Hw. injection Hw as ->.
  apply increasing_app in Ho as [_ Ho]. rewrite Forall_forall in Ho. by apply Ho.
Qed.

(** States that calls of the checker can produce, with any arguments. *)
Inductive ld_reachable : mcs_lockdep_state → Prop :=
| LR_init s0 s : mcs_lockdep_init (Ref s0) = Ref s → ld_reachable s
| LR_acquire s c n s' rc : ld_reachable s →
    mcs_lockdep_before_acquire (Ref s) c n = Some (Ref s', rc) → ld_reachable s'
| LR_release s c n s' rc : ld_reachable s →
    mcs_lockdep_after_release (Ref s) c n = Some (Ref s', rc) → ld_reachable s'.

Lemma ld_reachable_ok s : ld_reachable s → lockdep_ok s.
Proof.
  induction 1 as [s0 s H|s c n s' rc _ Hok H|s c n s' rc _ Hok H].
  - injection H as <-. by split.
  - destruct (decide (c = 0)) as [->|Hc]; [by injection H as <- _|].
    destruct (before_acquire_run s c n Hok Hc) as [(_ & s2 & E & ? & _)|(_ & s2 & r & E & ? & _)];
      rewrite E in H; by injection H as <- _.
  - destruct (decide (c = 0)) as [->|Hc]; [by injection H as <- _|].
    destruct (after_release_run s c n Hok Hc) as [(l & s2 & _ & E & ? & _)|(_ & s2 & r & E & ? & _)];
      rewrite E in H; by injection H as <- _.
Qed.

(** The lock-order checker accepts an acquisition exactly if the class is
    higher than every class held and at most 15 are held, and then pushes it;
    a refusal returns [EOVERFLOW] when 16 are held and [EDEADLK] otherwise,
    counts one violation and changes nothing else.  No array access is out of
    bounds. *)
Theorem mcs_lockdep_before_acquire_correct (s : mcs_lockdep_state) (c name : Z) :
  ld_reachable s → c ≠ 0 →
  (may_acquire s c ∧
   ∃ s', mcs_lockdep_before_acquire (Ref s) c name = Some (Ref s', MCS_SYNC_OK) ∧
     held s' = held s ++ [c] ∧ violation_count s' = violation_count s) ∨
  (¬ may_acquire s c ∧
   ∃ s' rc, mcs_lockdep_before_acquire (Ref s) c name = Some (Ref s', rc) ∧
     rc = (if decide (depth s = 16) then MCS_SYNC_EOVERFLOW else MCS_SYNC_EDEADLK) ∧
     held s' = held s ∧ violation_count s' = u32 (violation_count s + 1)).
Proof.
  intros Hr Hc. destruct (before_acquire_run s c name (ld_reachable_ok s Hr) Hc)
    as [(H1 & s' & H2 & _ & H3)|(H1 & s' & rc & H2 & _ & H3)]; [left|right].
  - split; [done|]. by exists s'.
  - split; [done|]. by exists s', rc.
Qed.

(** C8. Threads that follow the checker cannot deadlock: if every thread takes
    a lock only after the checker accepted its class, no cycle of threads
    exists in which each waits for a class that the next one holds. *)
Theorem mcs_lockdep_no_deadlock (S : Z → mcs_lockdep_state) :
  (∀ i, ld_reachable (S i)) →
  ∀ i, ¬ tc (λ i j, ∃ w, wants (S i) = Some w ∧ owns (S j) w) i i.
Proof.
  intros Hr.
  assert (∀ i j, tc (λ i j, ∃ w, wants (S i) = Some w ∧ owns (S j) w) i j →
    ∃ wi wj, wants (S i) = Some wi ∧ wants (S j) = Some wj ∧ wi < wj) as Hlt.
  { assert (∀ i j w, wants (S i) = Some w → owns (S j) w →
      ∃ wj, wants (S j) = Some wj ∧ w < wj) as Hstep.
    { intros i j w _ Ho. pose proof Ho as (l & w' & Hl & _).
      assert (wants (S j) = Some w') as Hw' by (unfold wants; by rewrite Hl, last_snoc).
      exists w'. split; [done|]. eapply owns_below; [|done|done]. by apply ld_reachable_ok. }
    induction 1 as [i j (w & Hw & Ho)|i j k (w & Hw & Ho) _ (wj & wk & Hwj & Hwk & Hlt)].
    - destruct (Hstep i j w Hw Ho) as (wj & Hwj & Hlt). by exists w, wj.
    - destruct (Hstep i j w Hw Ho) as (wj' & Hwj' & Hlt'). exists w, wk.
      split; [done|]. split; [done|]. simplify_eq. lia. }
  intros i Hi. destruct (Hlt i i Hi) as (wi & wj & H1 & H2 & H3). simplify_eq. lia.
Qed.

Definition demo_acquire (c : Z) (s : mcs_lockdep_state) : mcs_lockdep_state :=
  match mcs_lockdep_before_acquire (Ref s) c 0 with Some (Ref s', _) => s' | _ => s end.
Definition demo_init : mcs_lockdep_state := MLockdep (replicate 16 0) (replicate 16 0) 0 0.
Definition demo_held : mcs_lockdep_state := demo_acquire 20 (demo_acquire 10 demo_init).

Lemma demo_lockdep_reachable : ld_reachable demo_held.
Proof.
  apply (LR_acquire (demo_acquire 10 demo_init) 20 0 _ 0); [|vm_compute; reflexivity].
  apply (LR_acquire demo_init 10 0 _ 0); [|vm_compute; reflexivity].
  by apply (LR_init demo_init).
Qed.

(** Class 15 under 20 is refused. *)
Lemma mcs_lockdep_before_acquire_correct_witness :
  held demo_held = [10; 20] ∧
  ((may_acquire demo_held 15 ∧
   ∃ s', mcs_lockdep_before_acquire (Ref demo_held) 15 7 = Some (Ref s', MCS_SYNC_OK) ∧
     held s' = held demo_held ++ [15] ∧ violation_count s' = violation_count demo_held) ∨
  (¬ may_acquire demo_held 15 ∧
   ∃ s' rc, mcs_lockdep_before_acquire (Ref demo_held) 15 7 = Some (Ref s', rc) ∧
     rc = (if decide (depth demo_held = 16) then MCS_SYNC_EOVERFLOW else MCS_SYNC_EDEADLK) ∧
     held s' = held demo_held ∧ violation_count s' = u32 (violation_count demo_held + 1))).
Proof.
  split; [reflexivity|].
  apply (mcs_lockdep_before_acquire_correct demo_held 15 7 demo_lockdep_reachable). discriminate.
Defined.

Lemma mcs_lockdep_no_deadlock_witness :
  wants demo_held = Some 20 ∧
  ∀ i, ¬ tc (λ i j : Z, ∃ w, wants ((λ _, demo_held) i) = Some w ∧ owns ((λ _, demo_held) j) w) i i.
Proof.
  split; [reflexivity|]. apply (mcs_lockdep_no_deadlock (λ _, demo_held)).
  intros _. apply demo_lockdep_reachable.
Defined.
End Lockdep.

(** ** Locks as sequences of atomic accesses *)

(** A function made of atomic accesses to an object of type [S]: [Act f k] is
    one access, which turns the object [s] into [f s]; what the function does
    next depends on the [s] it saw. *)
Inductive prog (S A : Type) : Type :=
| Ret (a : A)
| Act (f : S → S) (k : S → prog S A).
Arguments Ret {S A} a.
Arguments Act {S A} f k.

(** The function run to its end with nobody interfering. *)
Fixpoint run {S A} (p : prog S A) (s : S) : S * A :=
  match p with
  | Ret a => (s, a)
  | Act f k => run (k s) (f s)
  end.

Module Mutex.

Definition set_locked (x : Z) (m : mcs_mutex) : mcs_mutex :=
  MMutex x (m_owner m) (m_class_id m) (m_name m).
Definition set_owner (x : Z) (m : mcs_mutex) : mcs_mutex :=
  MMutex (m_locked m) x (m_class_id m) (m_name m).

Definition mcs_mutex_init (m : ptr mcs_mutex) (class_id name : Z) : ptr mcs_mutex :=
  match m with Null => Null | Ref _ => Ref (MMutex 0 0 class_id name) end.

(** [mcs_mutex_try_lock] after its compare-and-swap succeeded, and failed. *)
Definition try_won (owner_id : Z) : prog mcs_mutex Z :=
  Act (set_owner owner_id) (λ _, Ret MCS_SYNC_OK).
Definition try_lost (owner_id : Z) : prog mcs_mutex Z :=
  Act (λ m, m) (λ m, Ret (if m_owner m =? owner_id then MCS_SYNC_EDEADLK else MCS_SYNC_EBUSY)).
Definition mcs_mutex_try_lock (owner_id : Z) : prog mcs_mutex Z :=
  if owner_id =? 0 then Ret MCS_SYNC_EINVAL else
  Act (λ m, if m_locked m =? 0 then set_locked 1 m else m)
      (λ m, if m_locked m =? 0 then try_won owner_id else try_lost owner_id).

(** [mcs_mutex_unlock] once the owner is checked, and once it is cleared. *)
Definition unlock_release : prog mcs_mutex Z :=
  Act (set_locked 0) (λ _, Ret MCS_SYNC_OK).
Definition unlock_clear : prog mcs_mutex Z := Act (set_owner 0) (λ _, unlock_release).
Definition mcs_mutex_unlock (owner_id : Z) : prog mcs_mutex Z :=
  if owner_id =? 0 then Ret MCS_SYNC_EINVAL else
  Act (λ m, m) (λ m, if m_owner m =? owner_id then unlock_clear else Ret MCS_SYNC_EPERM).

Definition mcs_mutex_is_locked (m : ptr mcs_mutex) : bool :=
  match m with Null => false | Ref m => negb (m_locked m =? 0) end.
Definition mcs_mutex_owner (m : ptr mcs_mutex) : Z :=
  match m with Null => 0 | Ref m => m_owner m end.

(** *** Threads that call the two functions in any order *)

Inductive call := CTry | CUnlock.

(** [t_hold]: the last successful [try_lock] has not been undone; [t_call]:
    the call in progress. *)
Record thread := Thread {
  t_hold : bool;
  t_call : option (call * prog mcs_mutex Z);
}.

(** Threads are named by their owner id. *)
Record sys := Sys {
  mutex : mcs_mutex;
  thr : gmap Z thread;
}.

Definition start (c : call) (i : Z) : prog mcs_mutex Z :=
  match c with CTry => mcs_mutex_try_lock i | CUnlock => mcs_mutex_unlock i end.

(** What returning [r] from [c] means for the caller. *)
Definition finish (c : call) (hold : bool) (r : Z) : bool :=
  match c with
  | CTry => if r =? MCS_SYNC_OK then true else hold
  | CUnlock => if r =? MCS_SYNC_OK then false else hold
  end.

(** One step of thread [i]: begin a call, one atomic access, or return. *)
Inductive step (x : sys) : sys → Prop :=
| St_call i h c : thr x !! i = Some (Thread h None) →
    step x (Sys (mutex x) (<[i := Thread h (Some (c, start c i))]> (thr x)))
| St_act i h c f k : thr x !! i = Some (Thread h (Some (c, Act f k))) →
    step x (Sys (f (mutex x)) (<[i := Thread h (Some (c, k (mutex x)))]> (thr x)))
| St_return i h c r : thr x !! i = Some (Thread h (Some (c, Ret r))) →
    step x (Sys (mutex x) (<[i := Thread (finish c h r) None]> (thr x))).

Inductive reachable : sys → Prop :=
| R_init class_id name T : (∀ i t, T !! i = Some t → i ≠ 0 ∧ t = Thread false None) →
    reachable (Sys (MMutex 0 0 class_id name) T)
| R_step x x' : reachable x → step x x' → reachable x'.

(** Inside the critical section: the lock was obtained and no unlock begun. *)
Definition critical (t : thread) : Prop :=
  t_hold t = true ∧ ∀ p, t_call t ≠ Some (CUnlock, p).

(** *** The protocol *)

(** What a thread has of the mutex: nothing, the flag only, or flag and owner
    field. *)
Inductive part := Nothing | Flag | Full.

Inductive role (i : Z) : thread → part → Prop :=
| Ro_idle : role i (Thread false None) Nothing
| Ro_try : role i (Thread false (Some (CTry, mcs_mutex_try_lock i))) Nothing
| Ro_lost : role i (Thread false (Some (CTry, try_lost i))) Nothing
| Ro_busy : role i (Thread false (Some (CTry, Ret MCS_SYNC_EBUSY))) Nothing
| Ro_won : role i (Thread false (Some (CTry, try_won i))) Flag
| Ro_got : role i (Thread false (Some (CTry, Ret MCS_SYNC_OK))) Full
| Ro_in : role i (Thread true None) Full
| Ro_retry : role i (Thread true (Some (CTry, mcs_mutex_try_lock i))) Full
| Ro_relost : role i (Thread true (Some (CTry, try_lost i))) Full
| Ro_dead : role i (Thread true (Some (CTry, Ret MCS_SYNC_EDEADLK))) Full
| Ro_unlock : role i (Thread true (Some (CUnlock, mcs_mutex_unlock i))) Full
| Ro_clear : role i (Thread true (Some (CUnlock, unlock_clear))) Full
| Ro_release : role i (Thread true (Some (CUnlock, unlock_release))) Flag
| Ro_done : role i (Thread true (Some (CUnlock, Ret MCS_SYNC_OK))) Nothing
| Ro_wrong : role i (Thread false (Some (CUnlock, mcs_mutex_unlock i))) Nothing
| Ro_perm : role i (Thread false (Some (CUnlock, Ret MCS_SYNC_EPERM))) Nothing.

(** Who has the mutex, and what its fields then are. *)
Definition fields (h : option (Z * part)) (m : mcs_mutex) : Prop :=
  match h with
  | None => m_locked m = 0 ∧ m_owner m = 0
  | Some (i, Flag) => m_locked m = 1 ∧ m_owner m = 0
  | Some (i, Full) => m_locked m = 1 ∧ m_owner m = i
  | Some (i, Nothing) => False
  end.
Definition part_of (h : option (Z * part)) (i : Z) : part :=
  match h with
  | Some (j, p) => if decide (i = j) then p else Nothing
  | None => Nothing
  end.

Definition inv (x : sys) : Prop :=
  ∃ h, fields h (mutex x) ∧
    ∀ i t, thr x !! i = Some t → i ≠ 0 ∧ role i t (part_of h i).

(** Thread [i] moves and now has the part [p]. *)
Definition give (h : option (Z * part)) (i : Z) (p : part) : option (Z * part) :=
  match p with
  | Nothing => match part_of h i with Nothing => h | _ => None end
  | _ => Some (i, p)
  end.

Lemma part_of_give h i p m : fields h m → (p = Nothing ∨ part_of h i ≠ Nothing ∨ h = None) →
  part_of (give h i p) i = p ∧ ∀ j, j ≠ i → part_of (give h i p) j = part_of h j.
Proof.
  intros Hf Hc. unfold give. destruct h as [[k q]|]; simpl in *.
  - destruct p; simpl; repeat (case_decide; subst; simpl; try done); destruct q; simpl;
      repeat (case_decide; subst; simpl; try done); (split; [done|]); intros;
      repeat (case_decide; subst; simpl; try done);
      destruct Hc as [?|[?|?]]; congruence.
  - destruct p; simpl; rewrite ?decide_True by done; (split; [done|]); intros;
      rewrite ?decide_False by done; done.
Qed.

Lemma inv_step_thread x i t h p t' m' :
  fields h (mutex x) → (∀ i t, thr x !! i = Some t → i ≠ 0 ∧ role i t (part_of h i)) →
  thr x !! i = Some t → (p = Nothing ∨ part_of h i ≠ Nothing ∨ h = None) →
  fields (give h i p) m' → role i t' p →
  inv (Sys m' (<[i := t']> (thr x))).
Proof.
  intros Hf Hall Hi Hc Hf' Hr. exists (give h i p). split; [done|].
  destruct (part_of_give h i p _ Hf Hc) as [Hp Hother].
  intros j tj Hj. cbn [thr] in Hj. destruct (decide (j = i)) as [->|Hne].
  - rewrite lookup_insert_eq in Hj. injection Hj as <-. rewrite Hp.
    split; [by apply (Hall i t)|done].
  - rewrite lookup_insert_ne in Hj by done. rewrite Hother by done. by apply Hall.
Qed.

(** The part a thread plays determines the fields it may rely on. *)
Lemma fields_part h i p m : fields h m → part_of h i = p → p ≠ Nothing →
  h = Some (i, p) ∧ m_locked m = 1 ∧ (p = Full → m_owner m = i) ∧ (p = Flag → m_owner m = 0).
Proof.
  intros Hf Hp Hn. destruct h as [[j q]|]; simpl in *; [|by subst].
  case_decide; subst; [|done]. by destruct p, Hf.
Qed.

Lemma fields_other h i m : fields h m → part_of h i = Nothing → i ≠ 0 → m_owner m ≠ i.
Proof.
  intros Hf Hp Hi. destruct h as [[j q]|]; simpl in *; [|by destruct Hf as [_ ->]].
  case_decide; subst; [done|]. destruct q; [done|by destruct Hf as [_ ->]|].
  by destruct Hf as [_ ->].
Qed.

Lemma fields_free h m : fields h m → m_locked m = 0 ↔ h = None.
Proof.
  intros Hf. destruct h as [[j []]|]; simpl in *; try done; destruct Hf as [-> _]; done.
Qed.

Lemma inv_act x i h t c f k :
  fields h (mutex x) → (∀ i t, thr x !! i = Some t → i ≠ 0 ∧ role i t (part_of h i)) →
  thr x !! i = Some (Thread t (Some (c, Act f k))) →
  inv (Sys (f (mutex x)) (<[i := Thread t (Some (c, k (mutex x)))]> (thr x))).
Proof.
  intros Hf Hall Hi. destruct (Hall i _ Hi) as [Hi0 Hr].
  assert ((i =? 0) = false) as E0 by by apply Z.eqb_neq.
  inversion Hr; subst; clear Hr;
    try match goal with H : _ = Act f k |- _ =>
      unfold mcs_mutex_try_lock, mcs_mutex_unlock, try_lost, try_won, unlock_clear,
        unlock_release in H; rewrite ?E0 in H; first [discriminate H|injection H as <- <-] end.
  all: match goal with H : _ = part_of _ _ |- _ => symmetry in H; rename H into Hp end.
  all: try (pose proof (fields_part h i _ _ Hf Hp ltac:(done)) as (-> & Hlk & Hown & Hzero)).
  all: try (assert (give h i Nothing = h) as Hgive by (unfold give; by rewrite Hp)).
  all: try (pose proof (fields_other h i _ Hf Hp Hi0) as Hother).
  - destruct (Z.eqb_spec (m_locked (mutex x)) 0) as [El|El].
    + pose proof (proj1 (fields_free h _ Hf) El) as ->. pose proof Hf as [_ Ho].
      eapply (inv_step_thread x i _ None Flag); try done; [by right; right|apply Ro_won].
    + eapply (inv_step_thread x i _ h Nothing); try done; [by left|by rewrite Hgive|apply Ro_lost].
  - rewrite (proj2 (Z.eqb_neq _ i)) by done.
    eapply (inv_step_thread x i _ h Nothing); try done; [by left|by rewrite Hgive|apply Ro_busy].
  - eapply (inv_step_thread x i _ _ Full); try done; [right; left; by rewrite Hp|apply Ro_got].
  - rewrite Hlk. cbn [Z.eqb].
    eapply (inv_step_thread x i _ _ Full); try done; [right; left; by rewrite Hp|apply Ro_relost].
  - rewrite Hown, Z.eqb_refl by done.
    eapply (inv_step_thread x i _ _ Full); try done; [right; left; by rewrite Hp|apply Ro_dead].
  - rewrite Hown, Z.eqb_refl by done.
    eapply (inv_step_thread x i _ _ Full); try done; [right; left; by rewrite Hp|apply Ro_clear].
  - eapply (inv_step_thread x i _ _ Flag); try done; [right; left; by rewrite Hp|apply Ro_release].
  - eapply (inv_step_thread x i _ _ Nothing); try done; [by left| |apply Ro_done].
    unfold give. rewrite Hp. split; [done|]. by apply Hzero.
  - rewrite (proj2 (Z.eqb_neq _ i)) by done.
    eapply (inv_step_thread x i _ h Nothing); try done; [by left|by rewrite Hgive|apply Ro_perm].
Qed.

Lemma inv_call x i h t c :
  fields h (mutex x) → (∀ i t, thr x !! i = Some t → i ≠ 0 ∧ role i t (part_of h i)) →
  thr x !! i = Some (Thread t None) →
  inv (Sys (mutex x) (<[i := Thread t (Some (c, start c i))]> (thr x))).
Proof.
  intros Hf Hall Hi. destruct (Hall i _ Hi) as [Hi0 Hr].
  inversion Hr as [E1 E2| | | | | |E1 E2| | | | | | | | |]; subst.
  - assert (give h i Nothing = h) as Hgive by (unfold give; by rewrite <-E2).
    eapply (inv_step_thread x i _ h Nothing); try done; [by left|by rewrite Hgive|].
    destruct c; constructor.
  - symmetry in E2. pose proof (fields_part h i _ _ Hf E2 ltac:(done)) as (-> & ? & ? & _).
    eapply (inv_step_thread x i _ _ Full); try done; [right; left; by rewrite E2|].
    destruct c; constructor.
Qed.

Lemma inv_return x i h t c r :
  fields h (mutex x) → (∀ i t, thr x !! i = Some t → i ≠ 0 ∧ role i t (part_of h i)) →
  thr x !! i = Some (Thread t (Some (c, Ret r))) →
  inv (Sys (mutex x) (<[i := Thread (finish c t r) None]> (thr x))).
Proof.
  intros Hf Hall Hi. destruct (Hall i _ Hi) as [Hi0 Hr].
  assert ((i =? 0) = false) as E0 by by apply Z.eqb_neq.
  inversion Hr; subst; clear Hr;
    try match goal with H : _ = Ret r |- _ =>
      unfold mcs_mutex_try_lock, mcs_mutex_unlock in H; rewrite E0 in H; discriminate H end.
  all: match goal with H : _ = part_of _ _ |- _ => symmetry in H; rename H into Hp end.
  all: try (assert (give h i Nothing = h) as Hgive by (unfold give; by rewrite Hp)).
  all: try (pose proof (fields_part h i _ _ Hf Hp ltac:(done)) as (-> & ? & ? & _)).
  1,4,5: eapply (inv_step_thread x i _ h Nothing); try done; [by left|by rewrite Hgive|constructor].
  all: eapply (inv_step_thread x i _ _ Full); try done; [right; left; by rewrite Hp|constructor].
Qed.

Lemma mutex_reachable_inv x : reachable x → inv x.
Proof.
  induction 1 as [cl nm T HT|x x' _ (h & Hf & Hall) Hstep].
  - exists None. split; [done|]. intros i t Hi. cbn [thr] in Hi.
    destruct (HT i t Hi) as [Hi0 ->]. split; [done|]. apply Ro_idle.
  - destruct Hstep as [i t c Hi|i t c f k Hi|i t c r Hi].
    + by eapply inv_call.
    + by eapply inv_act.
    + by eapply inv_return.
Qed.

(** C9. The mutex excludes: in every interleaving of any number of threads
    that call [mcs_mutex_try_lock] and [mcs_mutex_unlock] in any order and as
    often as they like, also without holding the mutex, at most one thread is
    in its critical section. *)
Theorem mcs_mutex_exclusive (x : sys) (i j : Z) (ti tj : thread) :
  reachable x → thr x !! i = Some ti → thr x !! j = Some tj →
  critical ti → critical tj → i = j.
Proof.
  intros Hr Hi Hj Hci Hcj. destruct (mutex_reachable_inv x Hr) as (h & Hf & Hall).
  assert (∀ i t, thr x !! i = Some t → critical t → h = Some (i, Full)) as Hown.
  { intros k t Hk [Ht Hnu]. destruct (Hall k t Hk) as [_ Hro].
    assert (part_of h k = Full) as Hp.
    { inversion Hro; subst; simpl in *; try done; by edestruct Hnu. }
    by destruct (fields_part h k Full _ Hf Hp ltac:(done)) as [-> _]. }
  pose proof (Hown i ti Hi Hci). pose proof (Hown j tj Hj Hcj). congruence.
Qed.

(** What the calls return, in every interleaving: [mcs_mutex_try_lock]
    called by the holder returns [EDEADLK], by anybody else 0 or [EBUSY];
    [mcs_mutex_unlock] called by the holder returns 0 and by anybody else
    [EPERM]. *)
Theorem mcs_mutex_returns (x : sys) (i : Z) (hold : bool) (c : call) (r : Z) :
  reachable x → thr x !! i = Some (Thread hold (Some (c, Ret r))) →
  match c, hold with
  | CTry, true => r = MCS_SYNC_EDEADLK
  | CTry, false => r = MCS_SYNC_OK ∨ r = MCS_SYNC_EBUSY
  | CUnlock, true => r = MCS_SYNC_OK
  | CUnlock, false => r = MCS_SYNC_EPERM
  end.
Proof.
  intros Hr Hi. destruct (mutex_reachable_inv x Hr) as (h & Hf & Hall).
  destruct (Hall i _ Hi) as [Hi0 Hro].
  assert ((i =? 0) = false) as E0 by by apply Z.eqb_neq.
  inversion Hro; subst; try tauto;
    match goal with H : _ = Ret r |- _ =>
      unfold mcs_mutex_try_lock, mcs_mutex_unlock in H; rewrite E0 in H; discriminate H end.
Qed.
End Mutex.

(** ** The spinlock *)

Module Spin.

Definition set_locked (x : Z) (l : mcs_spinlock) : mcs_spinlock :=
  MSpin x (s_class_id l) (s_name l).

Definition mcs_spin_init (l : ptr mcs_spinlock) (class_id name : Z) : ptr mcs_spinlock :=
  match l with Null => Null | Ref _ => Ref (MSpin 0 class_id name) end.

(** The atomic exchange, and whether it found the lock free. *)
Definition mcs_spin_try_lock : prog mcs_spinlock bool :=
  Act (set_locked 1) (λ l, Ret (s_locked l =? 0)).

(** [mcs_spin_lock] is two nested loops; a thread in it is about to try or
    waiting for the lock to look free. *)
Inductive spin_pc := Trying | Waiting.
Definition mcs_spin_lock_step (pc : spin_pc) (l : mcs_spinlock) :
    mcs_spinlock * (spin_pc + unit) :=
  match pc with
  | Trying =>
      let r := run mcs_spin_try_lock l in (r.1, if r.2 then inr tt else inl Waiting)
  | Waiting => (l, inl (if s_locked l =? 0 then Trying else Waiting))
  end.

Definition mcs_spin_unlock : prog mcs_spinlock unit := Act (set_locked 0) (λ _, Ret tt).
Definition mcs_spin_is_locked (l : ptr mcs_spinlock) : bool :=
  match l with Null => false | Ref l => negb (s_locked l =? 0) end.

(** Threads that take the lock and give back what they took. *)
Inductive status := Outside | Locking (pc : spin_pc) | Inside.
Record sys := Sys { lock : mcs_spinlock; thr : gmap Z status }.

Definition after_step (r : spin_pc + unit) : status :=
  match r with inl pc => Locking pc | inr _ => Inside end.

Inductive step (x : sys) (i : Z) : sys → Prop :=
| St_call : thr x !! i = Some Outside →
    step x i (Sys (lock x) (<[i := Locking Trying]> (thr x)))
| St_lock pc : thr x !! i = Some (Locking pc) →
    let r := mcs_spin_lock_step pc (lock x) in
    step x i (Sys r.1 (<[i := after_step r.2]> (thr x)))
| St_unlock : thr x !! i = Some Inside →
    step x i (Sys (run mcs_spin_unlock (lock x)).1 (<[i := Outside]> (thr x))).

Inductive reachable : sys → Prop :=
| R_init cl nm T : (∀ i t, T !! i = Some t → t = Outside) → reachable (Sys (MSpin 0 cl nm) T)
| R_step x i x' : reachable x → step x i x' → reachable x'.

(** The holder, and the flag that says there is one. *)
Definition inv (x : sys) : Prop :=
  (s_locked (lock x) = 0 ∧ ∀ i, thr x !! i ≠ Some Inside) ∨
  (s_locked (lock x) = 1 ∧ ∃ h, ∀ i, thr x !! i = Some Inside ↔ i = h).

Lemma inv_keep x i t l : inv x → s_locked l = s_locked (lock x) → t ≠ Inside →
  thr x !! i ≠ Some Inside → inv (Sys l (<[i := t]> (thr x))).
Proof.
  intros Hinv Hl Ht Hi. unfold inv. cbn [lock thr]. rewrite Hl.
  assert (∀ j, <[i := t]> (thr x) !! j = Some Inside ↔ thr x !! j = Some Inside) as Hiff.
  { intros j. destruct (decide (j = i)) as [->|]; [|by rewrite lookup_insert_ne].
    rewrite lookup_insert_eq. split; [congruence|done]. }
  destruct Hinv as [[H0 Hn]|[H1 [h Hh]]]; [left|right].
  - split; [done|]. intros j. by rewrite Hiff.
  - split; [done|]. exists h. intros j. by rewrite Hiff.
Qed.

Lemma spin_reachable_inv x : reachable x → inv x.
Proof.
  induction 1 as [cl nm T HT|x i x' _ Hinv Hstep].
  { left. split; [done|]. intros i Hi. by apply HT in Hi. }
  destruct Hstep as [Hi|pc Hi|Hi].
  - apply inv_keep; [done..|]. by rewrite Hi.
  - destruct pc; cbn.
    + destruct Hinv as [[H0 Hn]|[H1 [h Hh]]].
      * rewrite H0. right. split; [done|]. exists i. intros j. cbn [thr after_step Z.eqb].
        destruct (decide (j = i)) as [->|]; [by rewrite lookup_insert_eq|].
        rewrite lookup_insert_ne by done. split; [|done]. by intros ?%Hn.
      * rewrite H1. apply inv_keep; try done; [by right; split; [|exists h]|by rewrite Hi].
    + destruct (s_locked (lock x) =? 0); apply inv_keep; try done; by rewrite Hi.
  - left. split; [done|]. intros j Hj. cbn [thr] in Hj.
    destruct Hinv as [[H0 Hn]|[H1 [h Hh]]]; [by apply Hn in Hi|].
    destruct (decide (j = i)) as [->|]; [by rewrite lookup_insert_eq in Hj|].
    rewrite lookup_insert_ne in Hj by done. apply Hh in Hi, Hj. congruence.
Qed.

(** C38. The spinlock excludes and is available: in every interleaving of any
    number of threads at most one is between [mcs_spin_lock] and
    [mcs_spin_unlock], and when none is, a thread inside [mcs_spin_lock]
    obtains the lock after at most two of its own steps if the others pause. *)
Theorem mcs_spin_lock_correct (x : sys) :
  reachable x →
  (∀ i j, thr x !! i = Some Inside → thr x !! j = Some Inside → i = j) ∧
  ((∀ i, thr x !! i ≠ Some Inside) → ∀ i pc, thr x !! i = Some (Locking pc) →
   ∃ x1 x2, step x i x1 ∧ (x2 = x1 ∨ step x1 i x2) ∧ thr x2 !! i = Some Inside).
Proof.
  intros Hr. pose proof (spin_reachable_inv x Hr) as Hinv. split.
  - intros i j Hi Hj. destruct Hinv as [[_ Hn]|[_ [h Hh]]]; [by apply Hn in Hi|].
    apply Hh in Hi, Hj. congruence.
  - intros Hn i pc Hi. destruct Hinv as [[H0 _]|[_ [h Hh]]].
    2:{ exfalso. apply (Hn h). by apply Hh. }
    assert (∀ y, s_locked (lock y) = 0 → thr y !! i = Some (Locking Trying) →
      ∃ z, step y i z ∧ thr z !! i = Some Inside) as Htry.
    { intros y Hy Hyi. eexists. split; [by apply (St_lock y i Trying)|].
      cbn. rewrite Hy. apply lookup_insert_eq. }
    destruct pc.
    + destruct (Htry x H0 Hi) as (z & Hz & Hin). exists z, z. split; [done|]. split; [by left|done].
    + pose proof (St_lock x i Waiting Hi) as Hs. cbn in Hs. rewrite H0 in Hs. cbn in Hs.
      destruct (Htry (Sys (lock x) (<[i := Locking Trying]> (thr x)))) as (z & Hz & Hin);
        [done|apply lookup_insert_eq|].
      eexists _, z. split; [exact Hs|]. split; [by right|done].
Qed.
End Spin.

(** ** The boot self test *)

Section Selftest.
Import Lockdep Spin.

(** The static objects of [m12_selftest.c]; [None] is a panic. *)
Record selftest_state := Selftest {
  boot_stats_lock : mcs_spinlock;
  boot_lockdep : mcs_lockdep_state;
  boot_counter : Z;
}.

(** [mcs_spin_lock] with nobody else running: it returns if the lock is free
    and spins for ever otherwise ([None]). *)
Definition spin_lock_alone (l : mcs_spinlock) : option mcs_spinlock :=
  match mcs_spin_lock_step Trying l with (l', inr _) => Some l' | _ => None end.

Definition as_ref {A} (p : ptr A) : option A := match p with Ref a => Some a | Null => None end.

Definition m12_sync_selftest (name : Z) (s : selftest_state) : option selftest_state :=
  ld ← as_ref (mcs_lockdep_init (Ref (boot_lockdep s)));
  l ← as_ref (mcs_spin_init (Ref (boot_stats_lock s)) 10 name);
  '(ld, rc) ← mcs_lockdep_before_acquire (Ref ld) 10 name;
  if negb (rc =? MCS_SYNC_OK) then None else
  l ← spin_lock_alone l;
  let counter := u64 (boot_counter s + 1) in
  let l := (run mcs_spin_unlock l).1 in
  '(ld, rc) ← mcs_lockdep_after_release ld 10 name;
  if negb (rc =? MCS_SYNC_OK) then None else
  ld ← as_ref ld;
  Some (Selftest l ld counter).

(** The self test passes from any state of its objects: it neither panics nor
    spins, and leaves the lock free and nothing held. *)
Lemma m12_sync_selftest_passes name s : ∃ s',
  m12_sync_selftest name s = Some s' ∧ s_locked (boot_stats_lock s') = 0 ∧
  held (boot_lockdep s') = [] ∧ boot_counter s' = u64 (boot_counter s + 1).
Proof. eexists. split; [reflexivity|]. done. Qed.
End Selftest.

(** ** Concrete interleavings *)

Section Demo.
Import Mutex.

(** Thread 1 gets the mutex, thread 2 tries and fails. *)
Definition demo_threads : gmap Z thread :=
  <[1 := Thread false None]> (<[2 := Thread false None]> ∅).
Definition demo_0 : sys := Sys (MMutex 0 0 5 6) demo_threads.
Definition demo_at (i : Z) (t : thread) (m : mcs_mutex) (x : sys) : sys :=
  Sys m (<[i := t]> (thr x)).
Definition demo_1 : sys := demo_at 1 (Thread false (Some (CTry, start CTry 1))) (mutex demo_0) demo_0.
Definition demo_2 : sys :=
  demo_at 1 (Thread false (Some (CTry, try_won 1))) (MMutex 1 0 5 6) demo_1.
Definition demo_3 : sys :=
  demo_at 1 (Thread false (Some (CTry, Ret MCS_SYNC_OK))) (MMutex 1 1 5 6) demo_2.
Definition demo_4 : sys := demo_at 1 (Thread true None) (MMutex 1 1 5 6) demo_3.
Definition demo_5 : sys := demo_at 2 (Thread false (Some (CTry, start CTry 2))) (mutex demo_4) demo_4.
Definition demo_6 : sys := demo_at 2 (Thread false (Some (CTry, try_lost 2))) (mutex demo_5) demo_5.
Definition demo_7 : sys :=
  demo_at 2 (Thread false (Some (CTry, Ret MCS_SYNC_EBUSY))) (mutex demo_6) demo_6.

Lemma demo_4_reachable : reachable demo_4.
Proof.
  assert (reachable demo_0) as H0.
  { apply R_init. intros i t. unfold demo_threads.
    rewrite !lookup_insert_Some, lookup_empty. intros [[<- <-]|[_ [[<- <-]|[_ ?]]]]; done. }
  apply (R_step demo_3); [apply (R_step demo_2); [apply (R_step demo_1);
    [apply (R_step demo_0); [exact H0|]|]|]|].
  - by apply (St_call demo_0 1 false CTry).
  - by apply (St_act demo_1 1 false CTry (λ m, if m_locked m =? 0 then set_locked 1 m else m)
      (λ m, if m_locked m =? 0 then try_won 1 else try_lost 1)).
  - by apply (St_act demo_2 1 false CTry (set_owner 1) (λ _, Ret MCS_SYNC_OK)).
  - by apply (St_return demo_3 1 false CTry MCS_SYNC_OK).
Qed.

Lemma demo_7_reachable : reachable demo_7.
Proof.
  apply (R_step demo_6); [apply (R_step demo_5); [apply (R_step demo_4);
    [exact demo_4_reachable|]|]|].
  - by apply (St_call demo_4 2 false CTry).
  - by apply (St_act demo_5 2 false CTry (λ m, if m_locked m =? 0 then set_locked 1 m else m)
      (λ m, if m_locked m =? 0 then try_won 2 else try_lost 2)).
  - by apply (St_act demo_6 2 false CTry (λ m, m) (λ m, Ret (if m_owner m =? 2
      then MCS_SYNC_EDEADLK else MCS_SYNC_EBUSY))).
Qed.

Lemma mcs_mutex_exclusive_witness :
  thr demo_4 !! 1 = Some (Thread true None) ∧ critical (Thread true None) ∧
  (∀ tj, thr demo_4 !! 1 = Some tj → critical tj → 1 = 1).
Proof.
  split; [reflexivity|]. split; [by split|]. intros tj Hj Hc.
  apply (mcs_mutex_exclusive demo_4 1 1 (Thread true None) tj demo_4_reachable);
    [reflexivity|exact Hj|by split|exact Hc].
Defined.

Lemma mcs_mutex_returns_witness :
  thr demo_7 !! 2 = Some (Thread false (Some (CTry, Ret MCS_SYNC_EBUSY))) ∧
  (MCS_SYNC_EBUSY = MCS_SYNC_OK ∨ MCS_SYNC_EBUSY = MCS_SYNC_EBUSY).
Proof.
  split; [reflexivity|].
  apply (mcs_mutex_returns demo_7 2 false CTry MCS_SYNC_EBUSY demo_7_reachable). reflexivity.
Defined.

(** A thread waiting at a free spinlock. *)
Definition demo_spin : Spin.sys :=
  Spin.Sys (MSpin 0 5 6) (<[1 := Spin.Locking Spin.Trying]> (<[1 := Spin.Outside]> ∅)).

Lemma demo_spin_reachable : Spin.reachable demo_spin.
Proof.
  apply (Spin.R_step (Spin.Sys (MSpin 0 5 6) (<[1 := Spin.Outside]> ∅)) 1).
  - apply Spin.R_init. intros i t. rewrite lookup_insert_Some, lookup_empty.
    intros [[_ <-]|[_ ?]]; done.
  - by apply Spin.St_call.
Qed.

Lemma mcs_spin_lock_correct_witness :
  (∀ i j, Spin.thr demo_spin !! i = Some Spin.Inside →
     Spin.thr demo_spin !! j = Some Spin.Inside → i = j) ∧
  ((∀ i, Spin.thr demo_spin !! i ≠ Some Spin.Inside) →
   ∀ i pc, Spin.thr demo_spin !! i = Some (Spin.Locking pc) →
   ∃ x1 x2, Spin.step demo_spin i x1 ∧ (x2 = x1 ∨ Spin.step x1 i x2) ∧
     Spin.thr x2 !! i = Some Spin.Inside).
Proof. apply (Spin.mcs_spin_lock_correct demo_spin), demo_spin_reachable. Defined.
End Demo.
