(* ===== verification/SpinCounter.v ===== *)
(** The counter of the spinlock test ([src/tests/m12_sync_host_test.c]): threads
    that each add 1 to a shared word a number of times, the load and the store
    being separate accesses, between [mcs_spin_lock] and [mcs_spin_unlock]. No
    addition is lost in any interleaving, and the threads can always finish. *)
From stdpp Require Import relations.
From S2P Require Import Prelude Sync.
Import Spin.

#[local] Open Scope Z_scope.

(** ** The threads *)

(** Where a thread is in the body of its loop: in [mcs_spin_lock], before the
    load of [g_counter++], before its store, before [mcs_spin_unlock]. *)
Inductive worker_pc := WLock (pc : spin_pc) | WLoad | WStore (x : Z) | WUnlock.

(** The iterations that are not finished, and the position in the first. *)
Record worker := Worker { w_left : nat; w_pc : worker_pc }.

Record csys := CSys {
  g_counter_lock : mcs_spinlock;
  g_counter : Z;
  workers : list worker;
}.

(** One access of thread [i]; nothing once its loop is over. *)
Definition worker_step (i : nat) (x : csys) : option csys :=
  w ← workers x !! i;
  if decide (w_left w = 0%nat) then None else
  let goto pc := <[i := Worker (w_left w) pc]> (workers x) in
  Some (match w_pc w with
        | WLock pc =>
            let r := mcs_spin_lock_step pc (g_counter_lock x) in
            CSys r.1 (g_counter x) (goto (match r.2 with inl pc' => WLock pc' | inr _ => WLoad end))
        | WLoad => CSys (g_counter_lock x) (g_counter x) (goto (WStore (g_counter x)))
        | WStore v => CSys (g_counter_lock x) (u64 (v + 1)) (goto WUnlock)
        | WUnlock =>
            CSys (run mcs_spin_unlock (g_counter_lock x)).1 (g_counter x)
              (<[i := Worker (pred (w_left w)) (WLock Trying)]> (workers x))
        end).

Definition cstep (x y : csys) : Prop := ∃ i, worker_step i x = Some y.

(** [THREADS] threads of [ITERS] iterations, and the lock as [mcs_spin_init]
    leaves it. *)
Definition spin_test (threads iters : nat) (cl nm : Z) : csys :=
  CSys (MSpin 0 cl nm) 0 (replicate threads (Worker iters (WLock Trying))).

Definition all_done (x : csys) : Prop := Forall (λ w, w_left w = 0%nat) (workers x).

(** The threads named by [sched], one access each. *)
Fixpoint crun (sched : list nat) (x : csys) : option csys :=
  match sched with
  | [] => Some x
  | i :: sched' => y ← worker_step i x; crun sched' y
  end.

Lemma crun_steps sched x y : crun sched x = Some y → rtc cstep x y.
Proof.
  revert x. induction sched as [|i sched IH]; intros x; cbn [crun].
  - by intros [= ->].
  - intros (z & Hz & Hy)%bind_Some. eapply rtc_l; [by exists i|by apply IH].
Qed.

(** ** The invariant *)

Definition inside (w : worker) : Prop := match w_pc w with WLock _ => False | _ => True end.

(** The additions that a thread has still to make. *)
Definition due (w : worker) : nat := match w_pc w with WUnlock => pred (w_left w) | _ => w_left w end.

Definition flag_of (h : option nat) : Z := match h with Some _ => 1 | None => 0 end.

(** [h] is the thread inside, if there is one. *)
Record counter_ok (total : Z) (h : option nat) (x : csys) : Prop := {
  co_flag : s_locked (g_counter_lock x) = flag_of h;
  co_there : ∀ i, h = Some i → is_Some (workers x !! i);
  co_holder : ∀ i w, workers x !! i = Some w → inside w ↔ h = Some i;
  co_left : ∀ i w, workers x !! i = Some w → inside w → w_left w ≠ 0%nat;
  co_loaded : ∀ i w v, workers x !! i = Some w → w_pc w = WStore v → v = g_counter x;
  co_sum : g_counter x = u64 (total - Z.of_nat (sum_list_with due (workers x)));
}.

Lemma sum_insert {A} (f : A → nat) l i x y : l !! i = Some x →
  (sum_list_with f (<[i := y]> l) + f x = sum_list_with f l + f y)%nat.
Proof.
  revert i. induction l as [|z l IH]; intros [|i]; [done..|injection 1 as ->; cbn; lia|].
  intros H%IH. change (<[S i:=y]> (z :: l)) with (z :: <[i:=y]> l). cbn [sum_list_with]. lia.
Qed.

(** What a step of thread [i] has to keep, when it goes from [w] to [w']. *)
Lemma counter_ok_step total h h' x i w w' l n : counter_ok total h x → workers x !! i = Some w →
  s_locked l = flag_of h' →
  (∀ j, j ≠ i → h = Some j ↔ h' = Some j) → (inside w' ↔ h' = Some i) → (inside w' → w_left w' ≠ 0%nat) →
  (∀ v, w_pc w' = WStore v → v = n) → (n = g_counter x ∨ h = Some i) →
  n = u64 (total - Z.of_nat (sum_list_with due (workers x) + due w' - due w)%nat) →
  counter_ok total h' (CSys l n (<[i := w']> (workers x))).
Proof.
  intros [Hf Ht Hh Hl Hv Hs] Hw Hl' Hj Hi Hi' Hst Hn Hsum.
  assert (Hcase : ∀ j u, <[i := w']> (workers x) !! j = Some u →
    (j = i ∧ u = w') ∨ (j ≠ i ∧ workers x !! j = Some u)).
  { intros j u. rewrite list_lookup_insert_Some. pose proof (lookup_lt_Some _ _ _ Hw). intros [(? & ? & ?)|[? ?]]; auto. }
  split; cbn [g_counter_lock g_counter workers]; [done|..].
  - intros j Hj'. destruct (decide (j = i)) as [->|Hne].
    + rewrite list_lookup_insert_eq by (by eapply lookup_lt_Some). by eexists.
    + rewrite list_lookup_insert_ne by done. by apply Ht, Hj.
  - intros j u [[-> ->]|[Hne Hu]]%Hcase; [done|]. rewrite (Hh j u Hu). by apply Hj.
  - intros j u [[-> ->]|[Hne Hu]]%Hcase; [done|]. by apply (Hl j u).
  - intros j u v [[-> ->]|[Hne Hu]]%Hcase; [by apply Hst|]. intros Hpc.
    assert (inside u) as Hin by (unfold inside; by rewrite Hpc). apply (Hh j u Hu) in Hin.
    destruct Hn as [->|Hn]; [by apply (Hv j u)|congruence].
  - rewrite Hsum. do 3 f_equal. pose proof (sum_insert due _ _ _ w' Hw). lia.
Qed.

Lemma due_le_sum l i w : l !! i = Some w → (due w ≤ sum_list_with due l)%nat.
Proof. intros H. apply sum_list_with_in. by eapply list_elem_of_lookup_2. Qed.

Lemma counter_ok_cstep total h x y : counter_ok total h x → cstep x y → ∃ h', counter_ok total h' y.
Proof.
  intros H [i Hs]. unfold worker_step in Hs. apply bind_Some in Hs as (w & Hw & Hs).
  destruct (decide (w_left w = 0%nat)) as [|Hleft]; [done|]. injection Hs as <-.
  pose proof (co_sum _ _ _ H) as Hsum. pose proof (co_holder _ _ _ H i w Hw) as Hin.
  pose proof (due_le_sum _ _ _ Hw) as Hdue. unfold inside in Hin. unfold due at 1 in Hdue.
  assert (Hsame : ∀ pc, (match pc with WUnlock => False | _ => True end) → w_pc w ≠ WUnlock →
    g_counter x = u64 (total - Z.of_nat (sum_list_with due (workers x) + due (Worker (w_left w) pc) - due w)%nat)).
  { intros pc Hpc Hnu. rewrite Hsum at 1. do 3 f_equal. unfold due at 3 4. cbn [w_pc w_left].
    destruct pc, (w_pc w); try done; lia. }
  destruct (w_pc w) as [pc| |v|] eqn:Epc.
  - destruct pc; cbn.
    + destruct (Z.eqb_spec (s_locked (g_counter_lock x)) 0) as [E|E].
      * exists (Some i). eapply counter_ok_step; try done; [|by left|by apply Hsame].
        intros j Hj. pose proof (co_flag _ _ _ H) as Hfl. rewrite E in Hfl. destruct h; [done|].
        split; congruence.
      * exists h. eapply counter_ok_step; try done; [|by left|by apply Hsame].
        cbn. pose proof (co_flag _ _ _ H) as Hfl. by destruct h.
    + exists h. destruct (s_locked (g_counter_lock x) =? 0); eapply counter_ok_step; try done;
        (apply H || (by left) || by apply Hsame).
  - exists h. eapply counter_ok_step; try done; [apply H|by intros v [= <-]|by left|by apply Hsame].
  - exists h. eapply counter_ok_step; try done; [apply H|right; by apply Hin|].
    rewrite (co_loaded _ _ _ H i w v Hw Epc), Hsum. unfold due at 3 4. cbn [w_pc w_left]. rewrite Epc.
    unfold u64. rewrite Zplus_mod_idemp_l. f_equal. lia.
  - exists None. assert (h = Some i) as -> by by apply Hin.
    eapply counter_ok_step; try done; [|by right|].
    + intros j Hj. split; congruence.
    + rewrite Hsum. do 3 f_equal. unfold due at 3 4. cbn [w_pc w_left]. rewrite Epc. lia.
Qed.

Lemma counter_ok_steps total h x y : rtc cstep x y → counter_ok total h x → ∃ h', counter_ok total h' y.
Proof.
  intros Hxy. revert h. induction Hxy as [x|x y z Hxy _ IH]; intros h H; [by exists h|].
  destruct (counter_ok_cstep _ _ _ _ H Hxy) as [h' H']. by eapply IH.
Qed.

Lemma spin_test_ok threads iters cl nm :
  counter_ok (Z.of_nat threads * Z.of_nat iters) None (spin_test threads iters cl nm).
Proof.
  assert (∀ i w, replicate threads (Worker iters (WLock Trying)) !! i = Some w → w = Worker iters (WLock Trying)) as Hw.
  { intros i w. rewrite lookup_replicate. by intros [-> _]. }
  split; cbn [spin_test g_counter_lock g_counter workers]; [done|done|..].
  - by intros i w ->%Hw.
  - by intros i w ->%Hw.
  - by intros i w v ->%Hw.
  - assert (∀ n, sum_list_with due (replicate n (Worker iters (WLock Trying))) = (n * iters)%nat) as ->.
    { induction n as [|n IH]; [done|]. cbn in *. lia. }
    rewrite Nat2Z.inj_mul, Z.sub_diag. done.
Qed.

Lemma counter_reachable_ok threads iters cl nm x : rtc cstep (spin_test threads iters cl nm) x →
  ∃ h, counter_ok (Z.of_nat threads * Z.of_nat iters) h x.
Proof.
  intros H. eapply counter_ok_steps; [done|apply spin_test_ok].
Qed.

Lemma all_done_sum l : Forall (λ w, w_left w = 0%nat) l → sum_list_with due l = 0%nat.
Proof.
  induction 1 as [|w l Hw _ IH]; [done|]. cbn [sum_list_with]. rewrite IH. unfold due. destruct (w_pc w); lia.
Qed.

(** ** The threads can finish *)

Definition iterations (x : csys) : nat := sum_list_with w_left (workers x).

Definition at_pc (i k : nat) (pc : worker_pc) (x : csys) : Prop := workers x !! i = Some (Worker (S k) pc).

Definition fewer_left (x : csys) : Prop := ∃ y, rtc cstep x y ∧ (iterations y < iterations x)%nat.

(** A step of thread [i] to [pc'] leaves the iterations as they are. *)
Lemma fewer_left_step x i k pc pc' l n : at_pc i k pc x →
  worker_step i x = Some (CSys l n (<[i := Worker (S k) pc']> (workers x))) →
  (∀ y, at_pc i k pc' y → g_counter_lock y = l → fewer_left y) → fewer_left x.
Proof.
  intros Hw Hs Hy. destruct (Hy (CSys l n (<[i := Worker (S k) pc']> (workers x)))) as (z & Hz & Hlt); [|done|].
  { apply list_lookup_insert_eq. by eapply lookup_lt_Some. }
  exists z. split; [eapply rtc_l; [by exists i|done]|].
  pose proof (sum_insert w_left _ _ _ (Worker (S k) pc') Hw) as E. unfold iterations in *.
  cbn [w_left workers] in *. lia.
Qed.

Lemma unlock_fewer_left x i k : at_pc i k WUnlock x → fewer_left x.
Proof.
  intros Hw. exists (CSys (run mcs_spin_unlock (g_counter_lock x)).1 (g_counter x)
    (<[i := Worker k (WLock Trying)]> (workers x))).
  split; [apply rtc_once; exists i; unfold worker_step; by rewrite Hw|].
  pose proof (sum_insert w_left _ _ _ (Worker k (WLock Trying)) Hw) as E. unfold iterations.
  cbn [w_left workers] in *. lia.
Qed.

Lemma store_fewer_left x i k v : at_pc i k (WStore v) x → fewer_left x.
Proof.
  intros Hw. eapply fewer_left_step; [done|unfold worker_step; by rewrite Hw|].
  intros y Hy _. by eapply unlock_fewer_left.
Qed.

Lemma load_fewer_left x i k : at_pc i k WLoad x → fewer_left x.
Proof.
  intros Hw. eapply fewer_left_step; [done|unfold worker_step; by rewrite Hw|].
  intros y Hy _. by eapply store_fewer_left.
Qed.

Lemma trying_fewer_left x i k : at_pc i k (WLock Trying) x → s_locked (g_counter_lock x) = 0 → fewer_left x.
Proof.
  intros Hw H0. eapply fewer_left_step; [done|unfold worker_step; rewrite Hw; cbn; by rewrite H0|].
  intros y Hy _. by eapply load_fewer_left.
Qed.

Lemma waiting_fewer_left x i k : at_pc i k (WLock Waiting) x → s_locked (g_counter_lock x) = 0 → fewer_left x.
Proof.
  intros Hw H0. eapply fewer_left_step; [done|unfold worker_step; rewrite Hw; cbn; by rewrite H0|].
  intros y Hy Hl. eapply trying_fewer_left; [done|]. by rewrite Hl.
Qed.

(** A thread with iterations left, the lock being free unless it is its own,
    finishes one when only it runs. *)
Lemma finish_iteration x i w : workers x !! i = Some w → w_left w ≠ 0%nat →
  (¬ inside w → s_locked (g_counter_lock x) = 0) → fewer_left x.
Proof.
  destruct w as [[|k] pc]; [done|]. intros Hw _ Hfree. unfold inside in Hfree. cbn [w_pc] in Hfree.
  destruct pc as [[|]| | |]; eauto using trying_fewer_left, waiting_fewer_left, load_fewer_left,
    store_fewer_left, unlock_fewer_left.
Qed.

Lemma some_fewer_left total h x : counter_ok total h x → ¬ all_done x → fewer_left x.
Proof.
  intros H Hnd. destruct h as [i|].
  - destruct (co_there _ _ _ H i eq_refl) as [w Hw]. assert (inside w) as Hin by by apply (co_holder _ _ _ H i w Hw).
    eapply finish_iteration; [done|by eapply (co_left _ _ _ H)|done].
  - unfold all_done in Hnd. apply not_Forall_Exists in Hnd; [|apply _].
    apply Exists_exists in Hnd as (w & Hin & Hw). apply list_elem_of_lookup in Hin as [i Hi].
    eapply finish_iteration; [done|done|]. intros _. by rewrite (co_flag _ _ _ H).
Qed.

Lemma counter_finishes total h x : counter_ok total h x → ∃ y, rtc cstep x y ∧ all_done y.
Proof.
  remember (iterations x) as n eqn:Hn. revert x h Hn.
  induction (lt_wf n) as [n _ IH]. intros x h -> H.
  destruct (decide (all_done x)) as [Hd|Hd]; [by exists x|].
  destruct (some_fewer_left _ _ _ H Hd) as (y & Hxy & Hlt).
  destruct (counter_ok_steps _ _ _ _ Hxy H) as [h' Hy].
  destruct (IH _ Hlt y h' eq_refl Hy) as (z & Hyz & Hz). exists z. split; [by etrans|done].
Qed.

(** The two last checks of the test. *)
Lemma all_done_end total h x : counter_ok total h x → all_done x →
  g_counter x = u64 total ∧ mcs_spin_is_locked (Ref (g_counter_lock x)) = false.
Proof.
  intros H Hd. split.
  - rewrite (co_sum _ _ _ H), all_done_sum by done. f_equal. lia.
  - cbn. rewrite (co_flag _ _ _ H). destruct h as [i|]; [|done].
    destruct (co_there _ _ _ H i eq_refl) as [w Hw]. exfalso.
    apply (co_left _ _ _ H i w Hw); [by apply (co_holder _ _ _ H i w Hw)|].
    unfold all_done in Hd. rewrite Forall_lookup in Hd. by eapply Hd.
Qed.

(** C37. The spinlock protects the counter of the host test: from [g_counter = 0]
    and any number of threads and iterations, in every interleaving of the
    loads, stores and lock operations, at most one thread is inside, the threads
    can go on until all are done, and when they are the counter is the number
    of all additions (as an [unsigned long]) and the lock is free. *)
Theorem spin_counter_exact (threads iters : nat) (cl nm : Z) (x : csys) :
  rtc cstep (spin_test threads iters cl nm) x →
  (∀ i j wi wj, workers x !! i = Some wi → workers x !! j = Some wj → inside wi → inside wj → i = j) ∧
  (∃ y, rtc cstep x y ∧ all_done y) ∧
  (all_done x → g_counter x = u64 (Z.of_nat threads * Z.of_nat iters) ∧
     mcs_spin_is_locked (Ref (g_counter_lock x)) = false).
Proof.
  intros [h H]%counter_reachable_ok. split_and!.
  - intros i j wi wj Hi Hj Hwi Hwj. apply (co_holder _ _ _ H _ _ Hi) in Hwi.
    apply (co_holder _ _ _ H _ _ Hj) in Hwj. congruence.
  - by eapply counter_finishes.
  - by eapply all_done_end.
Qed.

(** Two threads of one iteration: thread 1 finds the lock taken, waits for it,
    and adds its 1 when thread 0 has left. *)
Definition contended : list nat := [0; 1; 0; 1; 0; 0; 1; 1; 1; 1; 1]%nat.

Definition contended_end : csys :=
  CSys (MSpin 0 100 0) 2 [Worker 0 (WLock Trying); Worker 0 (WLock Trying)].

Lemma contended_run : crun contended (spin_test 2 1 100 0) = Some contended_end.
Proof. vm_compute. reflexivity. Qed.

Lemma spin_counter_exact_witness :
  crun contended (spin_test 2 1 100 0) = Some contended_end ∧ g_counter contended_end = u64 (2 * 1) ∧
  mcs_spin_is_locked (Ref (g_counter_lock contended_end)) = false.
Proof.
  split; [exact contended_run|].
  apply (spin_counter_exact 2 1 100 0 contended_end (crun_steps _ _ _ contended_run)).
  repeat constructor.
Defined.

(** ** The test, at its own constants *)

Definition THREADS : nat := 4.
Definition ITERS : nat := Z.to_nat 25000.

Definition test_spinlock_threads (counter_name : Z) : csys := spin_test THREADS ITERS 100 counter_name.

Lemma test_spinlock_threads_passes counter_name x :
  rtc cstep (test_spinlock_threads counter_name) x →
  (∃ y, rtc cstep x y ∧ all_done y) ∧
  (all_done x → g_counter x = 100000 ∧ mcs_spin_is_locked (Ref (g_counter_lock x)) = false).
Proof.
  intros [h H]%counter_reachable_ok. split; [by eapply counter_finishes|].
  intros Hd. destruct (all_done_end _ _ _ H Hd) as [-> ?]. split; [|done].
  unfold ITERS. rewrite Z2Nat.id by done. reflexivity.
Qed.
