(* ===== verification/Elf.v ===== *)
(** The ELF64 loader's planner ([src/kernel/user/m11_elf_loader.c]): which
    images it accepts and the plan it makes. An image is the array of bytes the
    pointer leads to; a read outside it is undefined. *)
From Stdlib Require Import String.
From S2P Require Import Prelude Bytes.

#[local] Open Scope string_scope.
#[local] Open Scope Z_scope.
#[local] Open Scope list_scope.

(** ** Constants *)

Definition M11_ET_EXEC : Z := 2.
Definition M11_ET_DYN : Z := 3.
Definition M11_EM_X86_64 : Z := 62.
Definition M11_PT_LOAD : Z := 1.
Definition M11_PF_X : Z := 1.
Definition M11_PF_W : Z := 2.
Definition M11_PF_R : Z := 4.
Definition M11_MAX_LOAD_SEGMENTS : Z := 8.

Definition M11_OK : Z := 0.
Definition M11_ERR_NULL : Z := -1.
Definition M11_ERR_SIZE : Z := -2.
Definition M11_ERR_MAGIC : Z := -3.
Definition M11_ERR_CLASS : Z := -4.
Definition M11_ERR_ENDIAN : Z := -5.
Definition M11_ERR_VERSION : Z := -6.
Definition M11_ERR_TYPE : Z := -7.
Definition M11_ERR_MACHINE : Z := -8.
Definition M11_ERR_EHSIZE : Z := -9.
Definition M11_ERR_PHENTSIZE : Z := -10.
Definition M11_ERR_PHBOUNDS : Z := -11.
Definition M11_ERR_ALIGN : Z := -12.
Definition M11_ERR_SEGBOUNDS : Z := -13.
Definition M11_ERR_SEGRANGE : Z := -14.
Definition M11_ERR_SEGCOUNT : Z := -15.
Definition M11_ERR_ENTRY : Z := -16.
Definition M11_ERR_FLAGS : Z := -17.

(** ** Structures *)

Record m11_elf64_ehdr := Ehdr {
  e_ident : list Z;
  e_type : Z;
  e_machine : Z;
  e_version : Z;
  e_entry : Z;
  e_phoff : Z;
  e_shoff : Z;
  e_flags : Z;
  e_ehsize : Z;
  e_phentsize : Z;
  e_phnum : Z;
  e_shentsize : Z;
  e_shnum : Z;
  e_shstrndx : Z;
}.

Record m11_elf64_phdr := Phdr {
  p_type : Z;
  p_flags : Z;
  p_offset : Z;
  p_vaddr : Z;
  p_paddr : Z;
  p_filesz : Z;
  p_memsz : Z;
  p_align : Z;
}.

(** The structures overlaid on the bytes at an offset of the image. *)
Definition ehdr_of (l : list Z) : m11_elf64_ehdr :=
  Ehdr (take 16 l) (field 2 16 l) (field 2 18 l) (field 4 20 l) (field 8 24 l) (field 8 32 l)
    (field 8 40 l) (field 4 48 l) (field 2 52 l) (field 2 54 l) (field 2 56 l) (field 2 58 l)
    (field 2 60 l) (field 2 62 l).
Definition phdr_of (l : list Z) : m11_elf64_phdr :=
  Phdr (field 4 0 l) (field 4 4 l) (field 8 8 l) (field 8 16 l) (field 8 24 l) (field 8 32 l)
    (field 8 40 l) (field 8 48 l).
Definition read_ehdr (image : list Z) : option m11_elf64_ehdr :=
  if decide (64 ≤ zlen image) then Some (ehdr_of image) else None.
Definition read_phdr (image : list Z) (off : Z) : option m11_elf64_phdr :=
  if decide (0 ≤ off ∧ off + 56 ≤ zlen image)
  then Some (phdr_of (drop (Z.to_nat off) image)) else None.

Record m11_user_region := Region { r_base : Z; r_limit : Z }.

Record m11_segment_plan := Segment {
  file_offset : Z;
  vaddr : Z;
  filesz : Z;
  memsz : Z;
  align : Z;
  flags : Z;
}.

Record m11_process_image_plan := Plan {
  p_entry : Z;
  segment_count : Z;
  segments : list m11_segment_plan;
}.

(** ** Checks *)

(** The sum, or nothing when it wraps. *)
Definition m11_add_overflow_u64 (a b : Z) : option Z :=
  let r := u64 (a + b) in if r <? a then None else Some r.

Definition m11_is_power_of_two_u64 (v : Z) : bool :=
  negb (v =? 0) && (Z.land v (u64 (v - 1)) =? 0).

Definition zero_segment : m11_segment_plan := Segment 0 0 0 0 0 0.
Definition m11_zero_plan : m11_process_image_plan := Plan 0 0 (replicate 8 zero_segment).

Definition m11_validate_user_range (region : m11_user_region) (base size : Z) : Z :=
  if r_limit region <=? r_base region then M11_ERR_SEGRANGE else
  if size =? 0 then M11_ERR_SEGRANGE else
  match m11_add_overflow_u64 base size with
  | None => M11_ERR_SEGRANGE
  | Some e =>
      if (base <? r_base region) || (r_limit region <? e) || (e <=? base)
      then M11_ERR_SEGRANGE else M11_OK
  end.

Definition ident (eh : m11_elf64_ehdr) (i : nat) : Z := e_ident eh !!! i.

Definition m11_validate_ident (eh : m11_elf64_ehdr) : Z :=
  if negb (ident eh 0 =? 0x7f) || negb (ident eh 1 =? 69) || negb (ident eh 2 =? 76) ||
     negb (ident eh 3 =? 70) then M11_ERR_MAGIC else
  if negb (ident eh 4 =? 2) then M11_ERR_CLASS else
  if negb (ident eh 5 =? 1) then M11_ERR_ENDIAN else
  if negb (ident eh 6 =? 1) || negb (e_version eh =? 1) then M11_ERR_VERSION else M11_OK.

Definition m11_validate_phdr_bounds (eh : m11_elf64_ehdr) (image_size : Z) : Z :=
  if e_phnum eh =? 0 then M11_ERR_PHBOUNDS else
  if negb (e_phentsize eh =? 56) then M11_ERR_PHENTSIZE else
  let ph_table_bytes := u64 (e_phentsize eh * e_phnum eh) in
  if negb (e_phnum eh =? 0) && negb (ph_table_bytes / e_phnum eh =? e_phentsize eh)
  then M11_ERR_PHBOUNDS else
  match m11_add_overflow_u64 (e_phoff eh) ph_table_bytes with
  | None => M11_ERR_PHBOUNDS
  | Some ph_end =>
      if (image_size <? ph_end) || (image_size <? e_phoff eh) then M11_ERR_PHBOUNDS else M11_OK
  end.

Definition m11_validate_load_segment (ph : m11_elf64_phdr) (image_size : Z)
    (region : m11_user_region) : Z :=
  if negb (Z.land (p_flags ph) (u32 (Z.lnot (Z.lor (Z.lor M11_PF_R M11_PF_W) M11_PF_X))) =? 0)
  then M11_ERR_FLAGS else
  if negb (Z.land (p_flags ph) M11_PF_W =? 0) && negb (Z.land (p_flags ph) M11_PF_X =? 0)
  then M11_ERR_FLAGS else
  if p_memsz ph <? p_filesz ph then M11_ERR_SEGBOUNDS else
  if negb (p_align ph =? 0) && negb (p_align ph =? 1) &&
     (negb (m11_is_power_of_two_u64 (p_align ph)) ||
      negb (p_vaddr ph mod p_align ph =? p_offset ph mod p_align ph)) then M11_ERR_ALIGN else
  match m11_add_overflow_u64 (p_offset ph) (p_filesz ph) with
  | None => M11_ERR_SEGBOUNDS
  | Some file_end =>
      if (image_size <? file_end) || (image_size <? p_offset ph) then M11_ERR_SEGBOUNDS else
      m11_validate_user_range region (p_vaddr ph) (p_memsz ph)
  end.

(** ** The planner *)

Definition segment_of (ph : m11_elf64_phdr) : m11_segment_plan :=
  Segment (p_offset ph) (p_vaddr ph) (p_filesz ph) (p_memsz ph) (p_align ph) (p_flags ph).

(** One iteration of the loop over the program headers. *)
Definition plan_body (image : list Z) (image_size phoff : Z) (region : m11_user_region)
    (i : Z) (plan : m11_process_image_plan) :
    option (ctl m11_process_image_plan (m11_process_image_plan * Z)) :=
  ph ← read_phdr image (phoff + i * 56);
  if negb (p_type ph =? M11_PT_LOAD) then Some (Next plan) else
  if M11_MAX_LOAD_SEGMENTS <=? segment_count plan
  then Some (Return (m11_zero_plan, M11_ERR_SEGCOUNT)) else
  let rc := m11_validate_load_segment ph image_size region in
  if negb (rc =? M11_OK) then Some (Return (m11_zero_plan, rc)) else
  segs ← arr_set (segments plan) (segment_count plan) (segment_of ph);
  Some (Next (Plan (p_entry plan) (u32 (segment_count plan + 1)) segs)).

(** The checks on the ELF header before the loop. *)
Definition header_rc (eh : m11_elf64_ehdr) (image_size : Z) (region : m11_user_region) : Z :=
  let rc := m11_validate_ident eh in
  if negb (rc =? M11_OK) then rc else
  if negb (e_type eh =? M11_ET_EXEC) && negb (e_type eh =? M11_ET_DYN) then M11_ERR_TYPE else
  if negb (e_machine eh =? M11_EM_X86_64) then M11_ERR_MACHINE else
  if negb (e_ehsize eh =? 64) then M11_ERR_EHSIZE else
  let rc := m11_validate_phdr_bounds eh image_size in
  if negb (rc =? M11_OK) then rc else
  let rc := m11_validate_user_range region (e_entry eh) 1 in
  if negb (rc =? M11_OK) then M11_ERR_ENTRY else M11_OK.

(** Returns [*out_plan] and the status. *)
Definition m11_elf64_plan_load (image : ptr (list Z)) (image_size : Z)
    (region : m11_user_region) (out_plan : ptr m11_process_image_plan) :
    option (ptr m11_process_image_plan * Z) :=
  match image, out_plan with
  | Ref image, Ref _ =>
      if image_size <? 64 then Some (Ref m11_zero_plan, M11_ERR_SIZE) else
      eh ← read_ehdr image;
      let rc := header_rc eh image_size region in
      if negb (rc =? M11_OK) then Some (Ref m11_zero_plan, rc) else
      let plan := Plan (e_entry eh) 0 (segments m11_zero_plan) in
      c ← for_loop (Z.to_nat (e_phnum eh)) 0 1
            (plan_body image image_size (e_phoff eh) region) plan;
      match c with
      | Return (plan, rc) => Some (Ref plan, rc)
      | Next plan =>
          if segment_count plan =? 0 then Some (Ref plan, M11_ERR_SEGCOUNT)
          else Some (Ref plan, M11_OK)
      end
  | _, _ => Some (out_plan, M11_ERR_NULL)
  end.

(** The caller in [kernel.c]: whether the smoke test logs success. *)
Definition m11_kernel_smoke_test_elf_loader (img : ptr (list Z)) (size : Z) : option bool :=
  r ← m11_elf64_plan_load img size (Region 0x400000 0x8000000000) (Ref m11_zero_plan);
  Some (r.2 =? 0).
Definition dummy_elf : list Z :=
  [0x7f; 69; 76; 70; 2; 1; 1; 0; 0; 0; 0; 0; 0; 0; 0; 0;
   2; 0; 62; 0; 1; 0; 0; 0; 0; 1; 40; 0; 0; 0; 0; 0;
   64; 0; 0; 0; 0; 0; 0; 0; 0; 0; 0; 0; 0; 0; 0; 0;
   0; 0; 0; 0; 64; 0; 56; 0; 1; 0; 0; 0; 0; 0] ++ replicate 66 0.

Definition m11_error_name (code : Z) : string :=
  if code =? M11_OK then "M11_OK" else
  if code =? M11_ERR_NULL then "M11_ERR_NULL" else
  if code =? M11_ERR_SIZE then "M11_ERR_SIZE" else
  if code =? M11_ERR_MAGIC then "M11_ERR_MAGIC" else
  if code =? M11_ERR_CLASS then "M11_ERR_CLASS" else
  if code =? M11_ERR_ENDIAN then "M11_ERR_ENDIAN" else
  if code =? M11_ERR_VERSION then "M11_ERR_VERSION" else
  if code =? M11_ERR_TYPE then "M11_ERR_TYPE" else
  if code =? M11_ERR_MACHINE then "M11_ERR_MACHINE" else
  if code =? M11_ERR_EHSIZE then "M11_ERR_EHSIZE" else
  if code =? M11_ERR_PHENTSIZE then "M11_ERR_PHENTSIZE" else
  if code =? M11_ERR_PHBOUNDS then "M11_ERR_PHBOUNDS" else
  if code =? M11_ERR_ALIGN then "M11_ERR_ALIGN" else
  if code =? M11_ERR_SEGBOUNDS then "M11_ERR_SEGBOUNDS" else
  if code =? M11_ERR_SEGRANGE then "M11_ERR_SEGRANGE" else
  if code =? M11_ERR_SEGCOUNT then "M11_ERR_SEGCOUNT" else
  if code =? M11_ERR_ENTRY then "M11_ERR_ENTRY" else
  if code =? M11_ERR_FLAGS then "M11_ERR_FLAGS" else "M11_ERR_UNKNOWN".

(** ** Specification *)

(** [size] bytes from [base] lie in the user region, without wrapping. *)
Definition in_region (region : m11_user_region) (base size : Z) : Prop :=
  0 < size ∧ r_base region ≤ base ∧ base + size ≤ r_limit region.

(** What makes a loadable segment acceptable. *)
Record segment_ok (image_size : Z) (region : m11_user_region) (s : m11_segment_plan) : Prop := {
  sg_flags : 0 ≤ flags s < 8;
  sg_wx : ¬ (Z.testbit (flags s) 1 = true ∧ Z.testbit (flags s) 0 = true);
  sg_sizes : filesz s ≤ memsz s;
  sg_align : align s = 0 ∨ align s = 1 ∨
    power_of_two (align s) ∧ vaddr s mod align s = file_offset s mod align s;
  sg_file : file_offset s + filesz s ≤ image_size;
  sg_mem : in_region region (vaddr s) (memsz s);
}.

Definition region_words (r : m11_user_region) : Prop := is_u64 (r_base r) ∧ is_u64 (r_limit r).

(** What makes the ELF header acceptable. *)
Record header_ok (image_size : Z) (region : m11_user_region) (eh : m11_elf64_ehdr) : Prop := {
  hd_ident : take 7 (e_ident eh) = [0x7f; 69; 76; 70; 2; 1; 1];
  hd_version : e_version eh = 1;
  hd_type : e_type eh = M11_ET_EXEC ∨ e_type eh = M11_ET_DYN;
  hd_machine : e_machine eh = M11_EM_X86_64;
  hd_ehsize : e_ehsize eh = 64;
  hd_phentsize : e_phentsize eh = 56;
  hd_phnum : 0 < e_phnum eh;
  hd_table : e_phoff eh + 56 * e_phnum eh ≤ image_size;
  hd_entry : in_region region (e_entry eh) 1;
}.

(** The program headers of an image, and those that ask to be loaded. *)
Definition phdrs_from (image : list Z) (off : Z) (n : nat) : list m11_elf64_phdr :=
  (λ i, phdr_of (drop (Z.to_nat (off + Z.of_nat i * 56)) image)) <$> seq 0 n.
Definition phdrs (image : list Z) : list m11_elf64_phdr :=
  let eh := ehdr_of image in phdrs_from image (e_phoff eh) (Z.to_nat (e_phnum eh)).
Definition loads (image : list Z) : list m11_elf64_phdr :=
  filter (λ ph, p_type ph = M11_PT_LOAD) (phdrs image).

(** An image the planner must accept. *)
Definition loadable (image : list Z) (image_size : Z) (region : m11_user_region) : Prop :=
  64 ≤ image_size ∧ header_ok image_size region (ehdr_of image) ∧
  (1 ≤ length (loads image) ≤ 8)%nat ∧
  Forall (λ ph, segment_ok image_size region (segment_of ph)) (loads image).

(** The plan with the given segments. *)
Definition plan_of (entry : Z) (phs : list m11_elf64_phdr) : m11_process_image_plan :=
  Plan entry (Z.of_nat (length phs))
    ((segment_of <$> phs) ++ replicate (8 - length phs) zero_segment).

(** ** Facts about the checks *)

Definition phdr_words (ph : m11_elf64_phdr) : Prop :=
  is_u32 (p_flags ph) ∧ is_u64 (p_offset ph) ∧ is_u64 (p_vaddr ph) ∧ is_u64 (p_filesz ph) ∧
  is_u64 (p_memsz ph) ∧ is_u64 (p_align ph).

Lemma phdr_of_words l : Forall is_u8 l → phdr_words (phdr_of l).
Proof.
  intros Hl. unfold phdr_words, phdr_of; simpl.
  repeat split; try (by apply field_u32); by apply field_u64.
Qed.

Lemma add_overflow_spec a b : is_u64 a → is_u64 b →
  m11_add_overflow_u64 a b = if decide (a + b < 18446744073709551616) then Some (a + b) else None.
Proof.
  intros Ha Hb. unfold m11_add_overflow_u64. destruct (u64_eqn (a + b)) as (q & E & Hr).
  case_decide; [rewrite u64_small by words; destruct (Z.ltb_spec (a + b) a); [words|done]|].
  destruct (Z.ltb_spec (u64 (a + b)) a); [done|]. words.
Qed.

Lemma validate_user_range_ok region base size :
  region_words region → is_u64 base → is_u64 size →
  m11_validate_user_range region base size = M11_OK ↔ in_region region base size.
Proof.
  intros [Hr1 Hr2] Hb Hs. unfold m11_validate_user_range, in_region, M11_ERR_SEGRANGE, M11_OK.
  rewrite add_overflow_spec by done.
  destruct (Z.leb_spec (r_limit region) (r_base region)); [split; [done|words]|].
  destruct (Z.eqb_spec size 0); [split; [done|words]|].
  case_decide; [|split; [done|words]].
  destruct (Z.ltb_spec base (r_base region)), (Z.ltb_spec (r_limit region) (base + size)),
    (Z.leb_spec (base + size) base); simpl; split; try done; words.
Qed.

Lemma is_power_of_two_spec v : is_u64 v → m11_is_power_of_two_u64 v = true ↔ power_of_two v.
Proof.
  intros Hv. unfold m11_is_power_of_two_u64. rewrite andb_true_iff, negb_true_iff, Z.eqb_neq, Z.eqb_eq.
  rewrite power_of_two_land by words. split; intros [? H]; (split; [words|]);
    [rewrite u64_small in H by words|rewrite u64_small by words]; done.
Qed.

Lemma flags_high f : is_u32 f →
  Z.land f (u32 (Z.lnot (Z.lor (Z.lor M11_PF_R M11_PF_W) M11_PF_X))) = 0 ↔ 0 ≤ f < 8.
Proof.
  intros Hf. assert (Z.land f (u32 (Z.lnot (Z.lor (Z.lor M11_PF_R M11_PF_W) M11_PF_X))) = f / 8 * 8) as ->.
  { transitivity (Z.land f (Z.lnot (2 ^ 3 - 1))); [|by rewrite land_high].
    change (u32 _) with (Z.land (Z.ones 32) (Z.lnot 7)). change (2 ^ 3 - 1) with 7.
    rewrite Z.land_assoc, (Z.land_ones f 32) by lia. rewrite Z.mod_small by words. done. }
  dlia.
Qed.

Lemma validate_load_segment_ok ph image_size region :
  phdr_words ph → region_words region → is_u64 image_size →
  m11_validate_load_segment ph image_size region = M11_OK ↔
  segment_ok image_size region (segment_of ph).
Proof.
  intros (Hf & Ho & Hv & Hfs & Hms & Ha) Hr Hi. unfold m11_validate_load_segment.
  destruct (Z.eqb_spec (Z.land (p_flags ph)
    (u32 (Z.lnot (Z.lor (Z.lor M11_PF_R M11_PF_W) M11_PF_X)))) 0) as [E|E]; simpl;
    rewrite flags_high in E by done; [|split; [done|by intros []]].
  change M11_PF_W with (2 ^ 1). change M11_PF_X with (2 ^ 0). rewrite !land_pow2_bit by lia.
  destruct (Z.testbit (p_flags ph) 1 && Z.testbit (p_flags ph) 0) eqn:Ewx;
    [split; [done|intros []; simpl in *; apply andb_true_iff in Ewx; tauto]|].
  destruct (Z.ltb_spec (p_memsz ph) (p_filesz ph));
    [split; [done|intros []; simpl in *; lia]|].
  assert (negb (p_align ph =? 0) && negb (p_align ph =? 1) &&
     (negb (m11_is_power_of_two_u64 (p_align ph)) ||
      negb (p_vaddr ph mod p_align ph =? p_offset ph mod p_align ph)) = false ↔
    (p_align ph = 0 ∨ p_align ph = 1 ∨ power_of_two (p_align ph) ∧
      p_vaddr ph mod p_align ph = p_offset ph mod p_align ph)) as Hal.
  { rewrite <-is_power_of_two_spec by done.
    destruct (Z.eqb_spec (p_align ph) 0), (Z.eqb_spec (p_align ph) 1),
      (m11_is_power_of_two_u64 (p_align ph)),
      (Z.eqb_spec (p_vaddr ph mod p_align ph) (p_offset ph mod p_align ph));
      simpl; intuition congruence. }
  destruct (_ && _ && _) eqn:Eal;
    [split; [done|intros Hs; by discriminate (proj2 Hal (sg_align _ _ _ Hs))]|].
  destruct Hal as [Hal _]. specialize (Hal eq_refl).
  rewrite add_overflow_spec by done. case_decide;
    [|split; [done|intros []; simpl in *; words]].
  destruct (Z.ltb_spec image_size (p_offset ph + p_filesz ph)) as [|Hfe]; simpl;
    [split; [done|intros []; simpl in *; lia]|].
  destruct (Z.ltb_spec image_size (p_offset ph)); [words|].
  rewrite validate_user_range_ok by done. split; [|by intros []].
  intros Hin. constructor; try done.
  intros [Hw Hx]. cbn [segment_of flags] in Hw, Hx. by rewrite Hw, Hx in Ewx.
Qed.

Lemma validate_ident_ok eh : (7 ≤ length (e_ident eh))%nat →
  m11_validate_ident eh = M11_OK ↔
  take 7 (e_ident eh) = [0x7f; 69; 76; 70; 2; 1; 1] ∧ e_version eh = 1.
Proof.
  intros Hl. unfold m11_validate_ident, ident.
  destruct (e_ident eh) as [|b0 [|b1 [|b2 [|b3 [|b4 [|b5 [|b6 l]]]]]]]; simpl in Hl; try lia.
  cbn [lookup_total list_lookup_total take].
  destruct (Z.eqb_spec b0 0x7f), (Z.eqb_spec b1 69), (Z.eqb_spec b2 76), (Z.eqb_spec b3 70);
    simpl; try (split; [done|intros [? _]; congruence]).
  destruct (Z.eqb_spec b4 2); simpl; [|split; [done|intros [? _]; congruence]].
  destruct (Z.eqb_spec b5 1); simpl; [|split; [done|intros [? _]; congruence]].
  destruct (Z.eqb_spec b6 1), (Z.eqb_spec (e_version eh) 1); simpl;
    [subst; split; done|split; [done|intros [? ?]; congruence]..].
Qed.

Lemma validate_phdr_bounds_ok eh image_size :
  is_u64 (e_phoff eh) → is_u16 (e_phentsize eh) → is_u16 (e_phnum eh) → is_u64 image_size →
  m11_validate_phdr_bounds eh image_size = M11_OK ↔
  e_phentsize eh = 56 ∧ 0 < e_phnum eh ∧ e_phoff eh + 56 * e_phnum eh ≤ image_size.
Proof.
  intros Ho He Hn Hi. unfold m11_validate_phdr_bounds.
  destruct (Z.eqb_spec (e_phnum eh) 0); [split; [done|lia]|].
  destruct (Z.eqb_spec (e_phentsize eh) 56) as [->|]; simpl; [|split; [done|lia]].
  rewrite u64_small by words. rewrite Z.div_mul by done. simpl.
  rewrite add_overflow_spec by words. case_decide; [|split; [done|words]].
  destruct (Z.ltb_spec image_size (e_phoff eh + 56 * e_phnum eh)),
    (Z.ltb_spec image_size (e_phoff eh)); simpl; split; try done; words.
Qed.

Lemma header_rc_ok l image_size region :
  Forall is_u8 l → (64 ≤ length l)%nat → is_u64 image_size → region_words region →
  header_rc (ehdr_of l) image_size region = M11_OK ↔ header_ok image_size region (ehdr_of l).
Proof.
  intros Hl Hlen Hi Hr. unfold header_rc. set (eh := ehdr_of l).
  assert (is_u16 (e_phentsize eh) ∧ is_u16 (e_phnum eh)) as [? ?] by (split; by apply field_u16).
  assert (is_u64 (e_phoff eh) ∧ is_u64 (e_entry eh)) as [? ?] by (split; by apply field_u64).
  pose proof (validate_ident_ok eh) as Hid.
  pose proof (validate_phdr_bounds_ok eh image_size) as Hph.
  pose proof (validate_user_range_ok region (e_entry eh) 1 Hr) as Hur.
  destruct Hid as [Hid1 Hid2]; [simpl; rewrite length_take; lia|].
  destruct Hph as [Hph1 Hph2]; [done..|]. destruct Hur as [Hur1 Hur2]; [done|words|].
  clearbody eh.
  destruct (Z.eqb_spec (m11_validate_ident eh) M11_OK) as [E1|E1]; simpl;
    [|split; [done|intros []; intuition congruence]].
  destruct (Z.eqb_spec (e_type eh) M11_ET_EXEC), (Z.eqb_spec (e_type eh) M11_ET_DYN); simpl;
    try (split; [done|intros []; intuition congruence]);
  (destruct (Z.eqb_spec (e_machine eh) M11_EM_X86_64); simpl; [|split; [done|intros []; intuition congruence]]);
  (destruct (Z.eqb_spec (e_ehsize eh) 64); simpl; [|split; [done|intros []; intuition congruence]]);
  (destruct (Z.eqb_spec (m11_validate_phdr_bounds eh image_size) M11_OK) as [E2|E2]; simpl;
    [|split; [done|intros []; intuition congruence]]);
  (destruct (Z.eqb_spec (m11_validate_user_range region (e_entry eh) 1) M11_OK) as [E3|E3]; simpl;
    [|split; [done|intros []; intuition congruence]]);
  (split; [intros _; destruct (Hid1 E1), (Hph1 E2) as (? & ? & ?); constructor; tauto|done]).
Qed.

Lemma header_rc_codes eh image_size region : header_rc eh image_size region ≠ M11_ERR_SEGCOUNT.
Proof.
  unfold header_rc, m11_validate_ident, m11_validate_phdr_bounds. cbv zeta.
  repeat case_match; done.
Qed.

(** ** The loop as a function of the program headers *)

Fixpoint plan_loop (image_size : Z) (region : m11_user_region) (phs : list m11_elf64_phdr)
    (plan : m11_process_image_plan) :
    option (ctl m11_process_image_plan (m11_process_image_plan * Z)) :=
  match phs with
  | [] => Some (Next plan)
  | ph :: phs =>
      if negb (p_type ph =? M11_PT_LOAD) then plan_loop image_size region phs plan else
      if M11_MAX_LOAD_SEGMENTS <=? segment_count plan
      then Some (Return (m11_zero_plan, M11_ERR_SEGCOUNT)) else
      let rc := m11_validate_load_segment ph image_size region in
      if negb (rc =? M11_OK) then Some (Return (m11_zero_plan, rc)) else
      segs ← arr_set (segments plan) (segment_count plan) (segment_of ph);
      plan_loop image_size region phs (Plan (p_entry plan) (u32 (segment_count plan + 1)) segs)
  end.

Lemma phdrs_from_S image off n : 0 ≤ off →
  phdrs_from image off (S n) = phdr_of (drop (Z.to_nat off) image) :: phdrs_from image (off + 56) n.
Proof.
  intros Ho. unfold phdrs_from. cbn [seq fmap list_fmap]. f_equal.
  - do 2 f_equal. lia.
  - rewrite <-(fmap_S_seq 0 n), <-list_fmap_compose.
    apply list_fmap_ext. intros _ j _. unfold compose. do 2 f_equal. lia.
Qed.

Lemma for_loop_plan image image_size region phoff n i plan :
  0 ≤ i → 0 ≤ phoff → phoff + (i + Z.of_nat n) * 56 ≤ zlen image →
  for_loop n i 1 (plan_body image image_size phoff region) plan =
  plan_loop image_size region (phdrs_from image (phoff + i * 56) n) plan.
Proof.
  revert i plan. induction n as [|n IH]; intros i plan Hi Ho Hn; [done|].
  rewrite phdrs_from_S by lia. cbn [for_loop plan_loop]. unfold plan_body at 2, read_phdr.
  rewrite decide_True by lia. cbn [mbind option_bind].
  set (ph := phdr_of (drop (Z.to_nat (phoff + i * 56)) image)).
  assert (∀ q, for_loop n (i + 1) 1 (plan_body image image_size phoff region) q =
    plan_loop image_size region (phdrs_from image (phoff + i * 56 + 56) n) q) as Hnext.
  { intros q. rewrite IH by lia. do 2 f_equal. lia. }
  destruct (negb (p_type ph =? M11_PT_LOAD)); [apply Hnext|].
  destruct (M11_MAX_LOAD_SEGMENTS <=? segment_count plan); [done|]. cbv zeta.
  destruct (negb (m11_validate_load_segment ph image_size region =? M11_OK)); [done|].
  destruct (arr_set (segments plan) (segment_count plan) (segment_of ph)); [apply Hnext|done].
Qed.

Lemma plan_of_add entry phs ph : (length phs < 8)%nat →
  arr_set (segments (plan_of entry phs)) (Z.of_nat (length phs)) (segment_of ph) =
    Some (segments (plan_of entry (phs ++ [ph]))).
Proof.
  intros Hl. simpl. rewrite arr_set_ok by
    (unfold zlen; rewrite length_app, length_fmap, length_replicate; lia).
  f_equal. rewrite Nat2Z.id, insert_app_r_alt by (rewrite length_fmap; lia).
  rewrite length_fmap, Nat.sub_diag, fmap_app, <-app_assoc, length_app. f_equal.
  replace (8 - length phs)%nat with (S (8 - (length phs + length [ph])))%nat by (simpl; lia).
  done.
Qed.

Abbreviation is_load := (λ ph, p_type ph = M11_PT_LOAD).

Lemma plan_loop_spec image_size region entry phs acc :
  Forall phdr_words phs → region_words region → is_u64 image_size → (length acc ≤ 8)%nat →
  let all := acc ++ filter is_load phs in
  let ok ph := segment_ok image_size region (segment_of ph) in
  Forall ok acc →
  ∃ c, plan_loop image_size region phs (plan_of entry acc) = Some c ∧
  match c with
  | Next plan => plan = plan_of entry all ∧ (length all ≤ 8)%nat ∧ Forall ok all
  | Return (plan, rc) =>
      plan = m11_zero_plan ∧ rc ≠ M11_OK ∧ ¬ ((length all ≤ 8)%nat ∧ Forall ok all)
  end.
Proof.
  intros Hphs Hr Hi. revert acc.
  induction Hphs as [|ph phs Hw Hphs IH]; intros acc Hacc all ok Hok; subst all ok; simpl.
  { eexists. split; [done|]. rewrite filter_nil, app_nil_r. done. }
  destruct (Z.eqb_spec (p_type ph) M11_PT_LOAD) as [Ht|Ht]; simpl;
    [rewrite filter_cons_True by done|rewrite filter_cons_False by done; by apply IH].
  destruct (Z.leb_spec M11_MAX_LOAD_SEGMENTS (Z.of_nat (length acc))) as [Hm|Hm].
  { eexists. split; [done|]. split_and!; [done..|]. intros [Hle _].
    rewrite length_app in Hle. unfold M11_MAX_LOAD_SEGMENTS in Hm. simpl in Hle. lia. }
  unfold M11_MAX_LOAD_SEGMENTS in Hm.
  pose proof (validate_load_segment_ok ph image_size region Hw Hr Hi) as Hv.
  destruct (Z.eqb_spec (m11_validate_load_segment ph image_size region) M11_OK) as [E|E]; simpl.
  - pose proof (plan_of_add entry acc ph) as Ha. simpl in Ha. rewrite Ha by lia. simpl.
    rewrite u32_small by words.
    destruct (IH (acc ++ [ph])) as (c & Hc & Hp).
    + rewrite length_app. simpl. lia.
    + apply Forall_app. split; [done|]. constructor; [by apply Hv|done].
    + exists c. rewrite <-app_assoc in Hp. split; [|done]. rewrite <-Hc. f_equal.
      unfold plan_of. f_equal. rewrite length_app. simpl. lia.
  - eexists. split; [done|]. split_and!; [done..|]. intros [_ Hf].
    apply Forall_app in Hf as [_ Hf]. apply Forall_cons in Hf as [Hf _]. tauto.
Qed.

(** ** The planner's contract *)

Lemma phdrs_words image : Forall is_u8 image → Forall phdr_words (phdrs image).
Proof.
  intros Hi. apply Forall_fmap, Forall_true. intros k. by apply phdr_of_words, Forall_drop.
Qed.

Lemma plan_load_run image image_size region p0 :
  Forall is_u8 image → image_size ≤ zlen image → is_u64 image_size → region_words region →
  ∃ plan rc, m11_elf64_plan_load (Ref image) image_size region (Ref p0) = Some (Ref plan, rc) ∧
    (rc = M11_OK ↔ loadable image image_size region) ∧
    plan = (if decide (rc = M11_OK) then plan_of (e_entry (ehdr_of image)) (loads image)
            else if decide (rc = M11_ERR_SEGCOUNT ∧ loads image = [])
            then plan_of (e_entry (ehdr_of image)) [] else m11_zero_plan).
Proof.
  intros Hb Hlen Hi Hr. unfold m11_elf64_plan_load, loadable.
  destruct (Z.ltb_spec image_size 64).
  { do 2 eexists. split; [done|]. split; [|done]. split; [done|lia]. }
  unfold read_ehdr. rewrite decide_True by lia. cbn [mbind option_bind].
  pose proof (header_rc_ok image image_size region Hb) as Hh.
  specialize (Hh ltac:(unfold zlen in *; lia) Hi Hr). set (eh := ehdr_of image) in *.
  destruct (Z.eqb_spec (header_rc eh image_size region) M11_OK) as [E|E]; cbn [negb].
  2:{ do 2 eexists. split; [done|]. split; [tauto|]. rewrite decide_False by done.
      rewrite decide_False; [done|]. intros [Hc _]. by apply header_rc_codes in Hc. }
  apply Hh in E as Hok. destruct Hok as [_ _ _ _ _ _ Hnum Htab _].
  assert (is_u64 (e_phoff eh)) as Hoff by (by apply field_u64).
  rewrite for_loop_plan by words. rewrite Z.mul_0_l, Z.add_0_r.
  destruct (plan_loop_spec image_size region (e_entry eh)
    (phdrs_from image (e_phoff eh) (Z.to_nat (e_phnum eh))) [])
    as (c & Hc & Hp); [by apply phdrs_words|done..|simpl; lia|done|].
  change (plan_of (e_entry eh) []) with (Plan (e_entry eh) 0 (segments m11_zero_plan)) in Hc.
  rewrite Hc. cbn [mbind option_bind]. cbn [app] in Hp.
  change (filter is_load (phdrs_from image (e_phoff eh) (Z.to_nat (e_phnum eh))))
    with (loads image) in Hp.
  destruct c as [plan|[plan rc]].
  - destruct Hp as (-> & Hle & Hok). cbn [plan_of segment_count].
    destruct (loads image) as [|ph phs] eqn:El; simpl in *.
    + do 2 eexists. split; [done|]. split; [split; [done|lia]|].
      rewrite decide_False by done. by rewrite decide_True.
    + do 2 eexists. split; [done|]. split; [|by rewrite decide_True].
      split; [|done]. intros _. split_and!; try done; [by apply Hh|lia].
  - destruct Hp as (-> & Hrc & Hno). do 2 eexists. split; [done|]. split; [split; [done|]|].
    + intros (_ & _ & [_ Hle] & Hok). by destruct Hno.
    + rewrite decide_False by done. rewrite decide_False; [done|]. intros [_ Hnil].
      apply Hno. rewrite Hnil. split; [simpl; lia|done].
Qed.

(** C15. The loader accepts exactly the images with a valid ELF64 header, an
    entry point in the user region and between one and eight loadable segments,
    each of which has legal flags (never writable and executable), a memory size
    covering its file size, a legal alignment, file bytes inside the image and
    memory inside the user region; for these the plan is the entry point and the
    loadable program headers in order. It never reads outside the image, whatever
    its bytes. *)
Theorem m11_elf64_plan_load_correct image image_size region p0 :
  Forall is_u8 image → image_size ≤ zlen image → is_u64 image_size → region_words region →
  ∃ plan rc, m11_elf64_plan_load (Ref image) image_size region (Ref p0) = Some (Ref plan, rc) ∧
    (rc = M11_OK ↔ loadable image image_size region) ∧
    (rc = M11_OK → plan = plan_of (e_entry (ehdr_of image)) (loads image)).
Proof.
  intros Hb Hlen Hi Hr.
  destruct (plan_load_run image image_size region p0 Hb Hlen Hi Hr) as (plan & rc & Hrun & Hiff & ->).
  do 2 eexists. split; [done|]. split; [done|]. intros Hrc. by rewrite decide_True.
Qed.

(** A rejected image leaves no segment in the plan: every segment slot and
    the count are zero, and so is the entry point unless the only thing wrong is
    that the image has nothing to load. *)
Theorem m11_elf64_plan_load_rejects image image_size region p0 plan rc :
  Forall is_u8 image → image_size ≤ zlen image → is_u64 image_size → region_words region →
  m11_elf64_plan_load (Ref image) image_size region (Ref p0) = Some (Ref plan, rc) →
  rc ≠ M11_OK →
  segment_count plan = 0 ∧ segments plan = replicate 8 zero_segment ∧
  (p_entry plan = 0 ∨ rc = M11_ERR_SEGCOUNT ∧ loads image = []).
Proof.
  intros Hb Hlen Hi Hr Hrun Hrc.
  destruct (plan_load_run image image_size region p0 Hb Hlen Hi Hr) as (plan' & rc' & Hrun' & _ & Hp).
  rewrite Hrun' in Hrun. injection Hrun as -> ->. rewrite Hp, decide_False by done. clear Hp.
  case_decide as Hs; (split; [done|]; split; [done|]); [by right|by left].
Qed.

(** ** Concrete images *)

(** A valid image: the header, two program headers (a note and a loadable
    segment of 16 bytes at 0x400000) and the segment's bytes. *)
Definition sample_phdr (type offset memsz : Z) : list Z :=
  le_encode 4 type ++ le_encode 4 5 ++ le_encode 8 offset ++ le_encode 8 0x400000 ++
  le_encode 8 0 ++ le_encode 8 16 ++ le_encode 8 memsz ++ le_encode 8 1.
Definition sample_image : list Z :=
  [0x7f; 69; 76; 70; 2; 1; 1; 0; 0; 0; 0; 0; 0; 0; 0; 0] ++ le_encode 2 2 ++ le_encode 2 62 ++
  le_encode 4 1 ++ le_encode 8 0x400004 ++ le_encode 8 64 ++ le_encode 8 0 ++ le_encode 4 0 ++
  le_encode 2 64 ++ le_encode 2 56 ++ le_encode 2 2 ++ replicate 6 0 ++
  sample_phdr 4 0 16 ++ sample_phdr 1 176 32 ++ replicate 16 0x90.
Definition user_region : m11_user_region := Region 0x400000 0x8000000000.

Lemma m11_elf64_plan_load_correct_witness :
  ∃ plan, m11_elf64_plan_load (Ref sample_image) 192 user_region (Ref m11_zero_plan) =
      Some (Ref plan, M11_OK) ∧
    plan = plan_of 0x400004 [Phdr 1 5 176 0x400000 0 16 32 1].
Proof.
  destruct (m11_elf64_plan_load_correct sample_image 192 user_region m11_zero_plan)
    as (plan & rc & Hrun & _ & Hplan).
  - vm_compute. repeat constructor; done.
  - done.
  - split; done.
  - split; split; done.
  - assert (rc = M11_OK) as -> by (revert Hrun; vm_compute; congruence).
    exists plan. split; [done|]. by rewrite Hplan.
Defined.

Lemma m11_elf64_plan_load_rejects_witness :
  ∃ plan, m11_elf64_plan_load (Ref dummy_elf) 128 user_region (Ref m11_zero_plan) =
      Some (Ref plan, M11_ERR_ENTRY) ∧
    segment_count plan = 0 ∧ segments plan = replicate 8 zero_segment.
Proof.
  eexists. split; [vm_compute; reflexivity|].
  edestruct (m11_elf64_plan_load_rejects dummy_elf 128 user_region m11_zero_plan)
    as (Hc & Hs & _).
  - vm_compute. repeat constructor; done.
  - done.
  - split; done.
  - split; split; done.
  - vm_compute. reflexivity.
  - done.
  - split; [exact Hc|exact Hs].
Defined.

(** The image that [kernel_main] embeds is always refused: its entry point,
    0x280100, is below the user region. *)
Lemma dummy_elf_refused : m11_kernel_smoke_test_elf_loader (Ref dummy_elf) 128 = Some false.
Proof. vm_compute. reflexivity. Qed.
