(* ===== verification/Mem.v ===== *)
(** Memory addressed by integers: one region of bytes that starts at a given
    address. The kernel heap overlays its block headers on such a region. *)
From S2P Require Import Prelude Bytes.

Record memory := Mem {
  m_addr : Z;
  m_bytes : list Z;
}.

(** The [n] bytes from address [a]; [None] when they are not all inside. *)
Definition bytes_at (m : memory) (a n : Z) : option (list Z) :=
  if decide (m_addr m ≤ a ∧ 0 ≤ n ∧ a + n ≤ m_addr m + zlen (m_bytes m)) then
    Some (slice (Z.to_nat (a - m_addr m)) (Z.to_nat n) (m_bytes m))
  else None.

Definition write_at (m : memory) (a : Z) (x : list Z) : option memory :=
  if decide (m_addr m ≤ a ∧ a + zlen x ≤ m_addr m + zlen (m_bytes m)) then
    Some (Mem (m_addr m) (splice (Z.to_nat (a - m_addr m)) x (m_bytes m)))
  else None.

(** A little-endian integer of [n] bytes at address [a]. *)
Definition load (n : nat) (m : memory) (a : Z) : option Z :=
  le_decode <$> bytes_at m a (Z.of_nat n).
Definition store (n : nat) (m : memory) (a v : Z) : option memory :=
  write_at m a (le_encode n v).

(** [for (i = 0; i < n; i++) p[i] = c] at address [a]. *)
Definition fill_at (m : memory) (a n c : Z) : option memory :=
  bs ← at_off (a - m_addr m) (m_bytes m) (λ d, mem_fill (Z.to_nat n) d c);
  Some (Mem (m_addr m) bs).

(** ** Ranges *)

(** The two memories have the same bytes in [[lo, hi)]. *)
Definition agree (m m' : memory) (lo hi : Z) : Prop :=
  ∀ a n, lo ≤ a → a + n ≤ hi → bytes_at m' a n = bytes_at m a n.

(** All of [[a, a + n)] is in the memory. *)
Definition in_mem (m : memory) (a n : Z) : Prop :=
  m_addr m ≤ a ∧ 0 ≤ n ∧ a + n ≤ m_addr m + zlen (m_bytes m).

Lemma bytes_at_in m a n : in_mem m a n → ∃ l, bytes_at m a n = Some l ∧ zlen l = n.
Proof.
  intros (Ha & Hn & He). unfold bytes_at. rewrite decide_True by done.
  eexists. split; [done|]. unfold zlen in *. rewrite slice_length; lia.
Qed.

Lemma bytes_at_Some m a n l : bytes_at m a n = Some l → in_mem m a n ∧ zlen l = n.
Proof.
  intros H. assert (in_mem m a n) as Hin.
  { unfold bytes_at in H. case_decide; [done|discriminate]. }
  split; [done|]. destruct (bytes_at_in _ _ _ Hin) as (l' & E & ?). congruence.
Qed.

Lemma load_in n m a v : load n m a = Some v → in_mem m a (Z.of_nat n).
Proof.
  unfold load. destruct (bytes_at m a (Z.of_nat n)) eqn:E; [|done]. intros _.
  by apply bytes_at_Some in E as [? _].
Qed.

Lemma agree_refl m lo hi : agree m m lo hi.
Proof. by intros a n _ _. Qed.

Lemma agree_trans m1 m2 m3 lo hi : agree m1 m2 lo hi → agree m2 m3 lo hi → agree m1 m3 lo hi.
Proof. intros H1 H2 a n Ha Hn. by rewrite H2, H1. Qed.

Lemma agree_sub m m' lo hi lo' hi' : agree m m' lo hi → lo ≤ lo' → hi' ≤ hi → agree m m' lo' hi'.
Proof. intros H Hl Hh a n Ha Hn. apply H; lia. Qed.

Lemma agree_load m m' lo hi n a : agree m m' lo hi → lo ≤ a → a + Z.of_nat n ≤ hi →
  load n m' a = load n m a.
Proof. intros H Ha Hn. unfold load. by rewrite (H a (Z.of_nat n)). Qed.

#[export] Hint Resolve agree_refl : core.

Lemma write_at_ok m a x : in_mem m a (zlen x) → ∃ m', write_at m a x = Some m'.
Proof. intros (? & ? & ?). unfold write_at. rewrite decide_True by done. eauto. Qed.

Lemma write_at_in m m' a x b n : write_at m a x = Some m' → in_mem m' b n ↔ in_mem m b n.
Proof.
  unfold write_at. case_decide as H; [|done]. intros [= <-]. unfold in_mem, zlen in *. cbn [m_addr m_bytes].
  by rewrite length_splice by lia.
Qed.

Lemma write_at_same m m' a x : write_at m a x = Some m' → bytes_at m' a (zlen x) = Some x.
Proof.
  unfold write_at. case_decide as H; [|done]. intros [= <-]. unfold bytes_at, zlen in *.
  cbn [m_addr m_bytes]. rewrite length_splice by lia. rewrite decide_True by lia.
  f_equal. rewrite Nat2Z.id. apply slice_splice_same. lia.
Qed.

Lemma write_at_agree m m' a x lo hi : write_at m a x = Some m' →
  hi ≤ a ∨ a + zlen x ≤ lo → agree m m' lo hi.
Proof.
  unfold write_at. case_decide as H; [|done]. intros [= <-] Ho b n Hb Hn.
  unfold bytes_at, zlen in *. cbn [m_addr m_bytes]. rewrite length_splice by lia.
  case_decide as Hd; [|done]. f_equal. destruct Hd as (? & ? & ?).
  destruct (decide (n = 0)) as [->|]; [by unfold slice|].
  apply slice_splice_other; lia.
Qed.

Lemma store_ok n m a v : in_mem m a (Z.of_nat n) → ∃ m', store n m a v = Some m'.
Proof. intros. apply write_at_ok. unfold zlen. by rewrite length_le_encode. Qed.

Lemma store_in n m m' a v b k : store n m a v = Some m' → in_mem m' b k ↔ in_mem m b k.
Proof. apply write_at_in. Qed.

Lemma load_store_same n m m' a v : store n m a v = Some m' → 0 ≤ v < 256 ^ Z.of_nat n →
  load n m' a = Some v.
Proof.
  intros H Hv. apply write_at_same in H. unfold zlen in H. rewrite length_le_encode in H.
  unfold load. rewrite H. simpl. by rewrite le_decode_encode.
Qed.

Lemma store_agree n m m' a v lo hi : store n m a v = Some m' →
  hi ≤ a ∨ a + Z.of_nat n ≤ lo → agree m m' lo hi.
Proof. intros H Ho. eapply write_at_agree; [done|]. unfold zlen. by rewrite length_le_encode. Qed.

Lemma load_store_other n k m m' a v b : store n m a v = Some m' →
  b + Z.of_nat k ≤ a ∨ a + Z.of_nat n ≤ b → load k m' b = load k m b.
Proof.
  intros H Ho. eapply (agree_load _ _ b (b + Z.of_nat k)); [|lia|lia].
  by eapply store_agree.
Qed.

(** A range cut in two. *)
Lemma bytes_at_split m a n k l : bytes_at m a n = Some l → 0 ≤ k ≤ n →
  bytes_at m a k = Some (take (Z.to_nat k) l) ∧ bytes_at m (a + k) (n - k) = Some (drop (Z.to_nat k) l).
Proof.
  unfold bytes_at. case_decide as H; [|done]. intros [= <-] Hk. unfold slice.
  rewrite !decide_True by lia. rewrite take_take, skipn_firstn_comm, drop_drop.
  split; do 2 f_equal; try lia. f_equal. lia.
Qed.

(** ** Filling *)

Lemma fill_at_ok m a n c : in_mem m a n →
  fill_at m a n c = write_at m a (replicate (Z.to_nat n) c).
Proof.
  intros (Ha & Hn & He). unfold fill_at, write_at, at_off, zlen in *.
  rewrite length_replicate. rewrite !decide_True by lia.
  rewrite mem_fill_ok by (rewrite length_drop; lia). simpl. unfold splice. rewrite length_replicate.
  by rewrite drop_drop.
Qed.

Lemma mem_fill_ub n d c : (length d < n)%nat → mem_fill n d c = None.
Proof.
  revert d. induction n as [|n IH]; intros d Hd; simpl; [lia|].
  destruct d as [|x d]; simpl in *; [done|]. by rewrite IH by lia.
Qed.

Lemma fill_at_ub m a n c : m_addr m + zlen (m_bytes m) < a + n → fill_at m a n c = None.
Proof.
  intros H. unfold fill_at, at_off, zlen in *. case_decide; [|done].
  rewrite mem_fill_ub; [done|]. rewrite length_drop. lia.
Qed.

(** [mem_load] computes a load after a sequence of stores. *)
Ltac mem_load :=
  repeat match goal with
    | H : store ?n ?m ?a ?v = Some ?m' |- load ?n ?m' ?b = _ =>
        rewrite (load_store_same n m m' a v H)
          by first [words | by split; vm_compute | split; [vm_compute; discriminate | reflexivity]];
        reflexivity
    | H : store ?n ?m ?a ?v = Some ?m' |- load ?k ?m' ?b = _ =>
        rewrite (load_store_other n k m m' a v b H) by lia
    end; try done.
(** [mem_agree] frames a sequence of stores. *)
Ltac mem_agree :=
  repeat match goal with
    | H : store ?n ?m ?a ?v = Some ?m' |- agree _ ?m' _ _ =>
        eapply agree_trans; [|apply (store_agree n m m' a v _ _ H); lia]
    end; try apply agree_refl.
(** [mem_in] transports a range back to the memory before the stores. *)
Ltac mem_in :=
  repeat match goal with
    | H : store ?n ?m ?a ?v = Some ?m' |- in_mem ?m' _ _ => apply (store_in n m m' a v _ _ H)
    end; unfold in_mem in *; lia.
(** [mem_store n m a v as m' E] performs a store inside the memory. *)
Tactic Notation "mem_store" constr(n) constr(m) constr(a) constr(v) "as" ident(m') ident(E) :=
  destruct (store_ok n m a v) as [m' E];
  [ try mem_in | rewrite ?E; cbn [mbind option_bind] ].

(** Writing inside a range. *)
Lemma slice_splice_inside o off x n l : (off + length x ≤ n)%nat → (o + n ≤ length l)%nat →
  slice o n (splice (o + off) x l) = splice off x (slice o n l).
Proof.
  intros Hx Hl. unfold slice, splice. apply list_eq. intros i.
  destruct (decide (i < n)%nat).
  2:{ rewrite lookup_take_ge by lia. symmetry. apply lookup_ge_None.
      rewrite !length_app, !length_take, !length_drop, !length_take, length_drop. lia. }
  rewrite lookup_take_lt, lookup_drop by lia.
  destruct (decide (i < off)%nat).
  { rewrite !lookup_app_l by (rewrite !length_take, ?length_drop; lia).
    rewrite !lookup_take_lt by lia. by rewrite lookup_drop. }
  rewrite lookup_app_r by (rewrite length_take; lia).
  rewrite (lookup_app_r (take off _)) by (rewrite !length_take, length_drop; lia).
  rewrite !length_take, length_drop.
  replace (o + i - (o + off) `min` length l)%nat with (i - off)%nat by lia.
  replace (i - off `min` (n `min` (length l - o)))%nat with (i - off)%nat by lia.
  destruct (decide (i - off < length x)%nat); [by rewrite !lookup_app_l by lia|].
  rewrite !lookup_app_r by lia. rewrite !lookup_drop, lookup_take_lt, lookup_drop by lia. f_equal. lia.
Qed.

Lemma bytes_at_write m m' a n l off x : bytes_at m a n = Some l → 0 ≤ off → off + zlen x ≤ n →
  write_at m (a + off) x = Some m' → bytes_at m' a n = Some (splice (Z.to_nat off) x l).
Proof.
  intros H Ho Hx Hw. pose proof (bytes_at_Some _ _ _ _ H) as [Hin _].
  apply (write_at_in _ _ _ _ a n) in Hw as Hin'. unfold write_at in Hw. case_decide; [|done].
  injection Hw as <-. unfold bytes_at in *. cbn [m_addr m_bytes] in *.
  rewrite decide_True in H by done. injection H as <-.
  rewrite decide_True by (by apply Hin'). f_equal. unfold in_mem, zlen in *.
  replace (Z.to_nat (a + off - m_addr m)) with (Z.to_nat (a - m_addr m) + Z.to_nat off)%nat by lia.
  apply slice_splice_inside; lia.
Qed.

(** Two neighbouring ranges together. *)
Lemma bytes_at_join m a n k l1 l2 : bytes_at m a n = Some l1 → bytes_at m (a + n) k = Some l2 →
  bytes_at m a (n + k) = Some (l1 ++ l2).
Proof.
  intros H1 H2. pose proof (bytes_at_Some _ _ _ _ H1) as [Hin1 Hz1].
  pose proof (bytes_at_Some _ _ _ _ H2) as [Hin2 Hz2].
  destruct (bytes_at_in m a (n + k)) as (l & Hl & Hz); [unfold in_mem in *; lia|].
  destruct (bytes_at_split _ _ _ n _ Hl) as [E1 E2]; [unfold in_mem in *; lia|].
  replace (n + k - n) with k in E2 by lia. rewrite Hl. f_equal.
  rewrite <-(take_drop (Z.to_nat n) l). congruence.
Qed.
