(* ===== verification/Kmem.v ===== *)
(** The kernel heap ([src/kernel/mm/kmem.c]): a list of blocks, each a header
    of 40 bytes followed by its payload, laid out in the memory given to
    [kmem_init]. Pointers are addresses, 0 is [NULL]; headers are read and
    written as bytes of the memory, and an access outside it is undefined.

    The two unbounded loops take the length of the memory as fuel: each header
    they visit is at an address of the memory, so a walk that has not ended
    after that many steps has met an address twice and never ends. *)
From S2P Require Import Prelude Bytes Mem.

Definition KMEM_ALIGN : Z := 16.
Definition KMEM_MAGIC : Z := 0x4d43534f53484541.
(** [sizeof(struct kmem_header)] and the offsets of its fields. *)
Definition header_size : Z := 40.
Definition h_magic (a : Z) : Z := a.
Definition h_size (a : Z) : Z := a + 8.
Definition h_next (a : Z) : Z := a + 16.
Definition h_is_free (a : Z) : Z := a + 24.

Record kmem := Kmem {
  g_heap_base : Z;
  g_heap_bytes : Z;
  g_kmem_ready : Z;
  k_mem : memory;
}.

Definition kmem_zero_state (m : memory) : kmem := Kmem 0 0 0 m.

Definition with_mem (m : memory) (s : kmem) : kmem :=
  Kmem (g_heap_base s) (g_heap_bytes s) (g_kmem_ready s) m.

(** [~(KMEM_ALIGN - 1)]: [KMEM_ALIGN] is [16u], so the complement is taken on
    32 bits and then widened; with the cast to [uintptr_t] it has 64 bits. *)
Definition align_mask32 : Z := u32 (Z.lnot (KMEM_ALIGN - 1)).
Definition align_mask64 : Z := u64 (Z.lnot (KMEM_ALIGN - 1)).

Definition local_memset (m : memory) (p value num : Z) : option memory :=
  fill_at m p num (u8 value).

(** Four assignments to the fields of a header. *)
Definition set_header (m : memory) (a size next is_free : Z) : option memory :=
  m ← store 8 m (h_magic a) KMEM_MAGIC;
  m ← store 8 m (h_size a) size;
  m ← store 8 m (h_next a) next;
  store 4 m (h_is_free a) is_free.

Definition kmem_init (base bytes : Z) (s : kmem) : option (kmem * Z) :=
  if negb (g_kmem_ready s =? 0) then Some (s, -1) else
  if (base =? 0) || (bytes <? header_size + KMEM_ALIGN) then Some (s, -2) else
  let addr := base in
  let payload_addr := u64 (addr + header_size) in
  let aligned_payload := Z.land (u64 (payload_addr + (KMEM_ALIGN - 1))) align_mask64 in
  let final_header_addr := u64 (aligned_payload - header_size) in
  let offset := u64 (final_header_addr - addr) in
  if bytes <=? u64 (offset + header_size) then Some (s, -2) else
  let heap_bytes := u64 (bytes - offset) in
  m ← set_header (k_mem s) final_header_addr (u64 (heap_bytes - header_size)) 0 1;
  Some (Kmem final_header_addr heap_bytes 1 m, 0).

(** The branch of [kmem_alloc] for a block that is large enough: [curr] is
    split when what remains can hold a header and [KMEM_ALIGN] bytes. *)
Definition take_block (m : memory) (curr aligned_size : Z) : option (memory * Z) :=
  let needed_space := u64 (aligned_size + header_size) in
  let needed_space := Z.land (u64 (needed_space + (KMEM_ALIGN - 1))) align_mask32 in
  size ← load 8 m (h_size curr);
  m ← (if u64 (u64 (needed_space + header_size) + KMEM_ALIGN) <=? size then
         let next_block := u64 (curr + needed_space) in
         m ← store 8 m (h_magic next_block) KMEM_MAGIC;
         size ← load 8 m (h_size curr);
         m ← store 8 m (h_size next_block) (u64 (size - needed_space));
         next ← load 8 m (h_next curr);
         m ← store 8 m (h_next next_block) next;
         m ← store 4 m (h_is_free next_block) 1;
         m ← store 8 m (h_size curr) (u64 (needed_space - header_size));
         store 8 m (h_next curr) next_block
       else Some m);
  m ← store 4 m (h_is_free curr) 0;
  Some (m, u64 (curr + header_size)).

Fixpoint alloc_loop (fuel : nat) (m : memory) (curr aligned_size : Z) : option (memory * Z) :=
  match fuel with
  | O => None
  | S fuel' =>
      if curr =? 0 then Some (m, 0) else
      magic ← load 8 m (h_magic curr);
      if negb (magic =? KMEM_MAGIC) then Some (m, 0) else
      is_free ← load 4 m (h_is_free curr);
      size ← load 8 m (h_size curr);
      if negb (is_free =? 0) && (aligned_size <=? size) then take_block m curr aligned_size else
      next ← load 8 m (h_next curr);
      alloc_loop fuel' m next aligned_size
  end.

Definition walk_fuel (m : memory) : nat := S (S (length (m_bytes m))).

Definition kmem_alloc (bytes : Z) (s : kmem) : option (kmem * Z) :=
  if (g_kmem_ready s =? 0) || (bytes =? 0) then Some (s, 0) else
  let aligned_size := Z.land (u64 (bytes + (KMEM_ALIGN - 1))) align_mask32 in
  '(m, p) ← alloc_loop (walk_fuel (k_mem s)) (k_mem s) (g_heap_base s) aligned_size;
  Some (with_mem m s, p).

Definition kmem_calloc (count bytes : Z) (s : kmem) : option (kmem * Z) :=
  if (count =? 0) || (bytes =? 0) then Some (s, 0) else
  if UINT64_MAX / bytes <? count then Some (s, 0) else
  let total := u64 (count * bytes) in
  '(s, p) ← kmem_alloc total s;
  if p =? 0 then Some (s, p) else
  m ← local_memset (k_mem s) p 0 total;
  Some (with_mem m s, p).

(** The inner loop of [kmem_free_checked]; [Return] when a header is bad. *)
Fixpoint merge_loop (fuel : nat) (m : memory) (curr : Z) : option (ctl memory (memory * Z)) :=
  match fuel with
  | O => None
  | S fuel' =>
      is_free ← load 4 m (h_is_free curr);
      if is_free =? 0 then Some (Next m) else
      next ← load 8 m (h_next curr);
      if next =? 0 then Some (Next m) else
      next_free ← load 4 m (h_is_free next);
      if next_free =? 0 then Some (Next m) else
      magic ← load 8 m (h_magic next);
      if negb (magic =? KMEM_MAGIC) then Some (Return (m, -4)) else
      size ← load 8 m (h_size curr);
      next_size ← load 8 m (h_size next);
      m ← store 8 m (h_size curr) (u64 (size + u64 (header_size + next_size)));
      next ← load 8 m (h_next curr);
      next_next ← load 8 m (h_next next);
      m ← store 8 m (h_next curr) next_next;
      merge_loop fuel' m curr
  end.

Fixpoint coalesce_loop (fuel : nat) (m : memory) (curr : Z) : option (memory * Z) :=
  match fuel with
  | O => None
  | S fuel' =>
      if curr =? 0 then Some (m, 0) else
      magic ← load 8 m (h_magic curr);
      if negb (magic =? KMEM_MAGIC) then Some (m, -4) else
      c ← merge_loop (walk_fuel m) m curr;
      match c with
      | Return r => Some r
      | Next m =>
          next ← load 8 m (h_next curr);
          coalesce_loop fuel' m next
      end
  end.

Definition kmem_free_checked (p : Z) (s : kmem) : option (kmem * Z) :=
  if g_kmem_ready s =? 0 then Some (s, -1) else
  if p =? 0 then Some (s, 0) else
  if (p <=? g_heap_base s) || (u64 (g_heap_base s + g_heap_bytes s) <=? p) then Some (s, -3) else
  let m := k_mem s in
  let block := u64 (p - header_size) in
  magic ← load 8 m (h_magic block);
  if negb (magic =? KMEM_MAGIC) then Some (s, -4) else
  is_free ← load 4 m (h_is_free block);
  if negb (is_free =? 0) then Some (s, -2) else
  m ← store 4 m (h_is_free block) 1;
  '(m, rc) ← coalesce_loop (walk_fuel m) m (g_heap_base s);
  Some (with_mem m s, rc).

(** ** Statistics and validation *)

Record kmem_stats := Stats {
  total_bytes : Z;
  used_bytes : Z;
  free_bytes : Z;
  block_count : Z;
  free_count : Z;
  largest_free : Z;
}.

Definition stats_zero : kmem_stats := Stats 0 0 0 0 0 0.

(** One block of the walk. *)
Definition stats_add (is_free size : Z) (o : kmem_stats) : kmem_stats :=
  if negb (is_free =? 0) then
    Stats (total_bytes o) (used_bytes o) (u64 (free_bytes o + size)) (u64 (block_count o + 1))
      (u64 (free_count o + 1)) (if largest_free o <? size then size else largest_free o)
  else
    Stats (total_bytes o) (u64 (used_bytes o + size)) (free_bytes o) (u64 (block_count o + 1))
      (free_count o) (largest_free o).

Fixpoint stats_loop (fuel : nat) (m : memory) (curr : Z) (o : kmem_stats) : option kmem_stats :=
  match fuel with
  | O => None
  | S fuel' =>
      if curr =? 0 then Some o else
      magic ← load 8 m (h_magic curr);
      if negb (magic =? KMEM_MAGIC) then Some o else
      is_free ← load 4 m (h_is_free curr);
      size ← load 8 m (h_size curr);
      next ← load 8 m (h_next curr);
      stats_loop fuel' m next (stats_add is_free size o)
  end.

(** The object that [out] leads to after the call. *)
Definition kmem_get_stats (out : ptr kmem_stats) (s : kmem) : option (ptr kmem_stats) :=
  match out with
  | Null => Some Null
  | Ref _ =>
      if g_kmem_ready s =? 0 then Some (Ref stats_zero) else
      o ← stats_loop (walk_fuel (k_mem s)) (k_mem s) (g_heap_base s)
            (Stats (g_heap_bytes s) 0 0 0 0 0);
      Some (Ref o)
  end.

Fixpoint validate_loop (fuel : nat) (s : kmem) (curr : Z) : option Z :=
  match fuel with
  | O => None
  | S fuel' =>
      if curr =? 0 then Some 0 else
      if (curr <? g_heap_base s) || (u64 (g_heap_base s + g_heap_bytes s) <=? curr) then Some (-2) else
      magic ← load 8 (k_mem s) (h_magic curr);
      if negb (magic =? KMEM_MAGIC) then Some (-3) else
      next ← load 8 (k_mem s) (h_next curr);
      validate_loop fuel' s next
  end.

Definition kmem_validate (s : kmem) : option Z :=
  if g_kmem_ready s =? 0 then Some (-1) else
  validate_loop (walk_fuel (k_mem s)) s (g_heap_base s).
