(* ===== verification/KmemHeap.v ===== *)
(** The blocks of the kernel heap: the list of blocks that a memory holds, and
    what the loops of [kmem.c] do to it. *)
From S2P Require Import Prelude Bytes Mem Kmem.

(** A block of the heap: the size of its payload and, when it is in use, the
    bytes its owner has in it. *)
Record block := Block {
  b_size : Z;
  b_data : option (list Z);
}.

Definition b_free (b : block) : bool := match b_data b with None => true | Some _ => false end.

(** The bytes that blocks take, headers included. *)
Fixpoint total (bs : list block) : Z :=
  match bs with [] => 0 | b :: r => 40 + b_size b + total r end.

(** The address of the first block of [bs] placed at [a], or [nx]. *)
Definition link (a : Z) (bs : list block) (nx : Z) : Z :=
  match bs with [] => nx | _ => a end.

(** The memory holds block [b] at [a], its [next] field being [nx]. *)
Record block_at (m : memory) (a : Z) (b : block) (nx : Z) : Prop := {
  ba_magic : load 8 m (h_magic a) = Some KMEM_MAGIC;
  ba_size : load 8 m (h_size a) = Some (b_size b);
  ba_next : load 8 m (h_next a) = Some nx;
  ba_free : load 4 m (h_is_free a) = Some (if b_free b then 1 else 0);
  ba_data : ∀ d, b_data b = Some d → bytes_at m (a + 40) (b_size b) = Some d;
  ba_in : in_mem m a (40 + b_size b);
  ba_nx : is_u64 nx;
  ba_pos : 0 < b_size b;
  ba_addr : 0 < a ∧ a + 40 + b_size b < 18446744073709551616;
  ba_align : a mod 16 = 8;
}.

Fixpoint seg (m : memory) (a : Z) (bs : list block) (nx : Z) : Prop :=
  match bs with
  | [] => True
  | b :: r => block_at m a b (link (a + (40 + b_size b)) r nx) ∧ seg m (a + (40 + b_size b)) r nx
  end.

Ltac offs := unfold h_magic, h_size, h_next, h_is_free, header_size in *.

(** ** Frames *)

Lemma block_at_agree m m' a b nx :
  block_at m a b nx → agree m m' a (a + (40 + b_size b)) → block_at m' a b nx.
Proof.
  intros [? ? ? ? ? Hin ? ? ? ?] Ha. offs.
  split; offs; try done; try (rewrite (agree_load _ _ _ _ _ _ Ha) by lia; done).
  - intros d Hd. rewrite Ha by lia. auto.
  - destruct (bytes_at_in _ _ _ Hin) as (l & Hl & _).
    rewrite <-Ha in Hl by lia. by apply bytes_at_Some in Hl as [? _].
Qed.

Lemma total_nonneg m a bs nx : seg m a bs nx → 0 ≤ total bs.
Proof.
  revert a. induction bs as [|b r IH]; intros a; simpl; [lia|].
  intros [Hb Hr]. apply IH in Hr. pose proof (ba_pos _ _ _ _ Hb). lia.
Qed.

Lemma seg_agree m m' a bs nx :
  seg m a bs nx → agree m m' a (a + total bs) → seg m' a bs nx.
Proof.
  revert a. induction bs as [|b r IH]; intros a; simpl; [done|]. intros [Hb Hr] Ha.
  pose proof (total_nonneg _ _ _ _ Hr). pose proof (ba_pos _ _ _ _ Hb). split.
  - eapply block_at_agree; [done|]. eapply agree_sub; [done|lia|lia].
  - apply IH; [done|]. eapply agree_sub; [done|lia|lia].
Qed.

Lemma total_app bs1 bs2 : total (bs1 ++ bs2) = total bs1 + total bs2.
Proof. induction bs1; simpl; [done|]. lia. Qed.

Lemma link_app a bs1 bs2 nx :
  link a (bs1 ++ bs2) nx = link a bs1 (link a bs2 nx).
Proof. by destruct bs1. Qed.

Lemma link_app2 a bs1 bs2 nx :
  link a (bs1 ++ bs2) nx = link a bs1 (link (a + total bs1) bs2 nx).
Proof. destruct bs1; simpl; [|done]. by rewrite Z.add_0_r. Qed.

Lemma seg_app m a bs1 bs2 nx :
  seg m a (bs1 ++ bs2) nx ↔
  seg m a bs1 (link (a + total bs1) bs2 nx) ∧ seg m (a + total bs1) bs2 nx.
Proof.
  revert a. induction bs1 as [|b r IH]; intros a; simpl.
  { rewrite Z.add_0_r. tauto. }
  rewrite IH, link_app2.
  replace (a + (40 + b_size b) + total r) with (a + (40 + b_size b + total r)) by lia. tauto.
Qed.

(** ** Alignment of sizes *)

Definition round16 (n : Z) : Z := (n + 15) / 16 * 16.

Lemma mask32_round n : 0 ≤ n → n + 15 < 4294967296 →
  Z.land (u64 (n + (KMEM_ALIGN - 1))) align_mask32 = round16 n.
Proof.
  intros Hn Hb. unfold align_mask32, KMEM_ALIGN, round16. change (16 - 1) with 15. rewrite u64_small by words.
  replace (u32 (Z.lnot 15)) with (Z.land (Z.lnot 15) (2 ^ 32 - 1)) by reflexivity.
  rewrite Z.land_assoc. replace (Z.lnot 15) with (Z.lnot (2 ^ 4 - 1)) by reflexivity.
  rewrite land_high, land_low by lia. change (2 ^ 4) with 16. change (2 ^ 32) with 4294967296.
  apply Z.mod_small. pose proof (Z.div_mod (n + 15) 16). pose proof (Z.mod_pos_bound (n + 15) 16).
  split; [apply Z.mul_nonneg_nonneg; [apply Z.div_pos; lia|lia]|lia].
Qed.

Lemma round16_mod n : round16 n mod 16 = 0.
Proof. unfold round16. apply Z_mod_mult. Qed.

Lemma round16_bounds n : n ≤ round16 n ≤ n + 15.
Proof. unfold round16. dlia. Qed.

Lemma round16_40 n : n mod 16 = 0 → round16 (n + 40) = n + 48.
Proof.
  intros H. apply Z.div_exact in H; [|lia]. unfold round16. rewrite H.
  replace (16 * (n / 16) + 40 + 15) with (7 + (n / 16 + 3) * 16) by lia.
  rewrite Z.div_add by lia. change (7 / 16) with 0. lia.
Qed.

(** ** Taking a block *)

(** The blocks that replace a free block of [size] bytes when [n] are taken. *)
Definition carve (size n : Z) (d : list Z) : list block :=
  if n + 104 <=? size then [Block (n + 8) (Some d); Block (size - (n + 48)) None]
  else [Block size (Some d)].

Lemma total_carve size n d : total (carve size n d) = 40 + size.
Proof. unfold carve. case_match; simpl; lia. Qed.

Lemma take_block_run m a size nx n :
  block_at m a (Block size None) nx → n mod 16 = 0 → 0 < n ≤ size → n + 64 ≤ 4294967296 →
  ∃ m' d, take_block m a n = Some (m', a + 40) ∧
    seg m' a (carve size n d) nx ∧ zlen d = (if n + 104 <=? size then n + 8 else size) ∧
    (∀ lo hi, hi ≤ a ∨ a + (40 + size) ≤ lo → agree m m' lo hi).
Proof.
  intros [Hm Hs Hx Hf _ Hin Hnx Hp Ha Hal] Hn Hsz Hb. cbn [b_size b_data b_free] in *.
  unfold take_block. rewrite Hs. cbn [mbind option_bind]. unfold header_size.
  rewrite (u64_small (n + 40)) by words.
  rewrite mask32_round, round16_40 by lia.
  rewrite (u64_small (n + 48 + 40)), (u64_small (n + 48 + 40 + KMEM_ALIGN)) by (unfold KMEM_ALIGN; words).
  unfold KMEM_ALIGN. replace (n + 48 + 40 + 16) with (n + 104) by lia.
  assert (u64 (a + 40) = a + 40) as -> by (apply u64_small; words).
  unfold carve. offs. destruct (n + 104 <=? size) eqn:E.
  - apply Z.leb_le in E.
    rewrite (u64_small (a + (n + 48))) by words.
    rewrite (u64_small (n + 48 - 40)) by words. replace (n + 48 - 40) with (n + 8) by lia.
    set (nb := a + (n + 48)) in *.
    mem_store 8%nat m nb KMEM_MAGIC as m1 E1.
    assert (load 8 m1 (a + 8) = Some size) as Hs1 by mem_load. rewrite Hs1. cbn [mbind option_bind].
    rewrite (u64_small (size - (n + 48))) by words.
    mem_store 8%nat m1 (nb + 8) (size - (n + 48)) as m2 E2.
    assert (load 8 m2 (a + 16) = Some nx) as Hx2 by mem_load. rewrite Hx2. cbn [mbind option_bind].
    mem_store 8%nat m2 (nb + 16) nx as m3 E3. mem_store 4%nat m3 (nb + 24) 1 as m4 E4.
    mem_store 8%nat m4 (a + 8) (n + 8) as m5 E5. mem_store 8%nat m5 (a + 16) nb as m6 E6.
    mem_store 4%nat m6 (a + 24) 0 as m7 E7.
    cbn [mbind option_bind].
    assert (in_mem m7 (a + 40) (n + 8)) as Hd by mem_in.
    destruct (bytes_at_in _ _ _ Hd) as (d & Ed & Ld).
    exists m7, d. split; [done|]. split; [|split; [done|intros lo hi Ho; subst nb; mem_agree]].
    assert (nb mod 16 = 8) as Hnb by (subst nb; Z.to_euclidean_division_equations; lia).
    cbn [seg link b_size]. replace (a + (40 + (n + 8))) with nb by (subst nb; lia).
    subst nb. split; [|split; [|done]]; split; offs; cbn [b_size b_data b_free];
      try mem_load; try lia; try mem_in; try words. by intros ? [= <-].
  - cbn [mbind option_bind]. mem_store 4%nat m (a + 24) 0 as m1 E1.
    destruct (bytes_at_in m1 (a + 40) size) as (d & Ed & Ld); [mem_in|].
    exists m1, d. split; [done|]. split; [|split; [done|intros lo hi Ho; mem_agree]].
    cbn [seg link b_size]. split; [|done]. split; offs; cbn [b_size b_data b_free];
      try mem_load; try lia; try mem_in; try words. by intros ? [= <-].
Qed.

(** ** Walks *)

Lemma seg_cons m a b r nx : seg m a (b :: r) nx →
  block_at m a b (link (a + (40 + b_size b)) r nx) ∧ seg m (a + (40 + b_size b)) r nx.
Proof. done. Qed.

(** A walk ends within the fuel of the loops. *)
Lemma seg_fuel m a bs nx : seg m a bs nx → (length bs < walk_fuel m)%nat.
Proof.
  intros H. unfold walk_fuel.
  assert (bs = [] ∨ 40 * zlen bs ≤ total bs ∧ in_mem m a (total bs)) as [->|[Hl Hin]].
  - revert a H. induction bs as [|b r IH]; intros a H; [by left|right].
    apply seg_cons in H as [Hb Hr]. pose proof (ba_in _ _ _ _ Hb). pose proof (ba_pos _ _ _ _ Hb).
    pose proof (total_nonneg _ _ _ _ Hr).
    unfold zlen in *. cbn [total length]. rewrite Nat2Z.inj_succ.
    destruct (IH _ Hr) as [->|[? ?]]; unfold in_mem in *; cbn [total length] in *; lia.
  - simpl. lia.
  - unfold in_mem, zlen in *. lia.
Qed.

(** The block that [kmem_alloc] takes, with what is before and after it. *)
Fixpoint first_fit (n : Z) (bs : list block) : option (list block * Z * list block) :=
  match bs with
  | [] => None
  | b :: r =>
      if b_free b && (n <=? b_size b) then Some ([], b_size b, r) else
      '(pre, size, post) ← first_fit n r; Some (b :: pre, size, post)
  end.

Lemma first_fit_Some n bs pre size post : first_fit n bs = Some (pre, size, post) →
  bs = pre ++ Block size None :: post ∧ n ≤ size ∧
  Forall (λ b, b_free b = true → b_size b < n) pre.
Proof.
  revert pre. induction bs as [|b r IH]; intros pre; simpl; [done|].
  destruct (b_free b && (n <=? b_size b)) eqn:E.
  - intros [= <- <- <-]. bool_prop. unfold b_free in *. destruct b as [s [d|]]; [done|]. done.
  - intros H. apply bind_Some in H as ([[p s] q] & H & [= <- <- <-]).
    destruct (IH _ H) as (-> & ? & ?). split; [done|]. split; [done|]. constructor; [|done].
    intros Hf. rewrite Hf in E. simpl in E. lia.
Qed.

Lemma first_fit_None n bs : first_fit n bs = None →
  Forall (λ b, b_free b = true → b_size b < n) bs.
Proof.
  induction bs as [|b r IH]; simpl; [done|]. destruct (b_free b && (n <=? b_size b)) eqn:E; [done|].
  intros H. constructor; [intros Hf; rewrite Hf in E; simpl in E; lia|].
  apply IH. by destruct (first_fit n r) as [[[? ?] ?]|].
Qed.

(** Step over the reads of a loop body. *)
Ltac header_reads H :=
  destruct H as [Hm Hs Hx Hf Hd Hin Hnx Hp Ha Hal];
  rewrite ?Hm, ?Hs, ?Hx, ?Hf; cbn [mbind option_bind].

Lemma alloc_loop_run fuel m a bs n : seg m a bs 0 → (length bs < fuel)%nat →
  alloc_loop fuel m (link a bs 0) n =
  match first_fit n bs with
  | None => Some (m, 0)
  | Some (pre, _, _) => take_block m (a + total pre) n
  end.
Proof.
  revert a fuel. induction bs as [|b r IH]; intros a fuel Hseg Hfl; (destruct fuel as [|fuel]; [simpl in *; lia|]).
  { done. }
  apply seg_cons in Hseg as [Hb Hr]. cbn [alloc_loop link first_fit].
  header_reads Hb. rewrite Z.eqb_refl. cbn [negb].
  assert (negb ((if b_free b then 1 else 0) =? 0) = b_free b) as -> by (by destruct (b_free b)).
  rewrite (proj2 (Z.eqb_neq a 0)) by lia.
  destruct (b_free b && (n <=? b_size b)).
  - by rewrite Z.add_0_r.
  - cbn [mbind option_bind]. rewrite IH by (done || (simpl in *; lia)).
    destruct (first_fit n r) as [[[p s] q]|]; cbn [mbind option_bind]; [|done].
    cbn [total]. f_equal. lia.
Qed.

(** ** Coalescing *)

(** Block [b] takes in the free blocks that follow it. *)
Fixpoint absorb (b : block) (r : list block) : block * list block :=
  match r with
  | c :: r' =>
      if b_free b && b_free c then absorb (Block (b_size b + (40 + b_size c)) None) r' else (b, r)
  | [] => (b, [])
  end.

Fixpoint coal (b : block) (r : list block) : list block :=
  match r with
  | c :: r' =>
      if b_free b && b_free c then coal (Block (b_size b + (40 + b_size c)) None) r'
      else b :: coal c r'
  | [] => [b]
  end.

Definition coalesce (bs : list block) : list block :=
  match bs with [] => [] | b :: r => coal b r end.

Lemma coal_absorb b r : coal b r = (absorb b r).1 :: coalesce (absorb b r).2.
Proof.
  revert b. induction r as [|c r IH]; intros b; simpl; [done|].
  destruct (b_free b && b_free c); [apply IH|done].
Qed.

Lemma absorb_length b r : (length (absorb b r).2 ≤ length r)%nat.
Proof.
  revert b. induction r as [|c r IH]; intros b; simpl; [lia|].
  destruct (b_free b && b_free c); [|done]. specialize (IH (Block (b_size b + (40 + b_size c)) None)). lia.
Qed.

Lemma absorb_total b r : total ((absorb b r).1 :: (absorb b r).2) = total (b :: r).
Proof.
  revert b. induction r as [|c r IH]; intros b; simpl; [done|].
  destruct (b_free b && b_free c); [|done].
  specialize (IH (Block (b_size b + (40 + b_size c)) None)). simpl in *. lia.
Qed.

Lemma merge_loop_run fuel m a b r : seg m a (b :: r) 0 → (length r < fuel)%nat →
  ∃ m', merge_loop fuel m a = Some (Next m') ∧
    seg m' a ((absorb b r).1 :: (absorb b r).2) 0 ∧
    (∀ lo hi, hi ≤ a + 8 ∨ a + 24 ≤ lo → agree m m' lo hi).
Proof.
  revert m b fuel. induction r as [|c r IH]; intros m b fuel Hseg Hfl; (destruct fuel as [|fuel]; [simpl in *; lia|]);
    pose proof Hseg as Hseg'; apply seg_cons in Hseg' as [Hb Hr]; header_reads Hb; cbn [merge_loop absorb].
  { rewrite Hf, Hx. cbn [mbind option_bind link]. exists m.
    split; [by destruct (b_free b)|]. split; [done|]. intros. apply agree_refl. }
  apply seg_cons in Hr as [Hc Hr].
  rewrite Hf, Hx. cbn [mbind option_bind link]. destruct (b_free b) eqn:Fb; cbn [andb].
  2:{ exists m. split; [done|]. split; [done|]. intros. apply agree_refl. }
  change (1 =? 0) with false. cbv iota. set (nb := a + (40 + b_size b)) in *.
  pose proof Hc as Hc'. destruct Hc' as [Hm' Hs' Hx' Hf' Hd' Hin' Hnx' Hp' Ha' Hal'].
  rewrite (proj2 (Z.eqb_neq nb 0)) by lia. rewrite Hf'. cbn [mbind option_bind].
  destruct (b_free c) eqn:Fc.
  2:{ exists m. split; [done|]. split; [done|]. intros. apply agree_refl. }
  change (1 =? 0) with false. cbv iota.
  rewrite Hm', Hs, Hs'. cbn [mbind option_bind]. rewrite Z.eqb_refl. cbn [negb].
  unfold header_size. offs. rewrite (u64_small (40 + b_size c)) by words.
  rewrite (u64_small (b_size b + (40 + b_size c))) by (subst nb; words).
  set (sz := b_size b + (40 + b_size c)) in *.
  mem_store 8%nat m (a + 8) sz as m1 E1.
  assert (load 8 m1 (a + 16) = Some nb) as H1 by mem_load. rewrite H1. cbn [mbind option_bind].
  assert (load 8 m1 (nb + 16) = Some (link (nb + (40 + b_size c)) r 0)) as H2 by (subst nb; mem_load).
  rewrite H2. cbn [mbind option_bind].
  mem_store 8%nat m1 (a + 16) (link (nb + (40 + b_size c)) r 0) as m2 E2.
  destruct (IH m2 (Block sz None) fuel) as (m3 & E3 & S3 & A3); [|simpl in *; lia|].
  { replace (nb + (40 + b_size c)) with (a + (40 + sz)) in * by (subst nb sz; lia).
    cbn [seg b_size]. split.
    - split; offs; cbn [b_size b_free b_data];
        try mem_load; try done; try (subst nb sz; lia); try (subst sz; mem_in). 
    - eapply seg_agree; [exact Hr|]. subst nb sz. mem_agree. }
  exists m3. split; [done|]. split; [done|].
  intros lo hi Ho. eapply agree_trans; [|by apply A3]. mem_agree.
Qed.

Lemma total_coal b r : total (coal b r) = total (b :: r).
Proof.
  revert b. induction r as [|c r IH]; intros b; simpl; [done|].
  destruct (b_free b && b_free c); rewrite ?IH; simpl; rewrite ?IH; simpl; lia.
Qed.

Lemma total_coalesce bs : total (coalesce bs) = total bs.
Proof. destruct bs; [done|]. apply total_coal. Qed.

Lemma link_coalesce a bs nx : link a (coalesce bs) nx = link a bs nx.
Proof. destruct bs; [done|]. simpl. by rewrite coal_absorb. Qed.

Lemma coalesce_loop_run fuel m a bs : seg m a bs 0 → (length bs < fuel)%nat →
  ∃ m', coalesce_loop fuel m (link a bs 0) = Some (m', 0) ∧
    seg m' a (coalesce bs) 0 ∧
    (∀ lo hi, hi ≤ a ∨ a + total bs ≤ lo → agree m m' lo hi).
Proof.
  revert m a fuel. induction bs as [bs IH] using (well_founded_ind (well_founded_ltof _ (@length block))).
  intros m a fuel Hseg Hfl. destruct fuel as [|fuel]; [lia|].
  destruct bs as [|b r]; [exists m; split; [done|]; split; [done|intros; apply agree_refl]|].
  cbn [coalesce_loop link]. pose proof Hseg as Hb. apply seg_cons in Hb as [Hb _].
  destruct (merge_loop_run (walk_fuel m) m a b r) as (m1 & E1 & S1 & A1); [done| |].
  { pose proof (seg_fuel _ _ _ _ Hseg). simpl in *. lia. }
  destruct Hb as [Hm _ _ _ _ _ _ Hp Ha _]. rewrite (proj2 (Z.eqb_neq a 0)) by lia.
  rewrite Hm. cbn [mbind option_bind]. rewrite Z.eqb_refl, E1. cbn [negb mbind option_bind].
  pose proof (absorb_total b r) as Ht. pose proof (absorb_length b r).
  cbn [coalesce]. rewrite coal_absorb.
  destruct (absorb b r) as [b' r']. cbn [fst snd] in *.
  apply seg_cons in S1 as [Hb1 Sr]. destruct Hb1 as [Hm1 Hs1 Hx1 Hf1 Hd1 Hin1 Hnx1 Hp1 Ha1 Hal1].
  rewrite Hx1. cbn [mbind option_bind].
  pose proof (total_nonneg _ _ _ _ Sr).
  destruct (IH r') with (m := m1) (a := a + (40 + b_size b')) (fuel := fuel) as (m2 & E2 & S2 & A2).
  { unfold ltof. simpl. lia. } { done. } { simpl in *. lia. }
  exists m2. split; [done|]. split.
  - split; [|done]. rewrite link_coalesce.
    eapply block_at_agree; [by split|]. apply A2. lia.
  - intros lo hi Ho. simpl in *. eapply agree_trans; [apply A1|apply A2]; lia.
Qed.

(** ** Statistics *)

Definition stats_of (o : kmem_stats) (bs : list block) : kmem_stats :=
  fold_left (λ o b, stats_add (if b_free b then 1 else 0) (b_size b) o) bs o.

Lemma stats_loop_run fuel m a bs o : seg m a bs 0 → (length bs < fuel)%nat →
  stats_loop fuel m (link a bs 0) o = Some (stats_of o bs).
Proof.
  revert a fuel o. induction bs as [|b r IH]; intros a fuel o Hseg Hfl; (destruct fuel as [|fuel]; [simpl in *; lia|]).
  { done. }
  apply seg_cons in Hseg as [Hb Hr]. cbn [stats_loop link].
  header_reads Hb. rewrite Z.eqb_refl. cbn [negb]. rewrite (proj2 (Z.eqb_neq a 0)) by lia.
  cbn [mbind option_bind]. by rewrite IH by (done || (simpl in *; lia)).
Qed.

Lemma validate_loop_run fuel s a bs : seg (k_mem s) a bs 0 → (length bs < fuel)%nat →
  g_heap_base s ≤ a → a + total bs ≤ g_heap_base s + g_heap_bytes s →
  0 ≤ g_heap_base s → 0 ≤ g_heap_bytes s → g_heap_base s + g_heap_bytes s < 18446744073709551616 →
  validate_loop fuel s (link a bs 0) = Some 0.
Proof.
  revert a fuel. induction bs as [|b r IH]; intros a fuel Hseg Hfl Hlo Hhi H1 H2 H3; (destruct fuel as [|fuel]; [simpl in *; lia|]).
  { done. }
  apply seg_cons in Hseg as [Hb Hr]. cbn [validate_loop link total] in *.
  pose proof (total_nonneg _ _ _ _ Hr).
  header_reads Hb. rewrite Z.eqb_refl. cbn [negb]. rewrite (proj2 (Z.eqb_neq a 0)) by lia.
  rewrite u64_small by words.
  rewrite (proj2 (Z.ltb_ge a _)), (proj2 (Z.leb_gt _ a)) by lia. cbn [orb mbind option_bind].
  apply IH; (done || (simpl in *; lia)).
Qed.
