(* ===== verification/KmemSpec.v ===== *)
(** What the kernel heap promises: the invariant of its block list, the
    abstract heap (addresses in use and the bytes their owners have there) that
    it implements, and the sizes for which it does not. *)
From S2P Require Import Prelude Bytes Mem Kmem KmemHeap.

(** ** The invariant *)

(** No two neighbours are both free. *)
Fixpoint joined (fs : list bool) : Prop :=
  match fs with
  | f :: r => match r with g :: _ => f && g = false | [] => True end ∧ joined r
  | [] => True
  end.

Record Heap (s : kmem) (bs : list block) : Prop := {
  hp_ready : g_kmem_ready s ≠ 0;
  hp_seg : seg (k_mem s) (g_heap_base s) bs 0;
  hp_ne : bs ≠ [];
  hp_bytes : g_heap_bytes s = total bs;
  hp_base : 0 < g_heap_base s;
  hp_range : g_heap_base s + g_heap_bytes s < 18446744073709551616;
  hp_joined : joined (b_free <$> bs);
}.

Lemma joined_split pre post : joined (pre ++ true :: post) →
  joined (pre ++ false :: true :: post) ∧ joined (pre ++ false :: post).
Proof.
  induction pre as [|f [|g r] IH]; simpl.
  - destruct post as [|[] ?]; tauto.
  - destruct f; intros [? ?]; [done|]. simpl in IH. tauto.
  - simpl in IH. tauto.
Qed.

Lemma joined_coal b r : joined (b_free <$> coal b r).
Proof.
  revert b. induction r as [|c r IH]; intros b; simpl; [done|].
  destruct (b_free b && b_free c) eqn:E; [apply IH|].
  pose proof (IH c) as Hc. rewrite coal_absorb in Hc |- *. simpl in *. split; [|done].
  assert (b_free (absorb c r).1 = b_free c) as ->; [|done].
  clear. revert c. induction r as [|d r IH]; intros c; simpl; [done|].
  destruct (b_free c && b_free d) eqn:E; [|done]. rewrite IH. simpl.
  by apply andb_true_iff in E as [-> _].
Qed.

Lemma joined_coalesce bs : joined (b_free <$> coalesce bs).
Proof. destruct bs; [done|]. apply joined_coal. Qed.

Lemma with_mem_same s : with_mem (k_mem s) s = s.
Proof. by destruct s. Qed.

Lemma hp_link s bs nx : Heap s bs → link (g_heap_base s) bs nx = g_heap_base s.
Proof. intros H. pose proof (hp_ne _ _ H). by destruct bs. Qed.

(** Replacing the blocks in the middle, for memories that agree elsewhere. *)
Lemma seg_replace m m' a pre mid mid' post :
  seg m a (pre ++ mid ++ post) 0 → mid ≠ [] → mid' ≠ [] → total mid' = total mid →
  seg m' (a + total pre) mid' (link (a + total pre + total mid) post 0) →
  (∀ lo hi, hi ≤ a + total pre ∨ a + total pre + total mid ≤ lo → agree m m' lo hi) →
  seg m' a (pre ++ mid' ++ post) 0.
Proof.
  intros Hs Hn Hn' Ht Hm Ha. apply seg_app in Hs as [Hp Hs]. apply seg_app in Hs as [Hmid Hq].
  apply seg_app. split; [|apply seg_app; rewrite Ht; split; [done|]].
  - eapply seg_agree; [|apply Ha; lia]. destruct mid, mid'; done.
  - eapply seg_agree; [done|]. apply Ha. lia.
Qed.

(** ** Allocation *)

Lemma Heap_alloc s bs n : Heap s bs → 0 < n ≤ 4294967232 →
  match first_fit (round16 n) bs with
  | None => kmem_alloc n s = Some (s, 0)
  | Some (pre, size, post) => ∃ m d,
      kmem_alloc n s = Some (with_mem m s, g_heap_base s + total pre + 40) ∧
      Heap (with_mem m s) (pre ++ carve size (round16 n) d ++ post) ∧
      n ≤ zlen d ∧ (zlen d < round16 n + 104)
  end.
Proof.
  intros H Hn. pose proof (round16_bounds n). pose proof (round16_mod n) as Hmod.
  assert (round16 n ≤ 4294967232) as Hle by (unfold round16; dlia).
  assert (kmem_alloc n s = '(m, p) ← alloc_loop (walk_fuel (k_mem s)) (k_mem s)
    (link (g_heap_base s) bs 0) (round16 n); Some (with_mem m s, p)) as Eq.
  { unfold kmem_alloc. rewrite (proj2 (Z.eqb_neq _ _) (hp_ready _ _ H)), (proj2 (Z.eqb_neq n 0)) by lia.
    cbn [orb]. by rewrite mask32_round, (hp_link _ _ _ H) by lia. }
  rewrite Eq. pose proof (hp_seg _ _ H) as Hseg.
  rewrite alloc_loop_run by (done || by eapply seg_fuel).
  destruct (first_fit (round16 n) bs) as [[[pre size] post]|] eqn:Ef.
  2:{ simpl. by rewrite with_mem_same. }
  apply first_fit_Some in Ef as (-> & Hsz & _).
  pose proof Hseg as Hs'. apply seg_app in Hs' as [_ Hs']. apply seg_cons in Hs' as [Hb _].
  destruct (take_block_run _ _ _ _ (round16 n) Hb) as (m & d & Et & St & Ld & At); [done|lia|lia|].
  exists m, d. rewrite Et. split; [done|].
  pose proof (total_carve size (round16 n) d) as Tc.
  split; [|rewrite Ld; case_match; lia].
  destruct H as [? _ _ Hby ? ? Hj]. split; try done; cbn [g_heap_base g_heap_bytes k_mem with_mem].
  - apply (seg_replace (k_mem s) _ _ _ [Block size None]); try done.
    + unfold carve. by case_match.
    + rewrite Tc. simpl. lia.
    + simpl. by rewrite Z.add_0_r.
    + simpl. intros lo hi Ho. apply At. lia.
  - intros E. apply app_eq_nil in E as [_ E]. apply app_eq_nil in E as [E _].
    unfold carve in E. by case_match.
  - rewrite Hby, !total_app, Tc. simpl. lia.
  - rewrite !fmap_app in *. rewrite fmap_cons in Hj. apply joined_split in Hj as [J1 J2].
    unfold carve. by case_match.
Qed.

(** ** Release *)

(** The tests of [kmem_free_checked] on the payload address of a block. *)
Lemma free_guards s pre b post : Heap s (pre ++ b :: post) →
  let a := g_heap_base s + total pre in
  kmem_free_checked (a + 40) s =
  if b_free b then Some (s, -2) else
  m ← store 4 (k_mem s) (h_is_free a) 1;
  '(m, rc) ← coalesce_loop (walk_fuel m) m (g_heap_base s);
  Some (with_mem m s, rc).
Proof.
  intros H a. destruct H as [Hr Hs _ Hby Hba Hra _].
  apply seg_app in Hs as [Hp Hs]. apply seg_cons in Hs as [Hblk Hq].
  pose proof (total_nonneg _ _ _ _ Hp). pose proof (total_nonneg _ _ _ _ Hq).
  pose proof (ba_pos _ _ _ _ Hblk).
  fold a in Hblk. rewrite total_app in Hby. cbn [total] in Hby.
  unfold kmem_free_checked. rewrite (proj2 (Z.eqb_neq _ _) Hr), (proj2 (Z.eqb_neq (a + 40) 0)) by lia.
  rewrite (u64_small (g_heap_base s + g_heap_bytes s)) by words.
  rewrite (proj2 (Z.leb_gt _ _)), (proj2 (Z.leb_gt _ _)) by lia. cbn [orb].
  replace (u64 (a + 40 - header_size)) with a by (unfold header_size; rewrite u64_small by words; lia).
  destruct Hblk as [Hm _ _ Hf _ _ _ _ _ _].
  rewrite Hm, Hf. cbn [mbind option_bind]. rewrite Z.eqb_refl. cbn [negb].
  by destruct (b_free b).
Qed.

Lemma Heap_free s pre sz d post : Heap s (pre ++ Block sz (Some d) :: post) →
  ∃ m, kmem_free_checked (g_heap_base s + total pre + 40) s = Some (with_mem m s, 0) ∧
    Heap (with_mem m s) (coalesce (pre ++ Block sz None :: post)).
Proof.
  intros H. rewrite (free_guards _ _ _ _ H). cbn [b_free b_data].
  set (a := g_heap_base s + total pre).
  destruct H as [Hr Hs Hne Hby Hba Hra _].
  pose proof Hs as Hs'. apply seg_app in Hs' as [_ Hs']. apply seg_cons in Hs' as [Hb _]. fold a in Hb.
  destruct Hb as [Hm Hsi Hx Hf Hd Hin Hnx Hp Ha Hal]. offs. cbn [b_size] in *.
  mem_store 4%nat (k_mem s) (a + 24) 1 as m1 E1.
  assert (seg m1 (g_heap_base s) (pre ++ [Block sz None] ++ post) 0) as S1.
  { apply (seg_replace (k_mem s) _ _ _ [Block sz (Some d)]); try done.
    - split; [|done]. fold a. cbn [total b_size link b_data].
      replace (a + (40 + sz + 0)) with (a + (40 + sz)) by lia.
      split; offs; cbn [b_size b_free b_data]; try mem_load; try done; try mem_in.
    - intros lo hi Ho. fold a in Ho. cbn [total b_size] in Ho. mem_agree. }
  cbn [app] in S1.
  pose proof (seg_fuel _ _ _ _ S1) as Hfl.
  destruct (coalesce_loop_run _ _ _ _ S1 Hfl) as (m2 & E2 & S2 & _).
  assert (link (g_heap_base s) (pre ++ Block sz None :: post) 0 = g_heap_base s) as El by (by destruct pre).
  rewrite El in E2. rewrite E2. cbn [mbind option_bind]. exists m2. split; [done|].
  split; cbn [g_heap_base g_heap_bytes g_kmem_ready k_mem with_mem]; try done.
  - intros E. rewrite <-(length_zero_iff_nil (coalesce _)) in E. destruct pre; simpl in E; by rewrite coal_absorb in E.
  - rewrite Hby, total_coalesce, !total_app. done.
  - apply joined_coalesce.
Qed.

(** ** The abstract heap *)

(** The blocks in use, by payload address. *)
Fixpoint live (a : Z) (bs : list block) : gmap Z (list Z) :=
  match bs with
  | [] => ∅
  | b :: r =>
      let h := live (a + (40 + b_size b)) r in
      match b_data b with Some d => <[a + 40 := d]> h | None => h end
  end.

Definition abs (s : kmem) (h : gmap Z (list Z)) : Prop :=
  ∃ bs, Heap s bs ∧ h = live (g_heap_base s) bs.

Lemma live_bounds m a bs nx p d : seg m a bs nx → live a bs !! p = Some d →
  a + 40 ≤ p ∧ p + zlen d ≤ a + total bs ∧ p mod 16 = 0 ∧ 0 < zlen d ∧
  bytes_at m p (zlen d) = Some d.
Proof.
  revert a. induction bs as [|b r IH]; intros a Hs; [done|].
  apply seg_cons in Hs as [Hb Hr]. cbn [live total]. intros Hl.
  pose proof (ba_pos _ _ _ _ Hb). pose proof (total_nonneg _ _ _ _ Hr).
  assert (live (a + (40 + b_size b)) r !! p = Some d ∨ p = a + 40 ∧ b_data b = Some d) as [Hl'|[-> Hd]].
  { destruct (b_data b) as [d'|]; [|by left]. apply lookup_insert_Some in Hl as [[<- <-]|[_ ?]]; [by right|by left]. }
  - destruct (IH _ Hr Hl') as (? & ? & ? & ? & ?). repeat split; try done; lia.
  - pose proof (ba_data _ _ _ _ Hb _ Hd) as Hby. apply bytes_at_Some in Hby as Hz.
    destruct Hz as [_ Hz]. rewrite Hz. pose proof (ba_align _ _ _ _ Hb).
    repeat split; try done; try lia. by Z.to_euclidean_division_equations; lia.
Qed.

Lemma live_decomp a bs p d : live a bs !! p = Some d →
  ∃ pre size post, bs = pre ++ Block size (Some d) :: post ∧ p = a + total pre + 40.
Proof.
  revert a. induction bs as [|[sz od] r IH]; intros a; simpl; [done|]. intros Hl.
  assert (live (a + (40 + sz)) r !! p = Some d ∨ p = a + 40 ∧ od = Some d) as [Hl'|[-> ->]].
  { destruct od as [d'|]; [|by left]. apply lookup_insert_Some in Hl as [[<- <-]|[_ ?]]; [by right|by left]. }
  - destruct (IH _ Hl') as (pre & size & post & -> & ->). exists (Block sz od :: pre), size, post.
    split; [done|]. simpl. lia.
  - exists [], sz, r. split; [done|]. simpl. lia.
Qed.

Lemma live_app a bs1 bs2 : live a (bs1 ++ bs2) = live a bs1 ∪ live (a + total bs1) bs2.
Proof.
  revert a. induction bs1 as [|b r IH]; intros a; simpl.
  { by rewrite Z.add_0_r, map_empty_union. }
  rewrite IH. replace (a + (40 + b_size b) + total r) with (a + (40 + b_size b + total r)) by lia.
  destruct (b_data b); [|done]. by rewrite insert_union_l.
Qed.

Lemma live_coal a b r : live a (coal b r) = live a (b :: r).
Proof.
  revert a b. induction r as [|c r IH]; intros a b; cbn [coal]; [done|].
  destruct (b_free b && b_free c) eqn:E.
  - rewrite IH. apply andb_true_iff in E as [Eb Ec]. unfold b_free in *. cbn [live b_size b_data].
    destruct (b_data b), (b_data c); try done. f_equal. lia.
  - cbn [live]. by rewrite IH.
Qed.

Lemma live_coalesce a bs : live a (coalesce bs) = live a bs.
Proof. destruct bs; [done|]. apply live_coal. Qed.

(** The address of a block is not in use by the blocks before it. *)
Lemma live_pre_None m a pre nx p : seg m a pre nx → a + total pre ≤ p → live a pre !! p = None.
Proof.
  intros Hs Hp. destruct (live a pre !! p) eqn:E; [|done].
  apply (live_bounds _ _ _ _ _ _ Hs) in E. lia.
Qed.

Lemma live_post_None m a post nx p : seg m a post nx → p < a + 40 → live a post !! p = None.
Proof.
  intros Hs Hp. destruct (live a post !! p) eqn:E; [|done].
  apply (live_bounds _ _ _ _ _ _ Hs) in E. lia.
Qed.

(** A used block in the middle. *)
Lemma live_mid m a pre size d post nx :
  seg m a (pre ++ Block size (Some d) :: post) nx →
  live a (pre ++ Block size (Some d) :: post) =
    <[a + total pre + 40 := d]> (live a (pre ++ Block size None :: post)) ∧
  live a (pre ++ Block size None :: post) !! (a + total pre + 40) = None.
Proof.
  intros Hs. apply seg_app in Hs as [Hp Hs]. apply seg_cons in Hs as [Hb Hq].
  rewrite !live_app. cbn [live b_size b_data] in *. split.
  - rewrite insert_union_r; [done|]. eapply live_pre_None; [done|]. lia.
  - apply lookup_union_None. split; [eapply live_pre_None; [done|]; lia|].
    eapply live_post_None; [done|]. pose proof (ba_pos _ _ _ _ Hb). simpl in *. lia.
Qed.

Lemma Heap_write s pre size d post off x :
  Heap s (pre ++ Block size (Some d) :: post) → 0 ≤ off → off + zlen x ≤ zlen d →
  ∃ m, write_at (k_mem s) (g_heap_base s + total pre + 40 + off) x = Some m ∧
    Heap (with_mem m s) (pre ++ Block size (Some (splice (Z.to_nat off) x d)) :: post).
Proof.
  intros [Hr Hs Hne Hby Hba Hra Hj] Ho Hx. set (a := g_heap_base s + total pre).
  pose proof Hs as Hs'. apply seg_app in Hs' as [_ Hs']. apply seg_cons in Hs' as [Hb _]. fold a in Hb.
  destruct Hb as [Hm Hsi Hnx Hf Hd Hin Hnxr Hp Ha Hal]. offs. cbn [b_size b_data] in *.
  pose proof (Hd _ eq_refl) as Hby'. pose proof (bytes_at_Some _ _ _ _ Hby') as [Hpin Hz].
  destruct (write_at_ok (k_mem s) (a + 40 + off) x) as [m Ew].
  { unfold in_mem in *. pose proof (zlen_nonneg x). lia. }
  exists m. split; [done|].
  assert (∀ lo hi, hi ≤ a + 40 ∨ a + (40 + size) ≤ lo → agree (k_mem s) m lo hi) as Hag.
  { intros lo hi Hlh. eapply write_at_agree; [done|]. lia. }
  assert (∀ n b, b + Z.of_nat n ≤ a + 40 → load n m b = load n (k_mem s) b) as Hload.
  { intros n b Hn. eapply (agree_load _ _ b (b + Z.of_nat n)); [apply Hag|..]; lia. }
  split; cbn [g_heap_base g_heap_bytes g_kmem_ready k_mem with_mem]; try done.
  - apply (seg_replace (k_mem s) m _ _ [Block size (Some d)] [Block size _] post); try done.
    + split; [|done]. fold a. cbn [total b_size link].
      replace (a + (40 + size + 0)) with (a + (40 + size)) by lia.
      split; offs; cbn [b_size b_free b_data]; try done; try (rewrite Hload by lia; done).
      * intros ? [= <-]. eapply bytes_at_write; [exact Hby'|lia|lia|done].
      * by apply (write_at_in _ _ _ _ _ _ Ew).
    + intros lo hi Hlh. fold a in Hlh. cbn [total b_size] in Hlh. apply Hag. lia.
  - by destruct pre.
  - rewrite Hby, !total_app. done.
  - by rewrite fmap_app in *.
Qed.

Lemma live_carve a pre size n d post m :
  seg m a (pre ++ carve size n d ++ post) 0 →
  live a (pre ++ carve size n d ++ post) =
    <[a + total pre + 40 := d]> (live a (pre ++ Block size None :: post)) ∧
  live a (pre ++ Block size None :: post) !! (a + total pre + 40) = None.
Proof.
  intros Hs.
  assert (∃ sz r, carve size n d = Block sz (Some d) :: r) as (sz & r & E) by (unfold carve; case_match; eauto).
  rewrite E in Hs. destruct (live_mid m a pre sz d (r ++ post) 0 Hs) as [H1 H2].
  assert (live a (pre ++ Block size None :: post) = live a (pre ++ Block sz None :: r ++ post)) as ->.
  { assert (total (carve size n d) = 40 + size) as Ht by apply total_carve.
    rewrite !live_app. f_equal. cbn [live b_size b_data]. rewrite live_app.
    unfold carve in E. case_match; injection E as <- <-; simpl in *.
    - rewrite map_empty_union. f_equal. lia.
    - rewrite map_empty_union. f_equal. lia. }
  by rewrite E.
Qed.

(** ** Initialisation *)

Lemma mask64_round n : is_u64 (n + 15) →
  Z.land (u64 (n + (KMEM_ALIGN - 1))) align_mask64 = round16 n.
Proof.
  intros Hn. unfold align_mask64, KMEM_ALIGN, round16. change (16 - 1) with 15.
  rewrite u64_small by done. rewrite land_u64_mask by done.
  replace (Z.lnot 15) with (Z.lnot (2 ^ 4 - 1)) by reflexivity. by rewrite land_high by lia.
Qed.

Lemma Heap_init s base bytes : g_kmem_ready s = 0 → 0 < base → 56 ≤ bytes →
  in_mem (k_mem s) base bytes → base + bytes < 18446744073709551616 →
  ∃ m, let hb := round16 (base + 40) - 40 in
    kmem_init base bytes s = Some (Kmem hb (base + bytes - hb) 1 m, 0) ∧
    Heap (Kmem hb (base + bytes - hb) 1 m) [Block (base + bytes - hb - 40) None].
Proof.
  intros Hr Hb Hn Hin Hend. pose proof (round16_bounds (base + 40)). pose proof (round16_mod (base + 40)).
  set (hb := round16 (base + 40) - 40).
  unfold kmem_init. rewrite Hr. change (negb (0 =? 0)) with false. cbv iota.
  change (header_size + KMEM_ALIGN) with 56. unfold header_size. rewrite (proj2 (Z.eqb_neq base 0)), (proj2 (Z.ltb_ge bytes _)) by lia.
  cbn [orb]. cbv zeta. rewrite (u64_small (base + 40)) by words.
  rewrite mask64_round by words. fold hb.
  rewrite !(u64_small hb), !(u64_small (hb - base)) by (subst hb; words).
  rewrite (u64_small (hb - base + 40)), (u64_small (bytes - (hb - base))) by (subst hb; words).
  rewrite (proj2 (Z.leb_gt bytes _)) by (subst hb; lia).
  rewrite (u64_small (bytes - (hb - base) - 40)) by (subst hb; words).
  replace (bytes - (hb - base)) with (base + bytes - hb) by lia.
  unfold set_header. offs.
  assert (0 < hb ∧ base ≤ hb ∧ hb + 55 ≤ base + bytes + 15 ∧ hb + 40 < base + bytes) as Hhb by (subst hb; lia).
  assert (hb mod 16 = 8) as Hal by (subst hb; Z.to_euclidean_division_equations; lia).
  clearbody hb. set (sz := base + bytes - hb - 40).
  mem_store 8%nat (k_mem s) hb KMEM_MAGIC as m1 E1. mem_store 8%nat m1 (hb + 8) sz as m2 E2.
  mem_store 8%nat m2 (hb + 16) 0 as m3 E3. mem_store 4%nat m3 (hb + 24) 1 as m4 E4.
  exists m4. split; [done|].
  split; cbn [g_heap_base g_heap_bytes g_kmem_ready k_mem]; try done; try lia.
  - split; [|done]. cbn [link].
    split; offs; cbn [b_size b_free b_data]; try (subst sz; mem_load); try done; try mem_in; try words.
  - simpl. subst sz. lia.
Qed.

(** ** The contract *)

(** Sizes up to which the 32-bit mask of the source does not matter. *)
Definition kmem_limit : Z := 4294967232.

(** The blocks in use lie in [[lo, hi)], aligned, with room for a header before
    each of them and between any two. *)
Definition well_placed (lo hi : Z) (h : gmap Z (list Z)) : Prop :=
  (∀ p d, h !! p = Some d → lo + 40 ≤ p ∧ p + zlen d ≤ hi ∧ p mod 16 = 0 ∧ 0 < zlen d) ∧
  (∀ p q d e, p < q → h !! p = Some d → h !! q = Some e → p + zlen d + 40 ≤ q).

(** [NULL] and nothing changed, or a new block of at least [n] bytes whose
    contents satisfy [P]. *)
Definition allocated (n : Z) (P : list Z → Prop) (h h' : gmap Z (list Z)) (p : Z) : Prop :=
  p = 0 ∧ h' = h ∨
  p ≠ 0 ∧ h !! p = None ∧ ∃ d, n ≤ zlen d ∧ P d ∧ h' = <[p := d]> h.

Lemma live_apart m a bs nx p q d e : seg m a bs nx → p < q →
  live a bs !! p = Some d → live a bs !! q = Some e → p + zlen d + 40 ≤ q.
Proof.
  intros Hs Hpq Hp Hq. destruct (live_decomp _ _ _ _ Hp) as (pre & sz & post & -> & ->).
  pose proof Hs as Hs'. apply seg_app in Hs' as [H1 H2]. apply seg_cons in H2 as [Hb H2].
  pose proof (ba_data _ _ _ _ Hb _ eq_refl) as Hd. apply bytes_at_Some in Hd as [_ Hz]. cbn [b_size] in *.
  rewrite live_app in Hq. apply lookup_union_Some_raw in Hq as [Hq|[_ Hq]].
  - apply (live_bounds _ _ _ _ _ _ H1) in Hq. lia.
  - cbn [live b_data b_size] in Hq. apply lookup_insert_Some in Hq as [[? _]|[_ Hq]]; [lia|].
    apply (live_bounds _ _ _ _ _ _ H2) in Hq. lia.
Qed.

Lemma abs_well_placed s h : abs s h →
  well_placed (g_heap_base s) (g_heap_base s + g_heap_bytes s) h ∧
  (∀ p d, h !! p = Some d → bytes_at (k_mem s) p (zlen d) = Some d).
Proof.
  intros (bs & H & ->). pose proof (hp_seg _ _ H) as Hs. rewrite (hp_bytes _ _ H).
  split; [split|].
  - intros p d Hp. by destruct (live_bounds _ _ _ _ _ _ Hs Hp) as (? & ? & ? & ? & _).
  - intros p q d e. by eapply live_apart.
  - intros p d Hp. by destruct (live_bounds _ _ _ _ _ _ Hs Hp) as (_ & _ & _ & _ & ?).
Qed.

Lemma abs_validate s h : abs s h → kmem_validate s = Some 0.
Proof.
  intros (bs & H & ->). pose proof (hp_seg _ _ H) as Hs. unfold kmem_validate.
  rewrite (proj2 (Z.eqb_neq _ _) (hp_ready _ _ H)).
  rewrite <-(hp_link _ _ 0 H) at 1. pose proof (hp_base _ _ H). pose proof (hp_range _ _ H).
  pose proof (total_nonneg _ _ _ _ Hs). pose proof (hp_bytes _ _ H).
  apply validate_loop_run; try done; try lia. by eapply seg_fuel.
Qed.

Lemma abs_alloc s h n : abs s h → 0 < n ≤ kmem_limit →
  ∃ s' h' p, kmem_alloc n s = Some (s', p) ∧ abs s' h' ∧ allocated n (λ _, True) h h' p ∧
    g_heap_base s' = g_heap_base s ∧ g_heap_bytes s' = g_heap_bytes s.
Proof.
  intros (bs & H & ->) Hn. pose proof (Heap_alloc s bs n H Hn) as Ha.
  destruct (first_fit (round16 n) bs) as [[[pre size] post]|] eqn:Ef.
  - destruct Ha as (m & d & E & H' & Hd & _). eexists _, _, _. split; [done|]. split; [by eexists|].
    apply first_fit_Some in Ef as (-> & _ & _). split; [|done]. right.
    pose proof (hp_seg _ _ H') as Hs'. cbn [k_mem with_mem g_heap_base] in *.
    destruct (live_carve _ _ _ _ _ _ _ Hs') as [L1 L2].
    pose proof (total_nonneg _ _ _ _ (proj1 (proj1 (seg_app _ _ _ _ _) (hp_seg _ _ H)))).
    pose proof (hp_base _ _ H).
    split; [lia|]. split; [done|]. exists d. split; [done|]. by split.
  - exists s, (live (g_heap_base s) bs), 0. split; [done|]. split; [by eexists|]. split; [by left|done].
Qed.

Lemma abs_write s h p d off x : abs s h → h !! p = Some d → 0 ≤ off → off + zlen x ≤ zlen d →
  ∃ m, write_at (k_mem s) (p + off) x = Some m ∧
    abs (with_mem m s) (<[p := splice (Z.to_nat off) x d]> h).
Proof.
  intros (bs & H & ->) Hp Ho Hx. destruct (live_decomp _ _ _ _ Hp) as (pre & sz & post & -> & ->).
  destruct (Heap_write _ _ _ _ _ _ _ H Ho Hx) as (m & E & H'). exists m. split; [done|].
  eexists. split; [done|]. cbn [g_heap_base with_mem].
  destruct (live_mid _ _ _ _ _ _ _ (hp_seg _ _ H')) as [L1 _]. cbn [g_heap_base with_mem] in L1.
  destruct (live_mid _ _ _ _ _ _ _ (hp_seg _ _ H)) as [L2 _].
  by rewrite L1, L2, insert_insert_eq.
Qed.

Lemma abs_free s h p d : abs s h → h !! p = Some d →
  ∃ s', kmem_free_checked p s = Some (s', 0) ∧ abs s' (delete p h) ∧
    g_heap_base s' = g_heap_base s ∧ g_heap_bytes s' = g_heap_bytes s.
Proof.
  intros (bs & H & ->) Hp. destruct (live_decomp _ _ _ _ Hp) as (pre & sz & post & -> & ->).
  destruct (Heap_free _ _ _ _ _ H) as (m & E & H'). exists (with_mem m s). split; [done|]. split; [|done].
  eexists. split; [done|]. cbn [g_heap_base with_mem]. rewrite live_coalesce.
  destruct (live_mid _ _ _ _ _ _ _ (hp_seg _ _ H)) as [L1 L2]. rewrite L1.
  by rewrite delete_insert_id.
Qed.

Lemma kmem_calloc_total s count n s' p : 0 < count → 0 < n → count * n ≤ kmem_limit →
  kmem_alloc (count * n) s = Some (s', p) →
  kmem_calloc count n s =
  (if p =? 0 then Some (s', p) else m ← local_memset (k_mem s') p 0 (count * n); Some (with_mem m s', p)).
Proof.
  intros Hc Hn Hl E. unfold kmem_limit in *. unfold kmem_calloc.
  rewrite (proj2 (Z.eqb_neq count 0)), (proj2 (Z.eqb_neq n 0)) by lia. cbn [orb].
  rewrite (proj2 (Z.ltb_ge _ count)).
  2:{ unfold UINT64_MAX. apply Z.div_le_lower_bound; lia. }
  rewrite u64_small by (unfold is_u64; nia). by rewrite E.
Qed.

Lemma abs_calloc s h count n : abs s h → 0 < count → 0 < n → count * n ≤ kmem_limit →
  ∃ s' h' p, kmem_calloc count n s = Some (s', p) ∧ abs s' h' ∧
    allocated (count * n) (λ d, ∃ r, d = replicate (Z.to_nat (count * n)) 0 ++ r) h h' p ∧
    g_heap_base s' = g_heap_base s ∧ g_heap_bytes s' = g_heap_bytes s.
Proof.
  intros Ha Hc Hn Hl. set (t := count * n) in *. assert (0 < t) by (subst t; nia).
  destruct (abs_alloc s h t Ha) as (s' & h' & p & E & Ha' & Hal & Hb1 & Hb2); [lia|].
  rewrite (kmem_calloc_total _ _ _ _ _ Hc Hn Hl E). fold t.
  destruct Hal as [[-> ->]|(Hp & Hnone & d & Hd & _ & ->)].
  { exists s', h, 0. split; [done|]. split; [done|]. split; [by left|done]. }
  rewrite (proj2 (Z.eqb_neq p 0)) by done.
  destruct (abs_write s' _ p d 0 (replicate (Z.to_nat t) 0) Ha') as (m & Em & Hm).
  { apply lookup_insert_eq. } { lia. } { unfold zlen in *. rewrite length_replicate. lia. }
  rewrite Z.add_0_r in Em. exists (with_mem m s'), (<[p := splice 0 (replicate (Z.to_nat t) 0) d]> h), p.
  assert (in_mem (k_mem s') p t) as Hin.
  { destruct (abs_well_placed _ _ Ha') as [_ Hby]. specialize (Hby p d). rewrite lookup_insert_eq in Hby.
    specialize (Hby eq_refl). apply bytes_at_Some in Hby as [Hin _]. unfold in_mem in *. lia. }
  split; [unfold local_memset; change (u8 0) with 0; by rewrite fill_at_ok, Em by done|].
  split; [by rewrite insert_insert_eq in Hm|]. split; [|done]. right. split; [done|]. split; [done|].
  eexists. split; [|split; [|done]].
  - unfold zlen in *. rewrite length_splice; [done|]. rewrite length_replicate. lia.
  - unfold splice. rewrite take_0. simpl. by eexists.
Qed.

(** ** Statistics *)

Fixpoint sum_sizes (used : bool) (bs : list block) : Z :=
  match bs with
  | [] => 0
  | b :: r => (if Bool.eqb (b_free b) used then 0 else b_size b) + sum_sizes used r
  end.
Fixpoint count_free (bs : list block) : Z :=
  match bs with [] => 0 | b :: r => (if b_free b then 1 else 0) + count_free r end.
Fixpoint largest (bs : list block) : Z :=
  match bs with [] => 0 | b :: r => Z.max (if b_free b then b_size b else 0) (largest r) end.

Lemma stats_of_spec m a bs nx o : seg m a bs nx →
  0 ≤ used_bytes o → 0 ≤ free_bytes o → 0 ≤ block_count o → 0 ≤ free_count o ≤ block_count o → 0 ≤ largest_free o →
  used_bytes o + free_bytes o + 40 * block_count o + total bs < 18446744073709551616 →
  stats_of o bs =
  Stats (total_bytes o) (used_bytes o + sum_sizes true bs) (free_bytes o + sum_sizes false bs)
    (block_count o + zlen bs) (free_count o + count_free bs) (Z.max (largest_free o) (largest bs)).
Proof.
  revert a o. induction bs as [|b r IH]; intros a o Hs H1 H2 H3 H4 H5 Hb.
  { destruct o. unfold stats_of, zlen. simpl in *. f_equal; lia. }
  apply seg_cons in Hs as [Hblk Hr]. pose proof (ba_pos _ _ _ _ Hblk). pose proof (total_nonneg _ _ _ _ Hr).
  unfold stats_of in *. cbn [fold_left total sum_sizes count_free largest] in *. destruct o as [t u f k kf l].
  cbn [used_bytes free_bytes block_count free_count largest_free total_bytes] in *.
  assert (zlen (b :: r) = 1 + zlen r) as -> by (unfold zlen; cbn [length]; lia).
  rewrite (IH (a + (40 + b_size b))); [|done|..]; unfold stats_add;
    destruct (b_free b); change (negb (1 =? 0)) with true; change (negb (0 =? 0)) with false; cbv iota;
    cbn [used_bytes free_bytes block_count free_count largest_free total_bytes Bool.eqb] in *;
    rewrite ?u64_small by words; try (repeat case_match; lia).
  - f_equal; try lia. case_match; lia.
  - f_equal; lia.
Qed.

Lemma sum_sizes_total bs : sum_sizes true bs + sum_sizes false bs + 40 * zlen bs = total bs.
Proof.
  unfold zlen. induction bs as [|b r IH]; [done|]. cbn [sum_sizes total length].
  rewrite Nat2Z.inj_succ. destruct (b_free b); cbn [Bool.eqb]; lia.
Qed.

Lemma largest_fit n bs : 0 < n → first_fit n bs = None ↔ largest bs < n.
Proof.
  intros Hn. induction bs as [|b r IH]; cbn [first_fit largest]; [split; [lia|done]|].
  destruct (b_free b) eqn:E; cbn [andb].
  - destruct (Z.leb_spec n (b_size b)); [split; [done|lia]|].
    destruct (first_fit n r) as [[[? ?] ?]|]; cbn [mbind option_bind].
    + split; [done|]. intros Hl. assert (largest r < n) as Hr by lia. by apply IH in Hr.
    + split; [|done]. intros _. assert (largest r < n) by (by apply IH). lia.
  - destruct (first_fit n r) as [[[? ?] ?]|]; cbn [mbind option_bind].
    + split; [done|]. intros Hl. assert (largest r < n) as Hr by lia. by apply IH in Hr.
    + split; [|done]. intros _. assert (largest r < n) by (by apply IH). lia.
Qed.

(** ** Properties *)

(** C11. The kernel heap implements an abstract heap, a finite map from the
    addresses in use to the bytes their owners have there. [kmem_init] on an
    object of at least 56 bytes yields the empty one; in every state that
    represents [h] the blocks in use are aligned to 16 bytes, inside the heap
    and disjoint, [kmem_validate] accepts the heap, [kmem_alloc] and
    [kmem_calloc] return [NULL] or a new block of at least the size asked for
    (zeroed by [kmem_calloc]) and leave every other block as it was,
    [kmem_free_checked] releases exactly the block given, and what an owner
    writes in its block changes no other block. Sizes are at most 2^32 - 64. *)
Theorem kmem_refines :
  (∀ s base bytes, g_kmem_ready s = 0 → 0 < base → 56 ≤ bytes →
     in_mem (k_mem s) base bytes → base + bytes < 18446744073709551616 →
     ∃ s', kmem_init base bytes s = Some (s', 0) ∧ abs s' ∅ ∧
       base ≤ g_heap_base s' ∧ g_heap_base s' + g_heap_bytes s' = base + bytes) ∧
  (∀ s h, abs s h →
     well_placed (g_heap_base s) (g_heap_base s + g_heap_bytes s) h ∧
     (∀ p d, h !! p = Some d → bytes_at (k_mem s) p (zlen d) = Some d) ∧
     kmem_validate s = Some 0 ∧
     (∀ n, 0 < n ≤ kmem_limit → ∃ s' h' p,
        kmem_alloc n s = Some (s', p) ∧ abs s' h' ∧ allocated n (λ _, True) h h' p) ∧
     (∀ count n, 0 < count → 0 < n → count * n ≤ kmem_limit → ∃ s' h' p,
        kmem_calloc count n s = Some (s', p) ∧ abs s' h' ∧
        allocated (count * n) (λ d, ∃ r, d = replicate (Z.to_nat (count * n)) 0 ++ r) h h' p) ∧
     (∀ p d, h !! p = Some d → ∃ s',
        kmem_free_checked p s = Some (s', 0) ∧ abs s' (delete p h)) ∧
     (∀ p d off x, h !! p = Some d → 0 ≤ off → off + zlen x ≤ zlen d → ∃ m,
        write_at (k_mem s) (p + off) x = Some m ∧
        abs (with_mem m s) (<[p := splice (Z.to_nat off) x d]> h))).
Proof.
  split.
  - intros s base bytes Hr Hb Hn Hin Hend. pose proof (round16_bounds (base + 40)).
    destruct (Heap_init s base bytes) as (m & E & Hh); try done.
    eexists. split; [done|]. split; [by eexists|]. cbn [g_heap_base g_heap_bytes]. lia.
  - intros s h H. destruct (abs_well_placed _ _ H). split; [done|]. split; [done|].
    split; [by eapply abs_validate|]. split; [|split; [|split]].
    + intros n Hn. destruct (abs_alloc s h n H Hn) as (s' & h' & p & ? & ? & ? & _). by exists s', h', p.
    + intros c n Hc Hn Hl. destruct (abs_calloc s h c n H Hc Hn Hl) as (s' & h' & p & ? & ? & ? & _).
      by exists s', h', p.
    + intros p d Hp. destruct (abs_free s h p d H Hp) as (s' & ? & ? & _). by exists s'.
    + intros p d off x. apply abs_write; done.
Qed.

(** C20. On a heap in order and for a size of 1 to 2^32 - 64 bytes (larger
    ones are cut to 32 bits, [kmem_alloc_truncates]), [kmem_alloc] takes the
    first free block that holds the size rounded up to 16 bytes, at an address
    aligned to 16; it splits the block when what remains holds a header and 16
    bytes, and returns [NULL], changing nothing, exactly when no free block is
    large enough. *)
Theorem kmem_alloc_first_fit s bs n : Heap s bs → 0 < n ≤ kmem_limit →
  (∃ pre size post m d,
     bs = pre ++ Block size None :: post ∧ round16 n ≤ size ∧
     Forall (λ b, b_free b = true → b_size b < round16 n) pre ∧
     kmem_alloc n s = Some (with_mem m s, g_heap_base s + total pre + 40) ∧
     (g_heap_base s + total pre + 40) mod 16 = 0 ∧
     Heap (with_mem m s) (pre ++ carve size (round16 n) d ++ post) ∧
     n ≤ zlen d < n + 119) ∨
  (Forall (λ b, b_free b = true → b_size b < round16 n) bs ∧ kmem_alloc n s = Some (s, 0)).
Proof.
  intros H Hn. pose proof (Heap_alloc s bs n H Hn) as Ha. pose proof (round16_bounds n).
  destruct (first_fit (round16 n) bs) as [[[pre size] post]|] eqn:Ef; [left|right].
  - destruct Ha as (m & d & E & H' & Hd1 & Hd2). apply first_fit_Some in Ef as (-> & Hs & Hf).
    exists pre, size, post, m, d. repeat (split; [done|]). split; [|split; [done|lia]].
    pose proof (hp_seg _ _ H) as Hseg. apply seg_app in Hseg as [_ Hseg]. apply seg_cons in Hseg as [Hb _].
    pose proof (ba_align _ _ _ _ Hb). by Z.to_euclidean_division_equations; lia.
  - by apply first_fit_None in Ef.
Qed.

(** C21. [kmem_free_checked] on a heap in order: [NULL] is accepted and changes
    nothing, an address outside the heap is refused with -3, a block that is
    already free with -2 (so a double free is detected), and a block in use is
    freed and merged with its free neighbours, the state being again in order
    with no two free blocks side by side; when no block is in use the heap is
    one free block again. *)
Theorem kmem_free_checked_correct s bs : Heap s bs →
  kmem_free_checked 0 s = Some (s, 0) ∧
  (∀ p, p ≠ 0 → p ≤ g_heap_base s ∨ g_heap_base s + g_heap_bytes s ≤ p →
     kmem_free_checked p s = Some (s, -3)) ∧
  (∀ pre b post, bs = pre ++ b :: post →
     let p := g_heap_base s + total pre + 40 in
     if b_free b then kmem_free_checked p s = Some (s, -2)
     else ∃ m, kmem_free_checked p s = Some (with_mem m s, 0) ∧
       Heap (with_mem m s) (coalesce (pre ++ Block (b_size b) None :: post))) ∧
  (Forall (λ b, b_free b = true) bs → bs = [Block (g_heap_bytes s - 40) None]).
Proof.
  intros H. pose proof (hp_ready _ _ H) as Hr. split; [|split; [|split]].
  - unfold kmem_free_checked. by rewrite (proj2 (Z.eqb_neq _ _) Hr).
  - intros p Hp Ho. unfold kmem_free_checked.
    rewrite (proj2 (Z.eqb_neq _ _) Hr), (proj2 (Z.eqb_neq _ _) Hp).
    pose proof (hp_base _ _ H). pose proof (hp_range _ _ H). pose proof (hp_bytes _ _ H).
    pose proof (total_nonneg _ _ _ _ (hp_seg _ _ H)). rewrite u64_small by words.
    assert ((p <=? g_heap_base s) || (g_heap_base s + g_heap_bytes s <=? p) = true) as -> by lia. done.
  - intros pre b post -> p. destruct (b_free b) eqn:E.
    + unfold p. by rewrite (free_guards _ _ _ _ H), E.
    + destruct b as [sz [d|]]; [|done]. by apply (Heap_free _ _ _ d).
  - intros Hf. pose proof (hp_bytes _ _ H). pose proof (hp_ne _ _ H). pose proof (hp_joined _ _ H) as Hj.
    destruct Hf as [|[sz [?|]] r Hb Hf]; [done|done|]. destruct Hf as [|[sz' [?|]] r' Hb' Hf]; [|done|].
    + simpl in *. do 2 f_equal. lia.
    + simpl in Hj. by destruct Hj.
Qed.

(** [kmem_get_stats] on a heap in order reports the bytes of the heap, the
    payload bytes in use and free, the numbers of blocks and of free blocks and
    the largest free payload; used and free bytes and the headers add up to the
    heap, and [kmem_alloc] of a size succeeds exactly when the size rounded up
    to 16 is at most the largest free payload reported. *)
Theorem kmem_get_stats_correct s bs o : Heap s bs →
  ∃ st, kmem_get_stats (Ref o) s = Some (Ref st) ∧
    st = Stats (g_heap_bytes s) (sum_sizes true bs) (sum_sizes false bs) (zlen bs) (count_free bs)
           (largest bs) ∧
    used_bytes st + free_bytes st + 40 * block_count st = total_bytes st ∧
    (∀ n, 0 < n ≤ kmem_limit →
       (∃ s' p, kmem_alloc n s = Some (s', p) ∧ p ≠ 0) ↔ round16 n ≤ largest_free st).
Proof.
  intros H. pose proof (hp_seg _ _ H) as Hs. pose proof (hp_bytes _ _ H). pose proof (hp_range _ _ H).
  pose proof (hp_base _ _ H). pose proof (sum_sizes_total bs).
  assert (0 ≤ largest bs) by (clear; induction bs; simpl; lia).
  eexists. split; [|split; [reflexivity|split; [cbn; lia|]]].
  - unfold kmem_get_stats. rewrite (proj2 (Z.eqb_neq _ _) (hp_ready _ _ H)).
    rewrite <-(hp_link _ _ 0 H) at 1. rewrite stats_loop_run by (done || by eapply seg_fuel).
    cbn [mbind option_bind]. rewrite (stats_of_spec _ _ _ _ _ Hs) by (cbn; lia). cbn. by rewrite Z.max_r.
  - cbn [largest_free]. intros n Hn. pose proof (Heap_alloc s bs n H Hn) as Ha.
    pose proof (round16_bounds n). pose proof (largest_fit (round16 n) bs) as Hl.
    destruct (first_fit (round16 n) bs) as [[[pre size] post]|] eqn:Ef.
    + destruct Ha as (m & d & E & _). apply first_fit_Some in Ef as (-> & _ & _).
      apply seg_app in Hs as [Hs _]. pose proof (total_nonneg _ _ _ _ Hs).
      split; [|intros _; eexists _, _; split; [done|lia]]. intros _.
      destruct (Z.le_gt_cases (round16 n) (largest (pre ++ Block size None :: post))) as [|Hlt]; [done|].
      apply Hl in Hlt; [done|lia].
    + split; [|intros Hge; assert (largest bs < round16 n) by (by apply Hl; [lia|]); lia].
      intros (s' & p & E & Hp). rewrite Ha in E. by injection E as <- <-.
Qed.

(** An address in the first header passes the range test of
    [kmem_free_checked], and the header it is taken to follow begins before the
    heap: an access before the memory, when the memory begins with the heap. *)
Lemma kmem_free_before_heap s bs p : Heap s bs → 40 ≤ g_heap_base s →
  m_addr (k_mem s) = g_heap_base s →
  g_heap_base s < p < g_heap_base s + 40 → p < g_heap_base s + g_heap_bytes s →
  kmem_free_checked p s = None.
Proof.
  intros H Hb Hm Hp He. pose proof (hp_range _ _ H). unfold kmem_free_checked.
  rewrite (proj2 (Z.eqb_neq _ _) (hp_ready _ _ H)), (proj2 (Z.eqb_neq p 0)) by lia.
  rewrite (u64_small (g_heap_base s + g_heap_bytes s)) by words.
  rewrite (proj2 (Z.leb_gt p _)), (proj2 (Z.leb_gt _ p)) by lia. cbn [orb].
  unfold header_size. rewrite (u64_small (p - 40)) by words.
  assert (load 8 (k_mem s) (h_magic (p - 40)) = None) as ->; [|done].
  unfold load, h_magic, bytes_at. by rewrite decide_False by lia.
Qed.

Lemma mask32_low x y : u32 x = u32 y → Z.land x align_mask32 = Z.land y align_mask32.
Proof.
  intros H. replace align_mask32 with (Z.land (2 ^ 32 - 1) align_mask32) by reflexivity.
  rewrite !Z.land_assoc, !land_low by lia. change (2 ^ 32) with 4294967296. unfold u32 in H. by rewrite H.
Qed.

(** C40. The mask of [kmem_alloc] keeps 32 bits of the size: a request for
    2^32 + n bytes is served as a request for n bytes. [kmem_calloc] then clears
    2^32 + n bytes from the address returned, past the end of any memory that
    does not reach that far. *)
Theorem kmem_alloc_truncates s n : 0 < n ≤ kmem_limit →
  kmem_alloc (4294967296 + n) s = kmem_alloc n s ∧
  (∀ s' p, kmem_alloc n s = Some (s', p) → p ≠ 0 →
     m_addr (k_mem s') + zlen (m_bytes (k_mem s')) < p + 4294967296 + n →
     kmem_calloc 1 (4294967296 + n) s = None).
Proof.
  intros Hn. unfold kmem_limit in Hn.
  assert (kmem_alloc (4294967296 + n) s = kmem_alloc n s) as E.
  { unfold kmem_alloc. rewrite (proj2 (Z.eqb_neq n 0)), (proj2 (Z.eqb_neq (4294967296 + n) 0)) by lia.
    rewrite (mask32_low (u64 (4294967296 + n + (KMEM_ALIGN - 1))) (u64 (n + (KMEM_ALIGN - 1)))); [done|].
    unfold KMEM_ALIGN. rewrite !u64_small by words. unfold u32.
    replace (4294967296 + n + (16 - 1)) with (n + (16 - 1) + 1 * 4294967296) by lia. by rewrite Z_mod_plus_full. }
  split; [done|]. intros s' p Ha Hp Hend. unfold kmem_calloc.
  change (1 =? 0) with false. rewrite (proj2 (Z.eqb_neq (4294967296 + n) 0)) by lia. cbn [orb].
  rewrite (proj2 (Z.ltb_ge _ 1)) by (unfold UINT64_MAX; apply Z.div_le_lower_bound; lia).
  rewrite Z.mul_1_l, u64_small, E, Ha by words. cbn [mbind option_bind].
  rewrite (proj2 (Z.eqb_neq p 0)) by done. unfold local_memset. by rewrite fill_at_ub by lia.
Qed.

(** ** Witnesses: a heap in 256 bytes at address 4096 *)

Definition demo_memory : memory := Mem 4096 (replicate 256 0).
Definition run_state (o : option (kmem * Z)) : kmem :=
  match o with Some (s, _) => s | None => kmem_zero_state demo_memory end.
Definition demo_heap : kmem := run_state (kmem_init 4096 256 (kmem_zero_state demo_memory)).
Definition demo_used : kmem := run_state (kmem_alloc 20 demo_heap).

Lemma demo_in_mem : in_mem demo_memory 4096 256.
Proof. unfold in_mem, zlen, demo_memory. cbn [m_addr m_bytes]. rewrite length_replicate. lia. Qed.

Lemma demo_heap_ok : Heap demo_heap [Block 208 None].
Proof.
  destruct (Heap_init (kmem_zero_state demo_memory) 4096 256) as (m & E & H);
    [done|lia|lia|apply demo_in_mem|lia|]. unfold demo_heap. rewrite E. exact H.
Qed.

Lemma demo_base : g_heap_base demo_heap = 4104 ∧ g_heap_base demo_used = 4104.
Proof. by vm_compute. Qed.

Lemma demo_used_ok : ∃ d, Heap demo_used [Block 40 (Some d); Block 128 None].
Proof.
  pose proof (Heap_alloc demo_heap _ 20 demo_heap_ok) as H.
  destruct H as (m & d & E & H & _); [lia|]. exists d. unfold demo_used. rewrite E. exact H.
Qed.

#[local] Opaque demo_heap demo_used.

Lemma kmem_refines_witness :
  (∃ s, kmem_init 4096 256 (kmem_zero_state demo_memory) = Some (s, 0) ∧ abs s ∅) ∧
  kmem_validate demo_used = Some 0.
Proof.
  split.
  - destruct (proj1 kmem_refines (kmem_zero_state demo_memory) 4096 256) as (s & E & H & _);
      [done|lia|lia|apply demo_in_mem|lia|]. by exists s.
  - destruct demo_used_ok as [d H].
    apply (proj2 kmem_refines demo_used (live (g_heap_base demo_used) [Block 40 (Some d); Block 128 None])).
    by eexists.
Defined.

Lemma kmem_alloc_first_fit_witness :
  (0 < 20 ≤ kmem_limit) ∧ (∃ m, kmem_alloc 20 demo_heap = Some (with_mem m demo_heap, 4144)).
Proof.
  split; [by unfold kmem_limit|].
  destruct (kmem_alloc_first_fit demo_heap _ 20 demo_heap_ok) as
    [(pre & sz & post & m & d & Ep & _ & _ & E & _)|[Hf _]]; [by unfold kmem_limit| |].
  - destruct pre as [|? pre];
      [|clear E; apply (f_equal length) in Ep; cbn [app length] in Ep; rewrite length_app in Ep;
        cbn [length] in Ep; lia].
    rewrite (proj1 demo_base) in E. exists m. exact E.
  - apply Forall_inv in Hf. specialize (Hf eq_refl). vm_compute in Hf. discriminate Hf.
Defined.

Lemma kmem_free_checked_correct_witness :
  kmem_free_checked 0 demo_used = Some (demo_used, 0) ∧
  (∃ m, kmem_free_checked 4144 demo_used = Some (with_mem m demo_used, 0) ∧
        Heap (with_mem m demo_used) [Block 208 None]).
Proof.
  destruct demo_used_ok as [d H]. destruct (kmem_free_checked_correct _ _ H) as (H1 & _ & H2 & _).
  split; [exact H1|]. destruct (H2 [] _ _ eq_refl) as (m & E & Hm).
  rewrite (proj2 demo_base) in E. exists m. by split.
Defined.

Lemma kmem_get_stats_correct_witness :
  ∃ st, kmem_get_stats (Ref stats_zero) demo_used = Some (Ref st) ∧
    used_bytes st = 40 ∧ free_bytes st = 128 ∧ block_count st = 2 ∧ total_bytes st = 248.
Proof.
  destruct demo_used_ok as [d H].
  destruct (kmem_get_stats_correct _ _ stats_zero H) as (st & E & -> & _ & _).
  assert (g_heap_bytes demo_used = 248) as Hb by by vm_compute. rewrite Hb in E.
  eexists. split; [exact E|]. clear. repeat split.
Defined.

Lemma kmem_alloc_truncates_witness :
  kmem_calloc 1 (4294967296 + 20) demo_heap = None.
Proof.
  apply (kmem_alloc_truncates demo_heap 20) with (s' := demo_used) (p := 4144).
  - by unfold kmem_limit.
  - vm_compute. reflexivity.
  - lia.
  - vm_compute. reflexivity.
Defined.
