(* ===== verification/Block.v ===== *)
(** Block devices ([src/kernel/block/blk.c], [ramblk.c], [block_demo.c]): the
    registry, the calls that check the range and dispatch to the driver, and
    the driver for disks in memory.

    A driver acts on objects of a type [C] of its own; what the layer knows of
    it are three callbacks, which are given the device without its table of
    operations, the position, the number of blocks and the caller's buffer, and
    return the status and the buffer. Calling a [NULL] callback is undefined. *)
From S2P Require Import Prelude Bytes.

Definition MCSOS_BLK_NAME_MAX : Z := 16.
Definition MCSOS_BLK_MAX_DEVICES : Z := 8.
Definition MCSOS_BLK_DEFAULT_SECTOR_SIZE : Z := 512.
Definition MCSOS_BLK_OK : Z := 0.
Definition MCSOS_BLK_EINVAL : Z := -1.
Definition MCSOS_BLK_ERANGE : Z := -2.
Definition MCSOS_BLK_EFULL : Z := -3.

(** ** The registry *)

(** Devices are registered by address; 0 is [NULL]. *)
Record blk_registry := Registry {
  g_blk_devices : list Z;
  g_blk_count : Z;
}.

Definition blk_registry_zero : blk_registry := Registry (replicate 8 0) 0.

Definition mcsos_blk_registry_reset (r : blk_registry) : blk_registry :=
  Registry (g_blk_devices r) 0.

Definition mcsos_blk_register (dev : Z) (r : blk_registry) : option (blk_registry * Z) :=
  if MCSOS_BLK_MAX_DEVICES <=? g_blk_count r then Some (r, MCSOS_BLK_EFULL) else
  ds ← arr_set (g_blk_devices r) (g_blk_count r) dev;
  Some (Registry ds (u32 (g_blk_count r + 1)), MCSOS_BLK_OK).

Definition mcsos_blk_get (index : Z) (r : blk_registry) : option Z :=
  if g_blk_count r <=? index then Some 0 else arr_get (g_blk_devices r) index.

Definition mcsos_blk_count (r : blk_registry) : Z := g_blk_count r.

(** ** Devices *)

(** The fields of a device other than its table of operations. *)
Record blk_info := Info {
  d_name : list Z;
  d_block_size : Z;
  d_block_count : Z;
  d_flags : Z;
  d_driver_data : Z;
}.

Section Device.
Context {C : Type}.

Definition rw_fn : Type :=
  blk_info → Z → Z → ptr (list Z) → C → option (C * Z * ptr (list Z)).

Record mcsos_blk_ops := Ops {
  op_read : ptr rw_fn;
  op_write : ptr rw_fn;
  op_flush : ptr rw_fn;
}.

Record mcsos_blk_device := Device {
  d_addr : Z;
  d_info : blk_info;
  d_ops : ptr mcsos_blk_ops;
}.

Implicit Types dev : ptr mcsos_blk_device.

Definition mcsos_blk_validate_range dev (lba count : Z) (buffer : ptr (list Z)) : Z :=
  match dev with
  | Null => MCSOS_BLK_EINVAL
  | Ref d =>
      if is_null buffer || (count =? 0) || is_null (d_ops d) then MCSOS_BLK_EINVAL else
      if (d_block_count (d_info d) <=? lba) || (u64 (d_block_count (d_info d) - lba) <? count)
      then MCSOS_BLK_ERANGE else MCSOS_BLK_OK
  end.

(** [dev->ops->f(dev, lba, count, buffer)] *)
Definition call_driver (f : mcsos_blk_ops → ptr rw_fn) dev (lba count : Z) (buffer : ptr (list Z))
    (c : C) : option (C * Z * ptr (list Z)) :=
  d ← deref dev; ops ← deref (d_ops d); fn ← deref (f ops);
  fn (d_info d) lba count buffer c.

Definition mcsos_blk_read dev (lba count : Z) (buffer : ptr (list Z)) (c : C) :
    option (C * Z * ptr (list Z)) :=
  let st := mcsos_blk_validate_range dev lba count buffer in
  if negb (st =? MCSOS_BLK_OK) then Some (c, st, buffer) else
  call_driver op_read dev lba count buffer c.

Definition mcsos_blk_write dev (lba count : Z) (buffer : ptr (list Z)) (c : C) :
    option (C * Z * ptr (list Z)) :=
  let st := mcsos_blk_validate_range dev lba count buffer in
  if negb (st =? MCSOS_BLK_OK) then Some (c, st, buffer) else
  call_driver op_write dev lba count buffer c.

Definition mcsos_blk_flush dev (c : C) : option (C * Z) :=
  match dev with
  | Null => Some (c, MCSOS_BLK_EINVAL)
  | Ref d =>
      match d_ops d with
      | Null => Some (c, MCSOS_BLK_EINVAL)
      | Ref ops =>
          if is_null (op_flush ops) then Some (c, MCSOS_BLK_OK) else
          '(c, st, _) ← call_driver op_flush dev 0 0 Null c; Some (c, st)
      end
  end.
End Device.

Arguments rw_fn : clear implicits.
Arguments mcsos_blk_ops : clear implicits.
Arguments mcsos_blk_device : clear implicits.

(** [for (i = 0; i < MCSOS_BLK_NAME_MAX - 1 && src[i]; i++) dst[i] = src[i];]:
    the terminator is not copied. *)
Fixpoint copy_name_loop (n : nat) (i : Z) (dst src : list Z) : option (list Z) :=
  match n with
  | O => Some dst
  | S n' =>
      x ← arr_get src i;
      if x =? 0 then Some dst else
      dst ← arr_set dst i x;
      copy_name_loop n' (i + 1) dst src
  end.

Definition mcsos_blk_copy_name_for_driver (dst src : list Z) : option (list Z) :=
  copy_name_loop (Z.to_nat (MCSOS_BLK_NAME_MAX - 1)) 0 dst src.

(** ** Disks in memory *)

Record mcsos_ramblk := Ramblk {
  r_storage : list Z;
  r_storage_size : Z;
}.

(** The objects that [driver_data] leads to, by address. *)
Abbreviation rams := (gmap Z mcsos_ramblk).

Definition mcsos_memcpy_u8 (dst src : list Z) (n : Z) : option (list Z) :=
  mem_copy (Z.to_nat n) dst src.

Definition mcsos_is_power_of_two_u32_local (value : Z) : bool :=
  negb (value =? 0) && (Z.land value (u32 (value - 1)) =? 0).

Definition mcsos_ramblk_rw (dev : blk_info) (lba count : Z) (buffer : ptr (list Z))
    (is_write : bool) (c : rams) : option (rams * Z * ptr (list Z)) :=
  match buffer with
  | Null => Some (c, MCSOS_BLK_EINVAL, buffer)
  | Ref buf =>
      if d_driver_data dev =? 0 then Some (c, MCSOS_BLK_EINVAL, buffer) else
      ram ← c !! d_driver_data dev;
      let byte_offset := u64 (lba * d_block_size dev) in
      let byte_count := u64 (count * d_block_size dev) in
      if (r_storage_size ram <? byte_offset) ||
         (u64 (r_storage_size ram - byte_offset) <? byte_count)
      then Some (c, MCSOS_BLK_ERANGE, buffer) else
      if is_write then
        s ← at_off byte_offset (r_storage ram) (λ d, mcsos_memcpy_u8 d buf byte_count);
        Some (<[d_driver_data dev := Ramblk s (r_storage_size ram)]> c, MCSOS_BLK_OK, buffer)
      else
        src ← bytes_from byte_offset (r_storage ram);
        buf ← mcsos_memcpy_u8 buf src byte_count;
        Some (c, MCSOS_BLK_OK, Ref buf)
  end.

Definition mcsos_ramblk_read : rw_fn rams := λ dev lba count buffer c,
  mcsos_ramblk_rw dev lba count buffer false c.
Definition mcsos_ramblk_write : rw_fn rams := λ dev lba count buffer c,
  mcsos_ramblk_rw dev lba count buffer true c.
Definition mcsos_ramblk_flush : rw_fn rams := λ _ _ _ buffer c,
  Some (c, MCSOS_BLK_OK, buffer).

Definition g_ramblk_ops : mcsos_blk_ops rams :=
  Ops (Ref mcsos_ramblk_read) (Ref mcsos_ramblk_write) (Ref mcsos_ramblk_flush).

(** [ram] is the address of the [mcsos_ramblk_t]; the device is returned as it
    is after the call. *)
Definition mcsos_ramblk_init (dev : ptr (mcsos_blk_device rams)) (ram : Z) (name : ptr (list Z))
    (storage : ptr (list Z)) (storage_size block_size : Z) (c : rams) :
    option (rams * ptr (mcsos_blk_device rams) * Z) :=
  match dev, storage, name with
  | Ref d, Ref st, Ref nm =>
      if ram =? 0 then Some (c, dev, MCSOS_BLK_EINVAL) else
      if (block_size <? MCSOS_BLK_DEFAULT_SECTOR_SIZE) ||
         negb (mcsos_is_power_of_two_u32_local block_size)
      then Some (c, dev, MCSOS_BLK_EINVAL) else
      if (storage_size <? block_size) || negb (storage_size mod block_size =? 0)
      then Some (c, dev, MCSOS_BLK_EINVAL) else
      dn ← mcsos_blk_copy_name_for_driver (d_name (d_info d)) nm;
      Some (<[ram := Ramblk st storage_size]> c,
            Ref (Device (d_addr d) (Info dn block_size (storage_size / block_size) 0 ram)
                   (Ref g_ramblk_ops)),
            MCSOS_BLK_OK)
  | _, _, _ => Some (c, dev, MCSOS_BLK_EINVAL)
  end.

(** ** The demonstration disk *)

(** The static objects: the storage of 64 blocks of 512 bytes, the device and
    the [mcsos_ramblk_t], at the addresses given. *)
Record block_demo := Demo {
  demo_registry : blk_registry;
  demo_rams : rams;
  demo_dev : mcsos_blk_device rams;
}.

Definition m14_block_demo_init (ram : Z) (storage : list Z) (s : block_demo) : option block_demo :=
  let r := mcsos_blk_registry_reset (demo_registry s) in
  '(c, dev, st) ← mcsos_ramblk_init (Ref (demo_dev s)) ram (Ref [114; 97; 109; 48; 0]) (Ref storage)
                    (512 * 64) 512 (demo_rams s);
  d ← deref dev;
  if negb (st =? MCSOS_BLK_OK) then Some (Demo r c d) else
  '(r, _) ← mcsos_blk_register (d_addr d) r;
  Some (Demo r c d).
