(* ===== verification/Bcache.v ===== *)
(** The block cache ([src/kernel/block/bcache.c]): a fixed set of entries, each
    with room for one block, replaced round robin and written back when they
    are evicted or flushed. A call acts on the cache and on the objects of the
    drivers together; the data pool given to [mcsos_bcache_init] is cut in
    pieces, one per entry, that do not overlap. *)
From S2P Require Import Prelude Bytes Err Block.

#[local] Open Scope err_scope.

Section Bcache.
Context {C : Type}.

Record mcsos_bcache_entry := Entry {
  e_data : list Z;
  e_capacity : Z;
  e_lba : Z;
  e_valid : bool;
  e_dirty : bool;
  e_dev : ptr (mcsos_blk_device C);
}.

Record mcsos_bcache := Bcache {
  entries : list mcsos_bcache_entry;
  entry_count : Z;
  block_size : Z;
  clock_hand : Z;
}.

Definition state : Type := mcsos_bcache * C.

Definition mcsos_memcpy_u8_bcache (dst src : list Z) (n : Z) : option (list Z) :=
  mem_copy (Z.to_nat n) dst src.

(** [e->dev == dev] *)
Definition same_dev (p : ptr (mcsos_blk_device C)) (dev : mcsos_blk_device C) : bool :=
  match p with Null => false | Ref d => d_addr d =? d_addr dev end.

Fixpoint find_loop (n : nat) (i : Z) (es : list mcsos_bcache_entry) (dev : mcsos_blk_device C)
    (lba : Z) : option (option Z) :=
  match n with
  | O => Some None
  | S n' =>
      e ← arr_get es i;
      if e_valid e && same_dev (e_dev e) dev && (e_lba e =? lba) then Some (Some i)
      else find_loop n' (i + 1) es dev lba
  end.

(** The index of the entry, in place of a pointer to it. *)
Definition mcsos_bcache_find (cache : mcsos_bcache) (dev : mcsos_blk_device C) (lba : Z) :
    option (option Z) :=
  find_loop (Z.to_nat (entry_count cache)) 0 (entries cache) dev lba.

(** Entry [i] replaced. *)
Definition set_entry (i : Z) (e : mcsos_bcache_entry) : M state unit := λ '(k, c),
  es ← arr_set (entries k) i e;
  Some ((Bcache es (entry_count k) (block_size k) (clock_hand k), c), inr tt).
Definition get_entry (i : Z) : M state mcsos_bcache_entry := λ s,
  e ← arr_get (entries s.1) i; Some (s, inr e).
Definition set_hand (h : Z) : M state unit := λ '(k, c),
  Some ((Bcache (entries k) (entry_count k) (block_size k) h, c), inr tt).

(** A call of the block layer with the entry's data as buffer: the status, and
    the data after the call. *)
Definition on_driver (f : C → option (C * Z * ptr (list Z))) : M state (Z * list Z) := λ '(k, c),
  '(c, st, buf) ← f c; d ← deref buf; Some ((k, c), inr (st, d)).

Definition mcsos_bcache_flush_entry (i : Z) : M state unit :=
  e <- get_entry i ;;
  if negb (e_valid e) || negb (e_dirty e) then mok tt else
  r <- on_driver (mcsos_blk_write (e_dev e) (e_lba e) 1 (Ref (e_data e))) ;;
  let '(st, data) := r in
  guard_err st =? MCSOS_BLK_OK else st ;;
  set_entry i (Entry data (e_capacity e) (e_lba e) (e_valid e) false (e_dev e)).

(** The first entry that is not valid, from [start] on, around. *)
Fixpoint victim_loop (n : nat) (pass start count : Z) (es : list mcsos_bcache_entry) :
    option (option Z) :=
  match n with
  | O => Some None
  | S n' =>
      let idx := u32 (start + pass) mod count in
      e ← arr_get es idx;
      if e_valid e then victim_loop n' (pass + 1) start count es else Some (Some idx)
  end.

Definition mcsos_bcache_select_victim : M state Z :=
  k <- mget fst ;;
  guard_err negb (entry_count k =? 0) else MCSOS_BLK_EINVAL ;;
  let start := u32 (clock_hand k mod entry_count k) in
  v <- mub (victim_loop (Z.to_nat (entry_count k)) 0 start (entry_count k) (entries k)) ;;
  match v with
  | Some idx => set_hand (u32 (idx + 1)) ;;; mok idx
  | None =>
      set_hand (u32 (start + 1)) ;;;
      mcsos_bcache_flush_entry start ;;;
      mok start
  end.

(** [cache == 0 || dev == 0 || buffer == 0 || cache->block_size != dev->block_size] *)
Definition checked {A} (cache : ptr mcsos_bcache) (dev : ptr (mcsos_blk_device C))
    (buffer : ptr (list Z)) (c : C)
    (k : mcsos_blk_device C → list Z → M state A) : option (ptr mcsos_bcache * C * (Z + A)) :=
  match cache, dev, buffer with
  | Ref ca, Ref d, Ref buf =>
      if negb (block_size ca =? d_block_size (d_info d)) then Some (cache, c, inl MCSOS_BLK_EINVAL) else
      '((ca, c), r) ← k d buf (ca, c); Some (Ref ca, c, r)
  | _, _, _ => Some (cache, c, inl MCSOS_BLK_EINVAL)
  end.

(** The branch of a read for a block that is in no entry: an entry is freed and
    the block read into it. *)
Definition read_miss (dev : mcsos_blk_device C) (lba : Z) : M state Z :=
  i <- mcsos_bcache_select_victim ;;
  e <- get_entry i ;;
  r <- on_driver (mcsos_blk_read (Ref dev) lba 1 (Ref (e_data e))) ;;
  let '(st, data) := r in
  if negb (st =? MCSOS_BLK_OK) then
    set_entry i (Entry data (e_capacity e) (e_lba e) false (e_dirty e) (e_dev e)) ;;;
    merr st
  else
    set_entry i (Entry data (e_capacity e) lba true false (Ref dev)) ;;;
    mok i.

(** Returns the buffer after the call. *)
Definition bcache_read (dev : mcsos_blk_device C) (lba : Z) (buf : list Z) : M state (list Z) :=
  k <- mget fst ;;
  hit <- mub (mcsos_bcache_find k dev lba) ;;
  i <- (match hit with
        | Some i => mok i
        | None => read_miss dev lba
        end) ;;
  e <- get_entry i ;;
  mub (mcsos_memcpy_u8_bcache buf (e_data e) (block_size k)).

(** The branch of a write for a block that is in no entry. *)
Definition write_miss (dev : mcsos_blk_device C) (lba : Z) : M state Z :=
  i <- mcsos_bcache_select_victim ;;
  e <- get_entry i ;;
  set_entry i (Entry (e_data e) (e_capacity e) lba true false (Ref dev)) ;;;
  mok i.

Definition bcache_write (dev : mcsos_blk_device C) (lba : Z) (buf : list Z) : M state unit :=
  k <- mget fst ;;
  hit <- mub (mcsos_bcache_find k dev lba) ;;
  i <- (match hit with
        | Some i => mok i
        | None => write_miss dev lba
        end) ;;
  e <- get_entry i ;;
  data <- mub (mcsos_memcpy_u8_bcache (e_data e) buf (block_size k)) ;;
  set_entry i (Entry data (e_capacity e) (e_lba e) (e_valid e) true (e_dev e)).

Definition mcsos_bcache_read (cache : ptr mcsos_bcache) (dev : ptr (mcsos_blk_device C)) (lba : Z)
    (buffer : ptr (list Z)) (c : C) : option (ptr mcsos_bcache * C * (Z + list Z)) :=
  checked cache dev buffer c (λ d buf, bcache_read d lba buf).

Definition mcsos_bcache_write (cache : ptr mcsos_bcache) (dev : ptr (mcsos_blk_device C)) (lba : Z)
    (buffer : ptr (list Z)) (c : C) : option (ptr mcsos_bcache * C * (Z + unit)) :=
  checked cache dev buffer c (λ d buf, bcache_write d lba buf).

Definition mcsos_bcache_flush_all (cache : ptr mcsos_bcache) (c : C) :
    option (ptr mcsos_bcache * C * (Z + unit)) :=
  match cache with
  | Null => Some (cache, c, inl MCSOS_BLK_EINVAL)
  | Ref ca =>
      '((ca, c), r) ← mfor (Z.to_nat (entry_count ca)) 0 mcsos_bcache_flush_entry (ca, c);
      Some (Ref ca, c, r)
  end.

(** The cache over [entry_count] entries and a pool of their data; [entries]
    are those given, whose fields are all assigned. *)
Definition mcsos_bcache_init (es : ptr (list mcsos_bcache_entry)) (count : Z) (pool : ptr (list Z))
    (bsize : Z) : option (Z + mcsos_bcache) :=
  match es, pool with
  | Ref es, Ref pool =>
      if (count =? 0) || (bsize =? 0) then Some (inl MCSOS_BLK_EINVAL) else
      r ← for_loop (Z.to_nat count) 0 1 (λ i es,
            data ← bytes_from (i * bsize) pool;
            es ← arr_set es i (Entry (take (Z.to_nat bsize) data) bsize 0 false false Null);
            Some (Next (R := unit) es)) es;
      match r with
      | Next es => Some (inr (Bcache es count bsize 0))
      | Return _ => None
      end
  | _, _ => Some (inl MCSOS_BLK_EINVAL)
  end.
End Bcache.

Arguments mcsos_bcache_entry : clear implicits.
Arguments mcsos_bcache : clear implicits.
