(* ===== verification/BcacheSpec.v ===== *)
(** What the block cache promises of the disks behind it: the contract of a
    driver, the logical disk that the cache and the drivers hold together, and
    its preservation by every call. The driver for disks in memory fulfils the
    contract. *)
From S2P Require Import Prelude Bytes Err Block Bcache.

(** ** The contract of the drivers *)

(** [devs] are the devices in use and [contents d c] the blocks on [d]. A
    callback may fail: it then reports a status other than 0 and has changed no
    block. When the devices are [reliable] it does not fail. *)
Class BlockDriver {C : Type} (devs : mcsos_blk_device C → Prop)
    (contents : mcsos_blk_device C → C → list (list Z)) (drv_ok : C → Prop) (reliable : Prop) := {
  bd_addr d d' : devs d → devs d' → d_addr d = d_addr d' → d = d';
  bd_count d : devs d → is_u64 (d_block_count (d_info d));
  bd_contents d c : devs d → drv_ok c →
    zlen (contents d c) = d_block_count (d_info d) ∧
    Forall (λ b, zlen b = d_block_size (d_info d)) (contents d c);
  bd_read d lba buf c : devs d → drv_ok c → 0 ≤ lba < d_block_count (d_info d) →
    zlen buf = d_block_size (d_info d) →
    ∃ c' st b, mcsos_blk_read (Ref d) lba 1 (Ref buf) c = Some (c', st, Ref b) ∧ drv_ok c' ∧
      (∀ d', devs d' → contents d' c' = contents d' c) ∧
      zlen b = d_block_size (d_info d) ∧
      (st = 0 → arr_get (contents d c) lba = Some b) ∧ (reliable → st = 0);
  bd_write d lba buf c : devs d → drv_ok c → 0 ≤ lba < d_block_count (d_info d) →
    zlen buf = d_block_size (d_info d) →
    ∃ c' st, mcsos_blk_write (Ref d) lba 1 (Ref buf) c = Some (c', st, Ref buf) ∧ drv_ok c' ∧
      (∀ d', devs d' → contents d' c' =
         if decide (d_addr d' = d_addr d ∧ st = 0) then <[Z.to_nat lba := buf]> (contents d c)
         else contents d' c) ∧ (reliable → st = 0);
}.

Section Cache.
Context {C : Type} {devs : mcsos_blk_device C → Prop}
  {contents : mcsos_blk_device C → C → list (list Z)} {drv_ok : C → Prop} {reliable : Prop}
  `{HD : !BlockDriver devs contents drv_ok reliable}.

Implicit Types (k : mcsos_bcache C) (e : mcsos_bcache_entry C) (es : list (mcsos_bcache_entry C))
  (d : mcsos_blk_device C) (s : mcsos_bcache C * C).

(** ** The logical disk *)

(** Entry [e] holds block [lba] of [d]. *)
Definition holds e d (lba : Z) : bool := e_valid e && same_dev (e_dev e) d && (e_lba e =? lba).

Fixpoint cached es d (lba : Z) : option (list Z) :=
  match es with
  | [] => None
  | e :: r => if holds e d lba then Some (e_data e) else cached r d lba
  end.

(** The block as the users of the cache see it. *)
Definition logical s d (lba : Z) : option (list Z) :=
  match cached (entries s.1) d lba with
  | Some x => Some x
  | None => arr_get (contents d s.2) lba
  end.

(** What a valid entry is. *)
Record entry_ok (c : C) (bs : Z) e : Prop := {
  eo_len : zlen (e_data e) = bs;
  eo_dev : e_valid e = true → ∃ d, e_dev e = Ref d ∧ devs d ∧ d_block_size (d_info d) = bs ∧
    0 ≤ e_lba e < d_block_count (d_info d) ∧
    (e_dirty e = false → arr_get (contents d c) (e_lba e) = Some (e_data e));
}.

(** No block is in two entries. *)
Definition unique es : Prop := ∀ i j e e' d lba, devs d →
  es !! i = Some e → es !! j = Some e' → holds e d lba = true → holds e' d lba = true → i = j.

Record cache_ok s : Prop := {
  co_drv : drv_ok s.2;
  co_count : entry_count s.1 = zlen (entries s.1);
  co_range : 0 < entry_count s.1 < 2147483648;
  co_hand : 0 ≤ clock_hand s.1;
  co_entries : ∀ i e, entries s.1 !! i = Some e → entry_ok s.2 (block_size s.1) e;
  co_unique : unique (entries s.1);
}.

Lemma holds_Ref e d d' lba : e_dev e = Ref d → devs d → devs d' →
  holds e d' lba = true ↔ e_valid e = true ∧ d' = d ∧ e_lba e = lba.
Proof.
  intros He Hd Hd'. unfold holds, same_dev. rewrite He.
  rewrite !andb_true_iff, !Z.eqb_eq. split; [|intros (? & -> & ?); done].
  intros [[? Ha] ?]. split; [done|]. split; [|done]. symmetry. by apply bd_addr.
Qed.

Lemma cached_Some es d lba x : cached es d lba = Some x →
  ∃ i e, es !! i = Some e ∧ holds e d lba = true ∧ e_data e = x.
Proof.
  induction es as [|e r IH]; simpl; [done|]. destruct (holds e d lba) eqn:E.
  - intros [= <-]. by exists 0%nat, e.
  - intros H. destruct (IH H) as (i & e' & ? & ? & ?). by exists (S i), e'.
Qed.

Lemma cached_None es d lba : cached es d lba = None ↔
  ∀ i e, es !! i = Some e → holds e d lba = false.
Proof.
  split.
  - induction es as [|e r IH]; simpl; [done|]. destruct (holds e d lba) eqn:E; [done|].
    intros H [|i] e' Hi; [by injection Hi as <-|]. by apply (IH H i).
  - intros H. destruct (cached es d lba) eqn:E; [|done].
    apply cached_Some in E as (i & e & Hi & Hh & _). by rewrite (H _ _ Hi) in Hh.
Qed.

Lemma cached_at es d lba i e : unique es → devs d → es !! i = Some e → holds e d lba = true →
  cached es d lba = Some (e_data e).
Proof.
  intros Hu Hd Hi Hh. destruct (cached es d lba) as [x|] eqn:E.
  - apply cached_Some in E as (j & e' & Hj & Hh' & <-). rewrite (Hu _ _ _ _ _ _ Hd Hi Hj Hh Hh') in Hi. congruence.
  - rewrite cached_None in E. by rewrite (E _ _ Hi) in Hh.
Qed.

(** Two lists that hold the same blocks with the same data. *)
Lemma cached_ext es es' d lba : unique es → unique es' → devs d →
  (∀ i e, es !! i = Some e → holds e d lba = true →
     ∃ j e', es' !! j = Some e' ∧ holds e' d lba = true ∧ e_data e' = e_data e) →
  (∀ j e', es' !! j = Some e' → holds e' d lba = true → ∃ i e, es !! i = Some e ∧ holds e d lba = true) →
  cached es' d lba = cached es d lba.
Proof.
  intros Hu Hu' Hd H1 H2. destruct (cached es d lba) as [x|] eqn:E.
  - apply cached_Some in E as (i & e & Hi & Hh & <-). destruct (H1 _ _ Hi Hh) as (j & e' & Hj & Hh' & <-).
    by apply (cached_at _ _ _ j).
  - rewrite cached_None in E |- *. intros j e' Hj. destruct (holds e' d lba) eqn:Hh; [|done].
    destruct (H2 _ _ Hj Hh) as (i & e & Hi & Hh'). by rewrite (E _ _ Hi) in Hh'.
Qed.

Lemma find_loop_run n i es d lba : 0 ≤ i → i + Z.of_nat n = zlen es →
  ∃ r, find_loop n i es d lba = Some r ∧
    match r with
    | Some j => i ≤ j ∧ ∃ e, es !! Z.to_nat j = Some e ∧ holds e d lba = true
    | None => ∀ j e, i ≤ Z.of_nat j → es !! j = Some e → holds e d lba = false
    end.
Proof.
  revert i. induction n as [|n IH]; intros i Hi Hn; cbn [find_loop].
  { exists None. split; [done|]. intros j e Hj Hl. apply lookup_lt_Some in Hl. unfold zlen in *. lia. }
  destruct (arr_get_is_Some es i) as [e He]; [lia|]. rewrite He. cbn [mbind option_bind].
  apply arr_get_Some in He as [_ He]. fold (holds e d lba). destruct (holds e d lba) eqn:Hh.
  { exists (Some i). split; [done|]. split; [lia|]. by exists e. }
  destruct (IH (i + 1)) as (r & Er & Hr); [lia|lia|]. exists r. split; [done|].
  destruct r as [j|].
  - destruct Hr as [? ?]. split; [lia|done].
  - intros j e' Hj Hl. destruct (decide (Z.of_nat j = i)) as [E|].
    + rewrite <-E, Nat2Z.id in He. congruence.
    + apply (Hr j); [lia|done].
Qed.

Lemma find_run s d lba : cache_ok s →
  ∃ r, mcsos_bcache_find s.1 d lba = Some r ∧
    match r with
    | Some j => 0 ≤ j ∧ ∃ e, entries s.1 !! Z.to_nat j = Some e ∧ holds e d lba = true
    | None => cached (entries s.1) d lba = None
    end.
Proof.
  intros H. destruct (find_loop_run (Z.to_nat (entry_count s.1)) 0 (entries s.1) d lba) as (r & Er & Hr).
  { lia. } { pose proof (co_count _ H). pose proof (co_range _ H). lia. }
  exists r. split; [done|]. destruct r; [done|]. apply cached_None. intros i e. apply Hr. lia.
Qed.

(** ** Replacing an entry *)

Definition put (i : nat) e s : mcsos_bcache C * C :=
  (Bcache (<[i := e]> (entries s.1)) (entry_count s.1) (block_size s.1) (clock_hand s.1), s.2).

Lemma get_entry_run s i e : 0 ≤ i → entries s.1 !! Z.to_nat i = Some e →
  get_entry i s = Some (s, inr e).
Proof. intros Hi He. unfold get_entry. rewrite arr_get_nat by done. by rewrite He. Qed.

Lemma set_entry_run s i e e0 : 0 ≤ i → entries s.1 !! Z.to_nat i = Some e0 →
  set_entry i e s = Some (put (Z.to_nat i) e s, inr tt).
Proof.
  intros Hi He. apply lookup_lt_Some in He. destruct s as [k c]. unfold set_entry, put. cbn [fst snd] in *.
  rewrite arr_set_ok; [done|]. unfold zlen. lia.
Qed.

(** The entry put at [i] holds [(d, lba)], which no other entry holds; what the
    entry held before was clean or is the same block. *)
Lemma put_entry_ok s i e0 e d lba : cache_ok s → entries s.1 !! i = Some e0 →
  entry_ok s.2 (block_size s.1) e → e_valid e = true → e_dev e = Ref d → e_lba e = lba → devs d →
  (∀ j e', entries s.1 !! j = Some e' → j ≠ i → holds e' d lba = false) →
  (e_valid e0 = true → e_dirty e0 = true → holds e0 d lba = true) →
  cache_ok (put i e s) ∧
  ∀ d' lba', devs d' → logical (put i e s) d' lba' =
    if decide (d_addr d' = d_addr d ∧ lba' = lba) then Some (e_data e) else logical s d' lba'.
Proof.
  intros H Hi Hok Hv Hd Hl Hdev Hoth He0. pose proof (lookup_lt_Some _ _ _ Hi) as Hlt.
  assert (Hh : ∀ d' lba', devs d' → holds e d' lba' = true ↔ d' = d ∧ lba' = lba).
  { intros d' lba' Hd'. rewrite (holds_Ref e d d') by done. rewrite Hl. split; [intros (_ & ? & ?)|intros [? ?]]; done. }
  assert (Hu : unique (<[i := e]> (entries s.1))).
  { intros j1 j2 e1 e2 d' lba' Hd' H1 H2 A1 A2.
    apply list_lookup_insert_Some in H1 as [(<- & <- & _)|[N1 H1]];
      apply list_lookup_insert_Some in H2 as [(<- & <- & _)|[N2 H2]].
    - done.
    - apply Hh in A1 as [-> ->]; [|done]. by rewrite (Hoth _ _ H2) in A2.
    - apply Hh in A2 as [-> ->]; [|done]. by rewrite (Hoth _ _ H1) in A1.
    - by apply (co_unique _ H j1 j2 e1 e2 d' lba'). }
  split.
  { destruct H as [H1 H2 H3 H4 H5 H6]. split; cbn [put fst snd entries entry_count block_size clock_hand]; try done.
    - by rewrite zlen_insert.
    - intros j e' Hj. apply list_lookup_insert_Some in Hj as [(<- & <- & _)|[_ Hj]]; [done|by eapply H5]. }
  intros d' lba' Hd'. unfold logical. cbn [put fst snd entries].
  assert (Hin : <[i := e]> (entries s.1) !! i = Some e) by by apply list_lookup_insert_eq.
  case_decide as Hc.
  { destruct Hc as [Ha ->]. apply bd_addr in Ha as ->; [|done|done].
    rewrite (cached_at _ _ _ i e); try done. by apply Hh. }
  assert (Hne : holds e d' lba' = false).
  { destruct (holds e d' lba') eqn:E; [|done]. apply Hh in E as [-> ->]; [|done]. by destruct Hc. }
  destruct (holds e0 d' lba') eqn:E0.
  - rewrite (cached_at (entries s.1) _ _ i e0) by (done || by apply co_unique).
    assert (cached (<[i := e]> (entries s.1)) d' lba' = None) as ->.
    { apply cached_None. intros j e' Hj. apply list_lookup_insert_Some in Hj as [(<- & <- & _)|[Hj1 Hj]]; [done|].
      destruct (holds e' d' lba') eqn:E'; [|done].
      by rewrite (co_unique _ H _ _ _ _ _ _ Hd' Hi Hj E0 E') in Hj1. }
    assert (e_valid e0 = true) as Hv0 by (unfold holds in E0; by destruct (e_valid e0)).
    destruct (eo_dev _ _ _ (co_entries _ H _ _ Hi) Hv0) as (d0 & Hd0 & Hdev0 & _ & _ & Hclean).
    apply (holds_Ref e0 d0 d') in E0 as (_ & -> & <-); [|done|done|done]. apply Hclean.
    destruct (e_dirty e0) eqn:Ed; [|done]. specialize (He0 Hv0 eq_refl).
    apply (holds_Ref e0 d0 d) in He0 as (_ & -> & <-); [|done|done|done]. by destruct Hc.
  - rewrite (cached_ext (entries s.1) (<[i := e]> (entries s.1))); [done|by apply co_unique|done|done|..].
    + intros j e' Hj Hhj. exists j, e'. split; [|done]. rewrite list_lookup_insert_ne; [done|].
      intros ->. congruence.
    + intros j e' Hj Hhj. apply list_lookup_insert_Some in Hj as [(<- & <- & _)|[_ Hj]]; [congruence|by eauto].
Qed.

(** ** Write-back *)

(** Same entries but for the dirty flags, no dirty flag set. *)
Definition cleaner e e' : Prop :=
  e' = e ∨ e' = Entry (e_data e) (e_capacity e) (e_lba e) (e_valid e) false (e_dev e).

(** The state after a write-back of entry [i]: the calls that follow find the
    same blocks. *)
Record flushed s s' : Prop := {
  fl_ok : cache_ok s';
  fl_same : ∀ d lba, devs d → logical s' d lba = logical s d lba;
  fl_count : entry_count s'.1 = entry_count s.1;
  fl_size : block_size s'.1 = block_size s.1;
  fl_entries : Forall2 cleaner (entries s.1) (entries s'.1);
}.

(** A driver call that changed no block. *)
Lemma same_contents s c' : cache_ok s → drv_ok c' →
  (∀ d, devs d → contents d c' = contents d s.2) → flushed s (s.1, c').
Proof.
  intros [H1 H2 H3 H4 H5 H6] Hc Hsame. split; cbn [fst snd]; try done.
  - split; cbn [fst snd]; try done. intros i e Hi. destruct (H5 _ _ Hi) as [Hl Hd]. split; [done|].
    intros Hv. destruct (Hd Hv) as (d & ? & ? & ? & ? & ?). exists d. by rewrite Hsame.
  - intros d lba Hd. unfold logical. cbn [fst snd]. by rewrite Hsame.
  - apply Forall2_same_length_lookup. split; [done|]. intros i e e' He He'. left. congruence.
Qed.

Definition with_hand (h : Z) s : mcsos_bcache C * C :=
  (Bcache (entries s.1) (entry_count s.1) (block_size s.1) h, s.2).

Lemma with_hand_flushed h s : cache_ok s → 0 ≤ h → flushed s (with_hand h s).
Proof.
  intros [H1 H2 H3 H4 H5 H6] Hh. split; try done. unfold with_hand. cbn [fst entries].
  apply Forall2_same_length_lookup. split; [done|]. intros i e e' He He'. left. congruence.
Qed.

#[local] Instance cleaner_trans : Transitive cleaner.
Proof. intros x y z [->| ->] [->| ->]; (by left) || (by right). Qed.

Lemma flushed_trans s1 s2 s3 : flushed s1 s2 → flushed s2 s3 → flushed s1 s3.
Proof.
  intros [_ A2 A3 A4 A5] [B1 B2 B3 B4 B5]. split; [done| |congruence|congruence|].
  - intros d lba Hd. by rewrite B2, A2.
  - by transitivity (entries s2.1).
Qed.

Definition scrub e : mcsos_bcache_entry C :=
  Entry (e_data e) (e_capacity e) (e_lba e) (e_valid e) false (e_dev e).

Lemma holds_scrub e d lba : holds (scrub e) d lba = holds e d lba.
Proof. done. Qed.

(** The block of entry [i] written to its device. *)
(** The invariant once the entry [i] is written back, from what the driver did. *)
Lemma scrub_cache_ok s i e d c' : cache_ok s → entries s.1 !! i = Some e → e_valid e = true →
  e_dev e = Ref d → drv_ok c' → arr_get (contents d c') (e_lba e) = Some (e_data e) →
  (∀ d' lba', devs d' → 0 ≤ lba' → holds e d' lba' = false →
    arr_get (contents d' c') lba' = arr_get (contents d' s.2) lba') →
  unique (<[i := scrub e]> (entries s.1)) → cache_ok (put i (scrub e) (s.1, c')).
Proof.
  intros [H1 H2 H3 H4 H5 H6] Hi Hv Hd Hc Hown Hother Hu.
  split; cbn [put fst snd entries entry_count block_size clock_hand]; try done.
  - by rewrite zlen_insert.
  - intros j e' Hj. apply list_lookup_insert_Some in Hj as [(<- & <- & _)|[Hij Hj]].
    + destruct (H5 _ _ Hi) as [Hl Hd0]. split; [done|]. intros _. destruct (Hd0 Hv) as (d0 & E0 & ? & ? & ? & _).
      assert (d0 = d) as -> by congruence. by exists d.
    + destruct (H5 _ _ Hj) as [Hl Hd0]. split; [done|]. intros Hv'.
      destruct (Hd0 Hv') as (d' & E' & Hdev' & ? & ? & Hcl). exists d'.
      split; [done|]. split; [done|]. split; [done|]. split; [done|]. intros Hdirty.
      rewrite Hother; [by apply Hcl|done|lia|].
      destruct (holds e d' (e_lba e')) eqn:E; [|done]. destruct Hij.
      apply (H6 i j e e' d' (e_lba e')); try done. by apply (holds_Ref e' d' d').
Qed.

Lemma scrub_flushed s i e d c' : cache_ok s → entries s.1 !! i = Some e → e_valid e = true →
  e_dev e = Ref d → devs d → 0 ≤ e_lba e < d_block_count (d_info d) → drv_ok c' →
  (∀ d', devs d' → contents d' c' =
     if decide (d_addr d' = d_addr d) then <[Z.to_nat (e_lba e) := e_data e]> (contents d s.2)
     else contents d' s.2) →
  flushed s (put i (scrub e) (s.1, c')).
Proof.
  intros H Hi Hv Hd Hdev Hlba Hc Hcon.
  destruct (bd_contents d s.2 Hdev (co_drv _ H)) as [Hlen _].
  assert (Hother : ∀ d' lba', devs d' → 0 ≤ lba' → holds e d' lba' = false →
            arr_get (contents d' c') lba' = arr_get (contents d' s.2) lba').
  { intros d' lba' Hd' Hn Hh. rewrite Hcon by done. case_decide as Ha; [|done].
    apply bd_addr in Ha as ->; [|done|done]. rewrite arr_get_insert by lia.
    case_decide as El; [|done]. assert (holds e d lba' = true); [|congruence].
    apply (holds_Ref e d d); done. }
  assert (Hown : arr_get (contents d c') (e_lba e) = Some (e_data e)).
  { rewrite Hcon by done. rewrite decide_True by done. rewrite arr_get_insert by lia. by rewrite decide_True. }
  assert (Hhe : holds e d (e_lba e) = true) by (by apply (holds_Ref e d d)).
  assert (Hu : unique (<[i := scrub e]> (entries s.1))).
  { intros j1 j2 e1 e2 d' lba' Hd' H1 H2 A1 A2.
    apply list_lookup_insert_Some in H1 as [(<- & <- & _)|[N1 H1]];
      apply list_lookup_insert_Some in H2 as [(<- & <- & _)|[N2 H2]]; [done| | |];
      rewrite ?holds_scrub in *; by eapply (co_unique _ H); eauto. }
  split.
  - by eapply scrub_cache_ok.
  - intros d' lba' Hd'. unfold logical. cbn [put fst snd entries].
    rewrite (cached_ext (entries s.1)); [|by apply co_unique|done|done|..].
    + destruct (cached (entries s.1) d' lba') eqn:E; [done|]. rewrite cached_None in E.
      destruct (decide (0 ≤ lba')); [|by rewrite !arr_get_oob by lia]. apply Hother; [done|lia|by apply (E i)].
    + intros j e' Hj Hh. destruct (decide (i = j)) as [<-|Hij].
      * exists i, (scrub e). replace e' with e in * by congruence.
        split; [by apply list_lookup_insert_eq, (lookup_lt_Some _ _ _ Hi)|done].
      * exists j, e'. by rewrite list_lookup_insert_ne.
    + intros j e' Hj Hh. apply list_lookup_insert_Some in Hj as [(<- & <- & _)|[_ Hj]]; [|by eauto].
      rewrite holds_scrub in Hh. by eauto.
  - done.
  - done.
  - cbn [put fst entries]. apply Forall2_same_length_lookup. split; [by rewrite length_insert|].
    intros j e1 e2 H1 H2. apply list_lookup_insert_Some in H2 as [(<- & <- & _)|[_ H2]].
    + right. by replace e1 with e by congruence.
    + left. congruence.
Qed.

(** What is known of the status of a call. *)
Definition status_ok {A} (r : Z + A) : Prop :=
  (∀ rc, r = inl rc → rc ≠ MCSOS_BLK_OK) ∧ (reliable → ∃ a, r = inr a).

Lemma status_ok_inr {A} (a : A) : status_ok (inr a).
Proof. split; [done|by eauto]. Qed.

Lemma status_ok_inl {A} rc : rc ≠ 0 → (reliable → rc = 0) → status_ok (A := A) (inl rc).
Proof. intros H1 H2. split; [by intros ? [= <-]|]. intros Hr. by apply H2 in Hr. Qed.

Lemma flush_entry_run s i e : cache_ok s → 0 ≤ i → entries s.1 !! Z.to_nat i = Some e →
  ∃ s' r, mcsos_bcache_flush_entry i s = Some (s', r) ∧ flushed s s' ∧ status_ok r ∧
    clock_hand s'.1 = clock_hand s.1 ∧
    (r = inr tt → ∃ e', entries s'.1 !! Z.to_nat i = Some e' ∧ (e_valid e' = true → e_dirty e' = false)).
Proof.
  intros H Hi He. unfold mcsos_bcache_flush_entry. mstep (get_entry_run s i e Hi He).
  pose proof (same_contents s s.2 H (co_drv _ H) (λ _ _, eq_refl)) as Hrefl.
  destruct (e_valid e) eqn:Hv; cbn [negb orb].
  2:{ exists s, (inr tt). split; [done|]. split; [by destruct s|]. split; [apply status_ok_inr|]. split; [done|].
      intros _. exists e. split; [done|]. congruence. }
  destruct (e_dirty e) eqn:Hdi; cbn [negb].
  2:{ exists s, (inr tt). split; [done|]. split; [by destruct s|]. split; [apply status_ok_inr|]. split; [done|].
      intros _. by exists e. }
  destruct (eo_dev _ _ _ (co_entries _ H _ _ He) Hv) as (d & Hd & Hdev & Hbs & Hlba & _).
  destruct (bd_write d (e_lba e) (e_data e) s.2) as (c' & st & Ew & Hc & Hcon & Hrel); try done.
  { apply co_drv, H. } { rewrite Hbs. apply (eo_len _ _ _ (co_entries _ H _ _ He)). }
  assert (on_driver (mcsos_blk_write (e_dev e) (e_lba e) 1 (Ref (e_data e))) s =
    Some ((s.1, c'), inr (st, e_data e))) as Eo.
  { destruct s as [k c]. unfold on_driver. cbn [fst snd] in *. by rewrite Hd, Ew. }
  mstep Eo. destruct (st =? MCSOS_BLK_OK) eqn:Est.
  - apply Z.eqb_eq in Est. unfold MCSOS_BLK_OK in Est. subst st.
    rewrite (set_entry_run (s.1, c') i _ e) by done.
    exists (put (Z.to_nat i) (scrub e) (s.1, c')), (inr tt). split; [by unfold scrub; rewrite Hv|].
    split.
    { apply (scrub_flushed s (Z.to_nat i) e d c'); try done. intros d' Hd'. rewrite Hcon by done.
      repeat case_decide; tauto. }
    split; [apply status_ok_inr|]. split; [done|]. intros _. exists (scrub e). split; [|done].
    cbn [put fst entries]. by apply list_lookup_insert_eq, (lookup_lt_Some _ _ _ He).
  - apply Z.eqb_neq in Est. unfold MCSOS_BLK_OK in Est. exists (s.1, c'), (inl st). split; [done|]. split.
    { apply same_contents; [done|done|]. intros d' Hd'. rewrite Hcon by done. by rewrite decide_False by tauto. }
    split; [by apply status_ok_inl|]. split; done.
Qed.

(** ** Replacement *)

(** Nothing that the users see has changed. *)
Record kept s s' : Prop := {
  kp_ok : cache_ok s';
  kp_same : ∀ d lba, devs d → logical s' d lba = logical s d lba;
  kp_size : block_size s'.1 = block_size s.1;
}.

Lemma flushed_kept s s' : flushed s s' → kept s s'.
Proof. by intros [? ? ? ? ?]. Qed.

Lemma kept_trans s1 s2 s3 : kept s1 s2 → kept s2 s3 → kept s1 s3.
Proof.
  intros [_ A2 A3] [B1 B2 B3]. split; [done| |congruence]. intros d lba Hd. by rewrite B2, A2.
Qed.

Lemma victim_loop_run n pass start es : 0 ≤ pass → pass + Z.of_nat n = zlen es →
  0 ≤ start → zlen es < 2147483648 → start < zlen es →
  ∃ r, victim_loop n pass start (zlen es) es = Some r ∧
    match r with
    | Some i => 0 ≤ i ∧ ∃ e, es !! Z.to_nat i = Some e ∧ e_valid e = false
    | None => True
    end.
Proof.
  revert pass. induction n as [|n IH]; intros pass Hp Hn Hs Hl Hs'; cbn [victim_loop]; [by exists None|].
  rewrite u32_small by words. set (i := (start + pass) mod zlen es).
  assert (0 ≤ i < zlen es) as Hi by (apply Z.mod_pos_bound; lia).
  destruct (arr_get_is_Some es i Hi) as [e He]. rewrite He. cbn [mbind option_bind].
  destruct (e_valid e) eqn:Hv; [apply IH; lia|]. apply arr_get_Some in He as [_ He].
  exists (Some i). split; [done|]. split; [lia|]. by exists e.
Qed.

(** An entry that can be reused: not valid, or clean. *)
Definition reusable (es : list (mcsos_bcache_entry C)) (i : Z) : Prop :=
  0 ≤ i ∧ ∃ e, es !! Z.to_nat i = Some e ∧ (e_valid e = true → e_dirty e = false).

Lemma set_hand_run h s : set_hand h s = Some (with_hand h s, inr tt).
Proof. by destruct s. Qed.

Lemma select_victim_run s : cache_ok s →
  ∃ s' r, mcsos_bcache_select_victim s = Some (s', r) ∧ flushed s s' ∧ status_ok r ∧
    (∀ i, r = inr i → reusable (entries s'.1) i).
Proof.
  intros H. pose proof (co_count _ H) as Hc. pose proof (co_range _ H) as Hr. pose proof (co_hand _ H) as Hh.
  unfold mcsos_bcache_select_victim. rewrite mseq_mget.
  rewrite (proj2 (Z.eqb_neq _ _)) by lia. cbn [negb]. cbv zeta.
  pose proof (Z.mod_pos_bound (clock_hand s.1) (entry_count s.1)).
  rewrite u32_small by words. set (start := clock_hand s.1 mod entry_count s.1) in *.
  destruct (victim_loop_run (Z.to_nat (entry_count s.1)) 0 start (entries s.1)) as (v & Ev & Hv); try lia.
  rewrite <-Hc in Ev. rewrite (mseq_mub _ _ _ _ Ev).
  assert (∀ h, 0 ≤ u32 h) as Hu by (intros h; pose proof (u32_range h); words).
  destruct v as [i|].
  - mstep (set_hand_run (u32 (i + 1)) s). rewrite mok_run. eexists _, _. split; [done|].
    split; [by apply with_hand_flushed|]. split; [apply status_ok_inr|]. intros ? [= <-].
    destruct Hv as (? & e & He & Hv). split; [done|]. exists e. split; [done|]. congruence.
  - mstep (set_hand_run (u32 (start + 1)) s). set (s1 := with_hand (u32 (start + 1)) s).
    pose proof (with_hand_flushed (u32 (start + 1)) s H (Hu _)) as F1. fold s1 in F1.
    destruct (arr_get_is_Some (entries s.1) start) as [e He]; [lia|]. apply arr_get_Some in He as [_ He].
    destruct (flush_entry_run s1 start e) as (s2 & r & E2 & F2 & St & _ & Hcl); [apply F1|lia|done|].
    destruct r as [rc|[]].
    + mstep E2. eexists _, _. split; [done|]. split; [by eapply flushed_trans|]. split; [|done].
      destruct St as [S1 S2]. split; [by intros ? [= <-]; apply S1|]. intros Hre.
      by destruct (S2 Hre) as [? ?].
    + mstep E2. rewrite mok_run. eexists _, _. split; [done|]. split; [by eapply flushed_trans|].
      split; [apply status_ok_inr|]. intros ? [= <-]. split; [lia|]. by apply Hcl.
Qed.

(** A block that is in no entry is in none after a write-back. *)
Lemma flushed_cached s s' d lba : flushed s s' → cached (entries s.1) d lba = None →
  cached (entries s'.1) d lba = None.
Proof.
  intros F. rewrite !cached_None. intros H i e' Hi.
  destruct (Forall2_lookup_r _ _ _ _ _ (fl_entries _ _ F) Hi) as (e & He & Hcl).
  rewrite <-(H _ _ He). by destruct Hcl as [->| ->].
Qed.

(** The entry at [i] given up: it was clean or not valid. *)
Lemma drop_ok s i e0 e : cache_ok s → entries s.1 !! i = Some e0 →
  (e_valid e0 = true → e_dirty e0 = false) → e_valid e = false → zlen (e_data e) = block_size s.1 →
  kept s (put i e s).
Proof.
  intros H Hi He0 Hv Hl. pose proof (lookup_lt_Some _ _ _ Hi) as Hlt.
  assert (Hh : ∀ d lba, holds e d lba = false) by (intros; unfold holds; by rewrite Hv).
  assert (Hu : unique (<[i := e]> (entries s.1))).
  { intros j1 j2 e1 e2 d lba Hd H1 H2 A1 A2.
    apply list_lookup_insert_Some in H1 as [(<- & <- & _)|[N1 H1]]; [by rewrite Hh in A1|].
    apply list_lookup_insert_Some in H2 as [(<- & <- & _)|[N2 H2]]; [by rewrite Hh in A2|].
    by apply (co_unique _ H j1 j2 e1 e2 d lba). }
  split.
  - destruct H as [H1 H2 H3 H4 H5 H6]. split; cbn [put fst snd entries entry_count block_size clock_hand]; try done.
    + by rewrite zlen_insert.
    + intros j e' Hj. apply list_lookup_insert_Some in Hj as [(<- & <- & _)|[_ Hj]]; [|by eapply H5].
      split; [done|]. congruence.
  - intros d lba Hd. unfold logical. cbn [put fst snd entries]. destruct (holds e0 d lba) eqn:E0.
    + rewrite (cached_at (entries s.1) _ _ i e0) by (done || by apply co_unique).
      assert (cached (<[i := e]> (entries s.1)) d lba = None) as ->.
      { apply cached_None. intros j e' Hj. apply list_lookup_insert_Some in Hj as [(<- & <- & _)|[Hj1 Hj]]; [done|].
        destruct (holds e' d lba) eqn:E'; [|done]. by rewrite (co_unique _ H _ _ _ _ _ _ Hd Hi Hj E0 E') in Hj1. }
      assert (e_valid e0 = true) as Hv0 by (unfold holds in E0; by destruct (e_valid e0)).
      destruct (eo_dev _ _ _ (co_entries _ H _ _ Hi) Hv0) as (d0 & Hd0 & Hdev0 & _ & _ & Hclean).
      apply (holds_Ref e0 d0 d) in E0 as (_ & -> & <-); [|done|done|done]. by apply Hclean, He0.
    + rewrite (cached_ext (entries s.1) (<[i := e]> (entries s.1))); [done|by apply co_unique|done|done|..].
      * intros j e' Hj Hhj. exists j, e'. split; [|done]. rewrite list_lookup_insert_ne; [done|]. intros ->. congruence.
      * intros j e' Hj Hhj. apply list_lookup_insert_Some in Hj as [(<- & <- & _)|[_ Hj]]; [by rewrite Hh in Hhj|by eauto].
  - done.
Qed.

Lemma put_put i e1 e2 s : put i e2 (put i e1 s) = put i e2 s.
Proof. unfold put. cbn [fst snd entries entry_count block_size clock_hand]. by rewrite list_insert_insert_eq. Qed.

Lemma put_lookup i e e0 s : entries s.1 !! i = Some e0 → entries (put i e s).1 !! i = Some e.
Proof. intros H. by apply list_lookup_insert_eq, (lookup_lt_Some _ _ _ H). Qed.

(** A new entry for [(d, lba)] in the place of a reusable one. *)
Lemma new_entry s i e d lba data dirty : cache_ok s → reusable (entries s.1) i →
  entries s.1 !! Z.to_nat i = Some e → cached (entries s.1) d lba = None →
  devs d → d_block_size (d_info d) = block_size s.1 → 0 ≤ lba < d_block_count (d_info d) →
  zlen data = block_size s.1 → (dirty = false → arr_get (contents d s.2) lba = Some data) →
  let e' := Entry data (e_capacity e) lba true dirty (Ref d) in
  cache_ok (put (Z.to_nat i) e' s) ∧
  ∀ d' lba', devs d' → logical (put (Z.to_nat i) e' s) d' lba' =
    if decide (d_addr d' = d_addr d ∧ lba' = lba) then Some data else logical s d' lba'.
Proof.
  intros H [Hi (e0 & He0 & Hcl)] He Hnone Hdev Hbs Hlba Hlen Hdata e'. rewrite cached_None in Hnone.
  assert (e0 = e) as -> by congruence.
  apply (put_entry_ok s _ e e' d lba); try done.
  - split; [done|]. intros _. by exists d.
  - intros j e1 Hj _. by apply (Hnone j).
  - intros Hv Hd. rewrite Hcl in Hd by done. done.
Qed.

(** ** Read and write *)

Lemma copy_exact (dst src : list Z) n : zlen src = n → n ≤ zlen dst →
  mcsos_memcpy_u8_bcache dst src n = Some (src ++ drop (length src) dst).
Proof.
  intros Hs Hd. unfold mcsos_memcpy_u8_bcache, zlen in *. rewrite mem_copy_ok by lia.
  by rewrite take_ge, <-Hs, Nat2Z.id by lia.
Qed.

Lemma status_ok_map {A B} (rc : Z) : status_ok (A := A) (inl rc) → status_ok (A := B) (inl rc).
Proof.
  intros [S1 S2]. split; [by intros ? [= <-]; apply S1|]. intros Hre. by destruct (S2 Hre).
Qed.

(** The driver asked for a block, with the data of an entry as buffer. *)
Lemma driver_read s e d lba : cache_ok s → zlen (e_data e) = block_size s.1 → devs d →
  d_block_size (d_info d) = block_size s.1 → 0 ≤ lba < d_block_count (d_info d) →
  ∃ c' st b, on_driver (mcsos_blk_read (Ref d) lba 1 (Ref (e_data e))) s = Some ((s.1, c'), inr (st, b)) ∧
    flushed s (s.1, c') ∧ zlen b = block_size s.1 ∧ (reliable → st = 0) ∧
    (st = 0 → arr_get (contents d s.2) lba = Some b ∧ arr_get (contents d c') lba = Some b).
Proof.
  intros H Hl Hdev Hbs Hlba.
  destruct (bd_read d lba (e_data e) s.2) as (c' & st & b & Er & Hc & Hsame & Hlb & Hst & Hrel); try done.
  { apply co_drv, H. } { congruence. }
  exists c', st, b. split; [|split; [by apply same_contents|]].
  - destruct s as [k c]. unfold on_driver. cbn [fst snd] in *. by rewrite Er.
  - rewrite Hsame by done. split; [congruence|]. split; [done|]. intros E. by rewrite Hst.
Qed.

Lemma read_miss_run s d lba : cache_ok s → devs d → cached (entries s.1) d lba = None →
  d_block_size (d_info d) = block_size s.1 → 0 ≤ lba < d_block_count (d_info d) →
  ∃ s' r, read_miss d lba s = Some (s', r) ∧ kept s s' ∧ status_ok r ∧
    (∀ i, r = inr i → 0 ≤ i ∧ ∃ e, entries s'.1 !! Z.to_nat i = Some e ∧
       zlen (e_data e) = block_size s.1 ∧ logical s d lba = Some (e_data e)).
Proof.
  intros H Hdev Hnone Hbs Hlba. unfold read_miss.
  destruct (select_victim_run s H) as (s1 & r1 & E1 & F1 & St1 & Hr1).
  destruct r1 as [rc|i]; mstep E1.
  { eexists _, _. split; [done|]. split; [by apply flushed_kept|]. split; [by eapply status_ok_map|done]. }
  specialize (Hr1 i eq_refl). pose proof Hr1 as (Hi & e & He & Hcl).
  mstep (get_entry_run s1 i e Hi He). pose proof (fl_ok _ _ F1) as H1. pose proof (fl_size _ _ F1) as Hsz.
  destruct (driver_read s1 e d lba H1) as (c' & st & b & Eo & F2 & Hlb & Hrel & Hst); try done; [| |].
  { apply (eo_len _ _ _ (co_entries _ H1 _ _ He)). } { congruence. }
  mstep Eo. set (s2 := (s1.1, c')) in *. pose proof (fl_ok _ _ F2) as H2.
  pose proof (flushed_trans _ _ _ F1 F2) as F12. destruct (st =? MCSOS_BLK_OK) eqn:Est; cbn [negb].
  - apply Z.eqb_eq in Est. destruct (Hst Est) as [Hst1 Hst2]. set (e' := Entry b (e_capacity e) lba true false (Ref d)).
    mstep (set_entry_run s2 i e' e Hi He). rewrite mok_run.
    destruct (new_entry s2 i e d lba b false) as [Hok Hlog]; try done; cbn [s2 fst]; try congruence.
    { by eapply flushed_cached. }
    assert (Hbc : logical s d lba = Some b).
    { rewrite <-(fl_same _ _ F1) by done. unfold logical. by rewrite (flushed_cached _ _ _ _ F1 Hnone). }
    eexists _, _. split; [done|]. split; [|split; [apply status_ok_inr|]].
    + split; [done| |cbn; congruence]. intros d' lba' Hd'. rewrite Hlog by done.
      case_decide as Hd; [|by apply F12]. destruct Hd as [Ha ->]. by apply bd_addr in Ha as ->.
    + intros ? [= <-]. split; [done|]. exists e'. split; [by eapply put_lookup|]. cbn [e_data e']. split; [congruence|done].
  - apply Z.eqb_neq in Est. set (e' := Entry b (e_capacity e) (e_lba e) false (e_dirty e) (e_dev e)).
    mstep (set_entry_run s2 i e' e Hi He). rewrite merr_run.
    eexists _, _. split; [done|]. split; [|split; [by apply status_ok_inl|done]].
    eapply kept_trans; [by apply flushed_kept|]. by apply (drop_ok s2 _ e e').
Qed.

Lemma bcache_read_run s d lba buf : cache_ok s → devs d →
  d_block_size (d_info d) = block_size s.1 → 0 ≤ lba < d_block_count (d_info d) →
  block_size s.1 ≤ zlen buf →
  ∃ s' r, bcache_read d lba buf s = Some (s', r) ∧ kept s s' ∧ status_ok r ∧
    (∀ b, r = inr b → ∃ x, logical s d lba = Some x ∧ zlen x = block_size s.1 ∧ b = x ++ drop (length x) buf).
Proof.
  intros H Hdev Hbs Hlba Hbuf. unfold bcache_read. rewrite mseq_mget.
  destruct (find_run s d lba H) as (hit & Eh & Hhit). rewrite (mseq_mub _ _ _ _ Eh).
  destruct hit as [i|].
  - destruct Hhit as (Hi & e & He & Hh). rewrite (mseq_inr _ _ s s i (mok_run i s)).
    mstep (get_entry_run s i e Hi He). unfold mub.
    rewrite copy_exact by (done || apply (eo_len _ _ _ (co_entries _ H _ _ He))).
    eexists _, _. split; [done|]. split; [by split|]. split; [apply status_ok_inr|].
    intros ? [= <-]. exists (e_data e). split; [|by rewrite (eo_len _ _ _ (co_entries _ H _ _ He))].
    unfold logical. by rewrite (cached_at _ _ _ _ e (co_unique _ H) Hdev He Hh).
  - destruct (read_miss_run s d lba H Hdev Hhit Hbs Hlba) as (s1 & r1 & E1 & K1 & St1 & Hr1).
    destruct r1 as [rc|i]; mstep E1.
    { eexists _, _. split; [done|]. split; [done|]. split; [by eapply status_ok_map|done]. }
    destruct (Hr1 i eq_refl) as (Hi & e & He & Hl & Hlog). mstep (get_entry_run s1 i e Hi He). unfold mub.
    rewrite copy_exact by done. eexists _, _. split; [done|]. split; [done|]. split; [apply status_ok_inr|].
    intros ? [= <-]. by exists (e_data e).
Qed.

(** The block written, everything else as it was. *)
Definition updated s s' d (lba : Z) (x : list Z) : Prop :=
  cache_ok s' ∧ block_size s'.1 = block_size s.1 ∧
  ∀ d' lba', devs d' → logical s' d' lba' =
    if decide (d_addr d' = d_addr d ∧ lba' = lba) then Some x else logical s d' lba'.

Lemma bcache_write_run s d lba buf : cache_ok s → devs d →
  d_block_size (d_info d) = block_size s.1 → 0 ≤ lba < d_block_count (d_info d) →
  zlen buf = block_size s.1 →
  ∃ s' r, bcache_write d lba buf s = Some (s', r) ∧ status_ok r ∧
    (if r is inr _ then updated s s' d lba buf else kept s s').
Proof.
  intros H Hdev Hbs Hlba Hbuf. unfold bcache_write. rewrite mseq_mget.
  destruct (find_run s d lba H) as (hit & Eh & Hhit). rewrite (mseq_mub _ _ _ _ Eh).
  assert (Hcopy : ∀ x, zlen x = block_size s.1 →
    mcsos_memcpy_u8_bcache x buf (block_size s.1) = Some buf).
  { intros x Hx. rewrite copy_exact by (done || lia). f_equal. rewrite drop_ge, app_nil_r; [done|].
    unfold zlen in *. lia. }
  destruct hit as [i|].
  - destruct Hhit as (Hi & e & He & Hh). rewrite (mseq_inr _ _ s s i (mok_run i s)).
    mstep (get_entry_run s i e Hi He). destruct (co_entries _ H _ _ He) as [Hl Hd].
    rewrite (mseq_mub _ _ _ _ (Hcopy _ Hl)). rewrite (set_entry_run s i _ e) by done.
    eexists _, _. split; [done|]. split; [apply status_ok_inr|].
    assert (e_valid e = true) as Hv by (unfold holds in Hh; by destruct (e_valid e)).
    destruct (Hd Hv) as (d0 & Hd0 & Hdev0 & Hb0 & Hl0 & _).
    pose proof Hh as Hh'. apply (holds_Ref e d0 d) in Hh' as (_ & -> & <-); [|done|done|done].
    destruct (put_entry_ok s (Z.to_nat i) e (Entry buf (e_capacity e) (e_lba e) (e_valid e) true (e_dev e))
      d0 (e_lba e)) as [Hok Hlog]; try done.
    + split; [done|]. intros _. exists d0. done.
    + intros j e' Hj Hij. destruct (holds e' d0 (e_lba e)) eqn:E; [|done]. destruct Hij.
      by apply (co_unique _ H j (Z.to_nat i) e' e d0 (e_lba e)).
  - unfold write_miss. destruct (select_victim_run s H) as (s1 & r1 & E1 & F1 & St1 & Hr1).
    destruct r1 as [rc|i].
    { rewrite (mseq_inl _ _ s s1 rc) by (by mstep E1). eexists _, _. split; [done|].
      split; [by eapply status_ok_map|]. by apply flushed_kept. }
    specialize (Hr1 i eq_refl). pose proof Hr1 as (Hi & e & He & Hcl). pose proof (fl_ok _ _ F1) as H1.
    set (e1 := Entry (e_data e) (e_capacity e) lba true false (Ref d)).
    rewrite (mseq_inr _ _ s (put (Z.to_nat i) e1 s1) i).
    2:{ mstep E1. mstep (get_entry_run s1 i e Hi He). by mstep (set_entry_run s1 i e1 e Hi He). }
    mstep (get_entry_run (put (Z.to_nat i) e1 s1) i e1 Hi (put_lookup _ _ _ _ He)).
    destruct (co_entries _ H1 _ _ He) as [Hl _]. pose proof (fl_size _ _ F1) as Hsz. cbn [e_data e1].
    rewrite (mseq_mub _ _ _ buf) by (apply Hcopy; congruence).
    rewrite (set_entry_run _ i _ e1 Hi (put_lookup _ _ _ _ He)), put_put.
    cbn [e1 e_capacity e_lba e_valid e_dev].
    eexists _, _. split; [done|]. split; [apply status_ok_inr|].
    destruct (new_entry s1 i e d lba buf true) as [Hok Hlog]; try done; try congruence.
    { by eapply flushed_cached. }
    split; [done|]. split; [by cbn|]. intros d' lba' Hd'. rewrite Hlog by done. case_decide; [done|].
    by apply F1.
Qed.

(** ** Flushing *)

Lemma flush_loop_run n i s : cache_ok s → 0 ≤ i → i + Z.of_nat n = entry_count s.1 →
  ∃ s' r, mfor n i mcsos_bcache_flush_entry s = Some (s', r) ∧ flushed s s' ∧ status_ok r ∧
    (r = inr tt → ∀ j e, i ≤ Z.of_nat j → entries s'.1 !! j = Some e → e_valid e = true → e_dirty e = false).
Proof.
  revert i s. induction n as [|n IH]; intros i s H Hi Hn; cbn [mfor].
  { exists s, (inr tt). split; [done|]. split.
    - pose proof (same_contents s s.2 H (co_drv _ H) (λ _ _, eq_refl)) as F. by destruct s.
    - split; [apply status_ok_inr|]. intros _ j e Hj He. apply lookup_lt_Some in He.
      rewrite (co_count _ H) in Hn. unfold zlen in *. lia. }
  destruct (arr_get_is_Some (entries s.1) i) as [e He]; [rewrite <-(co_count _ H); lia|].
  apply arr_get_Some in He as [_ He].
  destruct (flush_entry_run s i e H Hi He) as (s1 & r1 & E1 & F1 & St1 & _ & Hcl1).
  destruct r1 as [rc|[]]; mstep E1.
  { eexists _, _. split; [done|]. split; [done|]. split; [done|]. done. }
  destruct (IH (i + 1) s1) as (s2 & r2 & E2 & F2 & St2 & Hcl2);
    [apply F1|lia|rewrite (fl_count _ _ F1); lia|].
  eexists _, _. split; [exact E2|]. split; [by eapply flushed_trans|]. split; [done|].
  intros Hr j e' Hj He' Hv. destruct (decide (Z.of_nat j = i)) as [Ej|].
  - destruct (Hcl1 eq_refl) as (e1 & He1 & Hc1). rewrite <-Ej, Nat2Z.id in He1.
    destruct (Forall2_lookup_r _ _ _ _ _ (fl_entries _ _ F2) He') as (e1' & He1' & Hcl).
    assert (e1' = e1) as -> by congruence. destruct Hcl as [->| ->]; [by apply Hc1|done].
  - apply (Hcl2 Hr j e'); [lia|done|done].
Qed.

Lemma clean_logical s d lba : cache_ok s → devs d →
  (∀ j e, entries s.1 !! j = Some e → e_valid e = true → e_dirty e = false) →
  arr_get (contents d s.2) lba = logical s d lba.
Proof.
  intros H Hdev Hcl. unfold logical. destruct (cached (entries s.1) d lba) as [x|] eqn:E; [|done].
  apply cached_Some in E as (i & e & He & Hh & <-).
  assert (e_valid e = true) as Hv by (unfold holds in Hh; by destruct (e_valid e)).
  destruct (eo_dev _ _ _ (co_entries _ H _ _ He) Hv) as (d0 & Hd0 & Hdev0 & _ & _ & Hc).
  apply (holds_Ref e d0 d) in Hh as (_ & -> & <-); [|done|done|done]. by apply Hc, (Hcl _ _ He).
Qed.

(** ** Initialisation *)

(** An entry as [mcsos_bcache_init] leaves it. *)
Definition fresh_entry (bsize : Z) e : Prop := zlen (e_data e) = bsize ∧ e_valid e = false.

Lemma bcache_init_run es count pool bsize c : drv_ok c → 0 < count < 2147483648 → 0 < bsize →
  zlen es = count → count * bsize ≤ zlen pool →
  ∃ k, mcsos_bcache_init (Ref es) count (Ref pool) bsize = Some (inr k) ∧
    cache_ok (k, c) ∧ block_size k = bsize ∧
    ∀ d lba, logical (k, c) d lba = arr_get (contents d c) lba.
Proof.
  intros Hc Hcount Hb Hes Hpool. unfold mcsos_bcache_init.
  rewrite (proj2 (Z.eqb_neq count 0)), (proj2 (Z.eqb_neq bsize 0)) by lia. cbn [orb].
  destruct (for_range_inv (R := unit)
    (λ i es, zlen es = count ∧ ∀ j e, Z.of_nat j < i → es !! j = Some e → fresh_entry bsize e) (λ _, False) 0 count
    (λ i es, data ← bytes_from (i * bsize) pool;
             es ← arr_set es i (Entry (take (Z.to_nat bsize) data) bsize 0 false false Null);
             Some (Next (R := unit) es)) es) as (r & Er & Hr); [lia|split; [done|lia]| |].
  - intros i es1 Hi [Hl Hf].
    assert (0 ≤ i * bsize ∧ i * bsize + bsize ≤ zlen pool) as [Hlo Hhi] by nia.
    unfold bytes_from. rewrite decide_True by lia. cbn [mbind option_bind].
    rewrite arr_set_ok by lia. cbn [mbind option_bind]. eexists. split; [done|]. cbv beta iota.
    split; [by rewrite zlen_insert|]. intros j e Hj He.
    apply list_lookup_insert_Some in He as [(Ej & <- & _)|[Hne He]].
    + split; [|done]. cbn [e_data]. unfold zlen in *. rewrite length_take, length_drop. lia.
    + apply (Hf j); [lia|done].
  - rewrite Z.sub_0_r in Er. rewrite Er. cbn [mbind option_bind]. destruct r as [es'|]; [|done].
    destruct Hr as [Hl Hf]. eexists. split; [done|].
    assert (Hfr : ∀ j e, es' !! j = Some e → fresh_entry bsize e).
    { intros j e He. apply (Hf j); [|done]. apply lookup_lt_Some in He. unfold zlen in *. lia. }
    assert (Hh : ∀ j e d lba, es' !! j = Some e → holds e d lba = false).
    { intros j e d lba He. unfold holds. destruct (Hfr _ _ He) as [_ ->]. done. }
    split; [|split; [done|]].
    + split; cbn [fst snd entries entry_count block_size clock_hand]; try done.
      * intros j e He. destruct (Hfr _ _ He). split; [done|congruence].
      * intros i j e e' d lba _ He _ Hhe. by rewrite (Hh i) in Hhe.
    + intros d lba. unfold logical. cbn [fst snd entries].
      rewrite (proj2 (cached_None es' d lba)); [done|]. intros j e. apply Hh.
Qed.

(** ** A write past the end of the device *)

Lemma flush_entry_other s s' i j : mcsos_bcache_flush_entry i s = Some (s', inr tt) →
  0 ≤ i → Z.of_nat j ≠ i → entries s'.1 !! j = entries s.1 !! j.
Proof.
  intros H Hi Hj. unfold mcsos_bcache_flush_entry in H.
  unfold get_entry, mseq at 1 in H. rewrite arr_get_nat in H by done.
  destruct (entries s.1 !! Z.to_nat i) as [e|] eqn:He; [|done]. cbn [mbind option_bind] in H.
  destruct (negb (e_valid e) || negb (e_dirty e)); [by injection H as ->|].
  destruct s as [k c]. unfold mseq, on_driver in H. cbn [fst snd] in *.
  destruct (mcsos_blk_write (e_dev e) (e_lba e) 1 (Ref (e_data e)) c) as [[[c' st] [|b]]|]; [done| |done].
  cbn [mbind option_bind deref] in H. destruct (st =? MCSOS_BLK_OK); [|done].
  rewrite (set_entry_run (k, c') i _ e) in H by done. injection H as <-. cbn [put fst entries].
  apply list_lookup_insert_ne. lia.
Qed.

(** A dirty entry whose block is past the end of its device: writing it back
    fails, whatever the driver does. *)
Definition stuck s (i : nat) : Prop := ∃ e d, entries s.1 !! i = Some e ∧ e_valid e = true ∧
  e_dirty e = true ∧ e_dev e = Ref d ∧ d_block_count (d_info d) ≤ e_lba e ∧ d_ops d ≠ Null.

Lemma flush_entry_stuck s i : stuck s i →
  mcsos_bcache_flush_entry (Z.of_nat i) s = Some (s, inl MCSOS_BLK_ERANGE).
Proof.
  intros (e & d & He & Hv & Hdi & Hd & Hl & Ho). rewrite <-(Nat2Z.id i) in He.
  unfold mcsos_bcache_flush_entry. mstep (get_entry_run s (Z.of_nat i) e (Zle_0_nat i) He).
  rewrite Hv, Hdi. cbn [negb orb]. destruct s as [k c].
  unfold mseq, on_driver, mcsos_blk_write, mcsos_blk_validate_range. rewrite Hd.
  destruct (d_ops d); [done|]. cbn [is_null orb].
  rewrite (proj2 (Z.leb_le _ _) Hl). done.
Qed.

Lemma flush_loop_stuck n i s p : 0 ≤ i → i ≤ Z.of_nat p < i + Z.of_nat n → stuck s p →
  ∀ s', mfor n i mcsos_bcache_flush_entry s ≠ Some (s', inr tt).
Proof.
  revert i s. induction n as [|n IH]; intros i s Hi Hk Hs s' H; [lia|]. cbn [mfor] in H.
  destruct (decide (Z.of_nat p = i)) as [<-|Hne].
  - rewrite (mseq_inl _ _ _ _ _ (flush_entry_stuck _ _ Hs)) in H. done.
  - unfold mseq in H. destruct (mcsos_bcache_flush_entry i s) as [[s1 [rc|[]]]|] eqn:E; [done| |done].
    apply (IH (i + 1) s1 ltac:(lia) ltac:(lia)) in H; [done|].
    destruct Hs as (e & d & He & Hr). exists e, d. split; [|done].
    by rewrite (flush_entry_other _ _ _ _ E Hi Hne).
Qed.

Lemma write_past_end s d lba buf : cache_ok s → devs d → d_ops d ≠ Null →
  d_block_size (d_info d) = block_size s.1 → d_block_count (d_info d) ≤ lba →
  zlen buf = block_size s.1 → reliable →
  ∃ s' i, bcache_write d lba buf s = Some (s', inr tt) ∧ stuck s' i ∧
    entry_count s'.1 = zlen (entries s'.1).
Proof.
  intros H Hdev Hops Hbs Hlba Hbuf Hre. unfold bcache_write. rewrite mseq_mget.
  destruct (find_run s d lba H) as (hit & Eh & Hhit). rewrite (mseq_mub _ _ _ _ Eh).
  destruct hit as [i|].
  { destruct Hhit as (Hi & e & He & Hh).
    assert (e_valid e = true) as Hv by (unfold holds in Hh; by destruct (e_valid e)).
    destruct (eo_dev _ _ _ (co_entries _ H _ _ He) Hv) as (d0 & Hd0 & Hdev0 & _ & ? & _).
    apply (holds_Ref e d0 d) in Hh as (_ & -> & <-); [lia|done|done|done]. }
  unfold write_miss. destruct (select_victim_run s H) as (s1 & r1 & E1 & F1 & [_ St1] & Hr1).
  destruct (St1 Hre) as [i ->]. destruct (Hr1 i eq_refl) as (Hi & e & He & _).
  pose proof (fl_ok _ _ F1) as H1. pose proof (fl_size _ _ F1) as Hsz.
  set (e1 := Entry (e_data e) (e_capacity e) lba true false (Ref d)).
  rewrite (mseq_inr _ _ s (put (Z.to_nat i) e1 s1) i).
  2:{ mstep E1. mstep (get_entry_run s1 i e Hi He). by mstep (set_entry_run s1 i e1 e Hi He). }
  mstep (get_entry_run (put (Z.to_nat i) e1 s1) i e1 Hi (put_lookup _ _ _ _ He)).
  rewrite (mseq_mub _ _ _ (buf ++ drop (length buf) (e_data e1))).
  2:{ cbn [e1 e_data]. rewrite copy_exact; [done|done|]. destruct (co_entries _ H1 _ _ He). lia. }
  rewrite (set_entry_run _ i _ e1 Hi (put_lookup _ _ _ _ He)), put_put.
  eexists _, (Z.to_nat i). split; [done|]. split.
  - eexists _, d. split; [by eapply put_lookup|]. done.
  - cbn [put fst entries entry_count]. rewrite zlen_insert. apply co_count, H1.
Qed.

(** ** Properties *)

(** C14. The block cache over drivers that keep their contract, used on blocks
    inside the devices (0 <= lba < block_count; past the end the cache takes
    blocks that no flush can write, [mcsos_bcache_write_past_end]), with a
    device and a buffer of the cache's block size: after [mcsos_bcache_init]
    with 0 < count < 2^31 entries and a pool that is large enough, the blocks
    seen through the cache are those of the devices; [mcsos_bcache_read] returns
    the block last written, whatever entries were evicted in between;
    [mcsos_bcache_write] changes that block and no other;
    [mcsos_bcache_flush_all] changes none and, when it returns 0, leaves on the
    devices exactly the blocks seen through the cache. In such use a status
    other than 0 loses nothing, and none is returned when the drivers are
    reliable. *)
Theorem mcsos_bcache_coherent :
  (∀ es count pool bsize c, drv_ok c → 0 < count < 2147483648 → 0 < bsize →
     zlen es = count → count * bsize ≤ zlen pool →
     ∃ k, mcsos_bcache_init (Ref es) count (Ref pool) bsize = Some (inr k) ∧
       cache_ok (k, c) ∧ block_size k = bsize ∧
       ∀ d lba, logical (k, c) d lba = arr_get (contents d c) lba) ∧
  (∀ k c d lba buf, cache_ok (k, c) → devs d → d_block_size (d_info d) = block_size k →
     0 ≤ lba < d_block_count (d_info d) → zlen buf = block_size k →
     (∃ k' c' r, mcsos_bcache_read (Ref k) (Ref d) lba (Ref buf) c = Some (Ref k', c', r) ∧
        kept (k, c) (k', c') ∧ status_ok r ∧
        (∀ b, r = inr b → logical (k, c) d lba = Some b)) ∧
     (∃ k' c' r, mcsos_bcache_write (Ref k) (Ref d) lba (Ref buf) c = Some (Ref k', c', r) ∧
        status_ok r ∧
        (if r is inr _ then updated (k, c) (k', c') d lba buf else kept (k, c) (k', c')))) ∧
  (∀ k c, cache_ok (k, c) →
     ∃ k' c' r, mcsos_bcache_flush_all (Ref k) c = Some (Ref k', c', r) ∧
       kept (k, c) (k', c') ∧ status_ok r ∧
       (r = inr tt → ∀ d lba, devs d → arr_get (contents d c') lba = logical (k, c) d lba)).
Proof.
  split; [|split].
  - intros. by apply bcache_init_run.
  - intros k c d lba buf H Hdev Hbs Hlba Hbuf. unfold mcsos_bcache_read, mcsos_bcache_write, checked.
    rewrite Hbs, Z.eqb_refl. cbn [negb]. split.
    + destruct (bcache_read_run (k, c) d lba buf) as ([k' c'] & r & E & K & St & Hr); try done; [cbn; lia|].
      rewrite E. exists k', c', r. split; [done|]. split; [done|]. split; [done|].
      intros b Hb. destruct (Hr b Hb) as (x & Hx & Hl & ->). cbn [fst] in Hl. rewrite Hx. f_equal.
      rewrite drop_ge, app_nil_r; [done|]. unfold zlen in *. lia.
    + destruct (bcache_write_run (k, c) d lba buf) as ([k' c'] & r & E & St & Hr); try done.
      rewrite E. by exists k', c', r.
  - intros k c H. unfold mcsos_bcache_flush_all.
    destruct (flush_loop_run (Z.to_nat (entry_count k)) 0 (k, c) H) as ([k' c'] & r & E & F & St & Hr);
      [lia|pose proof (co_range _ H); cbn [fst] in *; lia|].
    rewrite E. exists k', c', r. split; [done|]. split; [by apply flushed_kept|]. split; [done|].
    intros -> d lba Hdev. rewrite <-(fl_same _ _ F) by done.
    apply (clean_logical (k', c')); [apply F|done|]. intros j e. apply Hr; [done|lia].
Qed.

(** The cache does not check the position on a write: a write at a position
    past the end of the device is accepted, and the entry it leaves can never be
    written back, so that [mcsos_bcache_flush_all] does not succeed any more
    while the entry is there. A read at the same position is refused. *)
Theorem mcsos_bcache_write_past_end k c d lba buf : cache_ok (k, c) → devs d → d_ops d ≠ Null →
  d_block_size (d_info d) = block_size k → d_block_count (d_info d) ≤ lba →
  zlen buf = block_size k → reliable →
  (∃ k' c', mcsos_bcache_write (Ref k) (Ref d) lba (Ref buf) c = Some (Ref k', c', inr tt) ∧
     ∀ ca c2, mcsos_bcache_flush_all (Ref k') c' ≠ Some (ca, c2, inr tt)) ∧
  (∀ b, mcsos_blk_read (Ref d) lba 1 (Ref b) c = Some (c, MCSOS_BLK_ERANGE, Ref b)).
Proof.
  intros H Hdev Hops Hbs Hlba Hbuf Hre. split.
  - destruct (write_past_end (k, c) d lba buf) as ([k' c'] & i & E & Hst & Hct); try done.
    exists k', c'. split.
    + unfold mcsos_bcache_write, checked. rewrite Hbs, Z.eqb_refl. cbn [negb]. by rewrite E.
    + intros ca c2 Hf. unfold mcsos_bcache_flush_all in Hf.
      destruct (mfor (Z.to_nat (entry_count k')) 0 mcsos_bcache_flush_entry (k', c')) as [[[k3 c3] r]|] eqn:Ef;
        [|done]. cbn [mbind option_bind] in Hf. injection Hf as <- <- ->.
      apply (flush_loop_stuck _ _ _ i) in Ef; [done|lia| |done].
      destruct Hst as (e & d' & He & _). apply lookup_lt_Some in He. unfold zlen in *. cbn [fst] in *. lia.
  - intros b. unfold mcsos_blk_read, mcsos_blk_validate_range. destruct (d_ops d); [done|].
    cbn [is_null orb]. by rewrite (proj2 (Z.leb_le _ _) Hlba).
Qed.
End Cache.

(** ** Disks in memory keep the contract *)

Section Ramdisks.
(** The disks in use: different devices have different addresses and data. *)
Variable disks : list (mcsos_blk_device rams).
Hypothesis disks_addr : ∀ d d', d ∈ disks → d' ∈ disks → d_addr d = d_addr d' → d = d'.
Hypothesis disks_ram : ∀ d d', d ∈ disks → d' ∈ disks →
  d_driver_data (d_info d) = d_driver_data (d_info d') → d = d'.
(** Each is as [mcsos_ramblk_init] leaves it. *)
Hypothesis disks_init : ∀ d, d ∈ disks → d_ops d = Ref g_ramblk_ops ∧ d_driver_data (d_info d) ≠ 0 ∧
  0 < d_block_size (d_info d) < 4294967296 ∧ 0 ≤ d_block_count (d_info d) ∧
  d_block_count (d_info d) * d_block_size (d_info d) < 18446744073709551616.

Implicit Types (d : mcsos_blk_device rams) (c : rams).

Definition disk_bytes d c : list Z :=
  match c !! d_driver_data (d_info d) with Some r => r_storage r | None => [] end.
Definition disk_contents d c : list (list Z) :=
  chunks (Z.to_nat (d_block_count (d_info d))) (Z.to_nat (d_block_size (d_info d))) (disk_bytes d c).
Definition rams_ok c : Prop := ∀ d, d ∈ disks →
  ∃ r, c !! d_driver_data (d_info d) = Some r ∧
    r_storage_size r = d_block_count (d_info d) * d_block_size (d_info d) ∧
    zlen (r_storage r) = r_storage_size r.

Lemma chunks_splice k n i x l : (i < k)%nat → length x = n → length l = (k * n)%nat →
  chunks k n (splice (i * n) x l) = <[i := x]> (chunks k n l).
Proof.
  intros Hi Hx Hl. assert (i * n + n ≤ k * n)%nat by nia. apply list_eq. intros j.
  destruct (decide (j < k)%nat) as [Hj|Hj].
  2:{ rewrite !lookup_ge_None_2; rewrite ?length_insert, ?length_chunks; (done || lia). }
  rewrite chunks_lookup by done. destruct (decide (i = j)) as [<-|Hij].
  - rewrite list_lookup_insert_eq by (by rewrite length_chunks). f_equal.
    rewrite <-Hx at 2. apply slice_splice_same. lia.
  - rewrite list_lookup_insert_ne, chunks_lookup by done. f_equal. apply slice_splice_other; [lia|]. nia.
Qed.

(** The byte range of a block is inside the storage, without overflow. *)
Lemma disk_range d c lba : d ∈ disks → rams_ok c → 0 ≤ lba < d_block_count (d_info d) →
  ∃ r, c !! d_driver_data (d_info d) = Some r ∧
    zlen (r_storage r) = r_storage_size r ∧
    r_storage_size r = d_block_count (d_info d) * d_block_size (d_info d) ∧
    0 ≤ lba * d_block_size (d_info d) ∧
    lba * d_block_size (d_info d) + d_block_size (d_info d) ≤ r_storage_size r ∧
    r_storage_size r < 18446744073709551616.
Proof.
  intros Hd Hc Hl. destruct (Hc d Hd) as (r & Er & Hs & Hz). destruct (disks_init d Hd) as (_ & _ & Hb & Hn & Ho).
  exists r. split; [done|]. split; [done|]. split; [done|]. rewrite Hs. nia.
Qed.

Lemma disk_rw d c lba buf w : d ∈ disks → rams_ok c → 0 ≤ lba < d_block_count (d_info d) →
  zlen buf = d_block_size (d_info d) →
  let off := (Z.to_nat lba * Z.to_nat (d_block_size (d_info d)))%nat in
  ∃ r, c !! d_driver_data (d_info d) = Some r ∧
  mcsos_ramblk_rw (d_info d) lba 1 (Ref buf) w c =
    if w : bool then
      Some (<[d_driver_data (d_info d) := Ramblk (splice off buf (r_storage r)) (r_storage_size r)]> c,
            0, Ref buf)
    else Some (c, 0, Ref (slice off (length buf) (r_storage r))).
Proof.
  intros Hd Hc Hl Hbuf off. destruct (disk_range d c lba Hd Hc Hl) as (r & Er & Hz & Hs & Hlo & Hhi & Hmax).
  exists r. split; [done|]. destruct (disks_init d Hd) as (_ & Hdd & Hb & _ & _).
  unfold mcsos_ramblk_rw. rewrite (proj2 (Z.eqb_neq _ _) Hdd), Er. cbn [mbind option_bind].
  rewrite !(u64_small (lba * _)) by words. rewrite Z.mul_1_l, !(u64_small (d_block_size _)) by words.
  rewrite (u64_small (r_storage_size r - _)) by words.
  rewrite (proj2 (Z.ltb_ge _ _)), (proj2 (Z.ltb_ge _ _)) by lia. cbn [orb].
  assert (Hoff : Z.to_nat (lba * d_block_size (d_info d)) = off) by (subst off; lia).
  unfold at_off, bytes_from, mcsos_memcpy_u8, zlen in *. rewrite !decide_True by lia. rewrite Hoff.
  assert (Hn : Z.to_nat (d_block_size (d_info d)) = length buf) by lia. rewrite Hn.
  destruct w; cbn [mbind option_bind].
  - rewrite mem_copy_ok by (rewrite ?length_drop; lia). cbn [mbind option_bind]. unfold splice.
    by rewrite (take_ge buf), drop_drop by lia.
  - rewrite mem_copy_ok by (rewrite ?length_drop; lia). cbn [mbind option_bind]. unfold slice.
    by rewrite (drop_ge buf), app_nil_r by lia.
Qed.

Lemma disk_validate d lba buf : d ∈ disks → 0 ≤ lba < d_block_count (d_info d) →
  mcsos_blk_validate_range (Ref d) lba 1 (Ref buf) = MCSOS_BLK_OK.
Proof.
  intros Hd Hl. destruct (disks_init d Hd) as (Ho & _ & Hb & Hn & Hm).
  unfold mcsos_blk_validate_range. rewrite Ho. cbn [is_null]. change (1 =? 0) with false. cbn [orb].
  rewrite (u64_small (_ - lba)) by (unfold is_u64; nia).
  rewrite (proj2 (Z.leb_gt _ _)), (proj2 (Z.ltb_ge _ _)) by lia. done.
Qed.

Lemma disk_bytes_at d c r : c !! d_driver_data (d_info d) = Some r → disk_bytes d c = r_storage r.
Proof. intros H. unfold disk_bytes. by rewrite H. Qed.

#[export] Instance ramblk_driver : BlockDriver (λ d, d ∈ disks) disk_contents rams_ok True.
Proof using disks_addr disks_init disks_ram.
  split.
  - exact disks_addr.
  - intros d Hd. destruct (disks_init d Hd) as (_ & _ & ? & ? & ?). unfold is_u64. nia.
  - intros d c Hd Hc. destruct (Hc d Hd) as (r & Er & Hs & Hz). destruct (disks_init d Hd) as (_ & _ & Hb & Hn & Ho).
    unfold disk_contents. rewrite (disk_bytes_at _ _ _ Er). split.
    + unfold zlen. rewrite length_chunks. lia.
    + eapply Forall_impl; [apply chunks_lengths; unfold zlen in *; nia|]. cbv beta. intros x Hx. unfold zlen. lia.
  - intros d lba buf c Hd Hc Hl Hbuf. destruct (disk_rw d c lba buf false Hd Hc Hl Hbuf) as (r & Er & E).
    destruct (disk_range d c lba Hd Hc Hl) as (r' & Er' & Hz & Hs & Hlo & Hhi & _).
    assert (r' = r) as -> by congruence. destruct (disks_init d Hd) as (Hops & _ & Hb & Hn & _).
    eexists c, 0, _. split; [|split; [done|split; [done|split; [|split; [intros _|done]]]]].
    + unfold mcsos_blk_read. rewrite disk_validate by done. change (negb (MCSOS_BLK_OK =? MCSOS_BLK_OK)) with false.
      unfold call_driver. cbv iota. cbn [deref mbind option_bind]. rewrite Hops. cbn. exact E.
    + unfold zlen in *. rewrite slice_length; nia.
    + unfold disk_contents. rewrite arr_get_nat, chunks_lookup, (disk_bytes_at _ _ _ Er) by lia.
      do 3 f_equal. unfold zlen in *. lia.
  - intros d lba buf c Hd Hc Hl Hbuf. destruct (disk_rw d c lba buf true Hd Hc Hl Hbuf) as (r & Er & E).
    destruct (disk_range d c lba Hd Hc Hl) as (r' & Er' & Hz & Hs & Hlo & Hhi & _).
    assert (r' = r) as -> by congruence. destruct (disks_init d Hd) as (Hops & _ & Hb & Hn & _).
    set (off := (Z.to_nat lba * Z.to_nat (d_block_size (d_info d)))%nat) in *.
    assert (Hlen : length (splice off buf (r_storage r)) = length (r_storage r)) by
      (apply length_splice; subst off; unfold zlen in *; nia).
    eexists _, 0. split; [|split; [|split; [|done]]].
    + unfold mcsos_blk_write. rewrite disk_validate by done. change (negb (MCSOS_BLK_OK =? MCSOS_BLK_OK)) with false.
      unfold call_driver. cbv iota. cbn [deref mbind option_bind]. rewrite Hops. cbn. exact E.
    + intros d' Hd'. destruct (decide (d_driver_data (d_info d') = d_driver_data (d_info d))) as [Ed|Ed].
      * apply disks_ram in Ed as ->; [|done|done]. rewrite lookup_insert_eq. eexists. split; [done|].
        cbn [r_storage r_storage_size]. unfold zlen in *. rewrite Hlen. done.
      * rewrite lookup_insert_ne by done. by apply Hc.
    + intros d' Hd'. unfold disk_contents, disk_bytes. case_decide as Ha.
      * destruct Ha as [Ha _]. apply disks_addr in Ha as ->; [|done|done]. rewrite lookup_insert_eq, Er.
        cbn [r_storage]. apply chunks_splice; unfold zlen in *; nia.
      * rewrite lookup_insert_ne; [done|]. intros Ed. apply Ha. split; [|done].
        symmetry in Ed. by apply disks_ram in Ed as ->.
Qed.
End Ramdisks.

(** ** Witnesses: a disk of two blocks and a cache of one entry *)

Definition demo_disk : mcsos_blk_device rams :=
  Device 100 (Info (replicate 16 0) 512 2 0 200) (Ref g_ramblk_ops).
Definition demo_c : rams := {[ 200 := Ramblk (replicate 1024 0) 1024 ]}.
Definition blank_entry : mcsos_bcache_entry rams := Entry [] 0 0 false false Null.
Definition demo_cache : mcsos_bcache rams :=
  Bcache [Entry (replicate 512 0) 512 0 false false Null] 1 512 0.

(** The disk is what [mcsos_ramblk_init] makes of a blank device. *)
Lemma demo_disk_init :
  mcsos_ramblk_init (Ref (Device 100 (Info (replicate 16 0) 0 0 0 0) Null)) 200 (Ref [0])
    (Ref (replicate 1024 0)) 1024 512 ∅ = Some (demo_c, Ref demo_disk, MCSOS_BLK_OK).
Proof. reflexivity. Qed.

#[export] Instance demo_driver :
  BlockDriver (λ d, d ∈ [demo_disk]) disk_contents (rams_ok [demo_disk]) True.
Proof.
  apply ramblk_driver.
  - by intros d d' ->%list_elem_of_singleton ->%list_elem_of_singleton.
  - by intros d d' ->%list_elem_of_singleton ->%list_elem_of_singleton.
  - intros d ->%list_elem_of_singleton. cbn. split; [done|]. split; [done|]. lia.
Qed.

Lemma demo_rams_ok : rams_ok [demo_disk] demo_c.
Proof. intros d ->%list_elem_of_singleton. by eexists. Qed.

Lemma demo_init_ok : mcsos_bcache_init (Ref [blank_entry]) 1 (Ref (replicate 512 0)) 512 =
  Some (inr demo_cache) ∧
  cache_ok (devs := λ d, d ∈ [demo_disk]) (contents := disk_contents) (drv_ok := rams_ok [demo_disk])
    (demo_cache, demo_c).
Proof.
  destruct (bcache_init_run (devs := λ d, d ∈ [demo_disk]) (contents := disk_contents)
    (drv_ok := rams_ok [demo_disk]) [blank_entry] 1 (replicate 512 0) 512 demo_c)
    as (k & E & H & _); [apply demo_rams_ok|lia|lia|done|done|].
  assert (mcsos_bcache_init (Ref [blank_entry]) 1 (Ref (replicate 512 0)) 512 = Some (inr demo_cache)) as E'
    by (vm_compute; reflexivity).
  split; [done|]. rewrite E' in E. by injection E as <-.
Qed.

Lemma mcsos_bcache_coherent_witness :
  ∃ ca c, mcsos_bcache_write (Ref demo_cache) (Ref demo_disk) 1 (Ref (replicate 512 7)) demo_c =
    Some (ca, c, inr tt).
Proof.
  destruct (proj1 (proj2 (mcsos_bcache_coherent (HD := demo_driver))) demo_cache demo_c demo_disk 1
    (replicate 512 7)) as [_ (k' & c' & r & E & [_ St] & _)].
  - apply demo_init_ok.
  - by apply list_elem_of_singleton.
  - done.
  - cbn. lia.
  - done.
  - destruct (St I) as [[] ->]. by exists (Ref k'), c'.
Defined.

Lemma mcsos_bcache_write_past_end_witness :
  ∃ ca c, mcsos_bcache_write (Ref demo_cache) (Ref demo_disk) 5 (Ref (replicate 512 7)) demo_c =
    Some (ca, c, inr tt).
Proof.
  destruct (mcsos_bcache_write_past_end (HD := demo_driver) demo_cache demo_c demo_disk 5
    (replicate 512 7)) as [(k' & c' & E & _) _].
  - apply demo_init_ok.
  - by apply list_elem_of_singleton.
  - done.
  - done.
  - cbn. lia.
  - done.
  - done.
  - by exists (Ref k'), c'.
Defined.
