(* ===== verification/BlockSys.v ===== *)
(** The block layer as a whole: programs that set up disks in memory, register
    them and move blocks, any number at a time and with any arguments. They
    behave like a list of registered devices and an array of bytes per disk. *)
From S2P Require Import Prelude Bytes Block.

(** ** The calls

    The static registry, the device objects by address and the
    [mcsos_ramblk_t] objects by address. A device pointer of 0 is [NULL]. *)
Record bworld := World {
  w_reg : blk_registry;
  w_devs : gmap Z (mcsos_blk_device rams);
  w_rams : rams;
}.

Inductive bcall :=
| BReset
| BRegister (dev : Z)
| BGet (index : Z)
| BCount
| BInit (dev ram : Z) (name storage : list Z) (size bs : Z)
| BRead (dev lba count : Z) (buf : ptr (list Z))
| BWrite (dev lba count : Z) (buf : ptr (list Z))
| BFlush (dev : Z).

(** What is returned, and the caller's buffer after the call. *)
Inductive bres := BNum (r : Z) | BBuf (r : Z) (buf : ptr (list Z)).

Definition dev_at (w : bworld) (a : Z) : option (ptr (mcsos_blk_device rams)) :=
  if a =? 0 then Some Null else d ← w_devs w !! a; Some (Ref d).

Definition set_rams (c : rams) (w : bworld) : bworld := World (w_reg w) (w_devs w) c.

Definition do_bcall (c : bcall) (w : bworld) : option (bworld * bres) :=
  match c with
  | BReset => Some (World (mcsos_blk_registry_reset (w_reg w)) (w_devs w) (w_rams w), BNum 0)
  | BRegister dev =>
      '(r, st) ← mcsos_blk_register dev (w_reg w); Some (World r (w_devs w) (w_rams w), BNum st)
  | BGet i => d ← mcsos_blk_get i (w_reg w); Some (w, BNum d)
  | BCount => Some (w, BNum (mcsos_blk_count (w_reg w)))
  | BInit a ram name storage size bs =>
      dev ← dev_at w a;
      '(c, dev, st) ← mcsos_ramblk_init dev ram (Ref name) (Ref storage) size bs (w_rams w);
      Some (World (w_reg w) (match dev with Ref d => <[a := d]> (w_devs w) | Null => w_devs w end) c,
            BNum st)
  | BRead a lba count buf =>
      dev ← dev_at w a;
      '(c, st, buf) ← mcsos_blk_read dev lba count buf (w_rams w); Some (set_rams c w, BBuf st buf)
  | BWrite a lba count buf =>
      dev ← dev_at w a;
      '(c, st, buf) ← mcsos_blk_write dev lba count buf (w_rams w); Some (set_rams c w, BBuf st buf)
  | BFlush a =>
      dev ← dev_at w a;
      '(c, st) ← mcsos_blk_flush dev (w_rams w); Some (set_rams c w, BNum st)
  end.

Fixpoint do_bcalls (cs : list bcall) (w : bworld) : option (bworld * list bres) :=
  match cs with
  | [] => Some (w, [])
  | c :: cs' => '(w, r) ← do_bcall c w; '(w, rs) ← do_bcalls cs' w; Some (w, r :: rs)
  end.

(** ** The specification

    The devices registered, in order, and the device objects: one that was
    initialised has the address of its [mcsos_ramblk_t], a block size and the
    bytes. Nothing is promised ([None]) for objects that are not there, for
    buffers and storage shorter than their stated sizes, and for two disks on
    one [mcsos_ramblk_t]. *)
Record sdisk := SDisk { sd_ram : Z; sd_bs : Z; sd_bytes : list Z }.
Record bspec := BSpec { sp_reg : list Z; sp_disks : gmap Z (option sdisk) }.

Definition sd_count (d : sdisk) : Z := zlen (sd_bytes d) / sd_bs d.

(** The status of a transfer of [count] blocks from [lba] on. *)
Definition transfer_status (o : option sdisk) (lba count : Z) (buf : ptr (list Z)) : Z :=
  match o with
  | None => MCSOS_BLK_EINVAL
  | Some d =>
      if is_null buf || (count =? 0) then MCSOS_BLK_EINVAL
      else if sd_count d <? lba + count then MCSOS_BLK_ERANGE else MCSOS_BLK_OK
  end.

Definition set_disk (a : Z) (d : sdisk) (s : bspec) : bspec :=
  BSpec (sp_reg s) (<[a := Some d]> (sp_disks s)).

Definition others_apart (a ram : Z) (s : bspec) : Prop :=
  map_Forall (λ b o, b = a ∨ match o with Some d => sd_ram d ≠ ram | None => True end) (sp_disks s).

#[export] Instance others_apart_dec a ram s : Decision (others_apart a ram s).
Proof. unfold others_apart. apply map_Forall_dec. intros b [d|]; apply _. Defined.

Definition init_args_ok (size bs : Z) : bool :=
  (512 <=? bs) && bool_decide (bs = 2 ^ Z.log2 bs) && (bs <=? size) && (size mod bs =? 0).

Definition spec_init (a ram : Z) (name storage : list Z) (size bs : Z) (s : bspec) : option (bspec * bres) :=
  if a =? 0 then Some (s, BNum MCSOS_BLK_EINVAL) else
  _ ← sp_disks s !! a;
  if decide (is_u64 size ∧ is_u32 bs) then
    if (ram =? 0) || negb (init_args_ok size bs) then Some (s, BNum MCSOS_BLK_EINVAL)
    else if decide (zlen storage = size ∧ (0 ∈ name ∨ (15 ≤ length name)%nat) ∧ others_apart a ram s)
      then Some (set_disk a (SDisk ram bs storage) s, BNum MCSOS_BLK_OK) else None
  else None.

(** A transfer: [k] says what a buffer of enough bytes and the disk become. *)
Definition spec_transfer (a lba count : Z) (buf : ptr (list Z)) (s : bspec)
    (k : sdisk → list Z → nat → nat → bspec * bres) : option (bspec * bres) :=
  if decide (is_u64 lba ∧ is_u32 count) then
    if a =? 0 then Some (s, BBuf MCSOS_BLK_EINVAL buf) else
    o ← sp_disks s !! a;
    match o, buf with
    | Some d, Ref b =>
        if negb (transfer_status o lba count buf =? MCSOS_BLK_OK)
        then Some (s, BBuf (transfer_status o lba count buf) buf)
        else if decide (count * sd_bs d ≤ zlen b) then
          Some (k d b (Z.to_nat (lba * sd_bs d)) (Z.to_nat (count * sd_bs d)))
        else None
    | _, _ => Some (s, BBuf MCSOS_BLK_EINVAL buf)
    end
  else None.

Definition bspec_step (c : bcall) (s : bspec) : option (bspec * bres) :=
  match c with
  | BReset => Some (BSpec [] (sp_disks s), BNum 0)
  | BRegister dev =>
      Some (if decide (length (sp_reg s) < 8)%nat
            then (BSpec (sp_reg s ++ [dev]) (sp_disks s), BNum MCSOS_BLK_OK)
            else (s, BNum MCSOS_BLK_EFULL))
  | BGet i => if decide (0 ≤ i) then Some (s, BNum (default 0 (sp_reg s !! Z.to_nat i))) else None
  | BCount => Some (s, BNum (zlen (sp_reg s)))
  | BInit a ram name storage size bs => spec_init a ram name storage size bs s
  | BRead a lba count buf =>
      spec_transfer a lba count buf s (λ d b off n,
        (s, BBuf MCSOS_BLK_OK (Ref (slice off n (sd_bytes d) ++ drop n b))))
  | BWrite a lba count buf =>
      spec_transfer a lba count buf s (λ d b off n,
        (set_disk a (SDisk (sd_ram d) (sd_bs d) (splice off (take n b) (sd_bytes d))) s,
         BBuf MCSOS_BLK_OK (Ref b)))
  | BFlush a =>
      if a =? 0 then Some (s, BNum MCSOS_BLK_EINVAL) else
      o ← sp_disks s !! a;
      Some (s, BNum (match o with Some _ => MCSOS_BLK_OK | None => MCSOS_BLK_EINVAL end))
  end.

Fixpoint bspec_steps (cs : list bcall) (s : bspec) : option (bspec * list bres) :=
  match cs with
  | [] => Some (s, [])
  | c :: cs' => '(s, r) ← bspec_step c s; '(s, rs) ← bspec_steps cs' s; Some (s, r :: rs)
  end.

(** ** The relation *)

Record reg_rep (r : blk_registry) (l : list Z) : Prop := {
  rr_slots : length (g_blk_devices r) = 8%nat;
  rr_count : g_blk_count r = zlen l;
  rr_list : take (length l) (g_blk_devices r) = l;
  rr_bound : (length l ≤ 8)%nat;
}.

(** A disk that was set up, and its storage. *)
Record disk_rep (c : rams) (d : sdisk) (v : mcsos_blk_device rams) : Prop := {
  dr_ops : d_ops v = Ref g_ramblk_ops;
  dr_ram : d_driver_data (d_info v) = sd_ram d ∧ sd_ram d ≠ 0;
  dr_bs : d_block_size (d_info v) = sd_bs d ∧ 0 < sd_bs d < 4294967296;
  dr_count : d_block_count (d_info v) = sd_count d;
  dr_size : is_u64 (zlen (sd_bytes d)) ∧ zlen (sd_bytes d) = sd_count d * sd_bs d;
  dr_data : c !! sd_ram d = Some (Ramblk (sd_bytes d) (zlen (sd_bytes d)));
}.

Definition obj_rep (c : rams) (o : option sdisk) (v : mcsos_blk_device rams) : Prop :=
  length (d_name (d_info v)) = 16%nat ∧
  match o with None => d_ops v = Null | Some d => disk_rep c d v end.

Record block_rep (w : bworld) (s : bspec) : Prop := {
  br_reg : reg_rep (w_reg w) (sp_reg s);
  br_devs : ∀ a o, sp_disks s !! a = Some o → ∃ v, w_devs w !! a = Some v ∧ obj_rep (w_rams w) o v;
  br_apart : ∀ a b d e, sp_disks s !! a = Some (Some d) → sp_disks s !! b = Some (Some e) →
    sd_ram d = sd_ram e → a = b;
}.

(** ** The registry *)

Lemma register_run r l dev : reg_rep r l →
  ∃ r', mcsos_blk_register dev r =
      Some (r', if decide (length l < 8)%nat then MCSOS_BLK_OK else MCSOS_BLK_EFULL) ∧
    reg_rep r' (if decide (length l < 8)%nat then l ++ [dev] else l).
Proof.
  intros [Hs Hc Hl Hb]. unfold mcsos_blk_register, MCSOS_BLK_MAX_DEVICES. rewrite Hc. unfold zlen.
  case_decide as Hlt.
  - rewrite (proj2 (Z.leb_gt _ _)) by lia. rewrite arr_set_ok by (unfold zlen; lia). cbn [mbind option_bind].
    rewrite Nat2Z.id, u32_small by words. eexists. split; [done|].
    split; cbn [g_blk_devices g_blk_count].
    + by rewrite length_insert.
    + unfold zlen. rewrite length_app. cbn [length]. lia.
    + rewrite length_app. cbn [length]. rewrite Nat.add_1_r, (take_S_r _ _ dev) by (apply list_lookup_insert_eq; lia).
      by rewrite take_insert_ge, Hl by lia.
    + rewrite length_app. cbn [length]. lia.
  - rewrite (proj2 (Z.leb_le _ _)) by lia. eexists. split; [done|by split].
Qed.

Lemma get_run r l i : reg_rep r l → 0 ≤ i → mcsos_blk_get i r = Some (default 0 (l !! Z.to_nat i)).
Proof.
  intros [Hs Hc Hl Hb] Hi. unfold mcsos_blk_get. rewrite Hc. unfold zlen.
  destruct (Z.leb_spec (Z.of_nat (length l)) i) as [Hle|Hlt].
  - by rewrite lookup_ge_None_2 by lia.
  - rewrite arr_get_nat by done. destruct (lookup_lt_is_Some_2 l (Z.to_nat i)) as [x Hx]; [lia|].
    rewrite Hx. rewrite <-Hl, lookup_take_lt in Hx by lia. by rewrite Hx.
Qed.

(** ** Transfers *)

Section disk.
Context (c : rams) (d : sdisk) (v : mcsos_blk_device rams) (Hd : disk_rep c d v).

Lemma validate_run lba count buf : 0 ≤ lba → 0 ≤ count →
  mcsos_blk_validate_range (Ref v) lba count buf = transfer_status (Some d) lba count buf.
Proof using Hd.
  intros Hl Hn. unfold mcsos_blk_validate_range, transfer_status. rewrite (dr_ops _ _ _ Hd), (dr_count _ _ _ Hd).
  cbn [is_null]. rewrite orb_false_r. destruct (is_null buf || (count =? 0)) eqn:E; [done|]. bool_prop.
  destruct (dr_size _ _ _ Hd) as [Hu Hz]. pose proof (dr_bs _ _ _ Hd) as [_ Hb].
  assert (0 ≤ sd_count d < 18446744073709551616) as Hc.
  { unfold sd_count. pose proof (zlen_nonneg (sd_bytes d)). unfold is_u64 in Hu.
    split; [apply Z.div_pos; lia|]. apply Z.div_lt_upper_bound; nia. }
  destruct (Z.leb_spec (sd_count d) lba); cbn [orb].
  - by rewrite (proj2 (Z.ltb_lt _ _)) by lia.
  - rewrite u64_small by words. destruct (Z.ltb_spec (sd_count d - lba) count), (Z.ltb_spec (sd_count d) (lba + count)); (done || lia).
Qed.

Lemma ramblk_rw_run lba count b is_write : 0 ≤ lba → 0 < count → lba + count ≤ sd_count d →
  count * sd_bs d ≤ zlen b →
  let off := Z.to_nat (lba * sd_bs d) in let n := Z.to_nat (count * sd_bs d) in
  mcsos_ramblk_rw (d_info v) lba count (Ref b) is_write c =
    Some (if is_write : bool then
            (<[sd_ram d := Ramblk (splice off (take n b) (sd_bytes d)) (zlen (sd_bytes d))]> c, 0, Ref b)
          else (c, 0, Ref (slice off n (sd_bytes d) ++ drop n b))).
Proof using Hd.
  intros Hl Hn Hr Hb off n. destruct (dr_ram _ _ _ Hd) as [Er Hr0]. destruct (dr_bs _ _ _ Hd) as [Eb Hbs].
  destruct (dr_size _ _ _ Hd) as [Hu Hz]. unfold mcsos_ramblk_rw. rewrite Er, Eb, (proj2 (Z.eqb_neq _ _)) by done.
  rewrite (dr_data _ _ _ Hd). cbn [mbind option_bind r_storage_size r_storage].
  assert (0 ≤ lba * sd_bs d ∧ 0 < count * sd_bs d ∧ lba * sd_bs d + count * sd_bs d ≤ zlen (sd_bytes d)) as (H1 & H2 & H3).
  { rewrite Hz. nia. }
  rewrite !u64_small by words. rewrite (proj2 (Z.ltb_ge _ _)), (proj2 (Z.ltb_ge _ _)) by lia. cbn [orb].
  unfold at_off, bytes_from, mcsos_memcpy_u8. rewrite !decide_True by lia. fold off n.
  assert (n ≤ length b ∧ off + n ≤ length (sd_bytes d))%nat as [Hn1 Hn2] by (unfold off, n, zlen in *; lia).
  destruct is_write; cbn [mbind option_bind].
  - rewrite mem_copy_ok by (rewrite ?length_drop; lia). cbn [mbind option_bind]. unfold splice.
    rewrite length_take, Nat.min_l by lia. by rewrite drop_drop.
  - rewrite mem_copy_ok by (rewrite ?length_drop; lia). done.
Qed.
End disk.

(** The storage of one disk changes, and no other. *)
Lemma disk_rep_other c d v a x : disk_rep c d v → sd_ram d ≠ a → disk_rep (<[a := x]> c) d v.
Proof. intros [] ?. split; try done. by rewrite lookup_insert_ne. Qed.

Lemma block_rep_write w s a v d bytes : block_rep w s → sp_disks s !! a = Some (Some d) →
  w_devs w !! a = Some v → length bytes = length (sd_bytes d) →
  block_rep (set_rams (<[sd_ram d := Ramblk bytes (zlen (sd_bytes d))]> (w_rams w)) w)
    (set_disk a (SDisk (sd_ram d) (sd_bs d) bytes) s).
Proof.
  intros [Hreg Hdev Hap] Ha Hv Hlen. assert (Hz : zlen bytes = zlen (sd_bytes d)) by (unfold zlen; lia).
  split; cbn [w_reg w_devs w_rams sp_reg sp_disks set_disk set_rams]; [done| |].
  - intros b o Hb. destruct (decide (b = a)) as [->|Hne].
    + rewrite lookup_insert_eq in Hb. injection Hb as <-. exists v. split; [done|].
      destruct (Hdev a _ Ha) as (v' & Hv' & Hnm & Hd). assert (v' = v) as -> by congruence. split; [done|].
      destruct Hd as [? ? ? Hcnt [? ?] ?]. unfold sd_count in *.
      split; cbn [sd_ram sd_bs sd_bytes]; unfold sd_count; cbn [sd_bs sd_bytes]; rewrite ?Hz; try done.
      by rewrite lookup_insert_eq.
    + rewrite lookup_insert_ne in Hb by done. destruct (Hdev b o Hb) as (v' & Hv' & Hnm & Hd). exists v'.
      split; [done|]. split; [done|]. destruct o as [e|]; [|done]. apply disk_rep_other; [done|].
      intros He. by apply Hne, (Hap b a e d).
  - intros b b' e e' Hb Hb' He.
    assert (Hin : ∀ b e, <[a := Some (SDisk (sd_ram d) (sd_bs d) bytes)]> (sp_disks s) !! b = Some (Some e) →
      ∃ f, sp_disks s !! b = Some (Some f) ∧ sd_ram f = sd_ram e).
    { intros x f Hx. destruct (decide (x = a)) as [->|].
      - rewrite lookup_insert_eq in Hx. injection Hx as <-. eauto.
      - rewrite lookup_insert_ne in Hx by done. eauto. }
    destruct (Hin _ _ Hb) as (f & Hf & Ef). destruct (Hin _ _ Hb') as (f' & Hf' & Ef').
    apply (Hap b b' f f'); congruence.
Qed.

Lemma set_rams_same w : set_rams (w_rams w) w = w.
Proof. by destruct w. Qed.

Definition transfer (is_write : bool) := if is_write then mcsos_blk_write (C := rams) else mcsos_blk_read (C := rams).

(** A transfer is refused, or moves the bytes it names. *)
Lemma transfer_run is_write w s a lba count buf k s' r : block_rep w s →
  spec_transfer a lba count buf s k = Some (s', r) →
  ∃ dev, dev_at w a = Some dev ∧
    ((s' = s ∧ ∃ st, r = BBuf st buf ∧ transfer is_write dev lba count buf (w_rams w) = Some (w_rams w, st, buf)) ∨
     (∃ d v b, let off := Z.to_nat (lba * sd_bs d) in let n := Z.to_nat (count * sd_bs d) in
        buf = Ref b ∧ sp_disks s !! a = Some (Some d) ∧ w_devs w !! a = Some v ∧
        (off + n ≤ length (sd_bytes d))%nat ∧ (n ≤ length b)%nat ∧ k d b off n = (s', r) ∧
        transfer is_write dev lba count buf (w_rams w) =
          Some (if is_write then
            (<[sd_ram d := Ramblk (splice off (take n b) (sd_bytes d)) (zlen (sd_bytes d))]> (w_rams w), 0, Ref b)
          else (w_rams w, 0, Ref (slice off n (sd_bytes d) ++ drop n b))))).
Proof.
  intros H. unfold spec_transfer, dev_at. case_decide as Hargs; [|done]. destruct Hargs as [Hl Hn].
  destruct (a =? 0).
  { intros [= <- <-]. exists Null. split; [done|]. left. split; [done|]. exists MCSOS_BLK_EINVAL. by destruct is_write. }
  destruct (sp_disks s !! a) as [o|] eqn:Ho; [|done]. cbn [mbind option_bind].
  destruct (br_devs _ _ H a o Ho) as (v & Hv & _ & Hrep). rewrite Hv. cbn [mbind option_bind].
  destruct (transfer_status o lba count buf =? MCSOS_BLK_OK) eqn:Est.
  2:{ intros Hs. exists (Ref v). split; [done|]. left.
      assert (mcsos_blk_validate_range (Ref v) lba count buf = transfer_status o lba count buf) as Hval.
      { destruct o as [d|]; [eapply validate_run; [done|words..]|]. unfold mcsos_blk_validate_range.
        rewrite Hrep. cbn [is_null]. by rewrite orb_true_r. }
      assert (s' = s ∧ r = BBuf (transfer_status o lba count buf) buf) as [-> ->].
      { destruct o, buf; cbn [negb] in Hs; injection Hs as <- <-; done. }
      split; [done|]. eexists. split; [done|].
      destruct is_write; cbn [transfer]; unfold mcsos_blk_write, mcsos_blk_read; by rewrite Hval, Est. }
  destruct o as [d|]; [|done]. destruct buf as [|b]; [done|]. cbn [negb]. case_decide as Hb; [|done].
  intros [= Hk]. exists (Ref v). split; [done|]. right. exists d, v, b.
  pose proof (validate_run _ _ _ Hrep lba count (Ref b) ltac:(words) ltac:(words)) as Hval.
  apply Z.eqb_eq in Est. unfold transfer_status in Est. cbn [is_null orb] in Est.
  destruct (Z.eqb_spec count 0); [done|]. destruct (Z.ltb_spec (sd_count d) (lba + count)) as [|Hr]; [done|].
  destruct (dr_size _ _ _ Hrep) as [_ Hz]. destruct (dr_bs _ _ _ Hrep) as [_ Hbs].
  assert (lba * sd_bs d + count * sd_bs d ≤ zlen (sd_bytes d)) by (rewrite Hz; words || nia).
  split_and!; try done.
  - unfold zlen in *. words.
  - unfold zlen in *. lia.
  - pose proof (ramblk_rw_run _ _ _ Hrep lba count b is_write) as Hrw.
    assert (transfer is_write (Ref v) lba count (Ref b) (w_rams w) =
      mcsos_ramblk_rw (d_info v) lba count (Ref b) is_write (w_rams w)) as ->.
    { destruct is_write; cbn [transfer]; unfold mcsos_blk_write, mcsos_blk_read; rewrite Hval;
        unfold transfer_status, call_driver; cbn [is_null orb deref mbind option_bind];
        rewrite (proj2 (Z.eqb_neq count 0)), (proj2 (Z.ltb_ge _ _)), (dr_ops _ _ _ Hrep) by done; done. }
    apply Hrw; words.
Qed.

Lemma read_step w s a lba count buf s' r : block_rep w s → bspec_step (BRead a lba count buf) s = Some (s', r) →
  ∃ w', do_bcall (BRead a lba count buf) w = Some (w', r) ∧ block_rep w' s'.
Proof.
  intros H Hs. cbn [bspec_step] in Hs. cbn [do_bcall].
  destruct (transfer_run false _ _ _ _ _ _ _ _ _ H Hs)
    as (dev & -> & [(-> & st & -> & E)|(d & v & b & -> & _ & _ & _ & _ & Hk & E)]);
    cbn [transfer] in E; cbn [mbind option_bind]; rewrite E; cbn [mbind option_bind]; rewrite set_rams_same.
  - eauto.
  - injection Hk as <- <-. eauto.
Qed.

Lemma write_step w s a lba count buf s' r : block_rep w s → bspec_step (BWrite a lba count buf) s = Some (s', r) →
  ∃ w', do_bcall (BWrite a lba count buf) w = Some (w', r) ∧ block_rep w' s'.
Proof.
  intros H Hs. cbn [bspec_step] in Hs. cbn [do_bcall].
  destruct (transfer_run true _ _ _ _ _ _ _ _ _ H Hs)
    as (dev & -> & [(-> & st & -> & E)|(d & v & b & -> & Hd & Hv & Hr & Hb & Hk & E)]);
    cbn [transfer] in E; cbn [mbind option_bind]; rewrite E; cbn [mbind option_bind].
  - rewrite set_rams_same. eauto.
  - injection Hk as <- <-. eexists. split; [done|]. eapply block_rep_write; [done..|].
    apply length_splice. rewrite length_take, Nat.min_l by lia. done.
Qed.

Lemma flush_step w s a s' r : block_rep w s → bspec_step (BFlush a) s = Some (s', r) →
  ∃ w', do_bcall (BFlush a) w = Some (w', r) ∧ block_rep w' s'.
Proof.
  intros H. cbn [bspec_step do_bcall]. unfold dev_at. destruct (a =? 0).
  { intros [= <- <-]. cbn [mbind option_bind mcsos_blk_flush]. rewrite set_rams_same. eauto. }
  destruct (sp_disks s !! a) as [o|] eqn:Ho; [|done]. cbn [mbind option_bind]. intros [= <- <-].
  destruct (br_devs _ _ H a o Ho) as (v & -> & _ & Hrep). cbn [mbind option_bind]. unfold mcsos_blk_flush.
  destruct o as [d|]; [rewrite (dr_ops _ _ _ Hrep)|rewrite Hrep]; cbn [mbind option_bind]; unfold call_driver;
    cbn [is_null g_ramblk_ops op_flush deref mbind option_bind];
    [rewrite (dr_ops _ _ _ Hrep)|]; cbn; rewrite set_rams_same; eauto.
Qed.

(** ** Setting up a disk *)

Lemma copy_name_loop_ok n i dst src : 0 ≤ i → i + Z.of_nat n ≤ zlen dst →
  (∃ j, i ≤ Z.of_nat j ∧ src !! j = Some 0) ∨ i + Z.of_nat n ≤ zlen src →
  ∃ dst', copy_name_loop n i dst src = Some dst' ∧ length dst' = length dst.
Proof.
  revert i dst. induction n as [|n IH]; intros i dst Hi Hd Hs; cbn [copy_name_loop]; [eauto|].
  assert (i < zlen src) as Hlt.
  { destruct Hs as [(j & Hj & Hx)|]; [|lia]. apply lookup_lt_Some in Hx. unfold zlen. lia. }
  destruct (arr_get_is_Some src i) as [x Hx]; [lia|]. rewrite Hx. cbn [mbind option_bind].
  destruct (Z.eqb_spec x 0) as [->|Hne]; [eauto|]. rewrite arr_set_ok by lia. cbn [mbind option_bind].
  destruct (IH (i + 1) (<[Z.to_nat i := x]> dst)) as (d & -> & Hl); [lia|rewrite zlen_insert; lia| |].
  - destruct Hs as [(j & Hj & H0)|]; [left|right; lia]. exists j. split; [|done].
    apply arr_get_Some in Hx as [_ Hx]. destruct (decide (Z.of_nat j = i)) as [<-|]; [|lia].
    rewrite Nat2Z.id in Hx. congruence.
  - exists d. split; [done|]. by rewrite Hl, length_insert.
Qed.

Lemma power_of_two_check bs : 0 < bs < 4294967296 →
  mcsos_is_power_of_two_u32_local bs = bool_decide (bs = 2 ^ Z.log2 bs).
Proof.
  intros Hb. unfold mcsos_is_power_of_two_u32_local. rewrite u32_small by words.
  apply Bool.eq_true_iff_eq. rewrite andb_true_iff, negb_true_iff, Z.eqb_neq, Z.eqb_eq, bool_decide_eq_true.
  rewrite <-power_of_two_land by lia. split.
  - intros (k & Hk & ->). by rewrite Z.log2_pow2.
  - intros ->. exists (Z.log2 bs). split; [apply Z.log2_nonneg|done].
Qed.

Lemma init_args_check size bs : is_u64 size → is_u32 bs →
  (bs <? MCSOS_BLK_DEFAULT_SECTOR_SIZE) || negb (mcsos_is_power_of_two_u32_local bs) ||
  ((size <? bs) || negb (size mod bs =? 0)) = negb (init_args_ok size bs).
Proof.
  intros Hs Hb. unfold init_args_ok, MCSOS_BLK_DEFAULT_SECTOR_SIZE.
  destruct (Z.leb_spec 512 bs) as [H|H]; [|by rewrite (proj2 (Z.ltb_lt _ _)) by lia].
  rewrite (proj2 (Z.ltb_ge _ _)), power_of_two_check by words. cbn [orb andb].
  destruct (bool_decide _); cbn [negb orb andb]; [|done]. rewrite Z.ltb_antisym.
  destruct (bs <=? size); [|done]. by cbn [negb orb andb].
Qed.

Lemma init_refused v ram name storage size bs c : is_u64 size → is_u32 bs →
  (ram =? 0) || negb (init_args_ok size bs) = true →
  mcsos_ramblk_init (Ref v) ram (Ref name) (Ref storage) size bs c = Some (c, Ref v, MCSOS_BLK_EINVAL).
Proof.
  intros Hs Hb Hr. unfold mcsos_ramblk_init. destruct (ram =? 0); [done|]. cbn [orb] in Hr.
  rewrite <-init_args_check in Hr by done.
  destruct ((bs <? _) || negb (mcsos_is_power_of_two_u32_local bs)); [done|]. cbn [orb] in Hr. by rewrite Hr.
Qed.

Lemma init_accepted v ram name storage bs c : is_u64 (zlen storage) → is_u32 bs →
  (ram =? 0) || negb (init_args_ok (zlen storage) bs) = false →
  0 ∈ name ∨ (15 ≤ length name)%nat → length (d_name (d_info v)) = 16%nat →
  ∃ v', mcsos_ramblk_init (Ref v) ram (Ref name) (Ref storage) (zlen storage) bs c =
      Some (<[ram := Ramblk storage (zlen storage)]> c, Ref v', MCSOS_BLK_OK) ∧
    obj_rep (<[ram := Ramblk storage (zlen storage)]> c) (Some (SDisk ram bs storage)) v'.
Proof.
  intros Hs Hb Hr Hn Hv. apply orb_false_iff in Hr as [Hr0 Hok]. unfold mcsos_ramblk_init. rewrite Hr0.
  pose proof Hok as Hok'. rewrite <-init_args_check in Hok' by done. apply orb_false_iff in Hok' as [-> ->].
  destruct (copy_name_loop_ok 15 0 (d_name (d_info v)) name) as (dn & En & Hdn); [lia|unfold zlen; lia| |].
  { destruct Hn as [[j Hj]%list_elem_of_lookup|]; [left|right; unfold zlen; lia]. exists j. split; [lia|done]. }
  unfold mcsos_blk_copy_name_for_driver. change (Z.to_nat (MCSOS_BLK_NAME_MAX - 1)) with 15%nat.
  rewrite En. cbn [mbind option_bind]. eexists. split; [done|]. apply negb_false_iff in Hok.
  unfold init_args_ok in Hok. apply andb_true_iff in Hok as [Hok Hmod]. apply andb_true_iff in Hok as [Hok Hle].
  apply andb_true_iff in Hok as [H512 _]. apply Z.eqb_eq in Hmod. apply Z.leb_le in H512, Hle. apply Z.eqb_neq in Hr0.
  split; [cbn; lia|]. split; cbn [d_ops d_info d_driver_data d_block_size d_block_count sd_ram sd_bs sd_bytes];
    unfold sd_count; cbn [sd_bs sd_bytes]; try done.
  - split; [done|words].
  - split; [done|]. pose proof (Z.div_mod (zlen storage) bs). lia.
  - apply lookup_insert_eq.
Qed.

Lemma init_step w s a ram name storage size bs s' r : block_rep w s →
  bspec_step (BInit a ram name storage size bs) s = Some (s', r) →
  ∃ w', do_bcall (BInit a ram name storage size bs) w = Some (w', r) ∧ block_rep w' s'.
Proof.
  intros H. cbn [bspec_step do_bcall]. unfold spec_init, dev_at. destruct (a =? 0).
  { intros [= <- <-]. cbn. exists w. split; [by destruct w|done]. }
  destruct (sp_disks s !! a) as [o|] eqn:Ho; [|done]. cbn [mbind option_bind].
  destruct (br_devs _ _ H a o Ho) as (v & Hv & Hnm & Hrep). rewrite Hv. cbn [mbind option_bind].
  case_decide as Hargs; [|done]. destruct Hargs as [Hs Hb].
  destruct ((ram =? 0) || negb (init_args_ok size bs)) eqn:E.
  { intros [= <- <-]. rewrite init_refused by done. cbn [mbind option_bind]. rewrite insert_id by done.
    exists w. split; [by destruct w|done]. }
  case_decide as Hok; [|done]. destruct Hok as (<- & Hn & Hap). intros [= <- <-].
  destruct (init_accepted v ram name storage bs (w_rams w) Hs Hb E Hn Hnm) as (v' & -> & Hv').
  cbn [mbind option_bind]. eexists. split; [done|]. destruct H as [Hreg Hdev Hap'].
  assert (Hoth : ∀ b d, b ≠ a → sp_disks s !! b = Some (Some d) → sd_ram d ≠ ram).
  { intros b d Hne Hbd. destruct (Hap b _ Hbd) as [?|]; [done|done]. }
  split; cbn [w_reg w_devs w_rams sp_reg sp_disks set_disk]; [done| |].
  - intros b p Hp. destruct (decide (b = a)) as [->|Hne].
    + rewrite lookup_insert_eq in Hp. injection Hp as <-. exists v'. by rewrite lookup_insert_eq.
    + rewrite lookup_insert_ne in Hp by done. destruct (Hdev b p Hp) as (u & Hu & Hun & Hur). exists u.
      rewrite lookup_insert_ne by done. split; [done|]. split; [done|]. destruct p as [d|]; [|done].
      apply disk_rep_other; [done|]. by apply (Hoth b).
  - intros b b' d d' Hd Hd' He. rewrite lookup_insert_Some in Hd, Hd'.
    destruct Hd as [[<- [= <-]]|[Hb1 Hd]], Hd' as [[<- [= <-]]|[Hb2 Hd']]; [done|..|by apply (Hap' b b' d d')].
    + by destruct (Hoth b' d').
    + by destruct (Hoth b d).
Qed.

(** ** Programs *)

Lemma bcall_step c w s s' r : block_rep w s → bspec_step c s = Some (s', r) →
  ∃ w', do_bcall c w = Some (w', r) ∧ block_rep w' s'.
Proof.
  intros H. destruct c; [| | | |apply init_step; done|apply read_step; done|apply write_step; done|
    apply flush_step; done]; cbn [bspec_step do_bcall]; destruct H as [Hreg Hdev Hap].
  - intros [= <- <-]. eexists. split; [done|]. split; [|done|done]. destruct Hreg. split; cbn; (done || lia).
  - destruct (register_run _ _ dev Hreg) as (r' & -> & Hreg'). cbn [mbind option_bind].
    case_decide; intros [= <- <-]; (eexists; split; [done|by split]).
  - case_decide; [|done]. intros [= <- <-]. rewrite (get_run _ _ _ Hreg) by done. cbn. eauto using Build_block_rep.
  - intros [= <- <-]. unfold mcsos_blk_count. rewrite (rr_count _ _ Hreg). eauto using Build_block_rep.
Qed.

Lemma bcalls_run cs w s s' rs : block_rep w s → bspec_steps cs s = Some (s', rs) →
  ∃ w', do_bcalls cs w = Some (w', rs) ∧ block_rep w' s'.
Proof.
  revert w s rs. induction cs as [|c cs IH]; intros w s rs H; cbn [bspec_steps do_bcalls].
  { intros [= <- <-]. eauto. }
  destruct (bspec_step c s) as [[s1 r]|] eqn:E; [|done]. cbn [mbind option_bind].
  destruct (bspec_steps cs s1) as [[s2 rs']|] eqn:E'; [|done]. cbn [mbind option_bind]. intros [= <- <-].
  destruct (bcall_step _ _ _ _ _ H E) as (w1 & -> & H1). cbn [mbind option_bind].
  destruct (IH _ _ _ H1 E') as (w2 & -> & H2). cbn [mbind option_bind]. eauto.
Qed.

(** The start: nothing registered, and device objects that were not set up. *)
Definition blank_devices (devs : gmap Z (mcsos_blk_device rams)) : Prop :=
  map_Forall (λ _ v, length (d_name (d_info v)) = 16%nat ∧ d_ops v = Null) devs.

Lemma start_rep devs c : blank_devices devs →
  block_rep (World blk_registry_zero devs c) (BSpec [] ((λ _, None) <$> devs)).
Proof.
  intros Hd. split; cbn [w_reg w_devs w_rams sp_reg sp_disks].
  - split; cbn; (done || lia).
  - intros a o. rewrite lookup_fmap. destruct (devs !! a) as [v|] eqn:E; [|done]. cbn. intros [= <-].
    exists v. split; [done|]. exact (Hd a v E).
  - intros a b d e. rewrite lookup_fmap. destruct (devs !! a); cbn; congruence.
Qed.

(** ** Property *)

(** C13. The block layer with disks in memory, for every program that sets up
    disks, registers devices, reads, writes and flushes: as long as objects and
    buffers are as large as they are said to be and no two disks share a
    [mcsos_ramblk_t], every call returns what the specification says. A
    transfer of [count] blocks at [lba] is refused with EINVAL for a null
    device or buffer, a count of 0 or a device that is not set up, with ERANGE
    when it does not fit on the disk (for all 64-bit positions), and otherwise
    moves exactly those bytes and changes no other disk; bad parameters of
    [mcsos_ramblk_init] are refused and change nothing; the registry lists the
    devices in order, refuses the ninth, and answers [NULL] past its end. *)
Theorem mcsos_blk_refines devs c cs s rs : blank_devices devs →
  bspec_steps cs (BSpec [] ((λ _, None) <$> devs)) = Some (s, rs) →
  ∃ w, do_bcalls cs (World blk_registry_zero devs c) = Some (w, rs) ∧ block_rep w s.
Proof. intros Hd. apply bcalls_run. by apply start_rep. Qed.

(** ** A concrete run: two disks, of 2 blocks of 512 bytes and 1 of 1024 *)

Definition blank_device (a : Z) : mcsos_blk_device rams := Device a (Info (replicate 16 0) 0 0 0 0) Null.
Definition two_devices : gmap Z (mcsos_blk_device rams) := {[ 100 := blank_device 100; 200 := blank_device 200 ]}.
Definition block_calls : list bcall :=
  [BInit 100 1000 [65; 0] (replicate 1024 0) 1024 512; BInit 200 2000 [66; 0] (replicate 1024 7) 1024 1024;
   BInit 200 2000 [66; 0] (replicate 1024 7) 1024 768;
   BRegister 100; BRegister 200; BGet 1; BGet 2; BCount;
   BWrite 100 1 1 (Ref (replicate 512 9)); BRead 100 0 2 (Ref (replicate 1024 1)); BRead 100 1 2 (Ref []);
   BRead 100 18446744073709551615 2 (Ref []); BRead 200 0 0 (Ref []); BWrite 200 0 1 Null; BFlush 100; BFlush 0].
Definition block_results : list bres :=
  [BNum 0; BNum 0; BNum MCSOS_BLK_EINVAL; BNum 0; BNum 0; BNum 200; BNum 0; BNum 2;
   BBuf 0 (Ref (replicate 512 9)); BBuf 0 (Ref (replicate 512 0 ++ replicate 512 9)); BBuf MCSOS_BLK_ERANGE (Ref []);
   BBuf MCSOS_BLK_ERANGE (Ref []); BBuf MCSOS_BLK_EINVAL (Ref []); BBuf MCSOS_BLK_EINVAL Null; BNum 0;
   BNum MCSOS_BLK_EINVAL].
Definition block_end : bspec :=
  BSpec [100; 200] {[ 100 := Some (SDisk 1000 512 (replicate 512 0 ++ replicate 512 9));
                      200 := Some (SDisk 2000 1024 (replicate 1024 7)) ]}.

Lemma mcsos_blk_refines_witness :
  ∃ w, do_bcalls block_calls (World blk_registry_zero two_devices ∅) = Some (w, block_results) ∧
    block_rep w block_end.
Proof.
  apply (mcsos_blk_refines two_devices ∅ block_calls).
  - apply map_Forall_insert_2; [done|]. by apply map_Forall_singleton.
  - vm_compute. reflexivity.
Defined.
