(* ===== verification/Syscall.v ===== *)
(** System calls ([src/kernel/syscall/syscall.c]): the checks on user pointers,
    the table of calls and the dispatcher. The callbacks that the kernel
    installs act on objects of a type [C] of their own. *)
From S2P Require Import Prelude Bytes Mem.

Definition MCSOS_SYS_PING : Z := 0.
Definition MCSOS_SYS_GET_TICKS : Z := 1.
Definition MCSOS_SYS_WRITE_SERIAL : Z := 2.
Definition MCSOS_SYS_YIELD : Z := 3.
Definition MCSOS_SYS_EXIT_THREAD : Z := 4.
Definition MCSOS_SYS_MAX : Z := 5.
Definition MCSOS_OK : Z := 0.
Definition MCSOS_EINVAL : Z := -22.
Definition MCSOS_ENOSYS : Z := -38.
Definition MCSOS_EFAULT : Z := -14.
Definition MCSOS_EBUSY : Z := -16.

Record mcsos_user_region := Region {
  ur_base : Z;
  ur_limit : Z;
}.

(** The test on [[addr, addr + len)], 0 or 1. *)
Definition mcsos_user_check_range (g_user_region : mcsos_user_region) (addr len : Z) : Z :=
  if len =? 0 then 1 else
  if (ur_base g_user_region =? 0) || (ur_limit g_user_region <=? ur_base g_user_region) then 0 else
  if addr <? ur_base g_user_region then 0 else
  if ur_limit g_user_region <? addr then 0 else
  let last := u64 (u64 (addr + len) - 1) in
  if last <? addr then 0 else
  if ur_limit g_user_region <=? last then 0 else 1.

(** [for (i = 0; i < len; ++i) d[i] = s[i];] within one address space. *)
Fixpoint copy_loop (n : nat) (i : Z) (m : memory) (dst src : Z) : option memory :=
  match n with
  | O => Some m
  | S n' =>
      x ← load 1 m (src + i);
      m ← store 1 m (dst + i) x;
      copy_loop n' (i + 1) m dst src
  end.

Definition mcsos_copy_from_user (g_user_region : mcsos_user_region) (m : memory) (dst src len : Z) :
    option (memory * Z) :=
  if len =? 0 then Some (m, MCSOS_OK) else
  if (dst =? 0) || (src =? 0) then Some (m, MCSOS_EINVAL) else
  if mcsos_user_check_range g_user_region src len =? 0 then Some (m, MCSOS_EFAULT) else
  m ← copy_loop (Z.to_nat len) 0 m dst src;
  Some (m, MCSOS_OK).

Section Calls.
Context {C : Type}.

Record mcsos_syscall_ops := SysOps {
  get_ticks : ptr (C → C * Z);
  yield_current : ptr (C → C);
  exit_current : ptr (Z → C → C);
  write_serial : ptr (Z → Z → C → C * Z);
}.

(** The static objects of the file. *)
Record syscall_state := SysState {
  g_ops : mcsos_syscall_ops;
  g_user_region : mcsos_user_region;
}.

Definition syscall_zero : syscall_state := SysState (SysOps Null Null Null Null) (Region 0 0).

Definition default_write_serial (buf len : Z) (c : C) : C * Z := (c, i64 len).

(** [if (p != 0) field = p;] *)
Definition or_else {A} (p q : ptr A) : ptr A := match p with Null => q | Ref _ => p end.

Definition mcsos_syscall_init (ops : ptr mcsos_syscall_ops) (s : syscall_state) : syscall_state :=
  let d := SysOps Null Null Null (Ref default_write_serial) in
  let o := match ops with
           | Null => d
           | Ref o => SysOps (or_else (get_ticks o) (get_ticks d))
                        (or_else (yield_current o) (yield_current d))
                        (or_else (exit_current o) (exit_current d))
                        (or_else (write_serial o) (write_serial d))
           end in
  SysState o (g_user_region s).

Definition mcsos_syscall_set_user_region (region : mcsos_user_region) (s : syscall_state) :
    syscall_state := SysState (g_ops s) region.

(** The calls: the objects after the call and the value returned. Calling a
    [NULL] [write_serial] (before [mcsos_syscall_init]) is undefined. *)
Definition syscall_fn : Type :=
  syscall_state → Z → Z → Z → Z → Z → Z → C → option (C * Z).

Definition sys_ping : syscall_fn := λ _ _ _ _ _ _ _ c, Some (c, 0x2605020A).

Definition sys_get_ticks : syscall_fn := λ s _ _ _ _ _ _ c,
  match get_ticks (g_ops s) with
  | Null => Some (c, MCSOS_EBUSY)
  | Ref f => let '(c, t) := f c in Some (c, i64 t)
  end.

Definition sys_write_serial : syscall_fn := λ s ptr len _ _ _ _ c,
  if ptr =? 0 then Some (c, MCSOS_EINVAL) else
  if 4096 <? len then Some (c, MCSOS_EINVAL) else
  if mcsos_user_check_range (g_user_region s) ptr len =? 0 then Some (c, MCSOS_EFAULT) else
  f ← deref (write_serial (g_ops s)); Some (f ptr len c).

Definition sys_yield : syscall_fn := λ s _ _ _ _ _ _ c,
  match yield_current (g_ops s) with
  | Null => Some (c, MCSOS_EBUSY)
  | Ref f => Some (f c, MCSOS_OK)
  end.

Definition sys_exit_thread : syscall_fn := λ s code _ _ _ _ _ c,
  match exit_current (g_ops s) with
  | Null => Some (c, MCSOS_EBUSY)
  | Ref f => Some (f (i32 code) c, MCSOS_OK)
  end.

Definition g_table : list (ptr syscall_fn) :=
  [Ref sys_ping; Ref sys_get_ticks; Ref sys_write_serial; Ref sys_yield; Ref sys_exit_thread].

Definition mcsos_syscall_dispatch (s : syscall_state) (nr arg0 arg1 arg2 arg3 arg4 arg5 : Z) (c : C) :
    option (C * Z) :=
  if MCSOS_SYS_MAX <=? nr then Some (c, MCSOS_ENOSYS) else
  fn ← arr_get g_table nr;
  match fn with
  | Null => Some (c, MCSOS_ENOSYS)
  | Ref fn => fn s arg0 arg1 arg2 arg3 arg4 arg5 c
  end.

Record mcsos_syscall_frame := Frame {
  f_nr : Z; f_arg0 : Z; f_arg1 : Z; f_arg2 : Z; f_arg3 : Z; f_arg4 : Z; f_arg5 : Z;
  f_ret : Z;
}.

(** The frame is returned as it is after the call. *)
Definition mcsos_syscall_dispatch_frame (s : syscall_state) (frame : ptr mcsos_syscall_frame) (c : C) :
    option (ptr mcsos_syscall_frame * C) :=
  match frame with
  | Null => Some (Null, c)
  | Ref f =>
      '(c, r) ← mcsos_syscall_dispatch s (f_nr f) (f_arg0 f) (f_arg1 f) (f_arg2 f) (f_arg3 f)
                  (f_arg4 f) (f_arg5 f) c;
      Some (Ref (Frame (f_nr f) (f_arg0 f) (f_arg1 f) (f_arg2 f) (f_arg3 f) (f_arg4 f) (f_arg5 f) r), c)
  end.
End Calls.

Arguments mcsos_syscall_ops : clear implicits.
Arguments syscall_state : clear implicits.
