(* ===== verification/SyscallSpec.v ===== *)
(** What the system calls guarantee: the range test decides whether a range is
    in the user region, no call lets the kernel read outside it, and every
    number and every argument has a defined result. *)
From S2P Require Import Prelude Bytes Mem Syscall.

(** ** The range test *)

(** The range is empty, or inside a region that is set. *)
Definition user_range (r : mcsos_user_region) (addr len : Z) : Prop :=
  len = 0 ∨ 0 < ur_base r ∧ ur_base r ≤ addr ∧ addr + len ≤ ur_limit r.

#[export] Instance user_range_dec r addr len : Decision (user_range r addr len).
Proof. unfold user_range. apply _. Defined.

Lemma check_range_spec r addr len :
  is_u64 (ur_base r) → is_u64 (ur_limit r) → is_u64 addr → is_u64 len →
  mcsos_user_check_range r addr len = if decide (user_range r addr len) then 1 else 0.
Proof.
  intros Hb Hl Ha Hn. unfold mcsos_user_check_range, user_range.
  destruct (decide (len = 0)) as [->|Hne]; [by rewrite decide_True by lia|].
  assert (H : u64 (u64 (addr + len) - 1) =
    if addr + len - 1 <? 18446744073709551616 then addr + len - 1
    else addr + len - 1 - 18446744073709551616).
  { unfold u64. rewrite Zminus_mod_idemp_l. unfold is_u64 in *. case_match.
    - apply Z.mod_small. lia.
    - rewrite <-(Z.mod_small (addr + len - 1 - 18446744073709551616) 18446744073709551616) by lia.
      replace (addr + len - 1) with (addr + len - 1 - 18446744073709551616 + 1 * 18446744073709551616) at 1 by lia.
      apply Z_mod_plus_full. }
  cbv zeta. rewrite H. unfold is_u64 in *. case_decide; repeat case_match; lia.
Qed.

(** ** Copying *)

(** The copy loop on ranges that do not overlap. *)
Lemma copy_loop_run n i m dst src l : (Z.to_nat i + n = length l)%nat → 0 ≤ i →
  Forall is_u8 l →
  bytes_at m src (zlen l) = Some l → in_mem m dst (zlen l) →
  dst + zlen l ≤ src ∨ src + zlen l ≤ dst →
  bytes_at m dst i = Some (take (Z.to_nat i) l) →
  ∃ m', copy_loop n i m dst src = Some m' ∧ bytes_at m' dst (zlen l) = Some l ∧
    (∀ lo hi, hi ≤ dst ∨ dst + zlen l ≤ lo → agree m m' lo hi).
Proof.
  revert i m. induction n as [|n IH]; intros i m Hn Hi Hu8 Hs Hd Ho Hpre; cbn [copy_loop].
  { exists m. split; [done|]. split; [|intros; apply agree_refl].
    rewrite take_ge in Hpre by lia. rewrite <-Hpre. f_equal. unfold zlen. lia. }
  assert (Hlt : (Z.to_nat i < length l)%nat) by lia.
  destruct (lookup_lt_is_Some_2 l _ Hlt) as [x Hx].
  pose proof (Forall_lookup_1 _ _ _ _ Hu8 Hx) as Hx8.
  assert (Hload : load 1 m (src + i) = Some x).
  { unfold load. change (Z.of_nat 1) with 1. assert (bytes_at m (src + i) 1 = Some [x]) as ->.
    - destruct (bytes_at_split _ _ _ i _ Hs) as [_ H2]; [unfold zlen; lia|].
      destruct (bytes_at_split _ _ _ 1 _ H2) as [H3 _]; [unfold zlen; lia|]. rewrite H3. f_equal.
      change (Z.to_nat 1) with 1%nat. by rewrite (drop_S _ _ _ Hx).
    - simpl. f_equal. lia. }
  rewrite Hload. cbn [mbind option_bind].
  mem_store 1%nat m (dst + i) x as m1 E1; [unfold in_mem, zlen in *; lia|].
  assert (Hag : ∀ lo hi, hi ≤ dst + i ∨ dst + i + 1 ≤ lo → agree m m1 lo hi) by
    (intros lo hi Hlh; eapply store_agree; [done|lia]).
  destruct (IH (i + 1) m1) as (m2 & E2 & H2 & A2); [lia|lia|done| | |done| |].
  - rewrite (Hag src (src + zlen l)); [done|unfold zlen in *; lia|lia|lia].
  - apply (store_in _ _ _ _ _ _ _ E1). done.
  - assert (Hx1 : le_encode 1 x = [x]) by (change (le_encode 1 x) with [x mod 256]; rewrite Z.mod_small by words; done).
    unfold store in E1. rewrite Hx1 in E1. apply write_at_same in E1 as Hw. change (zlen [x]) with 1 in Hw.
    rewrite <-(Hag dst (dst + i)) in Hpre by lia.
    rewrite (bytes_at_join _ _ _ _ _ _ Hpre Hw). f_equal.
    replace (Z.to_nat (i + 1)) with (S (Z.to_nat i)) by lia. by rewrite (take_S_r _ _ _ Hx).
  - exists m2. split; [done|]. split; [done|]. intros lo hi Hlh.
    eapply agree_trans; [apply Hag|apply A2]; unfold zlen in *; lia.
Qed.

(** Whatever the ranges, the copy touches nothing but them. *)
Lemma copy_loop_agree n i m m' dst src lo hi : copy_loop n i m dst src = Some m' →
  hi ≤ dst + i ∨ dst + i + Z.of_nat n ≤ lo → agree m m' lo hi.
Proof.
  revert i m. induction n as [|n IH]; intros i m H Ho; cbn [copy_loop] in H.
  { injection H as <-. apply agree_refl. }
  apply bind_Some in H as (x & _ & H). apply bind_Some in H as (m1 & E1 & H).
  eapply agree_trans; [eapply store_agree; [exact E1|lia]|eapply IH; [exact H|lia]].
Qed.

(** ** The table *)

Section Table.
Context {C : Type}.
Implicit Types (s : syscall_state C) (c : C).

Lemma init_write_serial (ops : ptr (mcsos_syscall_ops C)) s :
  ∃ f, write_serial (g_ops (mcsos_syscall_init ops s)) = Ref f.
Proof. destruct ops as [|[? ? ? [|f]]]; cbn; eauto. Qed.

Lemma dispatch_frame s nr a0 a1 a2 a3 a4 a5 r0 c c' r :
  mcsos_syscall_dispatch s nr a0 a1 a2 a3 a4 a5 c = Some (c', r) →
  mcsos_syscall_dispatch_frame s (Ref (Frame nr a0 a1 a2 a3 a4 a5 r0)) c =
    Some (Ref (Frame nr a0 a1 a2 a3 a4 a5 r), c').
Proof. intros H. unfold mcsos_syscall_dispatch_frame. cbn [f_nr f_arg0 f_arg1 f_arg2 f_arg3 f_arg4 f_arg5]. by rewrite H. Qed.

Lemma with_frame s nr a0 a1 a2 a3 a4 a5 r0 c (P : C → Z → Prop) :
  (∃ c' r, mcsos_syscall_dispatch s nr a0 a1 a2 a3 a4 a5 c = Some (c', r) ∧ P c' r) →
  ∃ c' r, mcsos_syscall_dispatch s nr a0 a1 a2 a3 a4 a5 c = Some (c', r) ∧
    mcsos_syscall_dispatch_frame s (Ref (Frame nr a0 a1 a2 a3 a4 a5 r0)) c =
      Some (Ref (Frame nr a0 a1 a2 a3 a4 a5 r), c') ∧ P c' r.
Proof. intros (c' & r & E & H). exists c', r. split; [done|]. split; [by apply dispatch_frame|done]. Qed.

Lemma dispatch_call s i fn a0 a1 a2 a3 a4 a5 c : 0 ≤ i < 5 → arr_get g_table i = Some (Ref fn) →
  mcsos_syscall_dispatch s i a0 a1 a2 a3 a4 a5 c = fn s a0 a1 a2 a3 a4 a5 c.
Proof.
  intros Hi E. unfold mcsos_syscall_dispatch, MCSOS_SYS_MAX.
  rewrite (proj2 (Z.leb_gt 5 i)) by lia. by rewrite E.
Qed.

Lemma write_serial_call s f ptr len a2 a3 a4 a5 c :
  is_u64 (ur_base (g_user_region s)) → is_u64 (ur_limit (g_user_region s)) → is_u64 ptr → is_u64 len →
  write_serial (g_ops s) = Ref f →
  sys_write_serial s ptr len a2 a3 a4 a5 c =
    if decide (ptr = 0 ∨ 4096 < len) then Some (c, MCSOS_EINVAL)
    else if decide (user_range (g_user_region s) ptr len) then Some (f ptr len c)
    else Some (c, MCSOS_EFAULT).
Proof.
  intros Hb Hl Hp Hn Hf. unfold sys_write_serial. rewrite check_range_spec, Hf by done.
  destruct (Z.eqb_spec ptr 0); [by rewrite decide_True by tauto|].
  destruct (Z.ltb_spec 4096 len); [by rewrite decide_True by tauto|].
  rewrite (decide_False (P := ptr = 0 ∨ 4096 < len)) by lia. by case_decide.
Qed.
End Table.

(** ** Properties *)

(** C18. [mcsos_copy_from_user] returns -14 and copies nothing unless the source
    range lies in the user region; a null pointer is refused with -22 and an
    empty copy does nothing; when the range lies in the user region and the
    kernel buffer is another object, the buffer gets the bytes of the source
    and nothing else changes. *)
Theorem mcsos_copy_from_user_correct r m dst src len :
  is_u64 (ur_base r) → is_u64 (ur_limit r) → is_u64 src → is_u64 len →
  (len = 0 → mcsos_copy_from_user r m dst src len = Some (m, MCSOS_OK)) ∧
  (len ≠ 0 → dst = 0 ∨ src = 0 → mcsos_copy_from_user r m dst src len = Some (m, MCSOS_EINVAL)) ∧
  (len ≠ 0 → dst ≠ 0 → src ≠ 0 → ¬ user_range r src len →
     mcsos_copy_from_user r m dst src len = Some (m, MCSOS_EFAULT)) ∧
  (∀ l, len ≠ 0 → dst ≠ 0 → src ≠ 0 → user_range r src len →
     bytes_at m src len = Some l → Forall is_u8 l → in_mem m dst len →
     dst + len ≤ src ∨ src + len ≤ dst →
     ∃ m', mcsos_copy_from_user r m dst src len = Some (m', MCSOS_OK) ∧
       bytes_at m' dst len = Some l ∧
       (∀ lo hi, hi ≤ dst ∨ dst + len ≤ lo → agree m m' lo hi)).
Proof.
  intros Hb Hl Hs Hn. unfold mcsos_copy_from_user. rewrite check_range_spec by done.
  split; [by intros ->|]. split; [|split].
  - intros H0 H1. rewrite (proj2 (Z.eqb_neq _ _) H0).
    by assert ((dst =? 0) || (src =? 0) = true) as -> by lia.
  - intros H0 H1 H2 H3. rewrite (proj2 (Z.eqb_neq _ _) H0).
    assert ((dst =? 0) || (src =? 0) = false) as -> by lia. by rewrite decide_False.
  - intros l H0 H1 H2 H3 Hby Hu Hin Ho. rewrite (proj2 (Z.eqb_neq _ _) H0).
    assert ((dst =? 0) || (src =? 0) = false) as -> by lia. rewrite decide_True by done.
    change (1 =? 0) with false. cbv iota.
    pose proof (bytes_at_Some _ _ _ _ Hby) as [_ Hz]. rewrite <-Hz in *.
    destruct (copy_loop_run (Z.to_nat (zlen l)) 0 m dst src l) as (m' & E & Hd & Ha); try done.
    + unfold zlen. lia.
    + destruct (bytes_at_in m dst 0) as (l0 & E0 & Z0); [unfold in_mem in *; lia|]. rewrite E0.
      change (Z.to_nat 0) with 0%nat. rewrite take_0. f_equal. by destruct l0.
    + rewrite E. by exists m'.
Qed.

(** C19. The dispatcher: a number of 5 or more is refused with -38; the five calls
    return what the callbacks give, -16 when a callback is not installed, and
    [write_serial] calls its callback exactly when the pointer is not null, the
    length is at most 4096 and the range lies in the user region, being refused
    with -22 or -14 otherwise; a refused call changes nothing. After
    [mcsos_syscall_init] every call returns. [mcsos_syscall_dispatch_frame]
    stores the result in the frame and leaves its other fields alone. *)
Theorem mcsos_syscall_dispatch_correct {C : Type} (ops : ptr (mcsos_syscall_ops C)) s0
    (nr a0 a1 a2 a3 a4 a5 r0 : Z) (c : C) :
  is_u64 (ur_base (g_user_region s0)) → is_u64 (ur_limit (g_user_region s0)) →
  is_u64 nr → is_u64 a0 → is_u64 a1 →
  let s := mcsos_syscall_init ops s0 in
  ∃ c' r, mcsos_syscall_dispatch s nr a0 a1 a2 a3 a4 a5 c = Some (c', r) ∧
    mcsos_syscall_dispatch_frame s (Ref (Frame nr a0 a1 a2 a3 a4 a5 r0)) c =
      Some (Ref (Frame nr a0 a1 a2 a3 a4 a5 r), c') ∧
    (nr = MCSOS_SYS_PING → c' = c ∧ r = 0x2605020A) ∧
    (nr = MCSOS_SYS_GET_TICKS →
       match get_ticks (g_ops s) with
       | Null => c' = c ∧ r = MCSOS_EBUSY | Ref f => c' = (f c).1 ∧ r = i64 (f c).2 end) ∧
    (nr = MCSOS_SYS_WRITE_SERIAL →
       if decide (a0 = 0 ∨ 4096 < a1) then c' = c ∧ r = MCSOS_EINVAL
       else if decide (user_range (g_user_region s) a0 a1) then
         ∃ f, write_serial (g_ops s) = Ref f ∧ (c', r) = f a0 a1 c
       else c' = c ∧ r = MCSOS_EFAULT) ∧
    (nr = MCSOS_SYS_YIELD →
       match yield_current (g_ops s) with
       | Null => c' = c ∧ r = MCSOS_EBUSY | Ref f => c' = f c ∧ r = MCSOS_OK end) ∧
    (nr = MCSOS_SYS_EXIT_THREAD →
       match exit_current (g_ops s) with
       | Null => c' = c ∧ r = MCSOS_EBUSY | Ref f => c' = f (i32 a0) c ∧ r = MCSOS_OK end) ∧
    (MCSOS_SYS_MAX ≤ nr → c' = c ∧ r = MCSOS_ENOSYS).
Proof.
  intros Hb Hl Hnr Ha0 Ha1 s.
  apply with_frame.
  unfold MCSOS_SYS_PING, MCSOS_SYS_GET_TICKS, MCSOS_SYS_WRITE_SERIAL, MCSOS_SYS_YIELD,
    MCSOS_SYS_EXIT_THREAD, MCSOS_SYS_MAX.
  destruct (decide (5 ≤ nr)) as [Hge|Hlt].
  { exists c, MCSOS_ENOSYS. split; [unfold mcsos_syscall_dispatch, MCSOS_SYS_MAX; by rewrite (proj2 (Z.leb_le _ _) Hge)|].
    repeat split; try done; lia. }
  destruct (init_write_serial ops s0) as [f Hf]. fold s in Hf.
  assert (nr = 0 ∨ nr = 1 ∨ nr = 2 ∨ nr = 3 ∨ nr = 4) as [->|[->|[->|[->| ->]]]] by (unfold is_u64 in *; lia);
    erewrite dispatch_call by (done || reflexivity).
  - exists c, 0x2605020A. split; [done|]. repeat split; (done || lia).
  - unfold sys_get_ticks. destruct (get_ticks (g_ops s)) as [|g].
    + eexists _, _. split; [done|]. repeat split; (done || lia).
    + destruct (g c) as [c' t] eqn:Eg. eexists _, _. split; [done|]. repeat split; (done || lia).
  - rewrite (write_serial_call s f) by done. clear Hnr Hlt. repeat case_decide.
    + eexists _, _. split; [done|]. repeat split; (done || lia).
    + destruct (f a0 a1 c) as [c' r] eqn:Ef. eexists _, _. split; [done|]. repeat split; try (done || lia).
      intros _. by exists f.
    + eexists _, _. split; [done|]. repeat split; (done || lia).
  - unfold sys_yield. destruct (yield_current (g_ops s)); eexists _, _; (split; [done|]);
      repeat split; (done || lia).
  - unfold sys_exit_thread. destruct (exit_current (g_ops s)); eexists _, _; (split; [done|]);
      repeat split; (done || lia).
Qed.

(** ** Witnesses *)

Definition demo_user : mcsos_user_region := Region 4096 4352.
Definition demo_space : memory := Mem 4096 (replicate 16 7 ++ replicate 496 0).

Lemma mcsos_copy_from_user_correct_witness :
  (∃ m, mcsos_copy_from_user demo_user demo_space 4400 4096 16 = Some (m, MCSOS_OK) ∧
        bytes_at m 4400 16 = Some (replicate 16 7)) ∧
  mcsos_copy_from_user demo_user demo_space 4400 4350 16 = Some (demo_space, MCSOS_EFAULT).
Proof.
  assert (H4 : is_u64 (ur_base demo_user) ∧ is_u64 (ur_limit demo_user)) by (unfold is_u64; cbn; lia).
  destruct H4 as [Hb Hl]. split.
  - destruct (mcsos_copy_from_user_correct demo_user demo_space 4400 4096 16 Hb Hl) as (_ & _ & _ & H);
      [words|words|].
    destruct (H (replicate 16 7)) as (m & E & Hm & _); [lia|lia|lia|unfold user_range; cbn; lia| | | |lia|].
    + vm_compute. reflexivity.
    + apply Forall_replicate. words.
    + unfold in_mem, demo_space, zlen. cbn [m_addr m_bytes]. rewrite length_app, !length_replicate. lia.
    + exists m. split; [exact E|exact Hm].
  - destruct (mcsos_copy_from_user_correct demo_user demo_space 4400 4350 16 Hb Hl) as (_ & _ & H & _);
      [words|words|].
    apply H; [lia|lia|lia|unfold user_range; cbn; lia].
Defined.

Lemma mcsos_syscall_dispatch_correct_witness :
  ∃ r, mcsos_syscall_dispatch (mcsos_syscall_init (C := Z) Null (SysState (SysOps Null Null Null Null) demo_user))
    2 4096 100 0 0 0 0 5 = Some (5, r).
Proof.
  destruct (mcsos_syscall_dispatch_correct (C := Z) Null (SysState (SysOps Null Null Null Null) demo_user)
    2 4096 100 0 0 0 0 0 5) as (c & r & E & _ & _ & _ & H & _); try by unfold is_u64; cbn.
  destruct (H eq_refl) as (f & Hf & Er). cbn in Hf. injection Hf as <-. injection Er as -> ->. by eexists.
Defined.
