(* ===== verification/Vfs.v ===== *)
(** The RAM file system and the file descriptors ([src/kernel/vfs/ramfs.c],
    [fd.c], [sys_vfs.c]). A file system object is found by its address, a node
    by its index in [fs->nodes]; a descriptor holds both. An access outside
    [fs->nodes], [node->name] or [fs->data] is undefined. *)
From S2P Require Import Prelude Bytes.

Definition MCS_MAX_NAME : Z := 32.
Definition MCS_MAX_NODES : Z := 64.
Definition MCS_MAX_OPEN_FILES : Z := 16.
Definition MCS_RAMFS_DATA_BYTES : Z := 8192.
Definition MCS_O_CREAT : Z := 0x0100.
Definition MCS_SEEK_SET : Z := 0.
Definition MCS_OK : Z := 0.
Definition MCS_ENOENT : Z := -2.
Definition MCS_EBADF : Z := -9.
Definition MCS_EINVAL : Z := -22.
Definition MCS_ENFILE : Z := -23.
Definition MCS_ENOSPC : Z := -28.

Inductive mcs_vnode_type := MCS_VNODE_NONE | MCS_VNODE_DIR | MCS_VNODE_FILE.

Record mcs_vnode := Vnode {
  n_used : Z;
  n_id : Z;
  n_parent : Z;
  n_type : mcs_vnode_type;
  n_name : list Z;
  n_size : Z;
  n_data_offset : Z;
  n_data_capacity : Z;
}.

Record mcs_ramfs := Ramfs {
  nodes : list mcs_vnode;
  node_count : Z;
  data : list Z;
  data_used : Z;
}.

Record mcs_file := File {
  f_used : Z;
  f_flags : Z;
  f_offset : Z;
  f_node : Z;
  f_fs : Z;
}.

(** The descriptor table of a process and the file systems, by address. *)
Record vfs := Vfs {
  files : list mcs_file;
  fss : gmap Z mcs_ramfs;
}.

(** ** The RAM file system *)

Definition set_nodes (ns : list mcs_vnode) (fs : mcs_ramfs) : mcs_ramfs :=
  Ramfs ns (node_count fs) (data fs) (data_used fs).
Definition set_data (d : list Z) (fs : mcs_ramfs) : mcs_ramfs :=
  Ramfs (nodes fs) (node_count fs) d (data_used fs).

(** [name[0] = '/'; name[1] = 0] and the other assignments to the root node;
    its parent is left as it was. *)
Definition mcs_ramfs_init (fs : ptr mcs_ramfs) : option (ptr mcs_ramfs) :=
  match fs with
  | Null => Some Null
  | Ref fs =>
      n ← arr_get (nodes fs) 0;
      nm ← arr_set (n_name n) 0 47;
      nm ← arr_set nm 1 0;
      ns ← arr_set (nodes fs) 0
             (Vnode 1 0 (n_parent n) MCS_VNODE_DIR nm 0 (n_data_offset n) (n_data_capacity n));
      Some (Ref (Ramfs ns 1 (data fs) 0))
  end.

(** [name = (path[0] == '/') ? path + 1 : path] *)
Definition path_name (path : list Z) : option (list Z) :=
  c ← arr_get path 0; Some (if c =? 47 then tail path else path).

(** The inner loop of the lookup: the first position where the names differ or
    end, and then the test that both end. *)
Fixpoint name_matches (fuel : nat) (j : Z) (name node_name : list Z) : option bool :=
  match fuel with
  | O => None
  | S fuel' =>
      a ← arr_get name j;
      b ← arr_get node_name j;
      if (a =? b) && negb (a =? 0) then name_matches fuel' (j + 1) name node_name
      else Some ((a =? 0) && (b =? 0))
  end.

Fixpoint lookup_loop (n : nat) (i : Z) (fs : mcs_ramfs) (name : list Z) : option (option Z) :=
  match n with
  | O => Some None
  | S n' =>
      nd ← arr_get (nodes fs) i;
      m ← name_matches (S (length name)) 0 name (n_name nd);
      if (m : bool) then Some (Some i) else lookup_loop n' (i + 1) fs name
  end.

(** The status, or the index of the node. *)
Definition mcs_ramfs_lookup (fs : ptr mcs_ramfs) (path : ptr (list Z)) : option (Z + Z) :=
  match fs, path with
  | Ref fs, Ref path =>
      c0 ← arr_get path 0;
      root ← (if c0 =? 47 then c1 ← arr_get path 1; Some (c1 =? 0) else Some false);
      if (root : bool) then Some (inr 0) else
      name ← path_name path;
      r ← lookup_loop (Z.to_nat (node_count fs - 1)) 1 fs name;
      Some (match r with Some i => inr i | None => inl MCS_ENOENT end)
  | _, _ => Some (inl MCS_EINVAL)
  end.

(** [for (i = 0; i < MCS_MAX_NAME - 1; i++) { node->name[i] = name[i]; ... }] *)
Fixpoint copy_name (n : nat) (i : Z) (dst name : list Z) : option (list Z) :=
  match n with
  | O => Some dst
  | S n' =>
      c ← arr_get name i;
      dst ← arr_set dst i c;
      if c =? 0 then Some dst else copy_name n' (i + 1) dst name
  end.

Definition mcs_ramfs_create_file (fs : mcs_ramfs) (path : list Z) : option (mcs_ramfs * (Z + Z)) :=
  if MCS_MAX_NODES <=? node_count fs then Some (fs, inl MCS_ENOSPC) else
  let i := node_count fs in
  n ← arr_get (nodes fs) i;
  name ← path_name path;
  nm ← copy_name (Z.to_nat (MCS_MAX_NAME - 1)) 0 (n_name n) name;
  ns ← arr_set (nodes fs) i (Vnode 1 (u32 i) (n_parent n) MCS_VNODE_FILE nm 0 (data_used fs) 256);
  Some (Ramfs ns (u64 (i + 1)) (data fs) (u64 (data_used fs + 256)), inr i).

(** [for (i = 0; i < len; i++) fs->data[off + i] = src[i];] *)
Fixpoint put_bytes (n : nat) (i off : Z) (d src : list Z) : option (list Z) :=
  match n with
  | O => Some d
  | S n' =>
      x ← arr_get src i;
      d ← arr_set d (u64 (off + i)) x;
      put_bytes n' (i + 1) off d src
  end.

(** [for (i = 0; i < n; i++) buf[i] = fs->data[off + i];] *)
Fixpoint get_bytes (n : nat) (i off : Z) (d buf : list Z) : option (list Z) :=
  match n with
  | O => Some buf
  | S n' =>
      x ← arr_get d (u64 (off + i));
      buf ← arr_set buf i x;
      get_bytes n' (i + 1) off d buf
  end.

Definition set_size (size : Z) (n : mcs_vnode) : mcs_vnode :=
  Vnode (n_used n) (n_id n) (n_parent n) (n_type n) (n_name n) size (n_data_offset n) (n_data_capacity n).

Definition mcs_ramfs_seed_file (fs : mcs_ramfs) (path src : list Z) (len : Z) :
    option (mcs_ramfs * Z) :=
  '(fs, r) ← mcs_ramfs_create_file fs path;
  match r with
  | inl rc => Some (fs, rc)
  | inr i =>
      n ← arr_get (nodes fs) i;
      d ← put_bytes (Z.to_nat len) 0 (n_data_offset n) (data fs) src;
      ns ← arr_set (nodes fs) i (set_size len n);
      Some (set_nodes ns (set_data d fs), MCS_OK)
  end.

(** ** File descriptors *)

Definition set_used (u : Z) (f : mcs_file) : mcs_file :=
  File u (f_flags f) (f_offset f) (f_node f) (f_fs f).
Definition set_offset (o : Z) (f : mcs_file) : mcs_file :=
  File (f_used f) (f_flags f) o (f_node f) (f_fs f).

Definition mcs_fd_table_init (table : list mcs_file) : option (list mcs_file) :=
  r ← for_loop (Z.to_nat MCS_MAX_OPEN_FILES) 0 1 (λ i t,
        f ← arr_get t i; t ← arr_set t i (set_used 0 f); Some (Next (R := unit) t)) table;
  match r with Next t => Some t | Return _ => None end.

(** The descriptor; nothing when it is not open. *)
Definition mcs_fd_get (table : list mcs_file) (fd : Z) : option (ptr mcs_file) :=
  if (fd <? 0) || (MCS_MAX_OPEN_FILES <=? fd) then Some Null else
  f ← arr_get table fd;
  Some (if f_used f =? 0 then Null else Ref f).

Fixpoint fd_alloc_loop (n : nat) (i : Z) (table : list mcs_file) : option (list mcs_file * Z) :=
  match n with
  | O => Some (table, MCS_ENFILE)
  | S n' =>
      f ← arr_get table i;
      if f_used f =? 0 then t ← arr_set table i (set_used 1 f); Some (t, i)
      else fd_alloc_loop n' (i + 1) table
  end.
Definition mcs_fd_alloc (table : list mcs_file) : option (list mcs_file * Z) :=
  fd_alloc_loop (Z.to_nat MCS_MAX_OPEN_FILES) 0 table.

(** The node to open: found, or created when [MCS_O_CREAT] is given. *)
Definition open_node (fs : mcs_ramfs) (path : list Z) (flags : Z) : option (mcs_ramfs * option Z) :=
  r ← mcs_ramfs_lookup (Ref fs) (Ref path);
  match r with
  | inr i => Some (fs, Some i)
  | inl _ =>
      if Z.land flags MCS_O_CREAT =? 0 then Some (fs, None) else
      '(fs, r) ← mcs_ramfs_create_file fs path;
      Some (fs, match r with inr i => Some i | inl _ => None end)
  end.

Definition mcs_sys_open (fa : Z) (path : ptr (list Z)) (flags : Z) (s : vfs) : option (vfs * Z) :=
  match path with
  | Null => Some (s, MCS_EINVAL)
  | Ref path =>
      c ← arr_get path 0;
      if negb (c =? 47) then Some (s, MCS_EINVAL) else
      '(t, fd) ← mcs_fd_alloc (files s);
      if fd <? 0 then Some (Vfs t (fss s), fd) else
      fs ← fss s !! fa;
      '(fs, r) ← open_node fs path flags;
      f ← arr_get t fd;
      match r with
      | None =>
          t ← arr_set t fd (set_used 0 f);
          Some (Vfs t (<[fa := fs]> (fss s)), MCS_ENOENT)
      | Some i =>
          t ← arr_set t fd (File (f_used f) flags 0 i fa);
          Some (Vfs t (<[fa := fs]> (fss s)), fd)
      end
  end.

(** The buffer after the call, and the value returned. *)
Definition mcs_sys_read (fd : Z) (buf : list Z) (len : Z) (s : vfs) : option (vfs * list Z * Z) :=
  p ← mcs_fd_get (files s) fd;
  match p with
  | Null => Some (s, buf, MCS_EBADF)
  | Ref f =>
      fs ← fss s !! f_fs f;
      n ← arr_get (nodes fs) (f_node f);
      let avail := u64 (n_size n - f_offset f) in
      let k := if len <? avail then len else avail in
      buf ← get_bytes (Z.to_nat k) 0 (u64 (n_data_offset n + f_offset f)) (data fs) buf;
      t ← arr_set (files s) fd (set_offset (u64 (f_offset f + k)) f);
      Some (Vfs t (fss s), buf, i64 k)
  end.

Definition mcs_sys_write (fd : Z) (buf : list Z) (len : Z) (s : vfs) : option (vfs * Z) :=
  p ← mcs_fd_get (files s) fd;
  match p with
  | Null => Some (s, MCS_EBADF)
  | Ref f =>
      fs ← fss s !! f_fs f;
      n ← arr_get (nodes fs) (f_node f);
      d ← put_bytes (Z.to_nat len) 0 (u64 (n_data_offset n + f_offset f)) (data fs) buf;
      let off := u64 (f_offset f + len) in
      t ← arr_set (files s) fd (set_offset off f);
      ns ← (if n_size n <? off then arr_set (nodes fs) (f_node f) (set_size off n) else Some (nodes fs));
      Some (Vfs t (<[f_fs f := set_nodes ns (set_data d fs)]> (fss s)), i64 len)
  end.

Definition mcs_sys_close (fd : Z) (s : vfs) : option (vfs * Z) :=
  p ← mcs_fd_get (files s) fd;
  match p with
  | Null => Some (s, MCS_EBADF)
  | Ref f => t ← arr_set (files s) fd (set_used 0 f); Some (Vfs t (fss s), MCS_OK)
  end.

Definition mcs_sys_lseek (fd offset whence : Z) (s : vfs) : option (vfs * Z) :=
  p ← mcs_fd_get (files s) fd;
  match p with
  | Null => Some (s, MCS_EBADF)
  | Ref f =>
      let off := if whence =? MCS_SEEK_SET then u64 offset else f_offset f in
      t ← arr_set (files s) fd (set_offset off f);
      Some (Vfs t (fss s), i32 off)
  end.

(** ** The file system chosen for the tests *)

Definition mcs_active_ramfs_for_test : ptr Z := Null.
(** The value of the variable after the call. *)
Definition mcs_vfs_set_active_ramfs_for_test (fs active : ptr Z) : ptr Z := fs.
