(* ===== verification/VfsSpec.v ===== *)
(** Reading and writing through the file descriptors: what the bytes of a file
    are and that, as long as a file stays within the 256 bytes reserved for it,
    a write changes that file only and can be read back. *)
From S2P Require Import Prelude Bytes Mem Vfs.

(** ** The byte loops *)

Lemma splice_cons o x r (l : list Z) : (o < length l)%nat →
  splice (S o) r (<[o := x]> l) = splice o (x :: r) l.
Proof.
  intros Ho. unfold splice. cbn [length].
  rewrite (take_S_r _ _ x) by (by apply list_lookup_insert_eq).
  rewrite take_insert_ge by lia. rewrite <-app_assoc. cbn [app].
  rewrite drop_insert_lt by lia. do 4 f_equal. lia.
Qed.

Lemma put_bytes_run n i off d src : 0 ≤ i → i + Z.of_nat n ≤ zlen src → 0 ≤ off →
  off + i + Z.of_nat n ≤ zlen d → zlen d < 18446744073709551616 →
  put_bytes n i off d src = Some (splice (Z.to_nat (off + i)) (slice (Z.to_nat i) n src) d).
Proof.
  revert i d. induction n as [|n IH]; intros i d Hi Hs Ho Hd Hm; cbn [put_bytes].
  { unfold splice, slice. rewrite take_0. cbn [app length]. by rewrite Nat.add_0_r, take_drop. }
  destruct (arr_get_is_Some src i) as [x Hx]; [lia|]. rewrite Hx. cbn [mbind option_bind].
  rewrite u64_small by words. rewrite arr_set_ok by lia. cbn [mbind option_bind].
  rewrite IH by (rewrite ?zlen_insert; lia). apply arr_get_Some in Hx as [_ Hx].
  replace (Z.to_nat (off + (i + 1))) with (S (Z.to_nat (off + i))) by lia.
  rewrite splice_cons by (unfold zlen in *; lia). f_equal. f_equal.
  unfold slice. rewrite (drop_S _ _ _ Hx). cbn [take]. do 3 f_equal. lia.
Qed.

Lemma get_bytes_run n i off d buf : 0 ≤ i → i + Z.of_nat n ≤ zlen buf → 0 ≤ off →
  off + i + Z.of_nat n ≤ zlen d → zlen d < 18446744073709551616 →
  get_bytes n i off d buf = Some (splice (Z.to_nat i) (slice (Z.to_nat (off + i)) n d) buf).
Proof.
  revert i buf. induction n as [|n IH]; intros i buf Hi Hs Ho Hd Hm; cbn [get_bytes].
  { unfold splice, slice. rewrite take_0. cbn [app length]. by rewrite Nat.add_0_r, take_drop. }
  rewrite u64_small by words. destruct (arr_get_is_Some d (off + i)) as [x Hx]; [lia|]. rewrite Hx.
  cbn [mbind option_bind]. rewrite arr_set_ok by lia. cbn [mbind option_bind].
  rewrite IH by (rewrite ?zlen_insert; lia). apply arr_get_Some in Hx as [_ Hx].
  replace (Z.to_nat (i + 1)) with (S (Z.to_nat i)) by lia.
  rewrite splice_cons by (unfold zlen in *; lia). f_equal. f_equal.
  unfold slice. rewrite (drop_S _ _ _ Hx). cbn [take]. do 3 f_equal. lia.
Qed.

(** ** Files *)

(** The bytes of the file of node [n]. *)
Definition content (fs : mcs_ramfs) (n : mcs_vnode) : list Z :=
  slice (Z.to_nat (n_data_offset n)) (Z.to_nat (n_size n)) (data fs).

(** Every file has the 256 bytes reserved for it when it was created, and those
    of the 32 files that [fs->data] has room for are inside it. *)
Record fs_ok (fs : mcs_ramfs) : Prop := {
  fo_data : zlen (data fs) = MCS_RAMFS_DATA_BYTES;
  fo_count : 1 ≤ node_count fs ≤ 33;
  fo_nodes : node_count fs ≤ zlen (nodes fs);
  fo_used : data_used fs = 256 * (node_count fs - 1);
  fo_files : ∀ i n, 1 ≤ i < node_count fs → arr_get (nodes fs) i = Some n →
    n_data_offset n = 256 * (i - 1) ∧ 0 ≤ n_size n ≤ 256;
}.

(** Descriptor [fd] is open on node [n] of [fs]. *)
Record opened (s : vfs) (fd : Z) (f : mcs_file) (fs : mcs_ramfs) (n : mcs_vnode) : Prop := {
  op_get : mcs_fd_get (files s) fd = Some (Ref f);
  op_fs : fss s !! f_fs f = Some fs;
  op_ok : fs_ok fs;
  op_node : 1 ≤ f_node f < node_count fs;
  op_at : arr_get (nodes fs) (f_node f) = Some n;
  op_offset : 0 ≤ f_offset f ≤ n_size n;
}.

Lemma fd_get_inv t fd f : mcs_fd_get t fd = Some (Ref f) →
  0 ≤ fd < 16 ∧ arr_get t fd = Some f ∧ f_used f ≠ 0 ∧ fd < zlen t.
Proof.
  unfold mcs_fd_get, MCS_MAX_OPEN_FILES. destruct ((fd <? 0) || (16 <=? fd)) eqn:E; [done|].
  destruct (arr_get t fd) as [f'|] eqn:Ef; [|done]. cbn [mbind option_bind].
  destruct (Z.eqb_spec (f_used f') 0); [done|]. intros [= ->]. bool_prop.
  pose proof (arr_get_Some _ _ _ Ef) as [? _]. repeat split; (done || lia).
Qed.

(** The descriptor after an update that leaves it open. *)
Lemma fd_get_set t fd f f' : mcs_fd_get t fd = Some (Ref f) → f_used f' = f_used f →
  ∃ t', arr_set t fd f' = Some t' ∧ mcs_fd_get t' fd = Some (Ref f').
Proof.
  intros H Hu. apply fd_get_inv in H as (Hr & Hg & Hne & Hz). eexists. split; [apply arr_set_ok; lia|].
  unfold mcs_fd_get, MCS_MAX_OPEN_FILES.
  assert ((fd <? 0) || (16 <=? fd) = false) as -> by lia.
  rewrite arr_get_insert by lia. rewrite decide_True by done. cbn [mbind option_bind].
  by rewrite (proj2 (Z.eqb_neq _ _)) by congruence.
Qed.

Lemma opened_content s fd f fs n : opened s fd f fs n →
  zlen (content fs n) = n_size n ∧ 0 ≤ n_data_offset n ∧ n_data_offset n + 256 ≤ 8192 ∧
  0 ≤ n_size n ≤ 256 ∧ n_data_offset n = 256 * (f_node f - 1).
Proof.
  intros [_ _ Hok Hn Hat _]. pose proof (fo_files _ Hok _ _ Hn Hat) as [Ho Hs].
  pose proof (fo_data _ Hok) as Hd. pose proof (fo_count _ Hok). unfold MCS_RAMFS_DATA_BYTES in Hd.
  split; [|lia]. unfold content, zlen in *. rewrite slice_length; lia.
Qed.

Lemma read_run s fd f fs n buf len : opened s fd f fs n → is_u64 len →
  let k := Z.min len (n_size n - f_offset f) in
  k ≤ zlen buf →
  ∃ t, mcs_sys_read fd buf len s =
      Some (Vfs t (fss s), slice (Z.to_nat (f_offset f)) (Z.to_nat k) (content fs n) ++ drop (Z.to_nat k) buf, k) ∧
    arr_set (files s) fd (set_offset (f_offset f + k) f) = Some t ∧
    opened (Vfs t (fss s)) fd (set_offset (f_offset f + k) f) fs n.
Proof.
  intros H Hlen k Hk. pose proof (opened_content _ _ _ _ _ H) as (Hz & H1 & H2 & H3 & _).
  destruct H as [Hg Hf Hok Hn Hat Hoff]. pose proof (fo_data _ Hok) as Hd. unfold MCS_RAMFS_DATA_BYTES in Hd.
  assert (0 ≤ k ≤ n_size n - f_offset f) as Hk' by (unfold k; words).
  destruct (fd_get_set _ _ _ (set_offset (f_offset f + k) f) Hg) as (t & Et & Hg'); [done|].
  exists t. split; [|split; [done|split; cbn [files fss f_fs f_node f_offset set_offset]; (done || lia)]].
  unfold mcs_sys_read. rewrite Hg. cbn [mbind option_bind]. rewrite Hf. cbn [mbind option_bind].
  rewrite Hat. cbn [mbind option_bind]. rewrite (u64_small (n_size n - _)) by words.
  assert ((if len <? n_size n - f_offset f then len else n_size n - f_offset f) = k) as ->
    by (unfold k; case_match; lia).
  rewrite (u64_small (n_data_offset n + f_offset f)) by words.
  rewrite get_bytes_run by (lia || words). cbn [mbind option_bind].
  rewrite (u64_small (f_offset f + k)), Et by words. cbn [mbind option_bind].
  rewrite (i64_small k) by lia.
  do 3 f_equal. rewrite Z.add_0_r. unfold content, splice, slice.
  change (Z.to_nat 0) with 0%nat. rewrite take_0. cbn [app].
  rewrite !skipn_firstn_comm, drop_drop, take_take. unfold zlen in *.
  rewrite length_take, length_drop, !Nat.min_l by lia. do 3 f_equal. lia.
Qed.

(** The range of a file after a write in it. *)
Lemma content_written o sz off x (l : list Z) : (off ≤ sz)%nat → (o + sz ≤ length l)%nat →
  (o + off + length x ≤ length l)%nat →
  slice o (sz `max` (off + length x)) (splice (o + off) x l) =
  take off (slice o sz l) ++ x ++ drop (off + length x) (slice o sz l).
Proof.
  intros H1 H2 H3. rewrite slice_splice_inside by lia. unfold splice, slice. f_equal; [|f_equal].
  - rewrite !take_take. f_equal. lia.
  - rewrite !skipn_firstn_comm. f_equal. lia.
Qed.

(** Bytes put at offset [off] of the file of node [i]. *)
Lemma node_write fs i n off x : fs_ok fs → 1 ≤ i < node_count fs → arr_get (nodes fs) i = Some n →
  0 ≤ off ≤ n_size n → off + zlen x ≤ 256 →
  let n' := set_size (Z.max (n_size n) (off + zlen x)) n in
  ∃ d', put_bytes (Z.to_nat (zlen x)) 0 (n_data_offset n + off) (data fs) x = Some d' ∧
    let fs' := set_nodes (<[Z.to_nat i := n']> (nodes fs)) (set_data d' fs) in
    fs_ok fs' ∧
    content fs' n' = take (Z.to_nat off) (content fs n) ++ x ++ drop (Z.to_nat off + length x) (content fs n) ∧
    (∀ j m, j ≠ i → 1 ≤ j < node_count fs → arr_get (nodes fs) j = Some m →
       arr_get (nodes fs') j = Some m ∧ content fs' m = content fs m).
Proof.
  intros Hok Hi Hat Hoff Hx n'. pose proof (fo_files _ Hok _ _ Hi Hat) as [Ho Hs].
  pose proof (fo_data _ Hok) as Hd. pose proof (fo_count _ Hok). unfold MCS_RAMFS_DATA_BYTES in Hd.
  pose proof (zlen_nonneg x). pose proof (arr_get_Some _ _ _ Hat) as [Hni _].
  exists (splice (Z.to_nat (n_data_offset n + off)) x (data fs)).
  assert (Hzd : zlen (splice (Z.to_nat (n_data_offset n + off)) x (data fs)) = zlen (data fs)).
  { unfold zlen in *. rewrite length_splice; [done|lia]. }
  split; [|split; [|split]].
  - rewrite put_bytes_run by (unfold zlen in *; lia). unfold slice. rewrite Z.add_0_r.
    change (Z.to_nat 0) with 0%nat. by rewrite drop_0, take_ge by (unfold zlen; lia).
  - destruct Hok as [? ? ? ? Hfiles]. split; cbn [set_nodes set_data nodes node_count data data_used]; try done.
    + unfold MCS_RAMFS_DATA_BYTES. congruence.
    + by rewrite zlen_insert.
    + intros j m Hj Hm. rewrite arr_get_insert in Hm by lia.
      case_decide; [|by apply (Hfiles j)]. injection Hm as <-. subst j. cbn. lia.
  - unfold content, n'. cbn [set_size set_nodes set_data n_data_offset n_size data].
    rewrite Z2Nat.inj_add by lia. rewrite Z2Nat.inj_max, (Z2Nat.inj_add off) by lia.
    unfold zlen in *. rewrite Nat2Z.id. apply content_written; lia.
  - intros j m Hj Hj2 Hm. split.
    + cbn [set_nodes nodes]. rewrite arr_get_insert by lia. by rewrite decide_False by lia.
    + destruct (fo_files _ Hok j m Hj2 Hm) as [Hmo Hms].
      unfold content. cbn [set_nodes set_data data]. unfold zlen in *.
      destruct (decide (n_size m = 0)) as [->|]; [by unfold slice|]. apply slice_splice_other; lia.
Qed.

Lemma write_run s fd f fs n x : opened s fd f fs n → f_offset f + zlen x ≤ 256 →
  ∃ t fs' n', mcs_sys_write fd x (zlen x) s = Some (Vfs t (<[f_fs f := fs']> (fss s)), zlen x) ∧
    arr_set (files s) fd (set_offset (f_offset f + zlen x) f) = Some t ∧
    nodes fs' = <[Z.to_nat (f_node f) := n']> (nodes fs) ∧ node_count fs' = node_count fs ∧
    n_name n' = n_name n ∧
    opened (Vfs t (<[f_fs f := fs']> (fss s))) fd (set_offset (f_offset f + zlen x) f) fs' n' ∧
    content fs' n' = take (Z.to_nat (f_offset f)) (content fs n) ++ x ++
      drop (Z.to_nat (f_offset f) + length x) (content fs n) ∧
    (∀ j m, j ≠ f_node f → 1 ≤ j < node_count fs → arr_get (nodes fs) j = Some m →
       arr_get (nodes fs') j = Some m ∧ content fs' m = content fs m).
Proof.
  intros H Hx. pose proof (opened_content _ _ _ _ _ H) as (_ & H1 & H2 & H3 & H4).
  destruct H as [Hg Hf Hok Hn Hat Hoff]. pose proof (zlen_nonneg x). set (off := f_offset f + zlen x) in *.
  destruct (fd_get_set _ _ _ (set_offset off f) Hg) as (t & Et & Hg'); [done|].
  pose proof (arr_get_Some _ _ _ Hat) as [Hni _].
  destruct (node_write fs (f_node f) n (f_offset f) x) as (d' & Ed & Hok' & Hc & Hoth); try done.
  fold off in Hok', Hc, Hoth. set (n' := set_size (Z.max (n_size n) off) n) in *.
  set (fs' := set_nodes _ _) in Hok', Hc, Hoth.
  assert (Hns : (if n_size n <? off then arr_set (nodes fs) (f_node f) (set_size off n) else Some (nodes fs)) =
    Some (nodes fs')).
  { unfold fs', n'. cbn [set_nodes nodes]. case_match.
    - rewrite Z.max_r by lia. apply arr_set_ok. done.
    - rewrite Z.max_l by lia. f_equal. symmetry. apply list_insert_id.
      apply arr_get_Some in Hat as [_ Hat]. by destruct n. }
  exists t, fs', n'. split; [|do 4 (split; [done|]); split; [|by split]].
  - unfold mcs_sys_write. rewrite Hg. cbn [mbind option_bind]. rewrite Hf. cbn [mbind option_bind].
    rewrite Hat. cbn [mbind option_bind]. rewrite (u64_small (n_data_offset n + _)) by words.
    rewrite Ed. cbn [mbind option_bind].
    fold off. rewrite (u64_small off), Et by words. cbn [mbind option_bind]. rewrite Hns. cbn [mbind option_bind].
    by rewrite (i64_small (zlen x)) by lia.
  - split; cbn [files fss f_fs f_node f_offset set_offset]; try done.
    + by rewrite lookup_insert_eq.
    + cbn [fs' set_nodes nodes]. rewrite arr_get_insert by lia. by rewrite decide_True.
    + cbn. lia.
Qed.

Lemma lseek_run s fd f fs n o : opened s fd f fs n → 0 ≤ o ≤ n_size n →
  ∃ t, mcs_sys_lseek fd o MCS_SEEK_SET s = Some (Vfs t (fss s), o) ∧
    arr_set (files s) fd (set_offset o f) = Some t ∧
    opened (Vfs t (fss s)) fd (set_offset o f) fs n.
Proof.
  intros H Ho. pose proof (opened_content _ _ _ _ _ H) as (_ & _ & _ & H3 & _).
  destruct H as [Hg Hf Hok Hn Hat Hoff].
  destruct (fd_get_set _ _ _ (set_offset o f) Hg) as (t & Et & Hg'); [done|].
  exists t. split; [|split; [done|by split]].
  unfold mcs_sys_lseek. rewrite Hg. cbn [mbind option_bind]. unfold MCS_SEEK_SET. change (0 =? 0) with true.
  cbv iota. rewrite u64_small, Et by words. cbn [mbind option_bind].
  by rewrite (i32_small o) by lia.
Qed.

(** ** Properties *)

(** Through an open descriptor at an offset within its file, and as long as
    the file stays within the 256 bytes reserved for it: [mcs_sys_write] writes
    all the bytes at the offset, extending the file when they go past its end,
    advances the offset and changes no other file; seeking back with
    [mcs_sys_lseek] and reading with [mcs_sys_read] returns the bytes written,
    and the state stays in order. *)
Theorem mcs_sys_write_read s fd f fs n x buf : opened s fd f fs n →
  f_offset f + zlen x ≤ 256 → zlen x ≤ zlen buf →
  ∃ s1 s2 s3 fs' n',
    mcs_sys_write fd x (zlen x) s = Some (s1, zlen x) ∧
    fss s1 = <[f_fs f := fs']> (fss s) ∧
    content fs' n' = take (Z.to_nat (f_offset f)) (content fs n) ++ x ++
      drop (Z.to_nat (f_offset f) + length x) (content fs n) ∧
    (∀ j m, j ≠ f_node f → 1 ≤ j < node_count fs → arr_get (nodes fs) j = Some m →
       arr_get (nodes fs') j = Some m ∧ content fs' m = content fs m) ∧
    mcs_sys_lseek fd (f_offset f) MCS_SEEK_SET s1 = Some (s2, f_offset f) ∧
    mcs_sys_read fd buf (zlen x) s2 = Some (s3, x ++ drop (length x) buf, zlen x) ∧
    opened s3 fd (set_offset (f_offset f + zlen x) f) fs' n'.
Proof.
  intros H Hx Hb. pose proof (op_offset _ _ _ _ _ H) as Ho. pose proof (opened_content _ _ _ _ _ H) as (Hz & _).
  destruct (write_run s fd f fs n x H Hx) as (t1 & fs' & n' & E1 & _ & _ & _ & _ & O1 & Hc & Hoth).
  pose proof (op_offset _ _ _ _ _ O1) as Ho1. cbn [set_offset f_offset] in Ho1. pose proof (zlen_nonneg x).
  destruct (lseek_run _ fd _ fs' n' (f_offset f) O1) as (t2 & E2 & _ & O2); [lia|].
  destruct (read_run _ fd _ fs' n' buf (zlen x) O2) as (t3 & E3 & _ & O3); [words|cbn; lia|].
  cbn [set_offset f_offset f_used f_flags f_node f_fs fss files] in *.
  rewrite Z.min_l in E3, O3 by lia.
  eexists _, _, _, fs', n'. split; [exact E1|]. split; [done|]. split; [done|]. split; [done|].
  split; [exact E2|]. split; [|exact O3]. rewrite E3, Hc. unfold slice, zlen in *. rewrite !Nat2Z.id.
  rewrite drop_app_length' by (rewrite length_take; lia). by rewrite take_app_length.
Qed.

(** ** Concrete runs *)

Definition blank_vnode : mcs_vnode := Vnode 0 0 0 MCS_VNODE_NONE (replicate 32 0) 0 0 0.
Definition blank_fs : mcs_ramfs := Ramfs (replicate 64 blank_vnode) 0 (replicate (Z.to_nat 8192) 0) 0.
Definition demo_fs : mcs_ramfs :=
  match mcs_ramfs_init (Ref blank_fs) with Some (Ref fs) => fs | _ => blank_fs end.
Definition demo_vfs : vfs := Vfs (replicate 16 (File 0 0 0 0 0)) {[ 4096 := demo_fs ]}.
(** The states after opening, with [MCS_O_CREAT], the files [/a] and [/b]. *)
Definition after (o : option (vfs * Z)) : vfs := match o with Some (s, _) => s | None => demo_vfs end.
Definition demo_a : vfs := after (mcs_sys_open 4096 (Ref [47; 97; 0]) MCS_O_CREAT demo_vfs).
Definition demo_ab : vfs := after (mcs_sys_open 4096 (Ref [47; 98; 0]) MCS_O_CREAT demo_a).

(** A write has no bound on the size of the file: 257 bytes written to [/a]
    change the first byte that is then read from [/b], which held a byte 1. *)
Definition overrun_run : option (list Z * Z) :=
  '(s, _) ← mcs_sys_write 1 [1] 1 demo_ab;
  '(s, _) ← mcs_sys_write 0 (replicate 257 9) 257 s;
  '(s, _) ← mcs_sys_lseek 1 0 MCS_SEEK_SET s;
  '(_, buf, r) ← mcs_sys_read 1 [0] 1 s;
  Some (buf, r).

Lemma mcs_sys_write_overruns : overrun_run = Some ([9], 1).
Proof. vm_compute. reflexivity. Qed.

Definition fs_of (s : vfs) : mcs_ramfs := match fss s !! 4096 with Some fs => fs | None => blank_fs end.
Definition node_a : mcs_vnode := Vnode 1 1 0 MCS_VNODE_FILE (97 :: replicate 31 0) 0 0 256.
Definition file_a : mcs_file := File 1 MCS_O_CREAT 0 1 4096.

Lemma demo_opened : opened demo_ab 0 file_a (fs_of demo_ab) node_a.
Proof.
  split; [vm_compute; reflexivity|vm_compute; reflexivity| |split; [cbn [file_a f_node]; lia|vm_compute; reflexivity]
         |vm_compute; reflexivity|cbn [file_a f_offset node_a n_size]; lia].
  assert (node_count (fs_of demo_ab) = 3) as Hc by (vm_compute; reflexivity). split; rewrite ?Hc.
  - vm_compute. reflexivity.
  - lia.
  - assert (zlen (nodes (fs_of demo_ab)) = 64) as -> by (vm_compute; reflexivity). lia.
  - vm_compute. reflexivity.
  - intros i n Hi Hn. assert (i = 1 ∨ i = 2) as [->| ->] by lia; vm_compute in Hn; injection Hn as <-; cbn; lia.
Qed.

Lemma mcs_sys_write_read_witness :
  ∃ s1 s2 s3, mcs_sys_write 0 [5; 6; 7] 3 demo_ab = Some (s1, 3) ∧
    mcs_sys_lseek 0 0 MCS_SEEK_SET s1 = Some (s2, 0) ∧
    mcs_sys_read 0 [0; 0; 0; 0] 3 s2 = Some (s3, [5; 6; 7; 0], 3).
Proof.
  destruct (mcs_sys_write_read demo_ab 0 file_a (fs_of demo_ab) node_a [5; 6; 7] [0; 0; 0; 0] demo_opened)
    as (s1 & s2 & s3 & fs' & n' & E1 & _ & _ & _ & E2 & E3 & _);
    [unfold zlen; cbn [length file_a f_offset]; lia|unfold zlen; cbn [length]; lia|].
  exists s1, s2, s3. split; [exact E1|]. split; [exact E2|exact E3].
Defined.
