(* ===== verification/VfsSys.v ===== *)
(** Programs of calls on the files of one RAM file system: they behave like a
    map from names to contents with a table of 16 descriptors, each a name and
    an offset, as long as the files stay within what the code reserves for
    them. *)
From Stdlib Require Import String.
From S2P Require Import Prelude Bytes Mem Cstr Vfs VfsSpec.

(** ** Lists searched from the left *)

Section first.
Context {A : Type} (P : A → Prop) `{∀ x, Decision (P x)}.

(** The index of the first element with the property. *)
Fixpoint first_index (l : list A) : option nat :=
  match l with
  | [] => None
  | x :: l' => if decide (P x) then Some O else S <$> first_index l'
  end.

Lemma first_index_Some l i : first_index l = Some i → ∃ x, l !! i = Some x ∧ P x.
Proof.
  revert i. induction l as [|x l IH]; intros i; cbn [first_index]; [done|].
  destruct (decide (P x)); [intros [= <-]; eauto|].
  destruct (first_index l) as [j|]; [|done]. intros [= <-]. by apply IH.
Qed.

Lemma first_index_None l : first_index l = None → ∀ x, x ∈ l → ¬ P x.
Proof.
  induction l as [|x l IH]; cbn [first_index]; [by intros _ x ?%not_elem_of_nil|].
  destruct (decide (P x)); [done|]. destruct (first_index l); [done|].
  intros _ y [-> | Hy]%elem_of_cons; [done|by apply IH].
Qed.
End first.

Lemma first_index_Forall2 {A B} (P : A → Prop) (Q : B → Prop)
    `{∀ x, Decision (P x), ∀ y, Decision (Q y)} l k :
  Forall2 (λ x y, P x ↔ Q y) l k → first_index P l = first_index Q k.
Proof.
  induction 1 as [|x y l k Hxy _ IH]; cbn [first_index]; [done|]. rewrite IH.
  destruct (decide (P x)), (decide (Q y)); tauto.
Qed.

(** ** The calls *)

Inductive vcall :=
| COpen (path : list Z) (flags : Z)
| CRead (fd : Z) (buf : list Z) (len : Z)
| CWrite (fd : Z) (x : list Z)
| CLseek (fd offset whence : Z)
| CClose (fd : Z).

(** What a call returns, and the buffer that was read into. *)
Inductive vres :=
| VNum (r : Z)
| VRead (r : Z) (buf : list Z).

Definition do_vcall (fa : Z) (c : vcall) (s : vfs) : option (vfs * vres) :=
  match c with
  | COpen path flags => '(s, r) ← mcs_sys_open fa (Ref path) flags s; Some (s, VNum r)
  | CRead fd buf len => '(s, buf, r) ← mcs_sys_read fd buf len s; Some (s, VRead r buf)
  | CWrite fd x => '(s, r) ← mcs_sys_write fd x (zlen x) s; Some (s, VNum r)
  | CLseek fd offset whence => '(s, r) ← mcs_sys_lseek fd offset whence s; Some (s, VNum r)
  | CClose fd => '(s, r) ← mcs_sys_close fd s; Some (s, VNum r)
  end.

#[export] Instance vres_eq_dec : EqDecision vres.
Proof. solve_decision. Defined.

Fixpoint do_vcalls (fa : Z) (cs : list vcall) (s : vfs) : option (vfs * list vres) :=
  match cs with
  | [] => Some (s, [])
  | c :: cs' =>
      '(s, r) ← do_vcall fa c s;
      '(s, rs) ← do_vcalls fa cs' s;
      Some (s, r :: rs)
  end.

(** ** The specification

    Files by name; a descriptor is closed or has a name and an offset.
    Nothing is promised ([None]) beyond 32 files, for names of more than 30
    characters, for files of more than 256 bytes, for offsets beyond the end
    of a file, and for the root as a file. *)

Record avfs := Avfs {
  av_files : gmap (list Z) (list Z);
  av_fds : list (option (list Z * Z));
}.

Definition open_fd (a : avfs) (fd : Z) : option (list Z * Z) :=
  if decide (0 ≤ fd) then mjoin (av_fds a !! Z.to_nat fd) else None.
Definition move_fd (fd : Z) (o : option (list Z * Z)) (a : avfs) : avfs :=
  Avfs (av_files a) (<[Z.to_nat fd := o]> (av_fds a)).

Definition free_fd (a : avfs) : option nat := first_index (λ o, o = None) (av_fds a).

(** The string at the start of [s], when it ends in [s]. *)
Definition terminated (s : list Z) : option (list Z) :=
  if decide (length (cstr s) < length s)%nat then Some (cstr s) else None.

Definition spec_open (path : list Z) (flags : Z) (a : avfs) : option (avfs * Z) :=
  match path with
  | [] => None
  | c :: rest =>
      if negb (c =? 47) then Some (a, MCS_EINVAL) else
      match free_fd a with
      | None => Some (a, MCS_ENFILE)
      | Some fd =>
          nm ← terminated rest;
          if decide (1 ≤ length nm ≤ 30)%nat then
            let opened fs := Some (Avfs fs (<[fd := Some (nm, 0)]> (av_fds a)), Z.of_nat fd) in
            match av_files a !! nm with
            | Some _ => opened (av_files a)
            | None =>
                if Z.land flags MCS_O_CREAT =? 0 then Some (a, MCS_ENOENT)
                else if decide (size (av_files a) < 32)%nat then opened (<[nm := []]> (av_files a))
                else None
            end
          else None
      end
  end.

Definition vspec (c : vcall) (a : avfs) : option (avfs * vres) :=
  match c with
  | COpen path flags => '(a, r) ← spec_open path flags a; Some (a, VNum r)
  | CRead fd buf len =>
      match open_fd a fd with
      | None => Some (a, VRead MCS_EBADF buf)
      | Some (nm, off) =>
          f ← av_files a !! nm;
          let k := Z.min len (zlen f - off) in
          if decide (is_u64 len ∧ k ≤ zlen buf) then
            Some (move_fd fd (Some (nm, off + k)) a,
                  VRead k (slice (Z.to_nat off) (Z.to_nat k) f ++ drop (Z.to_nat k) buf))
          else None
      end
  | CWrite fd x =>
      match open_fd a fd with
      | None => Some (a, VNum MCS_EBADF)
      | Some (nm, off) =>
          f ← av_files a !! nm;
          if decide (off + zlen x ≤ 256) then
            let f' := take (Z.to_nat off) f ++ x ++ drop (Z.to_nat off + length x) f in
            Some (move_fd fd (Some (nm, off + zlen x)) (Avfs (<[nm := f']> (av_files a)) (av_fds a)),
                  VNum (zlen x))
          else None
      end
  | CLseek fd offset whence =>
      match open_fd a fd with
      | None => Some (a, VNum MCS_EBADF)
      | Some (nm, off) =>
          f ← av_files a !! nm;
          if negb (whence =? MCS_SEEK_SET) then Some (a, VNum off)
          else if decide (0 ≤ offset ≤ zlen f) then
            Some (move_fd fd (Some (nm, offset)) a, VNum offset)
          else None
      end
  | CClose fd =>
      match open_fd a fd with
      | None => Some (a, VNum MCS_EBADF)
      | Some _ => Some (move_fd fd None a, VNum MCS_OK)
      end
  end.

Fixpoint vspecs (cs : list vcall) (a : avfs) : option (avfs * list vres) :=
  match cs with
  | [] => Some (a, [])
  | c :: cs' =>
      '(a, r) ← vspec c a;
      '(a, rs) ← vspecs cs' a;
      Some (a, r :: rs)
  end.

(** ** The relation

    [names] are the names of the files in the order of their nodes, from node
    1 on. *)

Definition named (fs : mcs_ramfs) (files : gmap (list Z) (list Z)) (k : nat) (nm : list Z) : Prop :=
  (1 ≤ length nm ≤ 30)%nat ∧
  ∃ n, nodes fs !! S k = Some n ∧ holds (n_name n) nm ∧ files !! nm = Some (content fs n).

Record fs_rep (fs : mcs_ramfs) (names : list (list Z)) (files : gmap (list Z) (list Z)) : Prop := {
  fr_ok : fs_ok fs;
  fr_nodes : length (nodes fs) = 64%nat;
  fr_arrays : Forall (λ n, length (n_name n) = 32%nat) (nodes fs);
  fr_count : node_count fs = 1 + zlen names;
  fr_dom : dom files = list_to_set names;
  fr_nodup : NoDup names;
  fr_named : ∀ k nm, names !! k = Some nm → named fs files k nm;
}.

Definition fd_rep (fa : Z) (names : list (list Z)) (files : gmap (list Z) (list Z))
    (f : mcs_file) (o : option (list Z * Z)) : Prop :=
  match o with
  | None => f_used f = 0
  | Some (nm, off) =>
      f_used f ≠ 0 ∧ f_fs f = fa ∧ f_offset f = off ∧
      (∃ k, names !! k = Some nm ∧ f_node f = Z.of_nat (S k)) ∧
      ∃ c, files !! nm = Some c ∧ 0 ≤ off ≤ zlen c
  end.

(** The state [s], with the file system at [fa], stands for [a]. *)
Definition vfs_rep (fa : Z) (s : vfs) (a : avfs) : Prop :=
  ∃ fs names, fss s !! fa = Some fs ∧ fs_rep fs names (av_files a) ∧
    length (files s) = 16%nat ∧
    Forall2 (fd_rep fa names (av_files a)) (files s) (av_fds a).

(** ** Names *)

Lemma terminated_Some s n : terminated s = Some n → holds s n.
Proof. unfold terminated. case_decide; [|done]. intros [= <-]. by apply holds_cstr. Qed.

Lemma arr_get_at {A} (p : list A) c l : arr_get (p ++ c :: l) (zlen p) = Some c.
Proof. rewrite arr_get_nat by apply zlen_nonneg. unfold zlen. rewrite Nat2Z.id. by rewrite list_lookup_middle. Qed.

(** After equal beginnings of the two names, the comparison is that of the rest. *)
Lemma name_matches_run fuel p n n' r r' : nonzero n → nonzero n' → (length n < fuel)%nat →
  name_matches fuel (zlen p) (p ++ n ++ 0 :: r) (p ++ n' ++ 0 :: r') = Some (bool_decide (n = n')).
Proof.
  assert (Hget : ∀ c l, arr_get (p ++ c :: l) (zlen p) = Some c) by (intros ? ?; apply arr_get_at).
  intros Hn. revert fuel p n' Hget. induction Hn as [|c n Hc Hn IH]; intros [|fuel] p n' Hget Hn' Hf;
    cbn [length] in Hf; try lia; cbn [name_matches app]; rewrite Hget; cbn [mbind option_bind].
  - destruct Hn' as [|c' n' Hc' Hn']; cbn [app]; rewrite Hget; cbn [mbind option_bind].
    + by rewrite bool_decide_eq_true_2.
    + rewrite (proj2 (Z.eqb_neq c' 0)) by done. rewrite andb_false_r. by rewrite bool_decide_eq_false_2.
  - destruct Hn' as [|c' n' Hc' Hn']; cbn [app]; rewrite Hget; cbn [mbind option_bind];
      rewrite (proj2 (Z.eqb_neq c 0)) by done; cbn [negb andb].
    + by rewrite bool_decide_eq_false_2.
    + rewrite andb_true_r. destruct (Z.eqb_spec c c') as [<-|Hne].
      2:{ cbn [andb]. rewrite bool_decide_eq_false_2 by congruence. done. }
      assert (∀ l, p ++ c :: l = (p ++ [c]) ++ l) as E by (intros l; by rewrite <-(assoc_L _ p [c])).
      replace (zlen p + 1) with (zlen (p ++ [c])) by (unfold zlen; rewrite length_app; cbn; lia).
      cbn [andb]. rewrite (E (n ++ _)), (E (n' ++ _)), IH; [|by intros ? ?; apply arr_get_at|done|lia].
      f_equal. apply bool_decide_ext. split; congruence.
Qed.

Lemma name_matches_spec s s' n n' : holds s n → holds s' n' →
  name_matches (S (length s)) 0 s s' = Some (bool_decide (n = n')).
Proof.
  intros [Hn [r ->]] [Hn' [r' ->]]. apply (name_matches_run _ []); [done|done|].
  rewrite length_app. lia.
Qed.

Lemma lookup_loop_spec fs files s nm names k : holds s nm →
  (∀ i x, names !! i = Some x → named fs files (k + i) x) →
  lookup_loop (length names) (Z.of_nat (S k)) fs s =
  Some ((λ i, Z.of_nat (S (k + i))) <$> first_index (λ x, nm = x) names).
Proof.
  intros Hs. revert k. induction names as [|x names IH]; intros k Hnm; cbn [length lookup_loop first_index]; [done|].
  destruct (Hnm 0%nat x eq_refl) as [_ (n & Hn & Hh & _)]. rewrite Nat.add_0_r in Hn.
  rewrite arr_get_nat, Nat2Z.id, Hn by lia. cbn [mbind option_bind].
  rewrite (name_matches_spec _ _ _ _ Hs Hh). cbn [mbind option_bind].
  destruct (decide (nm = x)) as [->|Hne].
  { rewrite bool_decide_eq_true_2 by done. cbn. by rewrite Nat.add_0_r. }
  rewrite bool_decide_eq_false_2 by done. replace (Z.of_nat (S k) + 1) with (Z.of_nat (S (S k))) by lia.
  rewrite IH; [|intros i y Hy; rewrite Nat.add_succ_comm; by apply Hnm].
  destruct (first_index _ names); cbn [fmap option_fmap option_map]; [|done]. do 2 f_equal. lia.
Qed.

(** The loop that copies a name stops after the NUL. *)
Lemma copy_name_run k p n d s : holds s n → (length p < length d)%nat →
  (∃ m, n = p ++ m ∧ (length m < k)%nat) → (length n < length d)%nat →
  take (length p) d = p →
  ∃ d', copy_name k (zlen p) d s = Some d' ∧ holds d' n ∧ length d' = length d.
Proof.
  intros Hs. pose proof Hs as [Hn [r Hr]]. revert p d. induction k as [|k IH]; intros p d Hp (m & Hm & Hk) Hl Ht; [lia|].
  cbn [copy_name]. rewrite arr_get_nat by apply zlen_nonneg. unfold zlen. rewrite Nat2Z.id.
  destruct m as [|c m].
  - rewrite app_nil_r in Hm. subst p. rewrite Hr, list_lookup_middle by done. cbn [mbind option_bind].
    rewrite arr_set_ok by (unfold zlen; lia). rewrite Nat2Z.id. cbn [mbind option_bind]. change (0 =? 0) with true.
    eexists. split; [done|]. split; [|apply length_insert]. split; [done|].
    exists (drop (S (length n)) d). rewrite insert_take_drop by lia. by rewrite Ht.
  - assert (s !! length p = Some c) as ->.
    { rewrite Hr, Hm, <-(app_assoc p (c :: m)). cbn [app]. by rewrite list_lookup_middle. }
    cbn [mbind option_bind]. rewrite arr_set_ok by (unfold zlen; lia). rewrite Nat2Z.id. cbn [mbind option_bind].
    assert (c ≠ 0) as Hc.
    { rewrite Hm in Hn. apply Forall_app in Hn as [_ Hn]. by apply Forall_cons in Hn as [? _]. }
    rewrite (proj2 (Z.eqb_neq c 0)) by done.
    replace (Z.of_nat (length p) + 1) with (zlen (p ++ [c])) by (unfold zlen; rewrite length_app; cbn; lia).
    destruct (IH (p ++ [c]) (<[length p := c]> d)) as (d' & E & Hd & Hld).
    + rewrite length_app, length_insert. cbn [length]. rewrite Hm, length_app in Hl. cbn [length] in Hl. lia.
    + exists m. rewrite <-(assoc_L _ p [c]). split; [done|]. cbn [length] in Hk. lia.
    + by rewrite length_insert.
    + rewrite length_app. cbn [length]. rewrite Nat.add_1_r, (take_S_r _ _ c) by (apply list_lookup_insert_eq; lia).
      by rewrite take_insert_ge, Ht by lia.
    + exists d'. rewrite E. rewrite length_insert in Hld. done.
Qed.

Lemma copy_name_spec n d s : holds s n → (length n ≤ 30)%nat → length d = 32%nat →
  ∃ d', copy_name (Z.to_nat (MCS_MAX_NAME - 1)) 0 d s = Some d' ∧ holds d' n ∧ length d' = 32%nat.
Proof.
  intros Hs Hn Hd. destruct (copy_name_run (Z.to_nat (MCS_MAX_NAME - 1)) [] n d s Hs) as (d' & E & Hh & Hl).
  - cbn. lia.
  - exists n. split; [done|]. change (Z.to_nat (MCS_MAX_NAME - 1)) with 31%nat. lia.
  - lia.
  - done.
  - exists d'. split; [exact E|]. split; [done|lia].
Qed.

(** ** Descriptors *)

Lemma fd_row fa s a fd : vfs_rep fa s a → 0 ≤ fd < 16 →
  ∃ f o, arr_get (files s) fd = Some f ∧ av_fds a !! Z.to_nat fd = Some o ∧
    ∃ names, fd_rep fa names (av_files a) f o.
Proof.
  intros (fs & names & _ & _ & Hl & Hf) Hfd.
  destruct (arr_get_is_Some (files s) fd) as [f E]; [unfold zlen; lia|].
  pose proof (arr_get_Some _ _ _ E) as [_ E'].
  destruct (Forall2_lookup_l _ _ _ _ _ Hf E') as (o & Ho & Hr). eauto 6.
Qed.

Lemma fds_length fa s a : vfs_rep fa s a → length (av_fds a) = 16%nat.
Proof. intros (fs & names & _ & _ & Hl & Hf). by rewrite <-(Forall2_length _ _ _ Hf). Qed.

Lemma closed_get fa s a fd : vfs_rep fa s a → open_fd a fd = None → mcs_fd_get (files s) fd = Some Null.
Proof.
  intros H Hc. unfold mcs_fd_get, MCS_MAX_OPEN_FILES. destruct ((fd <? 0) || (16 <=? fd)) eqn:E; [done|].
  bool_prop. destruct (fd_row _ _ _ fd H) as (f & o & -> & Ho & names & Hr); [lia|]. cbn [mbind option_bind].
  unfold open_fd in Hc. rewrite decide_True, Ho in Hc by lia. cbn in Hc. subst o. cbn in Hr. by rewrite Hr.
Qed.

(** What is known of an open descriptor. *)
Lemma open_get fa s a fd nm off : vfs_rep fa s a → open_fd a fd = Some (nm, off) →
  ∃ f fs names n k, opened s fd f fs n ∧ f_fs f = fa ∧ f_offset f = off ∧
    fs_rep fs names (av_files a) ∧ names !! k = Some nm ∧ f_node f = Z.of_nat (S k) ∧
    av_files a !! nm = Some (content fs n) ∧
    length (files s) = 16%nat ∧ Forall2 (fd_rep fa names (av_files a)) (files s) (av_fds a).
Proof.
  intros (fs & names & Hfs & Hr & Hl & Hf). unfold open_fd. case_decide as Hfd; [|done].
  destruct (av_fds a !! Z.to_nat fd) as [p|] eqn:Ho; [|done]. cbn. intros ->.
  destruct (Forall2_lookup_r _ _ _ _ _ Hf Ho) as (f & Ef & Hu & Hfa & Hoff & (k & Hk & Hn) & c & Hc & Hlen).
  destruct (fr_named _ _ _ Hr k nm Hk) as [_ (n & En & _ & Hcn)].
  exists f, fs, names, n, k. split; [|by split_and!]. pose proof (lookup_lt_Some _ _ _ Ef).
  pose proof (lookup_lt_Some _ _ _ Hk). pose proof (fr_count _ _ _ Hr).
  rewrite Hc in Hcn. injection Hcn as ->.
  assert (1 ≤ f_node f < node_count fs) as Hi by (unfold zlen in *; lia).
  assert (arr_get (nodes fs) (f_node f) = Some n) as Hat by (rewrite arr_get_nat, Hn, Nat2Z.id by lia; done).
  split; [|by rewrite Hfa|apply Hr|done|done|].
  - unfold mcs_fd_get, MCS_MAX_OPEN_FILES. assert ((fd <? 0) || (16 <=? fd) = false) as -> by lia.
    rewrite arr_get_nat, Ef by lia. cbn [mbind option_bind]. by rewrite (proj2 (Z.eqb_neq _ _)).
  - destruct (fo_files _ (fr_ok _ _ _ Hr) _ _ Hi Hat) as [Ho' Hs]. pose proof (fo_data _ (fr_ok _ _ _ Hr)) as Hd.
    pose proof (fo_count _ (fr_ok _ _ _ Hr)). unfold MCS_RAMFS_DATA_BYTES in Hd.
    unfold content, zlen in *. rewrite slice_length in Hlen; lia.
Qed.

Lemma fd_rep_mono fa names files names' files' f o :
  (∀ k nm, names !! k = Some nm → names' !! k = Some nm) →
  (∀ nm c, files !! nm = Some c → ∃ c', files' !! nm = Some c' ∧ zlen c ≤ zlen c') →
  fd_rep fa names files f o → fd_rep fa names' files' f o.
Proof.
  intros Hn Hf. destruct o as [[nm off]|]; [|done].
  intros (Hu & Hfa & Hoff & (k & Hk & Hnd) & c & Hc & Hlen). destruct (Hf _ _ Hc) as (c' & Hc' & ?).
  repeat split; try done; [by eauto|]. exists c'. split; [done|lia].
Qed.

(** A descriptor is changed, and perhaps the file system with it. *)
Lemma vfs_rep_set fa s a fd f' t o fs' names names' fls :
  length (files s) = 16%nat → Forall2 (fd_rep fa names (av_files a)) (files s) (av_fds a) →
  arr_set (files s) fd f' = Some t → fs_rep fs' names' fls →
  (∀ k nm, names !! k = Some nm → names' !! k = Some nm) →
  (∀ nm c, av_files a !! nm = Some c → ∃ c', fls !! nm = Some c' ∧ zlen c ≤ zlen c') →
  fd_rep fa names' fls f' o →
  vfs_rep fa (Vfs t (<[fa := fs']> (fss s))) (Avfs fls (<[Z.to_nat fd := o]> (av_fds a))).
Proof.
  intros Hl Hf Ht Hfs Hn Hc Hr. apply arr_set_Some in Ht as [Hfd ->].
  exists fs', names'. cbn [fss files av_files av_fds]. split; [apply lookup_insert_eq|]. split; [done|].
  split; [by rewrite length_insert|]. apply Forall2_insert; [|done].
  eapply Forall2_impl; [exact Hf|]. intros f p. by apply fd_rep_mono.
Qed.

Lemma vfs_rep_move fa s a fd f' t o names fs :
  fss s !! fa = Some fs → fs_rep fs names (av_files a) →
  length (files s) = 16%nat → Forall2 (fd_rep fa names (av_files a)) (files s) (av_fds a) →
  arr_set (files s) fd f' = Some t → fd_rep fa names (av_files a) f' o →
  vfs_rep fa (Vfs t (fss s)) (move_fd fd o a).
Proof.
  intros Hfs Hr Hl Hf Ht Ho. rewrite <-(insert_id (fss s) fa fs) by done.
  eapply vfs_rep_set; try done. intros nm c Hc. exists c. split; [done|lia].
Qed.

(** ** The calls on open descriptors *)

Lemma read_refines fa s a a' fd buf len r : vfs_rep fa s a → vspec (CRead fd buf len) a = Some (a', r) →
  ∃ s', do_vcall fa (CRead fd buf len) s = Some (s', r) ∧ vfs_rep fa s' a'.
Proof.
  intros H. cbn [vspec do_vcall]. destruct (open_fd a fd) as [[nm off]|] eqn:Ho.
  2:{ intros [= <- <-]. unfold mcs_sys_read. rewrite (closed_get _ _ _ _ H Ho). eauto. }
  destruct (open_get _ _ _ _ _ _ H Ho) as (f & fs & names & n & k & Op & Hfa & Hoff & Hr & Hk & Hn & Hc & Hl & Hf).
  rewrite Hc. cbn [mbind option_bind]. case_decide as Hb; [|done]. intros [= <- <-].
  destruct (opened_content _ _ _ _ _ Op) as (Hz & _). rewrite Hz in *. subst off. destruct Hb as [Hu Hb].
  pose proof (op_offset _ _ _ _ _ Op).
  destruct (read_run s fd f fs n buf len Op) as (t & E & Ht & _); [done|lia|].
  rewrite E. cbn [mbind option_bind]. eexists. split; [done|].
  pose proof (op_fs _ _ _ _ _ Op) as Hfs. rewrite Hfa in Hfs.
  eapply vfs_rep_move; try done. pose proof (op_get _ _ _ _ _ Op) as (_ & _ & Hne & _)%fd_get_inv.
  split_and!; cbn [set_offset f_used f_fs f_offset f_node]; try done; [by eauto|].
  exists (content fs n). split; [done|]. words.
Qed.

Lemma lseek_refines fa s a a' fd o w r : vfs_rep fa s a → vspec (CLseek fd o w) a = Some (a', r) →
  ∃ s', do_vcall fa (CLseek fd o w) s = Some (s', r) ∧ vfs_rep fa s' a'.
Proof.
  intros H. cbn [vspec do_vcall]. destruct (open_fd a fd) as [[nm off]|] eqn:Ho.
  2:{ intros [= <- <-]. unfold mcs_sys_lseek. rewrite (closed_get _ _ _ _ H Ho). eauto. }
  destruct (open_get _ _ _ _ _ _ H Ho) as (f & fs & names & n & k & Op & Hfa & Hoff & Hr & Hk & Hn & Hc & Hl & Hf).
  rewrite Hc. cbn [mbind option_bind].
  destruct (opened_content _ _ _ _ _ Op) as (Hz & _ & _ & Hs & _). rewrite Hz.
  pose proof (op_offset _ _ _ _ _ Op). pose proof (op_get _ _ _ _ _ Op) as Hg.
  pose proof (fd_get_inv _ _ _ Hg) as (Hfd & Hat & Hne & Hfz). apply arr_get_Some in Hat as [_ Hat].
  destruct (negb (w =? MCS_SEEK_SET)) eqn:Ew.
  - intros [= <- <-]. apply negb_true_iff in Ew. unfold mcs_sys_lseek. rewrite Hg. cbn [mbind option_bind].
    rewrite Ew, arr_set_ok by lia. cbn [mbind option_bind].
    rewrite i32_small by lia. rewrite Hoff. eexists. split; [done|].
    rewrite list_insert_id by (rewrite Hat, <-Hoff; by destruct f). by destruct s.
  - apply negb_false_iff, Z.eqb_eq in Ew as ->. case_decide as Hb; [|done]. intros [= <- <-].
    destruct (lseek_run s fd f fs n o Op) as (t & E & Ht & _); [done|].
    rewrite E. cbn [mbind option_bind]. eexists. split; [done|].
    pose proof (op_fs _ _ _ _ _ Op) as Hfs. rewrite Hfa in Hfs. eapply vfs_rep_move; try done.
    split_and!; cbn [set_offset f_used f_fs f_offset f_node]; try done; [by eauto|].
    exists (content fs n). split; [done|]. lia.
Qed.

Lemma close_refines fa s a a' fd r : vfs_rep fa s a → vspec (CClose fd) a = Some (a', r) →
  ∃ s', do_vcall fa (CClose fd) s = Some (s', r) ∧ vfs_rep fa s' a'.
Proof.
  intros H. cbn [vspec do_vcall]. unfold mcs_sys_close. destruct (open_fd a fd) as [[nm off]|] eqn:Ho.
  2:{ intros [= <- <-]. rewrite (closed_get _ _ _ _ H Ho). eauto. }
  destruct (open_get _ _ _ _ _ _ H Ho) as (f & fs & names & n & k & Op & Hfa & Hoff & Hr & Hk & Hn & Hc & Hl & Hf).
  intros [= <- <-]. pose proof (op_get _ _ _ _ _ Op) as Hg. pose proof (fd_get_inv _ _ _ Hg) as (Hfd & _ & _ & Hfz).
  rewrite Hg. cbn [mbind option_bind]. rewrite arr_set_ok by lia. cbn [mbind option_bind].
  eexists. split; [done|]. pose proof (op_fs _ _ _ _ _ Op) as Hfs. rewrite Hfa in Hfs.
  eapply vfs_rep_move; try done; [apply arr_set_ok; lia|done].
Qed.

(** The file system after a write to the file [nm] of node [S k]. *)
Lemma fs_rep_write fs fs' names fls k nm n n' c :
  fs_rep fs names fls → fs_ok fs' → names !! k = Some nm → nodes fs !! S k = Some n →
  nodes fs' = <[S k := n']> (nodes fs) → node_count fs' = node_count fs → n_name n' = n_name n →
  content fs' n' = c →
  (∀ j m, j ≠ Z.of_nat (S k) → 1 ≤ j < node_count fs → arr_get (nodes fs) j = Some m →
     arr_get (nodes fs') j = Some m ∧ content fs' m = content fs m) →
  fs_rep fs' names (<[nm := c]> fls).
Proof.
  intros [Hok Hlen Harr Hcnt Hdom Hnd Hnamed] Hok' Hk Hn Hns Hcnt' Hnm Hc Hoth.
  split; [done|by rewrite Hns, length_insert| |by rewrite Hcnt'| |done|].
  - rewrite Hns. apply Forall_insert; [done|]. rewrite Hnm. by apply (Forall_lookup_1 _ _ _ _ Harr Hn).
  - rewrite dom_insert_L, Hdom. apply list_elem_of_lookup_2 in Hk. apply subseteq_union_1_L.
    apply singleton_subseteq_l, elem_of_list_to_set. done.
  - intros j x Hj. destruct (Hnamed j x Hj) as [Hx (m & Hm & Hh & Hcm)]. split; [done|].
    destruct (decide (j = k)) as [->|Hne].
    + exists n'. assert (x = nm) as -> by congruence. assert (m = n) as -> by congruence.
      rewrite Hns, list_lookup_insert_eq by (by eapply lookup_lt_Some). rewrite Hnm, Hc.
      split_and!; [done|done|]. apply lookup_insert_eq.
    + pose proof (lookup_lt_Some _ _ _ Hj). unfold zlen in Hcnt.
      destruct (Hoth (Z.of_nat (S j)) m) as [Hm' Hc']; [lia|lia|by rewrite arr_get_nat, Nat2Z.id by lia|].
      exists m. rewrite Hc', arr_get_nat, Nat2Z.id in * by lia. split_and!; [done|done|].
      rewrite lookup_insert_ne; [done|]. intros ->. by apply Hne, (NoDup_lookup names j k x).
Qed.

Lemma write_refines fa s a a' fd x r : vfs_rep fa s a → vspec (CWrite fd x) a = Some (a', r) →
  ∃ s', do_vcall fa (CWrite fd x) s = Some (s', r) ∧ vfs_rep fa s' a'.
Proof.
  intros H. cbn [vspec do_vcall]. destruct (open_fd a fd) as [[nm off]|] eqn:Ho.
  2:{ intros [= <- <-]. unfold mcs_sys_write. rewrite (closed_get _ _ _ _ H Ho). eauto. }
  destruct (open_get _ _ _ _ _ _ H Ho) as (f & fs & names & n & k & Op & Hfa & Hoff & Hr & Hk & Hn & Hc & Hl & Hf).
  rewrite Hc. cbn [mbind option_bind]. case_decide as Hb; [|done]. intros [= <- <-]. subst off.
  pose proof (op_get _ _ _ _ _ Op) as (_ & _ & Hne & _)%fd_get_inv.
  destruct (write_run s fd f fs n x Op Hb) as (t & fs' & n' & E & Ht & Hns & Hcnt & Hnm & Op' & Hcx & Hoth).
  rewrite E. cbn [mbind option_bind]. eexists. split; [done|]. unfold move_fd. cbn [av_files av_fds].
  destruct (opened_content _ _ _ _ _ Op) as (Hz & _). destruct (opened_content _ _ _ _ _ Op') as (Hz' & _).
  pose proof (op_offset _ _ _ _ _ Op). pose proof (op_offset _ _ _ _ _ Op') as Ho'. cbn in Ho'.
  pose proof (op_at _ _ _ _ _ Op) as Hat. rewrite Hn in Hat, Hns. rewrite arr_get_nat in Hat by lia.
  rewrite Nat2Z.id in Hat, Hns.
  assert (zlen (content fs n) ≤ zlen (content fs' n')) as Hgrow.
  { rewrite Hcx. unfold zlen. rewrite !length_app, length_take, length_drop. lia. }
  rewrite <-Hcx, Hfa. eapply vfs_rep_set; try done.
  - eapply fs_rep_write; try done; [apply Op'|]. intros j m Hj. apply Hoth. lia.
  - intros nm' c Hnm'. destruct (decide (nm' = nm)) as [->|].
    + exists (content fs' n'). split; [apply lookup_insert_eq|]. congruence.
    + exists c. rewrite lookup_insert_ne by done. split; [done|lia].
  - split_and!; cbn [set_offset f_used f_fs f_offset f_node]; try done; [by eauto|].
    exists (content fs' n'). split; [apply lookup_insert_eq|]. pose proof (zlen_nonneg x). lia.
Qed.

(** ** Opening *)

Lemma fd_alloc_loop_run n i (table : list mcs_file) : (i + n = length table)%nat →
  fd_alloc_loop n (Z.of_nat i) table =
  match first_index (λ f, f_used f = 0) (drop i table) with
  | None => Some (table, MCS_ENFILE)
  | Some j => f ← table !! (i + j)%nat; Some (<[(i + j)%nat := set_used 1 f]> table, Z.of_nat (i + j))
  end.
Proof.
  revert i. induction n as [|n IH]; intros i Hi; cbn [fd_alloc_loop].
  { rewrite drop_ge by lia. done. }
  destruct (lookup_lt_is_Some_2 table i) as [f Hf]; [lia|]. rewrite (drop_S _ _ _ Hf). cbn [first_index].
  rewrite arr_get_nat, Nat2Z.id, Hf by lia. cbn [mbind option_bind].
  destruct (decide (f_used f = 0)) as [E|E]; [rewrite E|rewrite (proj2 (Z.eqb_neq _ _)) by done].
  - change (0 =? 0) with true. rewrite arr_set_ok by (unfold zlen; lia).
    by rewrite Nat.add_0_r, Hf, Nat2Z.id.
  - replace (Z.of_nat i + 1) with (Z.of_nat (S i)) by lia. rewrite IH by lia.
    destruct (first_index _ _); cbn [fmap option_fmap option_map]; [|done]. by rewrite Nat.add_succ_comm.
Qed.

Lemma fd_alloc_run fa names fls table fds : length table = 16%nat → Forall2 (fd_rep fa names fls) table fds →
  mcs_fd_alloc table =
  match first_index (λ o, o = None) fds with
  | None => Some (table, MCS_ENFILE)
  | Some j => f ← table !! j; Some (<[j := set_used 1 f]> table, Z.of_nat j)
  end.
Proof.
  intros Hl Hf. unfold mcs_fd_alloc. rewrite (fd_alloc_loop_run _ 0) by (rewrite Hl; done). rewrite drop_0.
  rewrite (first_index_Forall2 _ (λ o, o = None) table fds); [done|].
  eapply Forall2_impl; [exact Hf|]. intros f [[nm off]|]; cbn; [|done].
  intros (Hu & _). split; done.
Qed.

Lemma fs_ok_create fs n' : fs_ok fs → node_count fs < 33 → length (nodes fs) = 64%nat →
  n_data_offset n' = 256 * (node_count fs - 1) → n_size n' = 0 →
  fs_ok (Ramfs (<[Z.to_nat (node_count fs) := n']> (nodes fs)) (node_count fs + 1) (data fs)
    (256 * (node_count fs - 1) + 256)).
Proof.
  intros [Hd Hc1 Hc2 Hused Hfiles] Hlt Hlen Hoff Hsz.
  split; cbn [nodes node_count data data_used]; try done; try (rewrite ?zlen_insert; unfold zlen; lia).
  intros j m Hj Hm. rewrite arr_get_insert in Hm by (unfold zlen; lia).
  case_decide as E; [injection Hm as <-; subst j; lia|]. apply Hfiles; [lia|done].
Qed.

Section node.
Context (fs : mcs_ramfs) (names : list (list Z)) (fls : gmap (list Z) (list Z)).
Context (rest nm : list Z) (Hrep : fs_rep fs names fls) (Hrest : holds rest nm) (Hnm : (1 ≤ length nm ≤ 30)%nat).

Lemma path_name_run : path_name (47 :: rest) = Some rest.
Proof. done. Qed.

Lemma lookup_run : mcs_ramfs_lookup (Ref fs) (Ref (47 :: rest)) =
  Some (match first_index (λ x, nm = x) names with
        | Some k => inr (Z.of_nat (S k)) | None => inl MCS_ENOENT end).
Proof using Type*.
  unfold mcs_ramfs_lookup. change (arr_get (47 :: rest) 0) with (Some 47). cbn [mbind option_bind].
  change (47 =? 47) with true. cbv iota. pose proof Hrest as [Hz [r Hr]].
  assert (∃ c l, rest = c :: l ∧ c ≠ 0) as (c & l & Hc & Hc0).
  { destruct Hz as [|c n Hc _]; [cbn in Hnm; lia|]. rewrite Hr. cbn. eauto. }
  assert (arr_get (47 :: rest) 1 = Some c) as -> by (rewrite Hc; done). cbn [mbind option_bind].
  rewrite (proj2 (Z.eqb_neq c 0)) by done. cbv iota. rewrite path_name_run. cbn [mbind option_bind].
  rewrite (fr_count _ _ _ Hrep). replace (Z.to_nat (1 + zlen names - 1)) with (length names) by (unfold zlen; lia).
  pose proof (lookup_loop_spec fs fls rest nm names 0 Hrest (fr_named _ _ _ Hrep)) as E.
  change (Z.of_nat 1) with 1 in E. rewrite E. cbn [mbind option_bind].
  by destruct (first_index _ names).
Qed.

Lemma create_run : nm ∉ names → (length names < 32)%nat →
  ∃ fs', mcs_ramfs_create_file fs (47 :: rest) = Some (fs', inr (Z.of_nat (S (length names)))) ∧
    fs_rep fs' (names ++ [nm]) (<[nm := []]> fls).
Proof using Type*.
  intros Hnew Hlt. destruct Hrep as [Hok Hlen Harr Hcnt Hdom Hnd Hnamed]. pose proof Hok as [Hd Hc1 Hc2 Hused Hfiles].
  assert (node_count fs = Z.of_nat (S (length names))) as Hi by (unfold zlen in *; lia).
  set (i := S (length names)) in *.
  destruct (lookup_lt_is_Some_2 (nodes fs) i) as [n Hn]; [lia|].
  destruct (copy_name_spec nm (n_name n) rest) as (d & Ed & Hh & Hdl); [done|lia| |].
  { by apply (Forall_lookup_1 _ _ _ _ Harr Hn). }
  unfold mcs_ramfs_create_file, MCS_MAX_NODES. rewrite Hi. assert ((64 <=? Z.of_nat i) = false) as -> by lia.
  rewrite arr_get_nat, Nat2Z.id, Hn by lia. cbn [mbind option_bind]. rewrite path_name_run. cbn [mbind option_bind].
  rewrite Ed. cbn [mbind option_bind]. rewrite arr_set_ok by (unfold zlen; lia). cbn [mbind option_bind].
  rewrite Nat2Z.id, Hused, Hi, !u64_small by words. eexists. split; [done|].
  set (n' := Vnode _ _ _ _ _ _ _ _).
  split; cbn [nodes node_count data data_used].
  - pose proof (fs_ok_create fs n' Hok) as H. rewrite Hi, Nat2Z.id in H. apply H; (done || cbn; lia).
  - by rewrite length_insert.
  - by apply Forall_insert.
  - unfold zlen. rewrite length_app. cbn [length]. lia.
  - rewrite dom_insert_L, Hdom, list_to_set_app_L. cbn. by rewrite (right_id_L ∅ (∪)), (comm_L (∪)).
  - apply NoDup_app. split_and!; [done| |apply NoDup_singleton].
    intros x Hx ->%list_elem_of_singleton. done.
  - intros k x Hk. destruct (decide (k = length names)) as [->|Hne].
    + rewrite list_lookup_middle in Hk by done. injection Hk as <-. split; [done|]. exists n'.
      cbn [nodes]. rewrite list_lookup_insert_eq by lia. split_and!; [done|done|].
      rewrite lookup_insert_eq. done.
    + pose proof (lookup_lt_Some _ _ _ Hk) as Hkl. rewrite length_app in Hkl. cbn [length] in Hkl.
      rewrite lookup_app_l in Hk by lia. destruct (Hnamed k x Hk) as [Hx (m & Hm & Hhm & Hcm)].
      split; [done|]. exists m. cbn [nodes]. rewrite list_lookup_insert_ne by lia. split_and!; [done|done|].
      rewrite lookup_insert_ne; [done|]. intros <-. apply Hnew. by eapply list_elem_of_lookup_2.
Qed.
End node.

(** The names of the files are the known ones. *)
Lemma known_name fs names fls nm : fs_rep fs names fls →
  match first_index (λ x, nm = x) names with
  | Some k => names !! k = Some nm ∧ ∃ c, fls !! nm = Some c
  | None => (nm ∉ names) ∧ fls !! nm = None
  end.
Proof.
  intros Hr. destruct (first_index _ names) as [k|] eqn:E.
  - apply first_index_Some in E as (x & Hk & <-). split; [done|].
    destruct (fr_named _ _ _ Hr k nm Hk) as [_ (n & _ & _ & Hc)]. eauto.
  - assert (nm ∉ names) as Hn by (intros Hn; by apply (first_index_None _ _ E nm)). split; [done|].
    apply not_elem_of_dom. rewrite (fr_dom _ _ _ Hr), elem_of_list_to_set. done.
Qed.

Lemma rep_size fs names fls : fs_rep fs names fls → size fls = length names.
Proof.
  intros Hr. rewrite <-size_dom, (fr_dom _ _ _ Hr). apply size_list_to_set. apply Hr.
Qed.

(** The node that [mcs_sys_open] finds or creates. *)
Lemma open_node_run fs names fls rest nm flags fds fd a' r : fs_rep fs names fls → holds rest nm →
  (1 ≤ length nm ≤ 30)%nat → free_fd (Avfs fls fds) = Some fd →
  spec_open (47 :: rest) flags (Avfs fls fds) = Some (a', r) →
  (r = MCS_ENOENT ∧ a' = Avfs fls fds ∧ open_node fs (47 :: rest) flags = Some (fs, None)) ∨
  ∃ fs' names' fls' k, r = Z.of_nat fd ∧ a' = Avfs fls' (<[fd := Some (nm, 0)]> fds) ∧
    open_node fs (47 :: rest) flags = Some (fs', Some (Z.of_nat (S k))) ∧ fs_rep fs' names' fls' ∧
    names' !! k = Some nm ∧ (∃ c, fls' !! nm = Some c) ∧
    (∀ k nm, names !! k = Some nm → names' !! k = Some nm) ∧
    (∀ nm c, fls !! nm = Some c → fls' !! nm = Some c).
Proof.
  intros Hr Hh Hnm Hfd Hs. cbn [spec_open] in Hs. change (47 =? 47) with true in Hs. cbn [negb] in Hs. cbv iota in Hs.
  rewrite Hfd in Hs. cbn [av_files av_fds] in Hs.
  assert (terminated rest = Some nm) as Ht.
  { unfold terminated. rewrite (cstr_holds _ _ Hh), decide_True; [done|].
    destruct Hh as [_ [r' ->]]. rewrite length_app. cbn. lia. }
  rewrite Ht in Hs. cbn [mbind option_bind] in Hs. rewrite decide_True in Hs by done.
  unfold open_node. rewrite (lookup_run fs names fls rest nm Hr Hh Hnm). cbn [mbind option_bind].
  pose proof (known_name fs names fls nm Hr) as Hk. destruct (first_index _ names) as [k|].
  - destruct Hk as [Hk [c Hc]]. rewrite Hc in Hs. injection Hs as <- <-. right.
    exists fs, names, fls, k. split_and!; try done; eauto.
  - destruct Hk as [Hk Hc]. rewrite Hc in Hs. destruct (Z.land flags MCS_O_CREAT =? 0).
    { injection Hs as <- <-. by left. }
    rewrite (rep_size _ _ _ Hr) in Hs. case_decide as Hlt; [|done]. injection Hs as <- <-. right.
    destruct (create_run fs names fls rest nm Hr Hh Hnm Hk Hlt) as (fs' & -> & Hr'). cbn [mbind option_bind].
    exists fs', (names ++ [nm]), (<[nm := []]> fls), (length names). split_and!; try done.
    + by apply list_lookup_middle.
    + exists []. apply lookup_insert_eq.
    + intros k x Hx. by apply lookup_app_l_Some.
    + intros x c Hx. rewrite lookup_insert_ne; congruence.
Qed.

(** The state with slot [j] of the descriptors changed. *)
Lemma vfs_rep_slot fa s fls fds names j f' o fs' names' fls' :
  length (files s) = 16%nat → Forall2 (fd_rep fa names fls) (files s) fds → (j < 16)%nat →
  fs_rep fs' names' fls' → (∀ k nm, names !! k = Some nm → names' !! k = Some nm) →
  (∀ nm c, fls !! nm = Some c → fls' !! nm = Some c) → fd_rep fa names' fls' f' o →
  vfs_rep fa (Vfs (<[j := f']> (files s)) (<[fa := fs']> (fss s))) (Avfs fls' (<[j := o]> fds)).
Proof.
  intros Hl Hf Hj Hr Hn Hc Ho.
  pose proof (vfs_rep_set fa s (Avfs fls fds) (Z.of_nat j) f' (<[j := f']> (files s)) o fs' names names' fls') as H.
  rewrite Nat2Z.id in H. apply H; try done.
  - rewrite arr_set_ok by (unfold zlen; lia). by rewrite Nat2Z.id.
  - intros nm c Hnm. exists c. split; [by apply Hc|lia].
Qed.

Lemma open_refines fa s a a' path flags r : vfs_rep fa s a → vspec (COpen path flags) a = Some (a', r) →
  ∃ s', do_vcall fa (COpen path flags) s = Some (s', r) ∧ vfs_rep fa s' a'.
Proof.
  intros H Hv. cbn [vspec] in Hv. destruct (spec_open path flags a) as [[a1 r1]|] eqn:Hs; [|done].
  cbn in Hv. injection Hv as <- <-. cbn [do_vcall]. unfold mcs_sys_open.
  destruct path as [|c rest]; [done|]. change (arr_get (c :: rest) 0) with (Some c). cbn [mbind option_bind].
  destruct (Z.eqb_spec c 47) as [->|Hc]; cbn [negb].
  2:{ cbn [spec_open] in Hs. rewrite (proj2 (Z.eqb_neq c 47)) in Hs by done. injection Hs as <- <-. eauto. }
  pose proof H as (fs & names & Hfs & Hr & Hl & Hf). destruct a as [fls fds]. cbn [av_files av_fds] in *.
  rewrite (fd_alloc_run _ _ _ _ _ Hl Hf). destruct (free_fd (Avfs fls fds)) as [j|] eqn:Hfd.
  2:{ cbn [spec_open] in Hs. rewrite Hfd in Hs. injection Hs as <- <-. unfold free_fd in Hfd. cbn [av_fds] in Hfd.
      rewrite Hfd. cbn [mbind option_bind]. change (MCS_ENFILE <? 0) with true. destruct s. eauto. }
  assert (∃ nm, holds rest nm ∧ (1 ≤ length nm ≤ 30)%nat) as (nm & Hh & Hnm).
  { cbn [spec_open] in Hs. rewrite Hfd in Hs. cbn in Hs. destruct (terminated rest) as [nm|] eqn:Et; [|done].
    cbn in Hs. case_decide; [|done]. eauto using terminated_Some. }
  pose proof Hfd as Hj. unfold free_fd in Hj. cbn [av_fds] in Hj. rewrite Hj.
  apply first_index_Some in Hj as (o & Hj & ->).
  destruct (Forall2_lookup_r _ _ _ _ _ Hf Hj) as (f & Ef & Hu). rewrite Ef. cbn [mbind option_bind].
  pose proof (lookup_lt_Some _ _ _ Ef).
  rewrite (proj2 (Z.ltb_ge _ _)) by lia. rewrite Hfs. cbn [mbind option_bind].
  assert (Hset : ∀ x, arr_set (<[j := set_used 1 f]> (files s)) (Z.of_nat j) x = Some (<[j := x]> (files s))).
  { intros x. rewrite arr_set_ok by (rewrite zlen_insert; unfold zlen; lia).
    by rewrite Nat2Z.id, list_insert_insert_eq. }
  destruct (open_node_run _ _ _ _ _ _ _ _ _ _ Hr Hh Hnm Hfd Hs)
    as [(-> & -> & ->)|(fs' & names' & fls' & k & -> & -> & -> & Hr' & Hk & [c Hc] & Hn & Hg)];
    cbn [mbind option_bind]; rewrite arr_get_nat, Nat2Z.id, list_lookup_insert_eq by lia; cbn [mbind option_bind];
    rewrite Hset; cbn [mbind option_bind]; (eexists; split; [done|]).
  - rewrite <-(list_insert_id fds j None) by done. eapply vfs_rep_slot; try done. lia.
  - eapply vfs_rep_slot; try done; [lia|]. split_and!; cbn; try done; [by eauto|].
    exists c. split; [done|]. pose proof (zlen_nonneg c). lia.
Qed.

(** ** Programs *)

Lemma vcall_refines fa s a a' c r : vfs_rep fa s a → vspec c a = Some (a', r) →
  ∃ s', do_vcall fa c s = Some (s', r) ∧ vfs_rep fa s' a'.
Proof.
  destruct c; [apply open_refines|apply read_refines|apply write_refines|apply lseek_refines|apply close_refines].
Qed.

Lemma vcalls_refine fa cs s a a' rs : vfs_rep fa s a → vspecs cs a = Some (a', rs) →
  ∃ s', do_vcalls fa cs s = Some (s', rs) ∧ vfs_rep fa s' a'.
Proof.
  revert s a rs. induction cs as [|c cs IH]; intros s a rs H; cbn [vspecs do_vcalls].
  { intros [= <- <-]. eauto. }
  destruct (vspec c a) as [[a1 r]|] eqn:E; [|done]. cbn [mbind option_bind].
  destruct (vspecs cs a1) as [[a2 rs']|] eqn:E'; [|done]. cbn [mbind option_bind]. intros [= <- <-].
  destruct (vcall_refines _ _ _ _ _ _ H E) as (s1 & -> & H1). cbn [mbind option_bind].
  destruct (IH _ _ _ H1 E') as (s2 & -> & H2). cbn [mbind option_bind]. eauto.
Qed.

(** ** The start *)

(** [mcs_ramfs_seed_file] for each name and contents. *)
Fixpoint seed_files (seeds : list (list Z * list Z)) (fs : mcs_ramfs) : option mcs_ramfs :=
  match seeds with
  | [] => Some fs
  | (nm, x) :: seeds' =>
      '(fs, rc) ← mcs_ramfs_seed_file fs (47 :: nm ++ [0]) x (zlen x);
      if rc =? MCS_OK then seed_files seeds' fs else None
  end.

Definition seed_ok (seed : list Z * list Z) : Prop :=
  nonzero seed.1 ∧ (1 ≤ length seed.1 ≤ 30)%nat ∧ zlen seed.2 ≤ 256.

#[export] Instance seed_ok_dec seed : Decision (seed_ok seed).
Proof. unfold seed_ok. apply _. Defined.

(** Memory for a file system, with anything in it. *)
Definition ramfs_memory (fs : mcs_ramfs) : Prop :=
  length (nodes fs) = 64%nat ∧ Forall (λ n, length (n_name n) = 32%nat) (nodes fs) ∧
  zlen (data fs) = MCS_RAMFS_DATA_BYTES.

Lemma init_run fs : ramfs_memory fs → ∃ fs', mcs_ramfs_init (Ref fs) = Some (Ref fs') ∧ fs_rep fs' [] ∅.
Proof.
  intros (Hl & Hn & Hd). destruct (lookup_lt_is_Some_2 (nodes fs) 0) as [n En]; [lia|].
  assert (length (n_name n) = 32%nat) as Hln by apply (Forall_lookup_1 _ _ _ _ Hn En).
  unfold mcs_ramfs_init. rewrite arr_get_nat by lia. change (Z.to_nat 0) with 0%nat. rewrite En. cbn [mbind option_bind].
  rewrite !arr_set_ok by (rewrite ?zlen_insert; unfold zlen; lia). cbn [mbind option_bind].
  rewrite !arr_set_ok by (rewrite ?zlen_insert; unfold zlen; lia). cbn [mbind option_bind].
  rewrite !arr_set_ok by (rewrite ?zlen_insert; unfold zlen; lia). cbn [mbind option_bind].
  eexists. split; [done|]. split; cbn [nodes node_count]; try done.
  - split; cbn [nodes node_count data data_used]; try done; [rewrite zlen_insert; unfold zlen; lia|lia].
  - by rewrite length_insert.
  - apply Forall_insert; [done|]. cbn. by rewrite !length_insert.
  - apply NoDup_nil_2.
Qed.

Lemma seed_run fs names fls nm x : fs_rep fs names fls → nm ∉ names → (length names < 32)%nat →
  seed_ok (nm, x) →
  ∃ fs', mcs_ramfs_seed_file fs (47 :: nm ++ [0]) x (zlen x) = Some (fs', MCS_OK) ∧
    fs_rep fs' (names ++ [nm]) (<[nm := x]> fls).
Proof.
  intros Hr Hnew Hlt (Hnz & Hlen & Hx). cbn [fst snd] in *.
  assert (holds (nm ++ [0]) nm) as Hh by (split; [done|by exists []]).
  destruct (create_run fs names fls _ nm Hr Hh Hlen Hnew Hlt) as (fs1 & E & Hr1).
  unfold mcs_ramfs_seed_file. rewrite E. cbn [mbind option_bind].
  assert ((names ++ [nm]) !! length names = Some nm) as Hk by by apply list_lookup_middle.
  destruct (fr_named _ _ _ Hr1 _ _ Hk) as [_ (n & Hn & Hnh & Hc)]. rewrite lookup_insert_eq in Hc.
  injection Hc as Hc. rewrite arr_get_nat, Nat2Z.id, Hn by lia. cbn [mbind option_bind].
  pose proof (fr_count _ _ _ Hr1) as Hcnt. unfold zlen in Hcnt at 1. rewrite length_app in Hcnt. cbn [length] in Hcnt.
  assert (arr_get (nodes fs1) (Z.of_nat (S (length names))) = Some n) as Hat by (rewrite arr_get_nat, Nat2Z.id by lia; done).
  assert (1 ≤ Z.of_nat (S (length names)) < node_count fs1) as Hi by lia.
  destruct (fo_files _ (fr_ok _ _ _ Hr1) _ _ Hi Hat) as [Ho Hs].
  pose proof (fo_data _ (fr_ok _ _ _ Hr1)) as Hd. unfold MCS_RAMFS_DATA_BYTES in Hd.
  assert (n_size n = 0) as Hsz.
  { assert (zlen (content fs1 n) = 0) as Hz by (by rewrite <-Hc). unfold content, zlen in *.
    rewrite slice_length in Hz; lia. }
  destruct (node_write fs1 _ n 0 x (fr_ok _ _ _ Hr1) Hi Hat) as (d & Ed & Hok & Hcx & Hoth); [lia|lia|].
  pose proof (zlen_nonneg x). rewrite Z.add_0_r in Ed.
  assert (Hn' : set_size (Z.max (n_size n) (0 + zlen x)) n = set_size (zlen x) n) by (f_equal; lia).
  rewrite Hn' in *. rewrite Ed. cbn [mbind option_bind].
  pose proof (lookup_lt_Some _ _ _ Hn).
  rewrite arr_set_ok by (unfold zlen; lia). cbn [mbind option_bind]. rewrite Nat2Z.id in *.
  eexists. split; [done|]. rewrite <-(insert_insert_eq fls nm x []).
  eapply (fs_rep_write fs1); try done.
  rewrite Hcx, <-Hc. change (Z.to_nat 0) with 0%nat. rewrite take_nil, drop_nil. by rewrite app_nil_r.
Qed.

Lemma seeds_run seeds fs names fls : fs_rep fs names fls → NoDup (names ++ seeds.*1) →
  (length (names ++ seeds.*1) ≤ 32)%nat → Forall seed_ok seeds →
  ∃ fs', seed_files seeds fs = Some fs' ∧ fs_rep fs' (names ++ seeds.*1) (list_to_map seeds ∪ fls).
Proof.
  intros Hr Hnd Hlen Hok. revert fs names fls Hr Hnd Hlen.
  induction Hok as [|[nm x] seeds Hs Hok IH]; intros fs names fls Hr Hnd Hlen; cbn [seed_files].
  { exists fs. split; [done|]. cbn. by rewrite app_nil_r, (left_id_L ∅ (∪)). }
  rewrite fmap_cons, cons_middle, (assoc_L (++)) in Hnd, Hlen. cbn [fst] in Hnd, Hlen.
  pose proof Hnd as (_ & Hd & Hnd2)%NoDup_app. pose proof Hnd as (Hnd1 & _ & _)%NoDup_app.
  destruct (seed_run fs names fls nm x Hr) as (fs1 & -> & Hr1); [| |done|].
  { apply NoDup_app in Hnd1 as (_ & Hd1 & _). intros Hin. apply (Hd1 nm Hin), list_elem_of_singleton. done. }
  { rewrite !length_app in Hlen. cbn in Hlen. lia. }
  cbn [mbind option_bind]. change (MCS_OK =? MCS_OK) with true.
  destruct (IH _ _ _ Hr1 Hnd Hlen) as (fs2 & -> & Hr2). exists fs2. split; [done|].
  rewrite fmap_cons, cons_middle, (assoc_L (++)). cbn [list_to_map fst].
  change (list_to_map ((nm, x) :: seeds)) with (<[nm := x]> (list_to_map seeds : gmap (list Z) (list Z))).
  rewrite <-insert_union_l, insert_union_r; [done|]. apply not_elem_of_list_to_map_1.
  apply Hd. apply elem_of_app. right. by apply list_elem_of_singleton.
Qed.

Lemma fd_table_init_run table : length table = 16%nat →
  mcs_fd_table_init table = Some (set_used 0 <$> table).
Proof.
  intros Hl. unfold mcs_fd_table_init.
  destruct (for_range_inv (R := unit)
    (λ i t, t = (set_used 0 <$> take (Z.to_nat i) table) ++ drop (Z.to_nat i) table) (λ _, False) 0 MCS_MAX_OPEN_FILES
    (λ i t, f ← arr_get t i; t ← arr_set t i (set_used 0 f); Some (Next t)) table) as (c & E & Hc).
  - done.
  - by rewrite take_0, drop_0.
  - unfold MCS_MAX_OPEN_FILES. intros i t Hi ->. destruct (lookup_lt_is_Some_2 table (Z.to_nat i)) as [f Hf]; [lia|].
    assert (length (set_used 0 <$> take (Z.to_nat i) table) = Z.to_nat i) as Hlen.
    { rewrite length_fmap, length_take. lia. }
    rewrite (drop_S _ _ _ Hf), arr_get_nat, list_lookup_middle by (done || lia). cbn [mbind option_bind].
    rewrite arr_set_ok by (unfold zlen; rewrite length_app; cbn [length]; lia). cbn [mbind option_bind].
    eexists. split; [done|]. rewrite insert_app_r_alt, Hlen, Nat.sub_diag by lia. cbn [insert list_insert].
    replace (Z.to_nat (i + 1)) with (S (Z.to_nat i)) by lia.
    rewrite (take_S_r _ _ _ Hf), fmap_app, <-(assoc_L (++)). done.
  - change (Z.to_nat (MCS_MAX_OPEN_FILES - 0)) with (Z.to_nat MCS_MAX_OPEN_FILES) in E. rewrite E.
    cbn [mbind option_bind]. destruct c as [t|]; [|done]. rewrite Hc.
    rewrite take_ge, drop_ge by (rewrite Hl; vm_compute; lia). by rewrite app_nil_r.
Qed.

(** ** The whole component *)

Definition empty_fds : list (option (list Z * Z)) := replicate 16 None.

(** The start of a program: [mcs_ramfs_init], [mcs_ramfs_seed_file] for some
    files, [mcs_fd_table_init]. *)
Definition vfs_start (fa : Z) (mem : mcs_ramfs) (table : list mcs_file) (seeds : list (list Z * list Z)) :
    option vfs :=
  p ← mcs_ramfs_init (Ref mem);
  fs ← deref p;
  fs ← seed_files seeds fs;
  t ← mcs_fd_table_init table;
  Some (Vfs t {[ fa := fs ]}).

Lemma vfs_start_run fa mem table seeds : ramfs_memory mem → length table = 16%nat →
  NoDup seeds.*1 → (length seeds ≤ 32)%nat → Forall seed_ok seeds →
  ∃ s, vfs_start fa mem table seeds = Some s ∧ vfs_rep fa s (Avfs (list_to_map seeds) empty_fds).
Proof.
  intros Hm Ht Hnd Hlen Hok. unfold vfs_start. destruct (init_run mem Hm) as (fs & -> & Hr).
  cbn [mbind option_bind deref].
  destruct (seeds_run seeds fs [] ∅ Hr) as (fs' & -> & Hr'); [done|by rewrite app_nil_l, length_fmap|done|].
  rewrite (right_id_L ∅ (∪)) in Hr'. cbn [app] in Hr'.
  rewrite (fd_table_init_run table Ht).
  cbn [mbind option_bind]. eexists. split; [done|]. exists fs', (seeds.*1). cbn [fss files av_files av_fds].
  split; [apply lookup_insert_eq|]. split; [done|]. split; [by rewrite length_fmap|].
  apply Forall2_same_length_lookup_2; [by rewrite length_fmap, Ht|].
  unfold empty_fds. intros j f o Hf [-> _]%lookup_replicate. apply list_lookup_fmap_Some in Hf as (f0 & -> & _). done.
Qed.

(** ** Properties *)

(** C22. Any program of calls [open], [read], [write], [lseek] and [close] on a
    RAM file system in any memory, initialised and seeded with up to 32 files
    that have distinct names of 1 to 30 characters and at most 256 bytes each
    (a longer one runs into the next file): as long as the specification (a map
    from names to contents and 16 descriptors, each closed or a name and an
    offset) promises something for the calls, every call returns what the
    specification returns, bytes read and error codes included, and the state at
    the end stands for that of the specification. It promises nothing for
    opening a name that does not have 1 to 30 characters or does not end,
    creating a 33rd file, writing past the 256 bytes of a file, seeking outside
    a file and reading into a buffer that is too short. Descriptors of the same
    file share its contents and have offsets of their own. *)
Theorem mcs_vfs_refines fa mem table seeds cs a rs : ramfs_memory mem → length table = 16%nat →
  NoDup seeds.*1 → (length seeds ≤ 32)%nat → Forall seed_ok seeds →
  vspecs cs (Avfs (list_to_map seeds) empty_fds) = Some (a, rs) →
  ∃ s s', vfs_start fa mem table seeds = Some s ∧
    do_vcalls fa cs s = Some (s', rs) ∧ vfs_rep fa s' a.
Proof.
  intros Hm Ht Hnd Hlen Hok Hs.
  destruct (vfs_start_run fa mem table seeds Hm Ht Hnd Hlen Hok) as (s & E & Hr).
  destruct (vcalls_refine fa cs s _ _ _ Hr Hs) as (s' & E' & Hr'). eauto.
Qed.

(** ** The tests of the repository

    The three functions of [src/tests/m13/m13_vfs_host_test.c]: the files they
    seed, the calls they make and what they assert of the results. *)

Definition MCS_O_RDONLY : Z := 1.
Definition MCS_O_RDWR : Z := 4.
Definition MCS_O_TRUNC : Z := 0x0200.

Definition zeros (n : nat) : list Z := replicate n 0.

Record vtest := VTest {
  vt_seeds : list (list Z * list Z);
  vt_calls : list vcall;
  vt_results : list vres;
}.

Definition test_basic_read : vtest := VTest
  [(text "hello.txt", text "hello-mcsos")]
  [COpen (literal "/hello.txt") MCS_O_RDONLY; CRead 0 (zeros 32) 5; CLseek 0 1 MCS_SEEK_SET;
   CRead 0 (zeros 32) 4; CClose 0; CRead 0 (text "ello" ++ zeros 28) 1]
  [VNum 0; VRead 5 (text "hello" ++ zeros 27); VNum 1;
   VRead 4 (text "ello" ++ zeros 28); VNum MCS_OK; VRead MCS_EBADF (text "ello" ++ zeros 28)].

Definition test_create_write_read : vtest := VTest []
  [COpen (literal "/log.txt") (Z.lor MCS_O_CREAT (Z.lor MCS_O_RDWR MCS_O_TRUNC)); CWrite 0 (text "abc123");
   CLseek 0 0 MCS_SEEK_SET; CRead 0 (zeros 64) 64; CClose 0]
  [VNum 0; VNum 6; VNum 0; VRead 6 (text "abc123" ++ zeros 58); VNum MCS_OK].

Definition test_errors_and_fd_limit : vtest := VTest
  [(text "x", text "x")]
  ([COpen (literal "relative") MCS_O_RDONLY; COpen (literal "/missing") MCS_O_RDONLY] ++
   replicate 16 (COpen (literal "/x") MCS_O_RDONLY) ++
   [COpen (literal "/x") MCS_O_RDONLY; CClose 0; COpen (literal "/x") MCS_O_RDONLY])
  ([VNum MCS_EINVAL; VNum MCS_ENOENT] ++ (VNum ∘ Z.of_nat <$> seq 0 16) ++
   [VNum MCS_ENFILE; VNum MCS_OK; VNum 0]).

(** The code passes a test. *)
Definition vtest_passes (t : vtest) : bool :=
  match vfs_start 4096 blank_fs (files demo_vfs) (vt_seeds t) with
  | Some s => match do_vcalls 4096 (vt_calls t) s with Some (_, rs) => bool_decide (rs = vt_results t) | None => false end
  | None => false
  end.

Lemma m13_vfs_host_tests_pass :
  forallb vtest_passes [test_basic_read; test_create_write_read; test_errors_and_fd_limit] = true.
Proof. vm_compute. reflexivity. Qed.

Lemma blank_memory : ramfs_memory blank_fs.
Proof. split_and!; [done| |vm_compute; reflexivity]. by apply Forall_replicate. Qed.

(** Two descriptors of one file: what is written through the first is read
    through the second, at its own offset. *)
Definition shared_calls : list vcall :=
  [COpen (literal "/f") MCS_O_CREAT; COpen (literal "/f") 0; CWrite 0 (text "abcdef"); CLseek 1 2 MCS_SEEK_SET;
   CRead 1 (zeros 3) 3; CWrite 0 (text "g"); CRead 1 (zeros 9) 9; CClose 0; CWrite 0 [1]; COpen (literal "/a") 0].
Definition shared_results : list vres :=
  [VNum 0; VNum 1; VNum 6; VNum 2; VRead 3 (text "cde"); VNum 1; VRead 2 (text "fg" ++ zeros 7); VNum MCS_OK;
   VNum MCS_EBADF; VNum 0].
Definition shared_end : avfs :=
  Avfs {[ text "a" := text "x"; text "f" := text "abcdefg" ]}
    (<[0%nat := Some (text "a", 0)]> (<[1%nat := Some (text "f", 7)]> empty_fds)).

Lemma mcs_vfs_refines_witness : ∃ s s', vfs_start 4096 blank_fs (files demo_vfs) [(text "a", text "x")] = Some s ∧
  do_vcalls 4096 shared_calls s = Some (s', shared_results) ∧ vfs_rep 4096 s' shared_end.
Proof.
  apply (mcs_vfs_refines 4096 blank_fs (files demo_vfs) [(text "a", text "x")] shared_calls).
  - exact blank_memory.
  - reflexivity.
  - apply NoDup_singleton.
  - cbn. lia.
  - apply (bool_decide_eq_true_1 _). vm_compute. reflexivity.
  - vm_compute. reflexivity.
Defined.

(** The root can be opened like a file. Its [data_offset] is what the memory
    held, here 0 as in the first file: a write through the descriptor of the
    root changes that file. *)
Lemma root_descriptor_overwrites :
  (s ← vfs_start 4096 blank_fs (files demo_vfs) [(text "a", text "x")];
   '(_, rs) ← do_vcalls 4096
      [COpen (literal "/") 0; CWrite 0 (text "y"); COpen (literal "/a") 0; CRead 1 [0] 1] s;
   Some rs) = Some [VNum 0; VNum 1; VNum 1; VRead 1 (text "y")].
Proof. vm_compute. reflexivity. Qed.
