(* ===== verification/VfsTypes.v ===== *)
(** The C types of the state of the file system layer: in every state that
    calls reach, the integers are in the range of their types, the arrays have
    their declared sizes, and an open descriptor points to a node of a file
    system; and calls whose accesses to [fs->data] fit return. *)
From Stdlib Require Import String.
From S2P Require Import Prelude Bytes Cstr Vfs VfsSpec VfsSys.

(** The last byte of a name is one that no operation writes: it is 0 in an
    object that starts as zeros, and stays so. *)
Record vnode_typed (n : mcs_vnode) : Prop := {
  vt_used : is_u32 (n_used n);
  vt_id : is_u32 (n_id n);
  vt_parent : is_u32 (n_parent n);
  vt_name : length (n_name n) = 32%nat ∧ Forall is_u8 (n_name n);
  vt_end : n_name n !! 31%nat = Some 0;
  vt_size : is_u64 (n_size n);
  vt_offset : is_u64 (n_data_offset n);
  vt_capacity : is_u64 (n_data_capacity n);
}.

Record ramfs_typed (fs : mcs_ramfs) : Prop := {
  rt_nodes : length (nodes fs) = 64%nat ∧ Forall vnode_typed (nodes fs);
  rt_count : 0 ≤ node_count fs ≤ 64;
  rt_data : zlen (data fs) = 8192 ∧ Forall is_u8 (data fs);
  rt_data_used : is_u64 (data_used fs);
}.

Record file_typed (fss : gmap Z mcs_ramfs) (f : mcs_file) : Prop := {
  ft_used : is_u32 (f_used f);
  ft_flags : is_u32 (f_flags f);
  ft_offset : is_u64 (f_offset f);
  ft_points : f_used f ≠ 0 → 0 ≤ f_node f < 64 ∧ is_Some (fss !! f_fs f);
}.

Record vfs_typed (s : vfs) : Prop := {
  st_files : length (files s) = 16%nat ∧ Forall (file_typed (fss s)) (files s);
  st_fss : map_Forall (λ _, ramfs_typed) (fss s);
}.

(** Ranges of [int] and [mcs_ssize_t]. *)
Definition is_int (x : Z) : Prop := -2147483648 ≤ x < 2147483648.
Definition is_ssize (x : Z) : Prop := -9223372036854775808 ≤ x < 9223372036854775808.

(** The arguments of a call have the types of its parameters. *)
Definition vcall_typed (c : vcall) : Prop :=
  match c with
  | COpen path flags => Forall is_u8 path ∧ is_u32 flags
  | CRead fd buf len => is_int fd ∧ Forall is_u8 buf ∧ is_u64 len
  | CWrite fd x => is_int fd ∧ Forall is_u8 x ∧ is_u64 (zlen x)
  | CLseek fd offset whence => is_int fd ∧ is_ssize offset ∧ is_int whence
  | CClose fd => is_int fd
  end.

(** The result has the type of the function called; a buffer keeps its size. *)
Definition vres_typed (c : vcall) (r : vres) : Prop :=
  match c, r with
  | CRead _ buf _, VRead n buf' => is_ssize n ∧ Forall is_u8 buf' ∧ length buf' = length buf
  | CWrite _ _, VNum n => is_ssize n
  | (COpen _ _ | CLseek _ _ _ | CClose _), VNum n => is_int n
  | _, _ => False
  end.

(** ** Helpers *)

Lemma i32_int x : is_int (i32 x).
Proof. unfold is_int, i32. pose proof (u32_range x). case_match; words. Qed.

Lemma i64_ssize x : is_ssize (i64 x).
Proof. unfold is_ssize, i64. pose proof (u64_range x). case_match; words. Qed.

Lemma arr_get_Forall {A} (P : A → Prop) l i x : Forall P l → arr_get l i = Some x → P x.
Proof. intros H [_ Hx]%arr_get_Some. by apply (Forall_lookup_1 _ _ _ _ H Hx). Qed.

Lemma arr_set_Forall {A} (P : A → Prop) l l' i x : Forall P l → P x → arr_set l i x = Some l' →
  length l' = length l ∧ Forall P l'.
Proof. intros H Hx [_ ->]%arr_set_Some. split; [apply length_insert|by apply Forall_insert]. Qed.

Lemma set_size_typed n x : vnode_typed n → is_u64 x → vnode_typed (set_size x n).
Proof. intros [] ?. by split. Qed.

Lemma set_offset_typed m f x : file_typed m f → is_u64 x → file_typed m (set_offset x f).
Proof. intros [] ?. by split. Qed.

Lemma put_bytes_typed k i off d src d' : Forall is_u8 d → Forall is_u8 src →
  put_bytes k i off d src = Some d' → length d' = length d ∧ Forall is_u8 d'.
Proof.
  intros Hd Hs. revert i d Hd. induction k as [|k IH]; intros i d Hd; cbn [put_bytes]; [by intros [= <-]|].
  intros (x & Hx & (d1 & H1 & H)%bind_Some)%bind_Some.
  destruct (arr_set_Forall _ _ _ _ _ Hd (arr_get_Forall _ _ _ _ Hs Hx) H1) as [<- Hd1]. by eapply IH.
Qed.

Lemma get_bytes_typed k i off d buf buf' : Forall is_u8 d → Forall is_u8 buf →
  get_bytes k i off d buf = Some buf' → length buf' = length buf ∧ Forall is_u8 buf'.
Proof.
  intros Hd. revert i buf. induction k as [|k IH]; intros i buf Hb; cbn [get_bytes]; [by intros [= <-]|].
  intros (x & Hx & (b1 & H1 & H)%bind_Some)%bind_Some.
  destruct (arr_set_Forall _ _ _ _ _ Hb (arr_get_Forall _ _ _ _ Hd Hx) H1) as [<- Hb1]. by eapply IH.
Qed.

Lemma copy_name_typed k i d s d' : Forall is_u8 d → Forall is_u8 s →
  copy_name k i d s = Some d' → length d' = length d ∧ Forall is_u8 d'.
Proof.
  intros Hd Hs. revert i d Hd. induction k as [|k IH]; intros i d Hd; cbn [copy_name]; [by intros [= <-]|].
  intros (x & Hx & (d1 & H1 & H)%bind_Some)%bind_Some.
  destruct (arr_set_Forall _ _ _ _ _ Hd (arr_get_Forall _ _ _ _ Hs Hx) H1) as [<- Hd1].
  destruct (x =? 0); [by injection H as <-|by eapply IH].
Qed.

Lemma copy_name_end k i d s d' : 0 ≤ i → i + Z.of_nat k ≤ 31 → copy_name k i d s = Some d' → d' !! 31%nat = d !! 31%nat.
Proof.
  revert i d. induction k as [|k IH]; intros i d Hi Hk; cbn [copy_name]; [by intros [= <-]|].
  intros (x & _ & (d1 & [_ ->]%arr_set_Some & H)%bind_Some)%bind_Some.
  destruct (x =? 0); [injection H as <-|apply IH in H; [rewrite H|lia|lia]]; apply list_lookup_insert_ne; lia.
Qed.

(** A string that ends: there is a NUL, at [p]. *)
Lemma arr_get_before {A} (l : list A) p x j : l !! p = Some x → 0 ≤ j ≤ Z.of_nat p → ∃ y, arr_get l j = Some y.
Proof. intros Hp%lookup_lt_Some Hj. destruct (arr_get_is_Some l j); [unfold zlen; lia|eauto]. Qed.

Lemma before_nul l p j x : l !! p = Some 0 → 0 ≤ j ≤ Z.of_nat p → arr_get l j = Some x → x ≠ 0 → j + 1 ≤ Z.of_nat p.
Proof.
  intros Hp Hj [_ Hx]%arr_get_Some Hne. destruct (decide (Z.to_nat j = p)) as [<-|]; [congruence|lia].
Qed.

Lemma name_matches_returns k j name nm p : name !! p = Some 0 → nm !! 31%nat = Some 0 →
  0 ≤ j ≤ Z.of_nat p → j ≤ 31 → (p < k + Z.to_nat j)%nat → is_Some (name_matches k j name nm).
Proof.
  intros Hp Hn. revert j. induction k as [|k IH]; intros j Hj H31 Hk; [lia|]. cbn [name_matches].
  destruct (arr_get_before _ _ _ _ Hp Hj) as [a Ha]. rewrite Ha. cbn [mbind option_bind].
  destruct (arr_get_before _ _ _ j Hn) as [b Hb]; [lia|]. rewrite Hb. cbn [mbind option_bind].
  destruct (Z.eqb_spec a b) as [<-|]; [|by eexists]. destruct (Z.eqb_spec a 0) as [|Hz]; [by eexists|].
  cbn [negb andb]. pose proof (before_nul _ _ _ _ Hp Hj Ha Hz).
  assert (j + 1 ≤ 31) by (apply (before_nul nm 31 j a); (done || lia)). apply IH; lia.
Qed.

Lemma copy_name_returns k i d s p : s !! p = Some 0 → 0 ≤ i ≤ Z.of_nat p → i + Z.of_nat k ≤ zlen d →
  is_Some (copy_name k i d s).
Proof.
  intros Hp. revert i d. induction k as [|k IH]; intros i d Hi Hk; cbn [copy_name]; [by eexists|].
  destruct (arr_get_before _ _ _ _ Hp Hi) as [a Ha]. rewrite Ha. cbn [mbind option_bind].
  rewrite arr_set_ok by lia. cbn [mbind option_bind]. destruct (Z.eqb_spec a 0); [by eexists|].
  pose proof (before_nul _ _ _ _ Hp Hi Ha ltac:(done)). apply IH; rewrite ?zlen_insert; lia.
Qed.

Lemma path_name_returns path : 0 ∈ path → ∃ name p, path_name path = Some name ∧ name !! p = Some 0.
Proof.
  intros [p Hp]%list_elem_of_lookup. unfold path_name. destruct path as [|c rest]; [done|].
  cbn [arr_get]. change (arr_get (c :: rest) 0) with (Some c). cbn [mbind option_bind].
  destruct (Z.eqb_spec c 47) as [->|]; [|by eauto]. destruct p; [done|]. eauto.
Qed.

Lemma lookup_loop_inside k i fs name j : lookup_loop k i fs name = Some (Some j) → 0 ≤ j < zlen (nodes fs).
Proof.
  revert i. induction k as [|k IH]; intros i; cbn [lookup_loop]; [done|].
  intros (n & Hn & (m & _ & H)%bind_Some)%bind_Some. destruct m; [|by eapply IH].
  injection H as <-. by apply arr_get_Some in Hn as [? _].
Qed.

(** ** The RAM file system *)

Section ramfs.
Context (fs : mcs_ramfs) (Ht : ramfs_typed fs).

Lemma node_typed i n : arr_get (nodes fs) i = Some n → vnode_typed n.
Proof using Ht. destruct Ht as [[_ Hn] _ _ _]. by apply arr_get_Forall. Qed.

(** Storing a typed node and typed data. *)
Lemma store_typed i n ns d : vnode_typed n → arr_set (nodes fs) i n = Some ns →
  length d = length (data fs) → Forall is_u8 d → ramfs_typed (set_nodes ns (set_data d fs)).
Proof using Ht.
  destruct Ht as [[Hl Hn] Hc [Hd Hu] Hdu]. intros Hn' Hs Hld Hdt.
  destruct (arr_set_Forall _ _ _ _ _ Hn Hn' Hs) as [? ?]. unfold zlen in *.
  split; cbn [set_nodes set_data nodes node_count data data_used]; try done; split; (done || unfold zlen; congruence).
Qed.

Lemma data_typed d : length d = length (data fs) → Forall is_u8 d →
  ramfs_typed (set_nodes (nodes fs) (set_data d fs)).
Proof using Ht.
  destruct Ht as [Hn Hc [Hd Hu] Hdu]. intros Hld Hdt. unfold zlen in *.
  split; cbn [set_nodes set_data nodes node_count data data_used]; try done. unfold zlen. split; [congruence|done].
Qed.

Lemma create_typed path fs' r : Forall is_u8 path → mcs_ramfs_create_file fs path = Some (fs', r) →
  ramfs_typed fs' ∧ (∀ i, r = inr i → 0 ≤ i < 64).
Proof using Ht.
  intros Hp. unfold mcs_ramfs_create_file. destruct (MCS_MAX_NODES <=? node_count fs); [by intros [= <- <-]|].
  intros (n & Hn & (name & Hname & (nm & Hnm & (ns & Hns & H)%bind_Some)%bind_Some)%bind_Some)%bind_Some.
  injection H as <- <-. pose proof (node_typed _ _ Hn) as [? ? ? [Hl Hu] He ? ? ?].
  destruct Ht as [[Hlen Hall] Hc Hd Hdu].
  assert (Forall is_u8 name) as Hname8.
  { apply bind_Some in Hname as (c & _ & Hc'). injection Hc' as <-. destruct (c =? 47); [|done].
    destruct path; [done|]. by apply Forall_cons in Hp as [_ ?]. }
  destruct (copy_name_typed _ _ _ _ _ Hu Hname8 Hnm) as [Hl' Hu'].
  assert (0 ≤ node_count fs < 64) as Hi.
  { apply arr_set_Some in Hns as [? _]. unfold zlen in *. lia. }
  assert (Forall vnode_typed ns ∧ length ns = 64%nat) as [? ?].
  { eapply (arr_set_Forall vnode_typed) in Hns; [|done|].
    - destruct Hns. split; [done|congruence].
    - assert (nm !! 31%nat = Some 0) by (rewrite <-He; by apply (copy_name_end (Z.to_nat (MCS_MAX_NAME - 1)) 0 _ name)).
      split; cbn; try done; try (apply u32_range); try (split; congruence); words. }
  split; [|by intros i [= <-]]. split; cbn [nodes node_count data data_used]; try done; [|apply u64_range].
  rewrite u64_small by words. lia.
Qed.

Lemma create_returns path : 0 ∈ path → is_Some (mcs_ramfs_create_file fs path).
Proof using Ht.
  intros (name & p & E & Hp)%path_name_returns. unfold mcs_ramfs_create_file, MCS_MAX_NODES.
  destruct (Z.leb_spec 64 (node_count fs)); [by eexists|]. pose proof Ht as [[Hlen Hall] Hc _ _].
  destruct (arr_get_is_Some (nodes fs) (node_count fs)) as [n Hn]; [unfold zlen; lia|].
  rewrite Hn. cbn [mbind option_bind]. rewrite E. cbn [mbind option_bind].
  pose proof (node_typed _ _ Hn) as [_ _ _ [Hl _] _ _ _ _].
  destruct (copy_name_returns (Z.to_nat (MCS_MAX_NAME - 1)) 0 (n_name n) name p) as [nm ->];
    [done|lia|unfold zlen; rewrite Hl; done|].
  cbn [mbind option_bind]. rewrite arr_set_ok by (unfold zlen; lia). by eexists.
Qed.

Lemma lookup_loop_returns k i name p : name !! p = Some 0 → 0 ≤ i → i + Z.of_nat k ≤ 64 →
  is_Some (lookup_loop k i fs name).
Proof using Ht.
  intros Hp. revert i. induction k as [|k IH]; intros i Hi Hk; cbn [lookup_loop]; [by eexists|].
  destruct Ht as [[Hlen _] _ _ _]. destruct (arr_get_is_Some (nodes fs) i) as [n Hn]; [unfold zlen; lia|].
  rewrite Hn. cbn [mbind option_bind].
  destruct (name_matches_returns (S (length name)) 0 name (n_name n) p) as [m ->];
    [done|by apply (vt_end _ (node_typed _ _ Hn))|lia|lia|by apply lookup_lt_Some in Hp; lia|].
  cbn [mbind option_bind]. destruct m; [by eexists|]. apply IH; lia.
Qed.

Lemma lookup_returns path : 0 ∈ path → is_Some (mcs_ramfs_lookup (Ref fs) (Ref path)).
Proof using Ht.
  intros Hz. destruct (path_name_returns _ Hz) as (name & p & E & Hp). unfold mcs_ramfs_lookup.
  destruct path as [|c rest]; [by apply elem_of_nil in Hz|]. change (arr_get (c :: rest) 0) with (Some c).
  cbn [mbind option_bind].
  assert (∃ b : bool, (if c =? 47 then c1 ← arr_get (c :: rest) 1; Some (c1 =? 0) else Some false) = Some b) as [b ->].
  { destruct (Z.eqb_spec c 47) as [->|]; [|by eauto]. apply elem_of_cons in Hz as [?|Hz]; [done|].
    destruct rest as [|c1 rest]; [by apply elem_of_nil in Hz|]. change (arr_get (47 :: c1 :: rest) 1) with (Some c1).
    cbn. eauto. }
  cbn [mbind option_bind]. destruct b; [by eexists|]. rewrite E. cbn [mbind option_bind].
  destruct (lookup_loop_returns (Z.to_nat (node_count fs - 1)) 1 name p) as [o ->];
    [done|lia|destruct Ht as [_ Hc _ _]; lia|]. by destruct o; eexists.
Qed.

Lemma open_node_returns path flags : 0 ∈ path → is_Some (open_node fs path flags).
Proof using Ht.
  intros Hz. unfold open_node. destruct (lookup_returns path Hz) as [[rc|i] ->]; cbn [mbind option_bind]; [|by eexists].
  destruct (_ =? 0); [by eexists|]. destruct (create_returns path Hz) as [[fs' r] ->]. by eexists.
Qed.

Lemma open_node_typed path flags fs' r : Forall is_u8 path → open_node fs path flags = Some (fs', r) →
  ramfs_typed fs' ∧ (∀ i, r = Some i → 0 ≤ i < 64).
Proof using Ht.
  intros Hp. unfold open_node. intros (l & Hl & H)%bind_Some. destruct l as [rc|i].
  - destruct (Z.land flags MCS_O_CREAT =? 0); [by injection H as <- <-|].
    apply bind_Some in H as ([fs1 r1] & E & H). injection H as <- <-.
    destruct (create_typed _ _ _ Hp E) as [? Hi]. split; [done|]. destruct r1; intros i; [done|].
    intros [= <-]. by apply Hi.
  - injection H as <- <-. split; [done|]. intros j [= <-]. unfold mcs_ramfs_lookup in Hl.
    apply bind_Some in Hl as (c & _ & (root & _ & H)%bind_Some). destruct root; [injection H as <-; lia|].
    apply bind_Some in H as (name & _ & (o & E & H)%bind_Some). destruct o; [|done]. injection H as <-.
    apply lookup_loop_inside in E. destruct Ht as [[Hlen _] _ _ _]. unfold zlen in E. lia.
Qed.
End ramfs.

(** ** The calls *)

Lemma file_typed_mono m m' f : (∀ a, is_Some (m !! a) → is_Some (m' !! a)) → file_typed m f → file_typed m' f.
Proof. intros Hm []. split; [done..|]. intros Hu. destruct (ft_points0 Hu). split; [done|by apply Hm]. Qed.

(** Storing a typed descriptor. *)
Lemma fd_typed m t i f t' : length t = 16%nat ∧ Forall (file_typed m) t → file_typed m f → arr_set t i f = Some t' →
  length t' = 16%nat ∧ Forall (file_typed m) t'.
Proof. intros [Hl Ht] Hf H. destruct (arr_set_Forall _ _ _ _ _ Ht Hf H). split; [congruence|done]. Qed.

(** Storing a typed file system over one that is there. *)
Lemma fs_typed s t fa fs fs' : vfs_typed s → fss s !! fa = Some fs → ramfs_typed fs' →
  length t = 16%nat ∧ Forall (file_typed (fss s)) t → vfs_typed (Vfs t (<[fa := fs']> (fss s))).
Proof.
  intros [_ Hm] Hfs Hfs' [Hl Ht]. split; cbn [files fss].
  - split; [done|]. eapply Forall_impl; [exact Ht|]. intros f. apply file_typed_mono. intros a Ha.
    destruct (decide (a = fa)) as [->|]; [by rewrite lookup_insert_eq|by rewrite lookup_insert_ne].
  - by apply map_Forall_insert_2.
Qed.

Lemma fd_get_typed s fd p : vfs_typed s → mcs_fd_get (files s) fd = Some p →
  p = Null ∨ ∃ f, p = Ref f ∧ file_typed (fss s) f ∧ 0 ≤ f_node f < 64 ∧ is_Some (fss s !! f_fs f) ∧
    0 ≤ fd < zlen (files s).
Proof.
  intros [[Hl Hf] _] H. destruct p as [|f]; [by left|]. right. exists f. split; [done|].
  apply fd_get_inv in H as (Hfd & Hg & Hu & Hz). pose proof (arr_get_Forall _ _ _ _ Hf Hg) as Ht.
  split; [done|]. destruct (ft_points _ _ Ht Hu). split_and!; (done || lia).
Qed.

Lemma fd_alloc_loop_typed n i table t fd : 0 ≤ i → i + Z.of_nat n ≤ 16 → fd_alloc_loop n i table = Some (t, fd) →
  (t = table ∧ fd = MCS_ENFILE) ∨
  (0 ≤ fd < 16 ∧ ∃ f, arr_get table fd = Some f ∧ f_used f = 0 ∧ arr_set table fd (set_used 1 f) = Some t).
Proof.
  revert i. induction n as [|n IH]; intros i Hi Hn; cbn [fd_alloc_loop]; [intros [= <- <-]; by left|].
  intros (f & Hf & H)%bind_Some. destruct (Z.eqb_spec (f_used f) 0) as [E|E]; [|apply (IH (i + 1)); [lia|lia|exact H]].
  apply bind_Some in H as (t' & Ht & H). injection H as <- <-. right. split; [lia|]. eauto.
Qed.

Lemma open_typed fa path flags s s' r : vfs_typed s → Forall is_u8 path → is_u32 flags →
  mcs_sys_open fa (Ref path) flags s = Some (s', r) → vfs_typed s' ∧ is_int r.
Proof.
  intros Ht Hp Hfl H. unfold mcs_sys_open in H. apply bind_Some in H as (c & _ & H).
  destruct (negb (c =? 47)); [by injection H as <- <-|]. apply bind_Some in H as ([t fd] & Ha & H).
  apply fd_alloc_loop_typed in Ha as [[-> ->]|(Hfd & f & Hf & Hu & Hs)]; [| |lia|by vm_compute].
  { change (MCS_ENFILE <? 0) with true in H. injection H as <- <-. by destruct s. }
  rewrite (proj2 (Z.ltb_ge _ _)) in H by lia. apply bind_Some in H as (fs & Hfs & H).
  apply bind_Some in H as ([fs1 o] & Ho & H). apply bind_Some in H as (f1 & Hf1 & H).
  pose proof Ht as [[Hl Hall] Hm]. pose proof (arr_get_Forall _ _ _ _ Hall Hf) as Hft.
  destruct (open_node_typed fs (map_Forall_lookup_1 _ _ _ _ Hm Hfs) _ _ _ _ Hp Ho) as [Hfs1 Hi].
  apply arr_set_Some in Hs as [_ ->]. rewrite arr_get_insert, decide_True in Hf1 by (unfold zlen; (done || lia)).
  injection Hf1 as <-.
  assert (Hset : ∀ x t', arr_set (<[Z.to_nat fd := set_used 1 f]> (files s)) fd x = Some t' →
    arr_set (files s) fd x = Some t').
  { intros x t' [Hz ->]%arr_set_Some. rewrite zlen_insert in Hz. by rewrite list_insert_insert_eq, arr_set_ok. }
  destruct o as [i|]; apply bind_Some in H as (t' & Ht' & H); injection H as <- <-; apply Hset in Ht'.
  - split; [|unfold is_int; lia]. eapply fs_typed; try done. eapply fd_typed; [done| |done].
    destruct Hft. split; cbn; [words|done|words|]. intros _. split; [by apply Hi|by eexists].
  - split; [|done]. eapply fs_typed; try done. eapply fd_typed; [done| |done].
    destruct Hft. by split.
Qed.

Lemma read_typed fd buf len s s' buf' r : vfs_typed s → Forall is_u8 buf →
  mcs_sys_read fd buf len s = Some (s', buf', r) →
  vfs_typed s' ∧ is_ssize r ∧ Forall is_u8 buf' ∧ length buf' = length buf.
Proof.
  intros Ht Hb H. unfold mcs_sys_read in H. apply bind_Some in H as (p & Hg & H).
  destruct (fd_get_typed _ _ _ Ht Hg) as [-> |(f & -> & Hf & _ & _ & _)]; [by injection H as <- <- <-|].
  apply bind_Some in H as (fs & Hfs & (n & Hn & (b & Hgb & (t & Hs & H)%bind_Some)%bind_Some)%bind_Some).
  injection H as <- <- <-. pose proof Ht as [Hfiles Hm]. pose proof (map_Forall_lookup_1 _ _ _ _ Hm Hfs) as [_ _ [_ Hd] _].
  destruct (get_bytes_typed _ _ _ _ _ _ Hd Hb Hgb). split_and!; [|apply i64_ssize|done|done].
  split; [|done]. eapply fd_typed; [done| |done]. apply set_offset_typed; [done|apply u64_range].
Qed.

Lemma write_typed fd x len s s' r : vfs_typed s → Forall is_u8 x →
  mcs_sys_write fd x len s = Some (s', r) → vfs_typed s' ∧ is_ssize r.
Proof.
  intros Ht Hx H. unfold mcs_sys_write in H. apply bind_Some in H as (p & Hg & H).
  destruct (fd_get_typed _ _ _ Ht Hg) as [-> |(f & -> & Hf & _ & _ & _)]; [by injection H as <- <-|].
  apply bind_Some in H as (fs & Hfs & (n & Hn & (d & Hd & (t & Hs & (ns & Hns & H)%bind_Some)%bind_Some)%bind_Some)%bind_Some).
  injection H as <- <-. pose proof Ht as [Hfiles Hm]. pose proof (map_Forall_lookup_1 _ _ _ _ Hm Hfs) as Hft.
  pose proof Hft as [_ _ [_ Hd8] _]. destruct (put_bytes_typed _ _ _ _ _ _ Hd8 Hx Hd) as [Hld Hd8'].
  split; [|apply i64_ssize]. eapply fs_typed; try done.
  - destruct (_ <? _); [|injection Hns as <-; by apply data_typed].
    eapply store_typed; try done. apply set_size_typed; [by eapply node_typed|apply u64_range].
  - eapply fd_typed; [done| |done]. apply set_offset_typed; [done|apply u64_range].
Qed.

Lemma fd_get_total s fd : vfs_typed s → ∃ p, mcs_fd_get (files s) fd = Some p.
Proof.
  intros [[Hl _] _]. unfold mcs_fd_get, MCS_MAX_OPEN_FILES. destruct ((fd <? 0) || (16 <=? fd)) eqn:E; [eauto|].
  bool_prop. destruct (arr_get_is_Some (files s) fd) as [f ->]; [unfold zlen; lia|]. cbn. eauto.
Qed.

(** [mcs_sys_lseek] and [mcs_sys_close] have no undefined behaviour. *)
Lemma lseek_typed fd o w s : vfs_typed s →
  ∃ s' r, mcs_sys_lseek fd o w s = Some (s', r) ∧ vfs_typed s' ∧ is_int r.
Proof.
  intros Ht. unfold mcs_sys_lseek. destruct (fd_get_total s fd Ht) as [p Hg]. rewrite Hg. cbn [mbind option_bind].
  destruct (fd_get_typed _ _ _ Ht Hg) as [-> |(f & -> & Hf & _ & _ & Hfd)]; [by eexists _, _|].
  rewrite arr_set_ok by done. cbn [mbind option_bind]. eexists _, _. split; [done|]. split; [|apply i32_int].
  destruct Ht as [Hfiles Hm]. split; [|done]. eapply fd_typed; [done| |by apply arr_set_ok].
  apply set_offset_typed; [done|]. destruct (w =? MCS_SEEK_SET); [apply u64_range|apply Hf].
Qed.

Lemma close_typed fd s : vfs_typed s →
  ∃ s' r, mcs_sys_close fd s = Some (s', r) ∧ vfs_typed s' ∧ is_int r.
Proof.
  intros Ht. unfold mcs_sys_close. destruct (fd_get_total s fd Ht) as [p Hg]. rewrite Hg. cbn [mbind option_bind].
  destruct (fd_get_typed _ _ _ Ht Hg) as [-> |(f & -> & Hf & _ & _ & Hfd)]; [by eexists _, _|].
  rewrite arr_set_ok by done. cbn [mbind option_bind]. eexists _, _. split; [done|]. split; [|done].
  destruct Ht as [Hfiles Hm]. split; [|done]. eapply fd_typed; [done| |by apply arr_set_ok]. destruct Hf. by split.
Qed.

Lemma fd_alloc_loop_total n i table : 0 ≤ i → i + Z.of_nat n ≤ zlen table →
  is_Some (fd_alloc_loop n i table).
Proof.
  revert i. induction n as [|n IH]; intros i Hi Hn; cbn [fd_alloc_loop]; [by eexists|].
  destruct (arr_get_is_Some table i) as [f ->]; [lia|]. cbn [mbind option_bind].
  destruct (_ =? 0); [|apply IH; lia]. rewrite arr_set_ok by lia. by eexists.
Qed.

Lemma open_returns fa path flags s : vfs_typed s → is_Some (fss s !! fa) → 0 ∈ path →
  is_Some (mcs_sys_open fa (Ref path) flags s).
Proof.
  intros Ht [fs Hfs] Hz. unfold mcs_sys_open. pose proof Ht as [[Hl Hall] Hm].
  destruct path as [|c rest]; [by apply elem_of_nil in Hz|]. change (arr_get (c :: rest) 0) with (Some c).
  cbn [mbind option_bind]. destruct (negb (c =? 47)); [by eexists|].
  destruct (fd_alloc_loop_total (Z.to_nat MCS_MAX_OPEN_FILES) 0 (files s)) as [[t fd] Ha];
    [lia|unfold zlen; rewrite Hl; done|].
  unfold mcs_fd_alloc. rewrite Ha. cbn [mbind option_bind].
  apply fd_alloc_loop_typed in Ha as [[-> ->]|(Hfd & f & Hf & _ & [_ ->]%arr_set_Some)]; [by eexists| |lia|by vm_compute].
  destruct (fd <? 0); [by eexists|]. rewrite Hfs. cbn [mbind option_bind].
  destruct (open_node_returns fs (map_Forall_lookup_1 _ _ _ _ Hm Hfs) (c :: rest) flags Hz) as [[fs' r] ->].
  cbn [mbind option_bind]. rewrite arr_get_insert, decide_True by (unfold zlen; (done || lia)).
  cbn [mbind option_bind]. destruct r; rewrite arr_set_ok by (rewrite zlen_insert; unfold zlen; lia); by eexists.
Qed.

(** The number of bytes a read of [len] bytes copies. *)
Definition read_count (f : mcs_file) (nd : mcs_vnode) (len : Z) : Z :=
  let avail := u64 (n_size nd - f_offset f) in if len <? avail then len else avail.

(** [fd] is not open, or the [k] bytes at the offset of its file are inside
    [fs->data]. *)
Definition data_room (s : vfs) (fd : Z) (k : mcs_file → mcs_vnode → Z) : Prop :=
  ∀ f fs nd, mcs_fd_get (files s) fd = Some (Ref f) → fss s !! f_fs f = Some fs →
    arr_get (nodes fs) (f_node f) = Some nd →
    k f nd ≤ 0 ∨ u64 (n_data_offset nd + f_offset f) + k f nd ≤ MCS_RAMFS_DATA_BYTES.

(** The accesses of the call stay inside their arrays: a path ends, and the
    bytes read or written are inside [fs->data] and the buffer. *)
Definition call_fits (c : vcall) (s : vfs) : Prop :=
  match c with
  | COpen path _ => 0 ∈ path
  | CRead fd buf len => data_room s fd (λ f nd, read_count f nd len) ∧
      ∀ f fs nd, mcs_fd_get (files s) fd = Some (Ref f) → fss s !! f_fs f = Some fs →
        arr_get (nodes fs) (f_node f) = Some nd → read_count f nd len ≤ zlen buf
  | CWrite fd x => data_room s fd (λ _ _, zlen x)
  | CLseek _ _ _ | CClose _ => True
  end.

Fixpoint calls_fit (fa : Z) (cs : list vcall) (s : vfs) : Prop :=
  match cs with
  | [] => True
  | c :: cs' => call_fits c s ∧ ∀ s' r, do_vcall fa c s = Some (s', r) → calls_fit fa cs' s'
  end.

(** An open descriptor in a typed state leads to a node. *)
Lemma fd_node s f : vfs_typed s → file_typed (fss s) f → 0 ≤ f_node f < 64 → is_Some (fss s !! f_fs f) →
  ∃ fs n, fss s !! f_fs f = Some fs ∧ ramfs_typed fs ∧ arr_get (nodes fs) (f_node f) = Some n ∧ vnode_typed n.
Proof.
  intros Ht Hf Hn [fs Hfs]. pose proof (map_Forall_lookup_1 _ _ _ _ (st_fss _ Ht) Hfs) as Hft.
  pose proof Hft as [[Hl Hall] _ _ _]. destruct (arr_get_is_Some (nodes fs) (f_node f)) as [n Hnd]; [unfold zlen; lia|].
  exists fs, n. split_and!; try done. by eapply arr_get_Forall.
Qed.

Lemma write_returns fd x s : vfs_typed s → data_room s fd (λ _ _, zlen x) →
  is_Some (mcs_sys_write fd x (zlen x) s).
Proof.
  intros Ht Hroom. unfold mcs_sys_write. destruct (fd_get_total s fd Ht) as [p Hg]. rewrite Hg. cbn [mbind option_bind].
  destruct (fd_get_typed _ _ _ Ht Hg) as [-> |(f & -> & Hf & Hn & Hs & Hfd)]; [by eexists|].
  destruct (fd_node s f Ht Hf Hn Hs) as (fs & n & Hfs & Hft & Hnd & Hnt).
  rewrite Hfs. cbn [mbind option_bind]. rewrite Hnd. cbn [mbind option_bind].
  specialize (Hroom f fs n Hg Hfs Hnd). unfold MCS_RAMFS_DATA_BYTES in Hroom.
  pose proof Hft as [[Hl _] _ [Hd _] _]. pose proof (u64_range (n_data_offset n + f_offset f)).
  assert (∃ d, put_bytes (Z.to_nat (zlen x)) 0 (u64 (n_data_offset n + f_offset f)) (data fs) x = Some d) as [d ->].
  { destruct Hroom as [Hz|]; [replace (Z.to_nat (zlen x)) with 0%nat by lia; cbn; eauto|].
    rewrite put_bytes_run by (unfold zlen in *; words). eauto. }
  cbn [mbind option_bind]. rewrite (arr_set_ok (files s)) by done. cbn [mbind option_bind].
  destruct (_ <? _); [|by eexists]. rewrite arr_set_ok by (unfold zlen; lia). by eexists.
Qed.

Lemma read_returns fd buf len s : vfs_typed s → is_u64 len → call_fits (CRead fd buf len) s →
  is_Some (mcs_sys_read fd buf len s).
Proof.
  intros Ht Hlen [Hroom Hbuf]. unfold mcs_sys_read. destruct (fd_get_total s fd Ht) as [p Hg]. rewrite Hg. cbn [mbind option_bind].
  destruct (fd_get_typed _ _ _ Ht Hg) as [-> |(f & -> & Hf & Hn & Hs & Hfd)]; [by eexists|].
  destruct (fd_node s f Ht Hf Hn Hs) as (fs & n & Hfs & Hft & Hnd & Hnt).
  rewrite Hfs. cbn [mbind option_bind]. rewrite Hnd. cbn [mbind option_bind].
  specialize (Hroom f fs n Hg Hfs Hnd). specialize (Hbuf f fs n Hg Hfs Hnd). unfold MCS_RAMFS_DATA_BYTES in Hroom.
  unfold read_count in *. set (k := if len <? _ then len else _) in *.
  pose proof Hft as [[Hl _] _ [Hd _] _]. pose proof (u64_range (n_data_offset n + f_offset f)).
  assert (∃ b, get_bytes (Z.to_nat k) 0 (u64 (n_data_offset n + f_offset f)) (data fs) buf = Some b) as [b ->].
  { destruct Hroom as [Hz|]; [replace (Z.to_nat k) with 0%nat by lia; cbn; eauto|].
    assert (0 ≤ k) by (pose proof (u64_range (n_size n - f_offset f)); unfold k; case_match; words).
    rewrite get_bytes_run by (unfold zlen in *; words). eauto. }
  cbn [mbind option_bind]. rewrite (arr_set_ok (files s)) by done. by eexists.
Qed.

(** ** Programs *)

Lemma vcall_typed_run fa c s s' r : vfs_typed s → vcall_typed c → do_vcall fa c s = Some (s', r) →
  vfs_typed s' ∧ vres_typed c r.
Proof.
  intros Ht Hc H. destruct c as [path flags|fd buf len|fd x|fd o w|fd]; cbn [do_vcall vcall_typed] in *.
  - apply bind_Some in H as ([s1 n] & E & H). injection H as <- <-. destruct Hc. by eapply open_typed.
  - apply bind_Some in H as ([[s1 b] n] & E & H). injection H as <- <-. destruct Hc as (_ & Hb & _).
    destruct (read_typed _ _ _ _ _ _ _ Ht Hb E) as (? & ? & ? & ?). done.
  - apply bind_Some in H as ([s1 n] & E & H). injection H as <- <-. destruct Hc as (_ & Hx & _). by eapply write_typed.
  - apply bind_Some in H as ([s1 n] & E & H). injection H as <- <-.
    destruct (lseek_typed fd o w s Ht) as (s2 & n2 & E2 & ? & ?). rewrite E2 in E. by injection E as <- <-.
  - apply bind_Some in H as ([s1 n] & E & H). injection H as <- <-.
    destruct (close_typed fd s Ht) as (s2 & n2 & E2 & ? & ?). rewrite E2 in E. by injection E as <- <-.
Qed.

Lemma vcalls_typed_run fa cs s s' rs : vfs_typed s → Forall vcall_typed cs → do_vcalls fa cs s = Some (s', rs) →
  vfs_typed s' ∧ Forall2 vres_typed cs rs.
Proof.
  intros Ht Hcs. revert s rs Ht. induction Hcs as [|c cs Hc Hcs IH]; intros s rs Ht H; cbn [do_vcalls] in H.
  { by injection H as <- <-. }
  apply bind_Some in H as ([s1 r] & E & H). apply bind_Some in H as ([s2 rs'] & E' & H). injection H as <- <-.
  destruct (vcall_typed_run _ _ _ _ _ Ht Hc E) as [Ht1 Hr]. destruct (IH _ _ Ht1 E') as [? ?].
  split; [done|by constructor].
Qed.

Lemma vcall_returns fa c s : vfs_typed s → is_Some (fss s !! fa) → vcall_typed c → call_fits c s →
  is_Some (do_vcall fa c s).
Proof.
  intros Ht Hfa Hc Hf. destruct c as [path flags|fd buf len|fd x|fd o w|fd]; cbn [do_vcall vcall_typed] in *.
  - destruct (open_returns fa path flags s Ht Hfa Hf) as [[s' r] ->]. by eexists.
  - destruct Hc as (_ & _ & Hl). destruct (read_returns fd buf len s Ht Hl Hf) as [[[s' b] r] ->]. by eexists.
  - destruct (write_returns fd x s Ht Hf) as [[s' r] ->]. by eexists.
  - destruct (lseek_typed fd o w s Ht) as (s' & r & -> & _). by eexists.
  - destruct (close_typed fd s Ht) as (s' & r & -> & _). by eexists.
Qed.

(** A file system stays where it is. *)
Lemma vcall_keeps_fs fa c s s' r : do_vcall fa c s = Some (s', r) → is_Some (fss s !! fa) → is_Some (fss s' !! fa).
Proof.
  assert (∀ a (x : mcs_ramfs) (m : gmap Z mcs_ramfs), is_Some (m !! fa) → is_Some (<[a := x]> m !! fa)) as Hins.
  { intros a x m Hm. destruct (decide (a = fa)) as [->|]; [by rewrite lookup_insert_eq|by rewrite lookup_insert_ne]. }
  intros H Hfa. destruct c; cbn [do_vcall] in H;
    unfold mcs_sys_open, mcs_sys_read, mcs_sys_write, mcs_sys_lseek, mcs_sys_close in H;
    repeat (simplify_option_eq || case_match); cbn [fss]; auto.
Qed.

Lemma vcalls_return fa cs s : vfs_typed s → is_Some (fss s !! fa) → Forall vcall_typed cs → calls_fit fa cs s →
  is_Some (do_vcalls fa cs s).
Proof.
  intros Ht Hfa Hcs. revert s Ht Hfa. induction Hcs as [|c cs Hc Hcs IH]; intros s Ht Hfa Hf; cbn [do_vcalls]; [by eexists|].
  destruct Hf as [Hf1 Hf2]. destruct (vcall_returns fa c s Ht Hfa Hc Hf1) as [[s1 r] E]. rewrite E. cbn [mbind option_bind].
  destruct (IH s1) as [[s2 rs] ->]; [by eapply vcall_typed_run|by eapply vcall_keeps_fs|by eapply Hf2|]. by eexists.
Qed.

(** ** Property *)

(** C23. From a state whose integers, arrays and pointers are as their C types
    say, with at most 64 nodes and the last byte of every name field 0 (no
    operation writes it): a program of typed calls that runs to its end keeps
    the state so, and each call returned a value of its type and filled a buffer
    of the same size with bytes. And it does run to its end, no access being
    undefined, when the file system it opens files of is there, each path ends
    with a NUL, and the bytes each read or write copies at that moment are
    inside [fs->data] and the buffer; opening with any such path of any length,
    seeking anywhere and closing never go wrong. *)
Theorem mcs_vfs_typed fa cs s : vfs_typed s → Forall vcall_typed cs →
  (∀ s' rs, do_vcalls fa cs s = Some (s', rs) → vfs_typed s' ∧ Forall2 vres_typed cs rs) ∧
  (is_Some (fss s !! fa) → calls_fit fa cs s → is_Some (do_vcalls fa cs s)).
Proof.
  intros Ht Hcs. split.
  - intros s' rs H. by eapply vcalls_typed_run.
  - intros Hfa Hf. by apply vcalls_return.
Qed.

(** ** The start *)

Lemma init_typed fs p : ramfs_typed fs → mcs_ramfs_init (Ref fs) = Some (Ref p) → ramfs_typed p.
Proof.
  intros Ht H. unfold mcs_ramfs_init in H. apply bind_Some in H as (n & Hn & H).
  apply bind_Some in H as (nm1 & H1 & (nm2 & H2 & (ns & Hns & H)%bind_Some)%bind_Some). injection H as <-.
  pose proof (node_typed _ Ht _ _ Hn) as [? ? ? [Hl Hu] He ? ? ?].
  assert (nm2 !! 31%nat = Some 0) as He2.
  { pose proof H1 as [_ ->]%arr_set_Some. pose proof H2 as [_ ->]%arr_set_Some. by rewrite !list_lookup_insert_ne. }
  destruct (arr_set_Forall _ _ _ _ _ Hu (ltac:(words) : is_u8 47) H1) as [Hl1 Hu1].
  destruct (arr_set_Forall _ _ _ _ _ Hu1 (ltac:(words) : is_u8 0) H2) as [Hl2 Hu2].
  pose proof Ht as [[Hlen Hall] ? ? ?]. eapply (arr_set_Forall vnode_typed) in Hns as [? ?]; [|done|].
  - split; cbn [nodes node_count data data_used]; try done. split; (congruence || done).
  - split; cbn; try done; try (split; congruence); words.
Qed.

Lemma seed_file_typed fs path src len fs' r : ramfs_typed fs → Forall is_u8 path → Forall is_u8 src → is_u64 len →
  mcs_ramfs_seed_file fs path src len = Some (fs', r) → ramfs_typed fs'.
Proof.
  intros Ht Hp Hs Hl H. unfold mcs_ramfs_seed_file in H. apply bind_Some in H as ([fs1 o] & E & H).
  destruct (create_typed fs Ht _ _ _ Hp E) as [Ht1 _]. destruct o as [rc|i]; [by injection H as <- <-|].
  apply bind_Some in H as (n & Hn & (d & Hd & (ns & Hns & H)%bind_Some)%bind_Some). injection H as <- <-.
  pose proof Ht1 as [_ _ [_ Hd8] _]. destruct (put_bytes_typed _ _ _ _ _ _ Hd8 Hs Hd).
  eapply store_typed; try done. apply set_size_typed; [by eapply node_typed|done].
Qed.

Definition seed_typed (seed : list Z * list Z) : Prop :=
  Forall is_u8 seed.1 ∧ Forall is_u8 seed.2 ∧ is_u64 (zlen seed.2).

Lemma seed_files_typed seeds fs fs' : ramfs_typed fs → Forall seed_typed seeds →
  seed_files seeds fs = Some fs' → ramfs_typed fs'.
Proof.
  intros Ht Hs. revert fs Ht. induction Hs as [|[nm x] seeds (Hn & Hx & Hl) Hs IH]; intros fs Ht; cbn [seed_files].
  { by intros [= <-]. }
  intros ([fs1 rc] & E & H)%bind_Some. destruct (rc =? MCS_OK); [|done]. eapply IH; [|exact H].
  apply (seed_file_typed fs (47 :: nm ++ [0]) x (zlen x) fs1 rc); [done| |done..].
  apply Forall_cons. split; [words|]. apply Forall_app. split; [done|].
  by apply Forall_singleton.
Qed.

(** A table of descriptors in any memory. *)
Definition table_typed (table : list mcs_file) : Prop :=
  length table = 16%nat ∧ Forall (λ f, is_u32 (f_flags f) ∧ is_u64 (f_offset f)) table.

Lemma vfs_start_typed fa mem table seeds s : ramfs_typed mem → table_typed table → Forall seed_typed seeds →
  vfs_start fa mem table seeds = Some s → vfs_typed s.
Proof.
  intros Hm [Hl Ht] Hs H. unfold vfs_start in H. apply bind_Some in H as (p & Hp & (fs & Hd & H)%bind_Some).
  destruct p as [|fs0]; [done|]. injection Hd as ->.
  apply bind_Some in H as (fs' & Hfs & (t & Hti & H)%bind_Some). injection H as <-.
  rewrite (fd_table_init_run table Hl) in Hti. injection Hti as <-.
  pose proof (init_typed _ _ Hm Hp) as H0. pose proof (seed_files_typed _ _ _ H0 Hs Hfs) as H1.
  split; cbn [files fss].
  - split; [by rewrite length_fmap|]. apply Forall_fmap. eapply Forall_impl; [exact Ht|].
    intros f [? ?]. split; cbn; (done || words).
  - intros a fs1. rewrite lookup_singleton_Some. by intros [_ <-].
Qed.

(** ** A concrete run *)

Lemma blank_typed : ramfs_typed blank_fs.
Proof.
  split.
  - split; [done|]. apply Forall_replicate. split; cbn [blank_vnode n_used n_id n_parent n_name n_size n_data_offset n_data_capacity];
      try words; try done. split; [done|]. apply Forall_replicate. words.
  - cbn. words.
  - split; [vm_compute; reflexivity|]. apply Forall_replicate. words.
  - cbn. words.
Qed.

Definition typed_start : vfs :=
  match vfs_start 4096 blank_fs (files demo_vfs) [(text "a", text "x")] with Some s => s | None => demo_vfs end.

Lemma typed_start_typed : vfs_typed typed_start.
Proof.
  apply (vfs_start_typed 4096 blank_fs (files demo_vfs) [(text "a", text "x")]); [apply blank_typed| | |].
  - split; [done|]. by apply Forall_replicate.
  - apply Forall_singleton. split_and!; [apply (bool_decide_eq_true_1 _); vm_compute; reflexivity..|].
    vm_compute. split; [discriminate|done].
  - vm_compute. reflexivity.
Qed.

(** A file is created under a name of 40 characters, of which the node keeps 31;
    so that it is not found again; it is written; then a descriptor is moved to the last offset of all and closed. *)
Definition far_calls : list vcall :=
  [COpen (47 :: replicate 40 97 ++ [0]) MCS_O_CREAT; COpen (47 :: replicate 40 97 ++ [0]) 0; COpen (literal "/a") 0;
   CWrite 0 [7; 8]; CLseek 1 (-1) MCS_SEEK_SET; CWrite 1 []; CClose 1].

Lemma far_calls_fit : calls_fit 4096 far_calls typed_start.
Proof.
  unfold far_calls. cbn [calls_fit call_fits].
  repeat (split; [|intros ? ? H; vm_compute in H; injection H as <- <-]); try done.
  all: try (apply (bool_decide_eq_true_1 _); vm_compute; reflexivity).
  - intros f fs nd Hf Hfs Hnd. right. vm_compute in Hf. injection Hf as <-. vm_compute in Hfs.
    injection Hfs as <-. vm_compute in Hnd. injection Hnd as <-. vm_compute. discriminate.
  - intros f fs nd _ _ _. by left.
Qed.

Lemma mcs_vfs_typed_witness :
  ∃ s, do_vcalls 4096 far_calls typed_start =
    Some (s, [VNum 0; VNum MCS_ENOENT; VNum 1; VNum 2; VNum (-1); VNum 0; VNum 0]) ∧ vfs_typed s.
Proof.
  destruct (mcs_vfs_typed 4096 far_calls typed_start typed_start_typed) as [Hty Hret].
  { unfold far_calls. repeat (apply Forall_cons; split); [..|by apply Forall_nil]; cbn [vcall_typed];
      split_and?; try (apply (bool_decide_eq_true_1 _); vm_compute; reflexivity);
      unfold is_int, is_ssize, MCS_O_CREAT, MCS_SEEK_SET; words. }
  destruct Hret as [[s rs] E]; [by vm_compute; eexists|apply far_calls_fit|].
  exists s. split; [|by apply (Hty s rs)]. rewrite E. do 2 f_equal. vm_compute in E. by injection E as _ <-.
Defined.
