(* ===== verification/Libmem.v ===== *)
(** The freestanding memory routines ([src/kernel/lib/memory.c]), on addresses
    of one memory, so that the two ranges may overlap. *)
From S2P Require Import Prelude Bytes Mem.

(** [while (count-- != 0u) { *d++ = ...; }]: [n] is the count left. *)
Fixpoint memset_loop (n : nat) (m : memory) (d value : Z) : option memory :=
  match n with
  | O => Some m
  | S n' => m ← store 1 m d (u8 value); memset_loop n' m (d + 1) value
  end.

Fixpoint memcpy_loop (n : nat) (m : memory) (d s : Z) : option memory :=
  match n with
  | O => Some m
  | S n' => x ← load 1 m s; m ← store 1 m d x; memcpy_loop n' m (d + 1) (s + 1)
  end.

(** [while (count-- != 0u) { *--d = *--s; }] *)
Fixpoint memmove_back (n : nat) (m : memory) (d s : Z) : option memory :=
  match n with
  | O => Some m
  | S n' => x ← load 1 m (s - 1); m ← store 1 m (d - 1) x; memmove_back n' m (d - 1) (s - 1)
  end.

(** Each returns its first argument with the memory. *)
Definition memset (m : memory) (dest value count : Z) : option (memory * Z) :=
  m ← memset_loop (Z.to_nat count) m dest value; Some (m, dest).

Definition memcpy (m : memory) (dest src count : Z) : option (memory * Z) :=
  m ← memcpy_loop (Z.to_nat count) m dest src; Some (m, dest).

Definition memmove (m : memory) (dest src count : Z) : option (memory * Z) :=
  if (dest =? src) || (count =? 0) then Some (m, dest) else
  m ← (if dest <? src then memcpy_loop (Z.to_nat count) m dest src
       else memmove_back (Z.to_nat count) m (dest + count) (src + count));
  Some (m, dest).

(** ** Single bytes *)

(** What a memory holds at one address. *)
Definition byte_at (m : memory) (a : Z) : option Z := load 1 m a.

Definition bytes_ok (m : memory) : Prop := Forall is_u8 (m_bytes m).

Lemma byte_at_u8 m a x : bytes_ok m → byte_at m a = Some x → is_u8 x.
Proof.
  intros Hm H. unfold byte_at, load, bytes_at in H. case_decide as Hd; [|done]. injection H as <-.
  apply (field_range 1). done.
Qed.

Lemma store_byte m m' a x b : store 1 m a x = Some m' → is_u8 x →
  byte_at m' b = if decide (b = a) then Some x else byte_at m b.
Proof.
  intros H Hx. unfold byte_at. case_decide as E.
  - subst. apply (load_store_same 1 m m' a x H). words.
  - apply (load_store_other 1 1 m m' a x b H). lia.
Qed.

Lemma store_u8 m m' a x : store 1 m a x = Some m' → bytes_ok m → bytes_ok m'.
Proof.
  unfold store, write_at, bytes_ok. case_decide; [|done]. intros [= <-] Hm. cbn [m_bytes].
  apply splice_u8; [apply le_encode_u8|done].
Qed.

Lemma byte_at_in m a n b : in_mem m a n → a ≤ b < a + n → ∃ x, byte_at m b = Some x.
Proof.
  intros H Hb. unfold byte_at, load. destruct (bytes_at_in m b (Z.of_nat 1)) as (l & E & _);
    [unfold in_mem in *; lia|]. rewrite E. by eexists.
Qed.

(** What changes: the bytes [f] of [[d, d + n)]. *)
Definition replaced (m m' : memory) (d n : Z) (f : Z → option Z) : Prop :=
  bytes_ok m' ∧ (∀ b k, in_mem m' b k ↔ in_mem m b k) ∧
  ∀ b, byte_at m' b = if decide (d ≤ b < d + n) then f b else byte_at m b.

Lemma memset_loop_run n m d v : bytes_ok m → in_mem m d (Z.of_nat n) →
  ∃ m', memset_loop n m d v = Some m' ∧ replaced m m' d (Z.of_nat n) (λ _, Some (u8 v)).
Proof.
  revert m d. induction n as [|n IH]; intros m d Hm Hin; cbn [memset_loop].
  { exists m. split; [done|]. split; [done|]. split; [done|]. intros b. by rewrite decide_False by lia. }
  mem_store 1%nat m d (u8 v) as m1 E1.
  destruct (IH m1 (d + 1)) as (m2 & E2 & H1 & H2 & H3).
  { by eapply store_u8. } { apply (store_in _ _ _ _ _ _ _ E1). unfold in_mem in *. lia. }
  exists m2. split; [done|]. split; [done|]. split.
  - intros b k. by rewrite H2, (store_in _ _ _ _ _ _ _ E1).
  - intros b. rewrite H3, (store_byte _ _ _ _ _ E1) by apply u8_range. repeat case_decide; (done || lia).
Qed.

(** The upward copy, when the destination does not start inside the source. *)
Lemma memcpy_loop_run n m d s : bytes_ok m → in_mem m d (Z.of_nat n) → in_mem m s (Z.of_nat n) →
  d ≤ s ∨ s + Z.of_nat n ≤ d →
  ∃ m', memcpy_loop n m d s = Some m' ∧ replaced m m' d (Z.of_nat n) (λ b, byte_at m (b - d + s)).
Proof.
  revert m d s. induction n as [|n IH]; intros m d s Hm Hd Hs Ho; cbn [memcpy_loop].
  { exists m. split; [done|]. split; [done|]. split; [done|]. intros b. by rewrite decide_False by lia. }
  destruct (byte_at_in _ _ _ s Hs) as [x Hx]; [lia|]. unfold byte_at in Hx. rewrite Hx. cbn [mbind option_bind].
  pose proof (byte_at_u8 _ _ _ Hm Hx) as Hx8.
  mem_store 1%nat m d x as m1 E1.
  destruct (IH m1 (d + 1) (s + 1)) as (m2 & E2 & H1 & H2 & H3).
  { by eapply store_u8. }
  { apply (store_in _ _ _ _ _ _ _ E1). unfold in_mem in *. lia. }
  { apply (store_in _ _ _ _ _ _ _ E1). unfold in_mem in *. lia. }
  { lia. }
  exists m2. split; [done|]. split; [done|]. split.
  - intros b k. by rewrite H2, (store_in _ _ _ _ _ _ _ E1).
  - intros b. rewrite H3. replace (b - (d + 1) + (s + 1)) with (b - d + s) by lia.
    rewrite !(store_byte _ _ _ _ _ E1) by done.
    repeat case_decide; try lia; try done. subst b. replace (d - d + s) with s by lia. done.
Qed.

(** The downward copy, when the source does not start inside the destination;
    the pointers are past the end of what is left. *)
Lemma memmove_back_run n m d s : bytes_ok m →
  in_mem m (d - Z.of_nat n) (Z.of_nat n) → in_mem m (s - Z.of_nat n) (Z.of_nat n) → s ≤ d →
  ∃ m', memmove_back n m d s = Some m' ∧
    replaced m m' (d - Z.of_nat n) (Z.of_nat n) (λ b, byte_at m (b - d + s)).
Proof.
  revert m d s. induction n as [|n IH]; intros m d s Hm Hd Hs Ho; cbn [memmove_back].
  { exists m. split; [done|]. split; [done|]. split; [done|]. intros b. by rewrite decide_False by lia. }
  destruct (byte_at_in _ _ _ (s - 1) Hs) as [x Hx]; [lia|]. unfold byte_at in Hx. rewrite Hx. cbn [mbind option_bind].
  pose proof (byte_at_u8 _ _ _ Hm Hx) as Hx8.
  mem_store 1%nat m (d - 1) x as m1 E1.
  destruct (IH m1 (d - 1) (s - 1)) as (m2 & E2 & H1 & H2 & H3).
  { by eapply store_u8. }
  { apply (store_in _ _ _ _ _ _ _ E1). unfold in_mem in *. lia. }
  { apply (store_in _ _ _ _ _ _ _ E1). unfold in_mem in *. lia. }
  { lia. }
  exists m2. split; [done|]. split; [done|]. split.
  - intros b k. by rewrite H2, (store_in _ _ _ _ _ _ _ E1).
  - intros b. rewrite H3. replace (b - (d - 1) + (s - 1)) with (b - d + s) by lia.
    rewrite !(store_byte _ _ _ _ _ E1) by done.
    repeat case_decide; try lia; try done. subst b. replace (d - 1 - d + s) with (s - 1) by lia. done.
Qed.

(** ** Properties *)

(** C30. [memmove] leaves in the destination what the source held before the
    call, whether or not the ranges overlap and whichever way, and changes no
    other byte; so does [memcpy] when the ranges do not overlap or the
    destination comes first; [memset] fills the range with the low byte of the
    value. All return the destination, and on ranges inside the memory none
    goes outside it. *)
Theorem memmove_correct m dest src count : bytes_ok m → 0 ≤ count →
  in_mem m dest count → in_mem m src count →
  (∃ m', memmove m dest src count = Some (m', dest) ∧
     replaced m m' dest count (λ b, byte_at m (b - dest + src))) ∧
  (dest ≤ src ∨ src + count ≤ dest →
   ∃ m', memcpy m dest src count = Some (m', dest) ∧
     replaced m m' dest count (λ b, byte_at m (b - dest + src))) ∧
  (∀ v, ∃ m', memset m dest v count = Some (m', dest) ∧
     replaced m m' dest count (λ _, Some (u8 v))).
Proof.
  intros Hm Hc Hd Hs.
  assert (Hz : Z.of_nat (Z.to_nat count) = count) by lia.
  assert (Hfwd : dest ≤ src ∨ src + count ≤ dest → ∃ m',
    memcpy_loop (Z.to_nat count) m dest src = Some m' ∧
    replaced m m' dest count (λ b, byte_at m (b - dest + src))).
  { intros Ho. destruct (memcpy_loop_run (Z.to_nat count) m dest src) as (m' & E & R);
      rewrite ?Hz in *; try done. by exists m'. }
  split; [|split].
  - unfold memmove. destruct (Z.eqb_spec dest src) as [->|Hne].
    { exists m. split; [done|]. split; [done|]. split; [done|]. intros b.
      case_decide; [f_equal; lia|done]. }
    destruct (Z.eqb_spec count 0) as [->|Hn0]; cbn [orb].
    { exists m. split; [done|]. split; [done|]. split; [done|]. intros b. by rewrite decide_False by lia. }
    destruct (Z.ltb_spec dest src) as [Hlt|Hge].
    + destruct Hfwd as (m' & E & R); [lia|]. exists m'. by rewrite E.
    + destruct (memmove_back_run (Z.to_nat count) m (dest + count) (src + count)) as (m' & E & R1 & R2 & R3);
        rewrite ?Hz in *; replace (dest + count - count) with dest in * by lia;
        replace (src + count - count) with src in * by lia; try done; [lia|].
      exists m'. rewrite E. split; [done|]. split; [done|]. split; [done|]. intros b. rewrite R3.
      case_decide; [f_equal; lia|done].
  - intros Ho. destruct (Hfwd Ho) as (m' & E & R). exists m'. unfold memcpy. by rewrite E.
  - intros v. destruct (memset_loop_run (Z.to_nat count) m dest v Hm) as (m' & E & R); [by rewrite Hz|].
    rewrite Hz in R. exists m'. unfold memset. by rewrite E.
Qed.

(** Two bytes up, over itself. *)
Lemma memmove_correct_witness :
  memmove (Mem 100 [1; 2; 3; 4; 5; 6]) 102 100 4 = Some (Mem 100 [1; 2; 1; 2; 3; 4], 102) ∧
  ∃ m', memmove (Mem 100 [1; 2; 3; 4; 5; 6]) 102 100 4 = Some (m', 102) ∧
        byte_at m' 105 = Some 4.
Proof.
  split; [vm_compute; reflexivity|].
  destruct (memmove_correct (Mem 100 [1; 2; 3; 4; 5; 6]) 102 100 4) as [(m' & E & _ & _ & H) _].
  - unfold bytes_ok. cbn [m_bytes]. repeat (apply Forall_cons; split; [words|]). by apply Forall_nil.
  - lia.
  - unfold in_mem, zlen. cbn. lia.
  - unfold in_mem, zlen. cbn. lia.
  - exists m'. split; [exact E|]. rewrite H. vm_compute. reflexivity.
Defined.
