(* ===== verification/Console.v ===== *)
(** The serial console and what is printed on it ([src/kernel/core/serial.c],
    [log.c] and [panic.c]). The ports are a parameter: [inb] and [outb] act on
    the state [W] of the hardware; [Uart] says what is relied on of the 16550. *)
From Stdlib Require Import Ascii String.
From S2P Require Import Prelude Cstr.

Definition COM1_PORT : Z := 0x3F8.
Definition SERIAL_TIMEOUT_LIMIT : Z := 100000.

(** The two port instructions. *)
Class Ports (W : Type) := {
  inb : Z → W → W * Z;
  outb : Z → Z → W → W;
}.

Section Console.
Context {W : Type} `{!Ports W}.

(** ** Serial port *)

Definition serial_transmit_empty (w : W) : W * bool :=
  let '(w, x) := inb (COM1_PORT + 5) w in (w, negb (Z.land x 0x20 =? 0)).

Definition serial_init (w : W) : W :=
  let w := outb (COM1_PORT + 1) 0x00 w in
  let w := outb (COM1_PORT + 3) 0x80 w in
  let w := outb (COM1_PORT + 0) 0x03 w in
  let w := outb (COM1_PORT + 1) 0x00 w in
  let w := outb (COM1_PORT + 3) 0x03 w in
  let w := outb (COM1_PORT + 2) 0xC7 w in
  outb (COM1_PORT + 4) 0x0B w.

(** The wait: whether the port became ready within [n] polls, the number left
    before [spin] reaches the limit. *)
Fixpoint serial_wait (n : nat) (w : W) : W * bool :=
  match n with
  | O => (w, false)
  | S n' =>
      let '(w, ready) := serial_transmit_empty w in
      if ready then (w, true) else serial_wait n' w
  end.

(** [serial_putc] after the test for a line feed. *)
Definition putc_raw (c : Z) (w : W) : W :=
  let '(w, ready) := serial_wait (Z.to_nat SERIAL_TIMEOUT_LIMIT) w in
  if ready then outb COM1_PORT (u8 c) w else w.

Definition serial_putc (c : Z) (w : W) : W :=
  putc_raw c (if c =? 10 then putc_raw 13 w else w).

Fixpoint write_loop (s : list Z) (w : W) : option W :=
  match s with
  | [] => None
  | c :: s' => if c =? 0 then Some w else write_loop s' (serial_putc c w)
  end.
Definition serial_write (s : ptr (list Z)) (w : W) : option W :=
  match s with Null => Some w | Ref s => write_loop s w end.

(** ** Log *)

Record log_state := Log {
  g_log_ready : Z;
  l_world : W;
}.

Definition log_init (l : log_state) : log_state := Log 1 (serial_init (l_world l)).

(** [if (g_log_ready == 0) { serial_init(); g_log_ready = 1; }] *)
Definition ensure_ready (l : log_state) : log_state :=
  if g_log_ready l =? 0 then Log 1 (serial_init (l_world l)) else l.

Definition log_putc (c : Z) (l : log_state) : log_state :=
  let l := ensure_ready l in Log (g_log_ready l) (serial_putc c (l_world l)).

Definition log_write (s : ptr (list Z)) (l : log_state) : option log_state :=
  let l := ensure_ready l in
  w ← serial_write s (l_world l); Some (Log (g_log_ready l) w).

Definition log_writeln (s : ptr (list Z)) (l : log_state) : option log_state :=
  l ← log_write s l; Some (log_putc 10 l).

Definition hex_digits : list Z := literal "0123456789abcdef".

(** [shift] = 60, 56, ..., 0: [n] digits to go. *)
Fixpoint hex_loop (n : nat) (value : Z) (l : log_state) : option log_state :=
  match n with
  | O => Some l
  | S n' =>
      let nibble := Z.land (Z.shiftr value (4 * Z.of_nat n')) 15 in
      c ← arr_get hex_digits nibble;
      hex_loop n' value (log_putc c l)
  end.

Definition log_hex64 (value : Z) (l : log_state) : option log_state :=
  l ← log_write (Ref (literal "0x")) l;
  hex_loop 16 value l.

Definition log_key_value_hex64 (key : ptr (list Z)) (value : Z) (l : log_state) : option log_state :=
  l ← log_write key l;
  l ← log_write (Ref (literal "=")) l;
  l ← log_hex64 value l;
  Some (log_putc 10 l).

(** ** Panic *)

(** [while (value != 0 && i < sizeof(buf)) { buf[i++] = ...; value /= 10; }] *)
Fixpoint dec_fill (n : nat) (i value : Z) (buf : list Z) : option (list Z * Z) :=
  match n with
  | O => Some (buf, i)
  | S n' =>
      if value =? 0 then Some (buf, i) else
      buf ← arr_set buf i (48 + value mod 10);
      dec_fill n' (i + 1) (value / 10) buf
  end.

(** [while (i != 0) log_putc(buf[--i]);] *)
Fixpoint dec_print (i : nat) (buf : list Z) (l : log_state) : option log_state :=
  match i with
  | O => Some l
  | S i' => c ← buf !! i'; dec_print i' buf (log_putc c l)
  end.

Definition log_dec_u32 (value : Z) (l : log_state) : option log_state :=
  if value =? 0 then Some (log_putc 48 l) else
  '(buf, i) ← dec_fill 11 0 value (replicate 11 0);
  dec_print (Z.to_nat i) buf l.

(** The text of a panic; the processor then stays in a loop with interrupts
    disabled. *)
Definition or_unknown (s : ptr (list Z)) : ptr (list Z) :=
  match s with Null => Ref (literal "unknown") | Ref _ => s end.

Definition kernel_panic_at (file : ptr (list Z)) (line : Z) (reason : ptr (list Z)) (code rflags : Z)
    (l : log_state) : option log_state :=
  l ← log_writeln (Ref (literal "")) l;
  l ← log_writeln (Ref (literal "================ MCSOS KERNEL PANIC ================")) l;
  l ← log_write (Ref (literal "system=")) l;
  l ← log_write (Ref (literal "MCSOS")) l;
  l ← log_write (Ref (literal " version=")) l;
  l ← log_write (Ref (literal "v0.3.0")) l;
  l ← log_write (Ref (literal " milestone=")) l;
  l ← log_writeln (Ref (literal "M3")) l;
  l ← log_write (Ref (literal "reason=")) l;
  l ← log_writeln (or_unknown reason) l;
  l ← log_write (Ref (literal "location=")) l;
  l ← log_write (or_unknown file) l;
  l ← log_write (Ref (literal ":")) l;
  l ← log_dec_u32 (u32 line) l;
  let l := log_putc 10 l in
  l ← log_key_value_hex64 (Ref (literal "panic_code")) code l;
  l ← log_key_value_hex64 (Ref (literal "rflags_before_cli")) rflags l;
  l ← log_writeln (Ref (literal "state=halted")) l;
  log_writeln (Ref (literal "====================================================")) l.
End Console.

Arguments log_state : clear implicits.

(** ** What is sent *)

(** A 16550. [dlab] is bit 7 of its line control register, [sent] the bytes it
    accepted for sending, [busy] the number of polls after which its
    transmitter will be empty: only then bit 5 of the line status is set, and
    only then a byte is accepted. A byte occupies it for [char_polls] polls at
    most, which are fewer than 100000, the driver's limit. While [dlab] is set the data port
    holds the divisor. Nothing is said of a byte written to a busy port. *)
Class Uart (W : Type) `{Ports W} (char_polls : nat) (busy : W → nat) (dlab : W → bool)
    (sent : W → list Z) : Prop := {
  uart_speed : Z.of_nat char_polls < 100000;
  uart_poll w : let '(w', x) := inb (COM1_PORT + 5) w in
    (Z.land x 0x20 ≠ 0 ↔ busy w = O) ∧ busy w' = pred (busy w) ∧ dlab w' = dlab w ∧ sent w' = sent w;
  uart_data x w : dlab w = false → busy w = O →
    dlab (outb COM1_PORT x w) = false ∧ sent (outb COM1_PORT x w) = sent w ++ [x] ∧
    (busy (outb COM1_PORT x w) ≤ char_polls)%nat;
  uart_divisor x w : dlab w = true → dlab (outb COM1_PORT x w) = true ∧
    sent (outb COM1_PORT x w) = sent w ∧ (busy (outb COM1_PORT x w) ≤ busy w)%nat;
  uart_line x w : dlab (outb (COM1_PORT + 3) x w) = Z.testbit x 7 ∧
    sent (outb (COM1_PORT + 3) x w) = sent w ∧ (busy (outb (COM1_PORT + 3) x w) ≤ busy w)%nat;
  uart_other p x w : p ∈ [1; 2; 4] → dlab (outb (COM1_PORT + p) x w) = dlab w ∧
    sent (outb (COM1_PORT + p) x w) = sent w ∧ (busy (outb (COM1_PORT + p) x w) ≤ busy w)%nat;
}.

(** The bytes that a character is on the line. *)
Definition line_bytes (c : Z) : list Z := if c =? 10 then [13; 10] else [c].
Definition line_text (s : list Z) : list Z := concat (line_bytes <$> s).

(** Printable characters: those a C string can hold. *)
Definition is_char (c : Z) : Prop := 0 < c < 256.

Section Sent.
Context {W : Type} `{!Ports W} {char_polls : nat} {busy : W → nat} {dlab : W → bool} {sent : W → list Z}.
Context `{!Uart W char_polls busy dlab sent}.
Implicit Types (w : W) (l : log_state W).

(** The transmitter is empty before the driver gives up. *)
Definition empties w : Prop := Z.of_nat (busy w) < 100000.

(** The state of the port after it has accepted [s]. *)
Definition gave (s : list Z) (w w' : W) : Prop := dlab w' = false ∧ sent w' = sent w ++ s ∧ empties w'.

(** The log can print: it is initialised already, or will be by the first
    character, and the port is not held up. *)
Definition can_log l : Prop := empties (l_world l) ∧ (g_log_ready l = 0 ∨ dlab (l_world l) = false).

(** After a run from [l] the log can go on and [s] was sent. *)
Definition logged (s : list Z) l l' : Prop :=
  g_log_ready l' ≠ 0 ∧ gave s (l_world l) (l_world l').

Lemma logged_can s l l' : logged s l l' → can_log l'.
Proof. intros (? & ? & ? & ?). split; [done|by right]. Qed.

Lemma logged_trans s s' l l' l'' : logged s l l' → logged s' l' l'' → logged (s ++ s') l l''.
Proof. intros (?&?&H&_) (?&?&H'&?). split; [done|]. split; [done|]. split; [|done]. by rewrite H', H, <-app_assoc. Qed.

(** The wait ends with an empty transmitter. *)
Lemma wait_ready n w : (busy w < n)%nat → dlab w = false →
  ∃ w', serial_wait n w = (w', true) ∧ busy w' = O ∧ dlab w' = false ∧ sent w' = sent w.
Proof.
  revert w. induction n as [|n IH]; intros w Hb Hd; [lia|]. cbn [serial_wait].
  unfold serial_transmit_empty. pose proof (uart_poll w) as H.
  destruct (inb (COM1_PORT + 5) w) as [w' x]. destruct H as (H1&H2&H3&H4).
  destruct (Z.eqb_spec (Z.land x 0x20) 0) as [E|E]; cbn [negb].
  - destruct (busy w) as [|k]; [by destruct (proj2 H1 eq_refl)|].
    destruct (IH w') as (w2&->&?&?&Hs); [cbn in H2; lia|congruence|].
    exists w2. split_and!; [done..|congruence].
  - apply H1 in E. exists w'. rewrite E in H2. split_and!; [done..|congruence|done].
Qed.

Lemma putc_raw_sent c w : is_u8 c → dlab w = false → empties w → gave [c] w (putc_raw c w).
Proof.
  intros Hc Hd Hw. unfold putc_raw, empties, gave in *.
  destruct (wait_ready (Z.to_nat SERIAL_TIMEOUT_LIMIT) w) as (w'&->&H1&H2&H3); [unfold SERIAL_TIMEOUT_LIMIT; lia|done|].
  rewrite u8_small by done. destruct (uart_data c w' H2 H1) as (H4&H5&H6).
  pose proof uart_speed. split_and!; [done|congruence|unfold empties; lia].
Qed.

Lemma serial_putc_sent c w : is_u8 c → dlab w = false → empties w → gave (line_bytes c) w (serial_putc c w).
Proof.
  intros Hc Hd Hw. unfold serial_putc, line_bytes.
  destruct (Z.eqb_spec c 10) as [->|]; [|by apply putc_raw_sent].
  destruct (putc_raw_sent 13 w) as (H1 & H2 & Hw'); [words|done|done|].
  destruct (putc_raw_sent 10 (putc_raw 13 w)) as (H3 & H4 & ?); [words|done|done|].
  split; [done|]. split; [|done]. by rewrite H4, H2, <-app_assoc.
Qed.

(** A write of the initialisation: a byte [x] to the register [p] of a port
    whose [dlab] is [d] makes it [d'] and sends nothing. *)
Definition sets (d d' : bool) (p x : Z) : Prop := ∀ w, dlab w = d →
  dlab (outb (COM1_PORT + p) x w) = d' ∧ sent (outb (COM1_PORT + p) x w) = sent w ∧
  (busy (outb (COM1_PORT + p) x w) ≤ busy w)%nat.

Lemma sets_other d p x : p ∈ [1; 2; 4] → sets d d p x.
Proof. intros Hp w <-. by apply uart_other. Qed.

Lemma sets_line d x : sets d (Z.testbit x 7) 3 x.
Proof. intros w _. apply uart_line. Qed.

Lemma sets_divisor x : sets true true 0 x.
Proof. intros w. apply uart_divisor. Qed.

Lemma serial_init_sent w : empties w → gave [] w (serial_init w).
Proof.
  intros Hw. unfold serial_init.
  assert (1 ∈ [1; 2; 4] ∧ 2 ∈ [1; 2; 4] ∧ 4 ∈ [1; 2; 4]) as (E1&E2&E4) by (rewrite !elem_of_cons; tauto).
  destruct (sets_other (dlab w) 1 0x00 E1 w eq_refl) as (D1&S1&B1). set (w1 := outb _ _ w) in *.
  destruct (sets_line _ 0x80 w1 D1) as (D2&S2&B2). set (w2 := outb _ _ w1) in *.
  destruct (sets_divisor 0x03 w2 D2) as (D3&S3&B3). set (w3 := outb _ _ w2) in *.
  destruct (sets_other _ 1 0x00 E1 w3 D3) as (D4&S4&B4). set (w4 := outb _ _ w3) in *.
  destruct (sets_line _ 0x03 w4 D4) as (D5&S5&B5). set (w5 := outb _ _ w4) in *.
  destruct (sets_other _ 2 0xC7 E2 w5 D5) as (D6&S6&B6). set (w6 := outb _ _ w5) in *.
  destruct (sets_other _ 4 0x0B E4 w6 D6) as (D7&S7&B7).
  unfold gave, empties in *. rewrite app_nil_r. split_and!; [done|congruence|lia].
Qed.

Lemma log_init_logged l : empties (l_world l) → logged [] l (log_init l).
Proof. intros Hl. split; [done|]. by apply serial_init_sent. Qed.

Lemma ensure_ready_logged l : can_log l → logged [] l (ensure_ready l).
Proof.
  unfold ensure_ready. intros Hl. destruct Hl as [He Hl].
  destruct (Z.eqb_spec (g_log_ready l) 0); [by apply log_init_logged|].
  destruct Hl as [|Hl]; [done|]. split; [done|]. split; [done|]. by rewrite app_nil_r.
Qed.

Lemma log_putc_logged c l : is_u8 c → can_log l → logged (line_bytes c) l (log_putc c l).
Proof.
  intros Hc Hl. destruct (ensure_ready_logged _ Hl) as (H1&H2&H3&He). rewrite app_nil_r in H3.
  destruct (serial_putc_sent c (l_world (ensure_ready l))) as (H4 & H5 & H6); [done..|].
  unfold log_putc. split; [done|]. split; [done|]. split; [|done]. cbn. by rewrite H5, H3.
Qed.

Lemma write_loop_sent s rest w : Forall is_char s → dlab w = false → empties w →
  ∃ w', write_loop (s ++ 0 :: rest) w = Some w' ∧ gave (line_text s) w w'.
Proof.
  intros Hs. revert w. induction Hs as [|c s Hc Hs IH]; intros w Hd Hw; cbn.
  - exists w. split; [done|]. split; [done|]. by rewrite app_nil_r.
  - unfold is_char in Hc. rewrite (proj2 (Z.eqb_neq c 0)) by lia.
    destruct (serial_putc_sent c w) as (H1 & H2 & He); [words|done|done|].
    destruct (IH _ H1 He) as (w'&->&H3&H4&?). exists w'. split; [done|]. split; [done|]. split; [|done].
    rewrite H4, H2, <-app_assoc. done.
Qed.

(** A string is sent up to its terminator, each line feed after a carriage
    return. *)
Lemma log_write_logged s rest l : Forall is_char s → can_log l →
  ∃ l', log_write (Ref (s ++ 0 :: rest)) l = Some l' ∧ logged (line_text s) l l'.
Proof.
  intros Hs Hl. destruct (ensure_ready_logged _ Hl) as (H1&H2&H3&He). rewrite app_nil_r in H3.
  unfold log_write. cbn. destruct (write_loop_sent s rest (l_world (ensure_ready l)) Hs H2 He) as (w'&->&H4&H5&?).
  eexists. split; [done|]. split; [done|]. split; [done|]. split; [|done]. cbn. by rewrite H5, H3.
Qed.

(** ** Hexadecimal numbers *)

Definition hex_char (d : Z) : Z := if d <? 10 then 48 + d else 87 + d.
(** The [n] digits of [v], most significant first. *)
Fixpoint hex_text (n : nat) (v : Z) : list Z :=
  match n with
  | O => []
  | S n' => hex_char (Z.shiftr v (4 * Z.of_nat n') mod 16) :: hex_text n' v
  end.

Lemma hex_digits_get d : 0 <= d < 16 → arr_get hex_digits d = Some (hex_char d).
Proof.
  intros Hd. assert (d ∈ seqZ 0 16) as Hin by (apply elem_of_seqZ; lia). clear Hd. revert d Hin.
  apply list.Forall_forall. by repeat constructor.
Qed.

Lemma hex_char_plain d : 0 <= d < 16 → is_u8 (hex_char d) ∧ line_bytes (hex_char d) = [hex_char d].
Proof.
  intros Hd. unfold hex_char, line_bytes. destruct (Z.ltb_spec d 10); (split; [words|]);
    rewrite (proj2 (Z.eqb_neq _ 10)) by lia; done.
Qed.

Lemma hex_loop_logged n v l : 0 <= v → can_log l →
  ∃ l', hex_loop n v l = Some l' ∧
    (n = O ∧ l' = l ∨ logged (hex_text n v) l l').
Proof.
  intros Hv. revert l. induction n as [|n IH]; intros l Hl; [exists l; auto|]. cbn [hex_loop hex_text].
  change 15 with (Z.ones 4). rewrite Z.land_ones by lia. change (2 ^ 4) with 16.
  set (d := Z.shiftr v (4 * Z.of_nat n) mod 16).
  assert (0 <= d < 16) as Hd by (apply Z.mod_pos_bound; lia).
  rewrite (hex_digits_get _ Hd). cbn. destruct (hex_char_plain _ Hd) as [Hb Hp].
  pose proof (log_putc_logged _ _ Hb Hl) as H1. rewrite Hp in H1.
  destruct (IH _ (logged_can _ _ _ H1)) as (l'&->&[[-> ->]|H2]); (eexists; split; [done|right]); [done|].
  exact (logged_trans _ _ _ _ _ H1 H2).
Qed.

(** What a reader of the line makes of hexadecimal digits. *)
Definition hex_val (c : Z) : Z := if c <? 58 then c - 48 else c - 87.
Definition parse_hex (s : list Z) : Z := fold_left (λ acc c, acc * 16 + hex_val c) s 0.

Lemma hex_val_char d : 0 <= d < 16 → hex_val (hex_char d) = d.
Proof. unfold hex_val, hex_char. intros. repeat (case_match || destruct (Z.ltb_spec _ _)); lia. Qed.

Lemma parse_hex_from acc n v : 0 <= v →
  fold_left (λ acc c, acc * 16 + hex_val c) (hex_text n v) acc = acc * 16 ^ Z.of_nat n + v mod 16 ^ Z.of_nat n.
Proof.
  intros Hv. revert acc. induction n as [|n IH]; intros acc; [cbn; rewrite Z.mod_1_r; lia|].
  cbn [hex_text fold_left]. rewrite IH, hex_val_char by (apply Z.mod_pos_bound; lia).
  rewrite Z.shiftr_div_pow2 by lia. replace (2 ^ (4 * Z.of_nat n)) with (16 ^ Z.of_nat n)
    by (rewrite Z.pow_mul_r by lia; done).
  rewrite Nat2Z.inj_succ, Z.pow_succ_r by lia.
  assert (0 < 16 ^ Z.of_nat n) by lia. set (P := 16 ^ Z.of_nat n) in *.
  rewrite (Z.mul_comm 16 P), Z.rem_mul_r by lia. lia.
Qed.

Lemma length_hex_text n v : length (hex_text n v) = n.
Proof. induction n as [|n IH]; cbn; congruence. Qed.

(** ** Decimal numbers *)

Definition is_digit (c : Z) : Prop := 48 <= c < 58.
(** The value of decimal digits, the least significant first. *)
Fixpoint dec_value (ds : list Z) : Z :=
  match ds with [] => 0 | c :: ds' => c - 48 + 10 * dec_value ds' end.
(** What a reader of the line makes of them. *)
Definition parse_dec (s : list Z) : Z := fold_left (λ acc c, acc * 10 + (c - 48)) s 0.

Lemma parse_dec_rev ds : parse_dec (rev ds) = dec_value ds.
Proof.
  unfold parse_dec. induction ds as [|c ds IH]; [done|].
  cbn [rev dec_value]. rewrite fold_left_app, IH. cbn. lia.
Qed.

Lemma arr_set_take (buf : list Z) (i : nat) (x : Z) : (i < length buf)%nat →
  ∃ buf', arr_set buf (Z.of_nat i) x = Some buf' ∧ length buf' = length buf ∧
    take (S i) buf' = take i buf ++ [x].
Proof.
  intros Hi. eexists. split; [apply arr_set_ok; unfold zlen; lia|]. rewrite Nat2Z.id, length_insert.
  split; [done|]. rewrite (take_S_r _ _ x) by (by rewrite list_lookup_insert_eq).
  by rewrite take_insert_ge by lia.
Qed.

(** The digits are stored in the order in which the divisions give them. *)
Lemma dec_fill_run n v buf (i : nat) : 0 <= v < 10 ^ Z.of_nat n → (i + n <= length buf)%nat →
  ∃ buf' ds, dec_fill n (Z.of_nat i) v buf = Some (buf', Z.of_nat (i + length ds)) ∧
    take (i + length ds) buf' = take i buf ++ ds ∧ (i + length ds <= length buf')%nat ∧
    dec_value ds = v ∧ Forall is_digit ds ∧ (v = 0 → ds = []) ∧ (v ≠ 0 → ∃ c, last ds = Some c ∧ c ≠ 48) ∧
    ∀ m : nat, v < 10 ^ Z.of_nat m → (length ds <= m)%nat.
Proof.
  revert v buf i. induction n as [|n IH]; intros v buf i Hv Hi.
  - exists buf, []. cbn in *. rewrite Nat.add_0_r, app_nil_r. repeat split; auto with lia.
  - cbn [dec_fill]. destruct (Z.eqb_spec v 0) as [->|Hv0].
    { exists buf, []. cbn. rewrite Nat.add_0_r, app_nil_r. repeat split; auto with lia. }
    destruct (arr_set_take buf i (48 + v mod 10)) as (buf1&->&Hl1&Ht1); [lia|]. cbn [mbind option_bind].
    replace (Z.of_nat i + 1) with (Z.of_nat (S i)) by lia.
    assert (0 <= v mod 10 < 10) by (apply Z.mod_pos_bound; lia).
    assert (0 <= v / 10 < 10 ^ Z.of_nat n).
    { rewrite Nat2Z.inj_succ, Z.pow_succ_r in Hv by lia.
      split; [apply Z.div_pos; lia|apply Z.div_lt_upper_bound; lia]. }
    destruct (IH (v / 10) buf1 (S i)) as (buf'&ds&->&Ht&Hl&Hd&Hds&Hz0&Hn0&Hn); [done|lia|].
    pose proof (Z.div_mod v 10).
    exists buf', (48 + v mod 10 :: ds). cbn [length]. rewrite <-Nat.add_succ_comm.
    split; [done|]. split; [by rewrite Ht, Ht1, <-app_assoc|]. split; [lia|].
    split; [cbn; lia|]. split; [constructor; [unfold is_digit; lia|done]|].
    split; [done|]. split; [intros _|intros [|m] Hm; [cbn in Hm; lia|]].
    2: { rewrite Nat2Z.inj_succ, Z.pow_succ_r in Hm by lia.
         specialize (Hn m). assert (v / 10 < 10 ^ Z.of_nat m); [apply Z.div_lt_upper_bound; lia|lia]. }
    destruct (decide (v / 10 = 0)) as [Hz|Hz]; [rewrite (Hz0 Hz); exists (48 + v mod 10); split; [done|lia]|].
    destruct ds as [|c ds]; [by destruct (Hn0 Hz) as (?&?&?)|by apply Hn0].
Qed.

Lemma digit_plain c : is_digit c → is_u8 c ∧ line_bytes c = [c].
Proof.
  unfold is_digit. intros. split; [words|]. unfold line_bytes. by rewrite (proj2 (Z.eqb_neq _ 10)) by lia.
Qed.

Lemma dec_print_logged (buf ds : list Z) l : Forall is_digit ds → take (length ds) buf = ds → can_log l →
  ∃ l', dec_print (length ds) buf l = Some l' ∧ (ds = [] ∧ l' = l ∨ logged (rev ds) l l').
Proof.
  revert l. induction ds as [|c ds IH] using rev_ind; intros l Hds Ht Hl; [exists l; auto|].
  rewrite length_app, Nat.add_comm in *. cbn [length Nat.add dec_print] in *.
  apply Forall_app in Hds as [Hds Hc]. apply Forall_cons in Hc as [Hc _].
  assert (buf !! length ds = Some c) as ->.
  { rewrite <-(lookup_take_lt buf (S (length ds)) (length ds)) by lia. rewrite Ht. by apply list_lookup_middle. }
  cbn [mbind option_bind]. destruct (digit_plain _ Hc) as [Hb Hp].
  pose proof (log_putc_logged _ _ Hb Hl) as H1. rewrite Hp in H1.
  rewrite rev_app_distr. cbn [rev app].
  destruct (IH (log_putc c l)) as (l'&->&H2); [done| |by eapply logged_can|].
  { apply (f_equal (take (length ds))) in Ht. rewrite take_take, Nat.min_l in Ht by lia.
    by rewrite take_app_length in Ht. }
  exists l'. split; [done|right].
  destruct H2 as [[-> ->]|H2]; [done|exact (logged_trans _ _ _ _ _ H1 H2)].
Qed.

(** [m] prints [s], whatever was printed before. *)
Definition prints (m : log_state W → option (log_state W)) (s : list Z) : Prop :=
  ∀ l, can_log l → ∃ l', m l = Some l' ∧ logged s l l'.

(** The decimal digits of [v]: no leading zero, the value of what is read back. *)
Definition decimal (v : Z) (ds : list Z) : Prop :=
  Forall is_digit ds ∧ parse_dec ds = v ∧ 1 <= zlen ds <= 10 ∧ (v ≠ 0 → ∃ c, head ds = Some c ∧ c ≠ 48).

Lemma log_dec_prints v : is_u32 v → ∃ ds, decimal v ds ∧ prints (log_dec_u32 v) ds.
Proof.
  intros Hv. unfold log_dec_u32, decimal, prints. destruct (Z.eqb_spec v 0) as [->|Hv0].
  - exists [48]. split.
    { split; [constructor; [unfold is_digit; lia|done]|]. split; [done|]. split; [by vm_compute|done]. }
    intros l Hl. exists (log_putc 48 l). split; [done|]. apply log_putc_logged; [words|done].
  - destruct (dec_fill_run 11 v (replicate 11 0) 0) as (buf&ds&E&Ht&_&Hd&Hds&_&Hn0&Hn);
      [words|cbn; lia|]. cbn [Nat.add] in *. rewrite take_0 in Ht.
    cbn [app] in Ht. change (Z.of_nat 0) with 0 in E. rewrite E. cbn [mbind option_bind]. rewrite Nat2Z.id.
    assert (length ds <= 10)%nat by (apply (Hn 10%nat); words).
    destruct (Hn0 Hv0) as (c&Hc&Hc0).
    assert (ds ≠ []) as Hne by (intros ->; done).
    exists (rev ds). split.
    + split; [by apply Forall_rev|]. split; [by rewrite parse_dec_rev|]. unfold zlen. rewrite length_rev.
      split; [destruct ds; [done|cbn in *; lia]|]. intros _. exists c. split; [|done].
      clear -Hc. destruct ds as [|x ds _] using rev_ind; [done|].
      rewrite last_snoc in Hc. by rewrite rev_app_distr.
    + intros l Hl. destruct (dec_print_logged buf ds l Hds Ht Hl) as (l'&->&H1).
      exists l'. split; [done|]. by destruct H1 as [[-> _]|H1].
Qed.

(** [p] points to the C string [s]. *)
Definition reads (p : ptr (list Z)) (s : list Z) : Prop :=
  ∃ rest, p = Ref (s ++ 0 :: rest) ∧ Forall is_char s.

(** Text without line feeds. *)
Definition plain (s : string) : bool := forallb (λ c, (0 <? c) && (c <? 256) && negb (c =? 10)) (text s).

Lemma plain_text s : plain s = true → line_text (text s) = text s ∧ reads (Ref (literal s)) (text s).
Proof.
  unfold plain, reads. rewrite literal_text, forallb_forall. intros Hs. split.
  - unfold line_text. induction (text s) as [|c t IH]; [done|]. cbn.
    rewrite IH by (intros c' Hc'; apply Hs; by right). unfold line_bytes.
    destruct (Z.eqb_spec c 10) as [->|]; [|done]. by specialize (Hs 10 (or_introl eq_refl)).
  - exists []. split; [done|]. apply list.Forall_forall. intros c Hc%list_elem_of_In.
    unfold is_char. specialize (Hs c Hc). lia.
Qed.

Lemma prints_write p s : reads p s → prints (log_write p) (line_text s).
Proof. intros (rest&->&Hs) l Hl. by apply log_write_logged. Qed.

Lemma prints_lit s : plain s = true → prints (log_write (Ref (literal s))) (text s).
Proof. intros [H1 H2]%plain_text. rewrite <-H1. by apply prints_write. Qed.

Lemma prints_bind m k s s' : prints m s → prints k s' → prints (λ l, l' ← m l; k l') (s ++ s').
Proof.
  intros Hm Hk l Hl. destruct (Hm l Hl) as (l1&->&H1). cbn.
  destruct (Hk l1 (logged_can _ _ _ H1)) as (l2&->&H2).
  exists l2. split; [done|exact (logged_trans _ _ _ _ _ H1 H2)].
Qed.

Lemma prints_putc c k s : is_u8 c → prints k s → prints (λ l, k (log_putc c l)) (line_bytes c ++ s).
Proof.
  intros Hc Hk l Hl. pose proof (log_putc_logged c l Hc Hl) as H1.
  destruct (Hk _ (logged_can _ _ _ H1)) as (l2&->&H2).
  exists l2. split; [done|exact (logged_trans _ _ _ _ _ H1 H2)].
Qed.

Lemma prints_newline : prints (λ l, Some (log_putc 10 l)) [13; 10].
Proof. intros l Hl. eexists. split; [done|]. apply (log_putc_logged 10 l); [words|done]. Qed.

Lemma prints_writeln p s : reads p s → prints (log_writeln p) (line_text s ++ [13; 10]).
Proof. intros Hp. apply prints_bind; [by apply prints_write|apply prints_newline]. Qed.

Lemma prints_line s : plain s = true → prints (log_writeln (Ref (literal s))) (text s ++ [13; 10]).
Proof. intros Hs. apply prints_bind; [by apply prints_lit|apply prints_newline]. Qed.

Lemma prints_hex v : is_u64 v → prints (log_hex64 v) (text "0x" ++ hex_text 16 v).
Proof.
  intros Hv. apply (prints_bind _ _ (text "0x")); [by apply prints_lit|].
  intros l Hl. destruct (hex_loop_logged 16 v l) as (l'&->&[[? _]|H2]); [words|done|done|eauto].
Qed.

Lemma prints_key s v : plain s = true → is_u64 v →
  prints (log_key_value_hex64 (Ref (literal s)) v) (text s ++ text "=0x" ++ hex_text 16 v ++ [13; 10]).
Proof.
  intros Hk Hv. apply prints_bind; [by apply prints_lit|].
  apply (prints_bind _ _ (text "=")); [by apply prints_lit|].
  apply (prints_bind _ _ (text "0x" ++ hex_text 16 v)); [by apply prints_hex|apply prints_newline].
Qed.

(** The numbers of the log can be read back: from a log that can print,
    [log_hex64] sends [0x] and sixteen hexadecimal digits whose value is the
    64-bit number, and [log_dec_u32] sends between one and ten decimal digits,
    no leading zero unless the number is 0, whose value is the 32-bit number -
    its buffer of 11 characters is never overrun. *)
Theorem log_numbers_roundtrip v n l : is_u64 v → is_u32 n → can_log l →
  (∃ l' ds, log_hex64 v l = Some l' ∧ logged (text "0x" ++ ds) l l' ∧
     zlen ds = 16 ∧ parse_hex ds = v) ∧
  (∃ l' ds, log_dec_u32 n l = Some l' ∧ logged ds l l' ∧
     Forall is_digit ds ∧ 1 <= zlen ds <= 10 ∧ (n ≠ 0 → ∃ c, head ds = Some c ∧ c ≠ 48) ∧ parse_dec ds = n).
Proof.
  intros Hv Hn Hl. split.
  - destruct (prints_hex v Hv l Hl) as (l'&?&?).
    exists l', (hex_text 16 v). split; [done|]. split; [done|].
    split; [unfold zlen; by rewrite length_hex_text|].
    unfold parse_hex. rewrite parse_hex_from by words. rewrite Z.mod_small; [done|words].
  - destruct (log_dec_prints n Hn) as (ds&(?&?&?&?)&Hp). destruct (Hp l Hl) as (l'&?&?). eauto 10.
Qed.

(** The lines of a panic report. *)
Definition crlf : list Z := [13; 10].
Definition panic_text (file reason line : list Z) (code rflags : Z) : list Z :=
  crlf ++ text "================ MCSOS KERNEL PANIC ================" ++ crlf ++
  text "system=MCSOS version=v0.3.0 milestone=M3" ++ crlf ++
  text "reason=" ++ line_text reason ++ crlf ++
  text "location=" ++ line_text file ++ text ":" ++ line ++ crlf ++
  text "panic_code=0x" ++ hex_text 16 code ++ crlf ++
  text "rflags_before_cli=0x" ++ hex_text 16 rflags ++ crlf ++
  text "state=halted" ++ crlf ++
  text "====================================================" ++ crlf.

#[local] Opaque literal log_write log_writeln log_key_value_hex64 log_dec_u32 hex_text.

(** C32. A panic is reported in full even when nothing was printed before, on a
    16550 whose transmitter takes a byte only when it is empty, says so in its
    line status, and needs fewer polls for a byte than the driver's limit of
    100000 (on a slower one characters are dropped), and which is not left in
    the mode that sets the divisor by an earlier user of the log: every byte of
    the report is accepted, in order. The report names the reason and the file (or
    [unknown] for a null pointer), the line in decimal, and the code and flags
    in hexadecimal. *)
Theorem kernel_panic_at_report file line reason code rflags fs rs l :
  reads (or_unknown file) fs → reads (or_unknown reason) rs → is_u64 code → is_u64 rflags → can_log l →
  ∃ l' ds, kernel_panic_at file line reason code rflags l = Some l' ∧
    logged (panic_text fs rs ds code rflags) l l' ∧ decimal (u32 line) ds.
Proof.
  intros Hf Hr Hc Hg Hl. destruct (log_dec_prints (u32 line)) as (ds&Hds&Hp); [apply u32_range|].
  assert (prints (kernel_panic_at file line reason code rflags) (panic_text fs rs ds code rflags)) as H.
  2: { destruct (H l Hl) as (l'&?&?). eauto. }
  assert (∃ s, prints (kernel_panic_at file line reason code rflags) s ∧ s = panic_text fs rs ds code rflags)
    as (s&?&->); [|done].
  eexists. split.
  - unfold kernel_panic_at.
    repeat first
      [ solve [ exact Hp | simple apply prints_line; vm_compute; reflexivity
              | simple apply prints_lit; vm_compute; reflexivity
              | simple apply prints_key; [vm_compute; reflexivity|assumption]
              | simple eapply prints_writeln; eassumption | simple eapply prints_write; eassumption ]
      | simple eapply prints_putc; [words|] | simple eapply prints_bind ].
  - unfold panic_text. rewrite <-!app_assoc. reflexivity.
Qed.
End Sent.

(** ** A port that does not answer *)

(** Counting the polls and recording the writes of any port. *)
Class Observed (W : Type) `{Ports W} (polls : W → Z) (writes : W → list (Z * Z)) : Prop := {
  ob_inb p w : polls (inb p w).1 = polls w + 1 ∧ writes (inb p w).1 = writes w;
  ob_outb p x w : polls (outb p x w) = polls w ∧ writes (outb p x w) = writes w ++ [(p, x)];
}.

Section Ends.
Context {W : Type} `{!Ports W} {polls : W → Z} {writes : W → list (Z * Z)} `{!Observed W polls writes}.
Implicit Types (w : W).

(** The transmitter is never ready. *)
Definition dead : Prop := ∀ w, Z.land (inb (COM1_PORT + 5) w).2 0x20 = 0.

(** At most [n] polls more; exactly [n], and nothing sent, by a dead port. *)
Definition polled (n : Z) w w' : Prop :=
  polls w <= polls w' <= polls w + n ∧ (dead → polls w' = polls w + n ∧ writes w' = writes w).

Lemma polled_trans n n' w w' w'' : polled n w w' → polled n' w' w'' → polled (n + n') w w''.
Proof.
  intros [H1 H2] [H3 H4]. split; [lia|]. intros Hd. destruct (H2 Hd), (H4 Hd). split; [lia|congruence].
Qed.

Lemma wait_polled n w : polled (Z.of_nat n) w (serial_wait n w).1 ∧ (dead → (serial_wait n w).2 = false).
Proof.
  revert w. induction n as [|n IH]; intros w; cbn [serial_wait].
  { split; [|done]. split; cbn; [lia|]. intros _. split; [lia|done]. }
  unfold serial_transmit_empty. destruct (ob_inb (COM1_PORT + 5) w) as [H1 H2].
  assert (Hdead : dead → Z.land (inb (COM1_PORT + 5) w).2 0x20 = 0) by (intros Hd; apply Hd).
  destruct (inb (COM1_PORT + 5) w) as [w1 x]. cbn [fst snd] in *.
  destruct (Z.eqb_spec (Z.land x 0x20) 0) as [E|E]; cbn [negb].
  - destruct (IH w1) as [H3 H4]. split; [|done].
    replace (Z.of_nat (S n)) with (1 + Z.of_nat n) by lia. eapply polled_trans; [|exact H3].
    split; [lia|done].
  - split; [|intros Hd; by destruct E; apply Hdead]. split; cbn [fst]; [lia|].
    intros Hd. by destruct E; apply Hdead.
Qed.

Lemma putc_raw_polled c w : polled SERIAL_TIMEOUT_LIMIT w (putc_raw c w).
Proof.
  unfold putc_raw. destruct (wait_polled (Z.to_nat SERIAL_TIMEOUT_LIMIT) w) as [[H1 H2] H3].
  rewrite Z2Nat.id in * by (unfold SERIAL_TIMEOUT_LIMIT; lia).
  destruct (serial_wait _ w) as [w1 r]. cbn [fst snd] in *.
  destruct r; [|done]. destruct (ob_outb COM1_PORT (u8 c) w1) as [E1 _]. split; [lia|].
  intros Hd. by specialize (H3 Hd).
Qed.

Lemma serial_putc_polled c w : polled (SERIAL_TIMEOUT_LIMIT * zlen (line_bytes c)) w (serial_putc c w).
Proof.
  unfold serial_putc, line_bytes. destruct (c =? 10).
  - eapply (polled_trans SERIAL_TIMEOUT_LIMIT SERIAL_TIMEOUT_LIMIT); apply putc_raw_polled.
  - apply putc_raw_polled.
Qed.

(** C31. Printing always ends: whatever the port answers, [serial_write] of a
    string returns after at most 100000 polls for each byte on the line; on a
    port that is never ready it takes exactly that many and writes nothing. *)
Theorem serial_write_ends s rest w : Forall is_char s →
  ∃ w', serial_write (Ref (s ++ 0 :: rest)) w = Some w' ∧
    polls w <= polls w' <= polls w + SERIAL_TIMEOUT_LIMIT * zlen (line_text s) ∧
    (dead → polls w' = polls w + SERIAL_TIMEOUT_LIMIT * zlen (line_text s) ∧ writes w' = writes w).
Proof.
  intros Hs. cbn [serial_write]. enough (∃ w', write_loop (s ++ 0 :: rest) w = Some w' ∧
    polled (SERIAL_TIMEOUT_LIMIT * zlen (line_text s)) w w') as (w'&?&?); [by exists w'|].
  revert w. induction Hs as [|c s Hc Hs IH]; intros w; cbn [app write_loop].
  - exists w. split; [done|]. change (zlen (line_text [])) with 0. rewrite Z.mul_0_r.
    split; [lia|]. intros _. split; [lia|done].
  - unfold is_char in Hc. rewrite (proj2 (Z.eqb_neq c 0)) by lia.
    destruct (IH (serial_putc c w)) as (w'&E&Hp). exists w'. split; [done|].
    replace (zlen (line_text (c :: s))) with (zlen (line_bytes c) + zlen (line_text s))
      by (unfold zlen, line_text; cbn; rewrite length_app; lia).
    rewrite Z.mul_add_distr_l. eapply polled_trans; [apply serial_putc_polled|exact Hp].
Qed.
End Ends.

(** ** A port on which everything is observed *)

(** The line control register, the bytes sent, and a transmitter that takes
    three polls for a byte and loses what it is given meanwhile. *)
Record demo_port := DemoPort { dp_line : Z; dp_sent : list Z; dp_busy : nat }.
Definition dp_dlab (w : demo_port) : bool := Z.testbit (dp_line w) 7.

#[local] Instance demo_ports : Ports demo_port := {
  inb p w := (DemoPort (dp_line w) (dp_sent w) (pred (dp_busy w)), match dp_busy w with O => 0x20 | S _ => 0 end);
  outb p x w :=
    if p =? COM1_PORT + 3 then DemoPort x (dp_sent w) (dp_busy w)
    else if (p =? COM1_PORT) && negb (dp_dlab w) && (dp_busy w =? 0)%nat
    then DemoPort (dp_line w) (dp_sent w ++ [x]) 3 else w;
}.

#[local] Instance demo_uart : Uart demo_port 3 dp_busy dp_dlab dp_sent.
Proof.
  split; unfold inb, outb, demo_ports, dp_dlab.
  - reflexivity.
  - intros [l s [|k]]; cbn; (split; [|done]); split; done.
  - intros x [l s k] Hd Hk. change (COM1_PORT =? COM1_PORT + 3) with false. rewrite Z.eqb_refl.
    unfold dp_dlab. rewrite Hd, Hk. cbn [negb andb Nat.eqb dp_line dp_sent dp_busy] in *. auto.
  - intros x [l s k] Hd. change (COM1_PORT =? COM1_PORT + 3) with false. rewrite Z.eqb_refl.
    unfold dp_dlab. rewrite Hd. cbn [negb andb dp_line dp_sent dp_busy] in *. auto.
  - intros x w. done.
  - intros p x w Hp. rewrite !elem_of_cons, elem_of_nil in Hp. by destruct Hp as [->|[->|[->|?]]].
Qed.

Theorem log_numbers_roundtrip_witness :
  let l := Log 0 (DemoPort 0 [] 2) in
  (∃ l' ds, log_hex64 0xDEADBEEF l = Some l' ∧ logged (busy := dp_busy) (sent := dp_sent) (dlab := dp_dlab)
     (text "0x" ++ ds) l l' ∧ zlen ds = 16 ∧ parse_hex ds = 0xDEADBEEF) ∧
  (∃ l' ds, log_dec_u32 4294967295 l = Some l' ∧ logged (busy := dp_busy) (sent := dp_sent) (dlab := dp_dlab) ds l l' ∧
     Forall is_digit ds ∧ 1 <= zlen ds <= 10 ∧ (4294967295 ≠ 0 → ∃ c, head ds = Some c ∧ c ≠ 48) ∧
     parse_dec ds = 4294967295).
Proof.
  intros l. apply (log_numbers_roundtrip (busy := dp_busy) (sent := dp_sent) (dlab := dp_dlab)); [words|words|split; [done|by left]].
Defined.

Theorem kernel_panic_at_report_witness :
  let l := Log 0 (DemoPort 0x80 [] 2) in
  ∃ l' ds, kernel_panic_at Null 7 (Ref (literal "bad")) 1 2 l = Some l' ∧
    logged (busy := dp_busy) (sent := dp_sent) (dlab := dp_dlab) (panic_text (text "unknown") (text "bad") ds 1 2) l l' ∧
    decimal (u32 7) ds.
Proof.
  intros l. apply (kernel_panic_at_report (busy := dp_busy) (sent := dp_sent) (dlab := dp_dlab));
    [by apply plain_text|by apply plain_text|words|words|split; [done|by left]].
Defined.

(** Ten digits at most: the number, as a check of the definitions. *)
Example log_dec_u32_max : l_world <$> log_dec_u32 4294967295 (Log 0 (DemoPort 0 [] 0)) = Some (DemoPort 3 (text "4294967295") 3).
Proof. vm_compute. reflexivity. Qed.
Example log_hex64_beef : l_world <$> log_hex64 0xBEEF (Log 0 (DemoPort 0 [] 0)) = Some (DemoPort 3 (text "0x000000000000beef") 3).
Proof. vm_compute. reflexivity. Qed.

(** A port on which no transmitter answers. *)
#[local] Instance dead_ports : Ports (Z * list (Z * Z)) := {
  inb p w := ((w.1 + 1, w.2), 0);
  outb p x w := (w.1, w.2 ++ [(p, x)]);
}.
#[local] Instance dead_observed : Observed (Z * list (Z * Z)) fst snd.
Proof. by split. Qed.

Lemma serial_write_ends_witness :
  ∃ w', serial_write (Ref (text "ok" ++ 0 :: [])) (0, []) = Some w' ∧
    0 <= w'.1 <= 0 + SERIAL_TIMEOUT_LIMIT * zlen (line_text (text "ok")) ∧
    (dead → w'.1 = 0 + SERIAL_TIMEOUT_LIMIT * zlen (line_text (text "ok")) ∧ w'.2 = []).
Proof.
  apply (serial_write_ends (polls := fst) (writes := snd) (text "ok") [] (0, [])).
  change (text "ok") with [111; 107]. unfold is_char.
  apply Forall_cons. split; [lia|]. apply Forall_cons. split; [lia|]. apply Forall_nil. exact I.
Defined.
