(* ===== verification/Trap.v ===== *)
(** Interrupts and what starts them ([src/kernel/core/pic.c], [pit.c],
    [trap.c], [kmain.c], [src/kernel/arch/x86_64/idt.c]) and the page fault
    report of [src/src/trap.c]. The processor and the devices are a parameter:
    [Ports], and [Cpu] for the instructions [cli], [sti] and [lidt]. *)
From Stdlib Require Import String.
From S2P Require Import Prelude Cstr Console.

(** ** Interrupt controller and timer *)

Definition PIC_MASTER_CMD : Z := 0x20.
Definition PIC_MASTER_DATA : Z := 0x21.
Definition PIC_SLAVE_CMD : Z := 0xA0.
Definition PIC_SLAVE_DATA : Z := 0xA1.
Definition PIC_EOI : Z := 0x20.
Definition PIT_CHANNEL0_DATA : Z := 0x40.
Definition PIT_COMMAND : Z := 0x43.

Section Pic.
Context {W : Type} `{!Ports W}.

Definition io_wait (w : W) : W := outb 0x80 0 w.

Definition pic_remap (master_offset slave_offset : Z) (w : W) : W :=
  let '(w, mask_master) := inb PIC_MASTER_DATA w in
  let '(w, mask_slave) := inb PIC_SLAVE_DATA w in
  let w := io_wait (outb PIC_MASTER_CMD 0x11 w) in
  let w := io_wait (outb PIC_SLAVE_CMD 0x11 w) in
  let w := io_wait (outb PIC_MASTER_DATA master_offset w) in
  let w := io_wait (outb PIC_SLAVE_DATA slave_offset w) in
  let w := io_wait (outb PIC_MASTER_DATA 0x04 w) in
  let w := io_wait (outb PIC_SLAVE_DATA 0x02 w) in
  let w := io_wait (outb PIC_MASTER_DATA 0x01 w) in
  let w := io_wait (outb PIC_SLAVE_DATA 0x01 w) in
  outb PIC_SLAVE_DATA mask_slave (outb PIC_MASTER_DATA mask_master w).

Definition pic_mask_all (w : W) : W := outb PIC_SLAVE_DATA 0xFF (outb PIC_MASTER_DATA 0xFF w).

(** [None]: a shift of an [int] past its width. *)
Definition pic_unmask_irq (irq : Z) (w : W) : option W :=
  let '(port, irq) := if irq <? 8 then (PIC_MASTER_DATA, irq) else (PIC_SLAVE_DATA, irq - 8) in
  if irq <? 31 then
    let '(w, x) := inb port w in
    Some (outb port (u8 (Z.land x (Z.lnot (Z.shiftl 1 irq)))) w)
  else None.

Definition pic_send_eoi (irq : Z) (w : W) : W :=
  let w := if 8 <=? irq then outb PIC_SLAVE_CMD PIC_EOI w else w in
  outb PIC_MASTER_CMD PIC_EOI w.

(** [None]: a division by zero. *)
Definition pit_configure_hz (hz : Z) (w : W) : option W :=
  if hz =? 0 then None else
  let divisor := 1193182 / hz in
  let w := outb PIT_COMMAND 0x36 w in
  let w := outb PIT_CHANNEL0_DATA (u8 (Z.land divisor 0xFF)) w in
  Some (outb PIT_CHANNEL0_DATA (u8 (Z.land (Z.shiftr divisor 8) 0xFF)) w).
End Pic.

(** ** Interrupt descriptor table *)

Record idt_entry := Gate {
  isr_low : Z; kernel_cs : Z; ist : Z; attributes : Z; isr_mid : Z; isr_high : Z; gate_reserved : Z;
}.
Definition no_gate : idt_entry := Gate 0 0 0 0 0 0 0.

(** [None]: the index is outside of the 48 entries. *)
Definition x86_64_idt_set_gate (vector isr attributes : Z) (idt : list idt_entry) : option (list idt_entry) :=
  arr_set idt vector
    (Gate (Z.land isr 0xFFFF) 0x08 0 attributes (Z.land (Z.shiftr isr 16) 0xFFFF)
       (Z.land (Z.shiftr isr 32) 0xFFFFFFFF) 0).

(** The static variables of the kernel that these files share. *)
Record kstate (W : Type) := KState {
  idt : list idt_entry;
  idtr_limit : Z; idtr_base : Z;
  idt_base_for_test : Z; idt_limit_for_test : Z;
  g_ticks : Z;
  k_world : W;
}.
Arguments KState {W}. Arguments idt {W}. Arguments idtr_limit {W}. Arguments idtr_base {W}.
Arguments idt_base_for_test {W}. Arguments idt_limit_for_test {W}. Arguments g_ticks {W}. Arguments k_world {W}.

Definition with_world {W} (w : W) (k : kstate W) : kstate W :=
  KState (idt k) (idtr_limit k) (idtr_base k) (idt_base_for_test k) (idt_limit_for_test k) (g_ticks k) w.

(** The static variables before [kmain]. *)
Definition kstate0 {W} (w : W) : kstate W := KState (replicate 48 no_gate) 0 0 0 0 0 w.

Class Cpu (W : Type) := {
  cli : W → W;
  sti : W → W;
  lidt : Z → Z → W → W;
}.

Section Trap.
Context {W : Type} `{!Ports W} `{!Cpu W}.
(** Where the linker puts the table and the stubs of [isr.S]. *)
Context (idt_address : Z) (isr_stub : Z → Z).

Fixpoint register_gates (vectors : list Z) (idt : list idt_entry) : option (list idt_entry) :=
  match vectors with
  | [] => Some idt
  | n :: ns => idt ← x86_64_idt_set_gate n (isr_stub n) 0x8E idt; register_gates ns idt
  end.

(** The table it builds: vector 14 and the sixteen of the controllers. *)
Definition x86_64_idt_init (k : kstate W) : option (kstate W) :=
  t ← register_gates (14 :: seqZ 32 16) (idt k);
  let limit := 16 * 48 - 1 in
  Some (KState t limit idt_address idt_address limit (g_ticks k) (lidt limit idt_address (k_world k))).

(** ** Dispatch *)

Definition timer_on_irq0 (k : kstate W) : kstate W :=
  KState (idt k) (idtr_limit k) (idtr_base k) (idt_base_for_test k) (idt_limit_for_test k)
    (u64 (g_ticks k + 1)) (k_world k).

(** A handler returns to what was interrupted, or stops the processor. *)
Inductive trap_outcome := Resumes (k : kstate W) | Halts (k : kstate W).

Definition x86_64_trap_dispatch (trap_no : Z) (k : kstate W) : trap_outcome :=
  if (32 <=? trap_no) && (trap_no <=? 47) then
    let k := if trap_no =? 32 then timer_on_irq0 k else k in
    Resumes (with_world (pic_send_eoi (u8 (trap_no - 32)) (k_world k)) k)
  else if trap_no =? 3 then Resumes k
  else Halts (with_world (cli (k_world k)) k).

(** ** Start *)

(** [kmain] up to the [sti] that starts the machine; it then only halts. *)
Definition kmain_setup (k : kstate W) : option (kstate W) :=
  let k := with_world (serial_init (cli (k_world k))) k in
  k ← x86_64_idt_init k;
  let w := pic_mask_all (pic_remap 0x20 0x28 (k_world k)) in
  w ← pic_unmask_irq 0 w;
  w ← pit_configure_hz 100 w;
  Some (with_world w k).

Definition kmain (k : kstate W) : option (kstate W) :=
  k ← kmain_setup k; Some (with_world (sti (k_world k)) k).
End Trap.
Arguments trap_outcome : clear implicits.

(** ** Gates *)

(** The address a gate leads to, and whether it is an interrupt gate that is
    present. *)
Definition gate_target (g : idt_entry) : Z := isr_low g + Z.shiftl (isr_mid g) 16 + Z.shiftl (isr_high g) 32.
Definition gate_present (g : idt_entry) : bool := Z.testbit (attributes g) 7.

Definition gate_of (isr : Z) : idt_entry :=
  Gate (Z.land isr 0xFFFF) 0x08 0 0x8E (Z.land (Z.shiftr isr 16) 0xFFFF) (Z.land (Z.shiftr isr 32) 0xFFFFFFFF) 0.

Lemma gate_target_of isr : is_u64 isr → gate_target (gate_of isr) = isr.
Proof.
  intros Hi. unfold gate_target. cbn [isr_low isr_mid isr_high gate_of].
  change 0xFFFF with (Z.ones 16). change 0xFFFFFFFF with (Z.ones 32).
  rewrite !Z.land_ones, !Z.shiftr_div_pow2, !Z.shiftl_mul_pow2 by lia.
  rewrite (Z.mod_small (isr / 2 ^ 32)).
  2: { unfold is_u64 in Hi. split; [apply Z.div_pos; lia|apply Z.div_lt_upper_bound; lia]. }
  change (2 ^ 32) with (2 ^ 16 * 2 ^ 16). rewrite <-Z.div_div by lia.
  pose proof (Z.div_mod isr (2 ^ 16)). pose proof (Z.div_mod (isr / 2 ^ 16) (2 ^ 16)). lia.
Qed.

Section Gates.
Context (isr_stub : Z → Z).

Lemma register_gates_run ns t : Forall (λ n, 0 <= n < zlen t) ns →
  ∃ t', register_gates isr_stub ns t = Some t' ∧ zlen t' = zlen t ∧
    ∀ n, 0 <= n → arr_get t' n = if decide (n ∈ ns) then Some (gate_of (isr_stub n)) else arr_get t n.
Proof.
  revert t. induction ns as [|n ns IH]; intros t Hns; cbn [register_gates].
  - exists t. split; [done|]. split; [done|]. intros n _. by rewrite decide_False by set_solver.
  - apply Forall_cons in Hns as [Hn Hns]. unfold x86_64_idt_set_gate. rewrite arr_set_ok by done.
    fold (gate_of (isr_stub n)). cbn [mbind option_bind].
    destruct (IH (<[Z.to_nat n:=gate_of (isr_stub n)]> t)) as (t'&->&Hl&Hg).
    { by rewrite zlen_insert. }
    exists t'. split; [done|]. split; [by rewrite Hl, zlen_insert|].
    intros m Hm. rewrite Hg, arr_get_insert by lia.
    assert (m ∈ n :: ns ↔ m = n ∨ m ∈ ns) as Hin by apply elem_of_cons.
    destruct (decide (n = m)) as [->|]; repeat case_decide; try done; exfalso; intuition congruence.
Qed.
End Gates.

(** ** The devices *)

(** An 8259A: the initialisation word it waits for (0 when it is operating),
    the vector of its first line, its mask, the ends of interrupt it was told. *)
Record pic_chip := Chip { icw_next : Z; vector_base : Z; imr : Z; eois : Z }.

(** The commands the kernel uses: the first initialisation word (edge
    triggered, cascaded, four words) and the end of interrupt. *)
Definition pic_command (x : Z) (c : pic_chip) : option pic_chip :=
  if x =? 0x11 then Some (Chip 2 (vector_base c) 0 (eois c))
  else if x =? 0x20 then Some (Chip (icw_next c) (vector_base c) (imr c) (eois c + 1)) else None.

(** The data port: the remaining words, then the mask. *)
Definition pic_data (x : Z) (c : pic_chip) : pic_chip :=
  if icw_next c =? 2 then Chip 3 (Z.land x 0xF8) (imr c) (eois c)
  else if icw_next c =? 3 then Chip 4 (vector_base c) (imr c) (eois c)
  else if icw_next c =? 4 then Chip 0 (vector_base c) (imr c) (eois c)
  else Chip 0 (vector_base c) x (eois c).

(** What the kernel relies on of the machine: the two controllers, channel 0 of
    the timer (its reload value, and the low byte when the high one is awaited),
    the interrupt flag and the register of the descriptor table. *)
Record pc := Pc {
  master : pic_chip; slave : pic_chip;
  pit_low : option Z; pit_reload : Z;
  if_flag : bool; idt_register : Z * Z;
}.
Definition set_master (c : pic_chip) (v : pc) : pc :=
  Pc c (slave v) (pit_low v) (pit_reload v) (if_flag v) (idt_register v).
Definition set_slave (c : pic_chip) (v : pc) : pc :=
  Pc (master v) c (pit_low v) (pit_reload v) (if_flag v) (idt_register v).
Definition set_pit (low : option Z) (reload : Z) (v : pc) : pc :=
  Pc (master v) (slave v) low reload (if_flag v) (idt_register v).
Definition set_if (b : bool) (v : pc) : pc :=
  Pc (master v) (slave v) (pit_low v) (pit_reload v) b (idt_register v).

(** The documented effect of a byte written to a port; [None] where the kernel
    does not rely on one. *)
Definition pc_outb (p x : Z) (v : pc) : option pc :=
  if p =? PIC_MASTER_CMD then c ← pic_command x (master v); Some (set_master c v)
  else if p =? PIC_SLAVE_CMD then c ← pic_command x (slave v); Some (set_slave c v)
  else if p =? PIC_MASTER_DATA then Some (set_master (pic_data x (master v)) v)
  else if p =? PIC_SLAVE_DATA then Some (set_slave (pic_data x (slave v)) v)
  else if p =? PIT_COMMAND then if x =? 0x36 then Some (set_pit None (pit_reload v) v) else None
  else if p =? PIT_CHANNEL0_DATA then
    Some (match pit_low v with
          | None => set_pit (Some x) (pit_reload v) v
          | Some low => set_pit None (low + 256 * x) v
          end)
  else if (p =? 0x80) || ((COM1_PORT <=? p) && (p <=? COM1_PORT + 7)) then Some v
  else None.

Class PcMachine (W : Type) `{Ports W} `{Cpu W} (view : W → pc) : Prop := {
  pc_out p x w v : pc_outb p x (view w) = Some v → view (outb p x w) = v;
  pc_in p w : view (inb p w).1 = view w;
  pc_in_master w : (inb PIC_MASTER_DATA w).2 = imr (master (view w));
  pc_in_slave w : (inb PIC_SLAVE_DATA w).2 = imr (slave (view w));
  pc_cli w : view (cli w) = set_if false (view w);
  pc_sti w : view (sti w) = set_if true (view w);
  pc_lidt limit base w : view (lidt limit base w) =
    let v := view w in Pc (master v) (slave v) (pit_low v) (pit_reload v) (if_flag v) (limit, base);
}.

(** The vectors of the interrupts that the controllers let through. *)
Definition deliverable (v : pc) (n : Z) : Prop :=
  ∃ i, 0 <= i < 8 ∧
    (n = vector_base (master v) + i ∧ Z.testbit (imr (master v)) i = false ∨
     n = vector_base (slave v) + i ∧ Z.testbit (imr (slave v)) i = false ∧ Z.testbit (imr (master v)) 2 = false).

Section Machine.
Context {W : Type} `{!Ports W} `{!Cpu W} {view : W → pc} `{!PcMachine W view}.
Implicit Types (w : W) (k : kstate W).

Lemma view_outb p x w v0 v : view w = v0 → pc_outb p x v0 = Some v → view (outb p x w) = v.
Proof. intros <-. apply pc_out. Qed.

(** The view after a sequence of writes, from the view before it. *)
Ltac pc_steps :=
  lazymatch goal with
  | |- _ (outb _ _ _) = _ => eapply view_outb; [pc_steps|vm_compute; reflexivity]
  | |- _ => eassumption || reflexivity
  end.

Lemma view_serial_init w : view (serial_init w) = view w.
Proof. unfold serial_init. destruct (view w) eqn:E. pc_steps. Qed.

(** The controllers after [pic_remap]: operating, with the vectors asked for
    and the masks they had. *)
Lemma view_pic_remap m s w :
  view (pic_remap m s w) =
  set_slave (Chip 0 (Z.land s 0xF8) (imr (slave (view w))) (eois (slave (view w))))
    (set_master (Chip 0 (Z.land m 0xF8) (imr (master (view w))) (eois (master (view w)))) (view w)).
Proof.
  unfold pic_remap. pose proof (pc_in PIC_MASTER_DATA w) as H1. pose proof (pc_in_master w) as H2.
  destruct (inb PIC_MASTER_DATA w) as [w1 mm]. cbn in H1, H2.
  pose proof (pc_in PIC_SLAVE_DATA w1) as H3. pose proof (pc_in_slave w1) as H4.
  destruct (inb PIC_SLAVE_DATA w1) as [w2 ms]. cbn in H3, H4. rewrite H1 in *. subst mm ms.
  destruct (view w) as [[] [] ? ? ? ?] eqn:E. unfold io_wait.
  cbn [master slave imr eois set_master set_slave]. pc_steps.
Qed.

(** An operating pair of controllers, whatever their state otherwise. *)
Definition operating (v : pc) : Prop := icw_next (master v) = 0 ∧ icw_next (slave v) = 0.

Lemma view_pic_mask_all w : operating (view w) →
  view (pic_mask_all w) =
  set_slave (Chip 0 (vector_base (slave (view w))) 0xFF (eois (slave (view w))))
    (set_master (Chip 0 (vector_base (master (view w))) 0xFF (eois (master (view w)))) (view w)).
Proof.
  unfold operating, pic_mask_all. destruct (view w) as [[] [] ? ? ? ?] eqn:E. cbn. intros [-> ->]. pc_steps.
Qed.

(** Unmasking a line clears its bit and no other; a line of the slave does not
    open the line of the master that the slave is behind. *)
Lemma view_pic_unmask_irq irq w : 0 <= irq < 16 → operating (view w) →
  ∃ w', pic_unmask_irq irq w = Some w' ∧
    view w' =
      if irq <? 8 then
        set_master (Chip 0 (vector_base (master (view w))) (u8 (Z.land (imr (master (view w))) (Z.lnot (Z.shiftl 1 irq))))
                     (eois (master (view w)))) (view w)
      else
        set_slave (Chip 0 (vector_base (slave (view w)))
                     (u8 (Z.land (imr (slave (view w))) (Z.lnot (Z.shiftl 1 (irq - 8)))))
                     (eois (slave (view w)))) (view w).
Proof.
  intros Hirq Hop. unfold pic_unmask_irq, operating in *.
  destruct (Z.ltb_spec irq 8) as [Hlt|Hge].
  - rewrite (proj2 (Z.ltb_lt irq 31)) by lia.
    pose proof (pc_in PIC_MASTER_DATA w) as H1. pose proof (pc_in_master w) as H2.
    destruct (inb PIC_MASTER_DATA w) as [w1 x]. cbn in H1, H2. subst x. eexists. split; [done|].
    apply pc_out. rewrite H1. destruct (view w) as [[] [] ? ? ? ?]. cbn in *. destruct Hop as [-> ->]. done.
  - rewrite (proj2 (Z.ltb_lt (irq - 8) 31)) by lia.
    pose proof (pc_in PIC_SLAVE_DATA w) as H1. pose proof (pc_in_slave w) as H2.
    destruct (inb PIC_SLAVE_DATA w) as [w1 x]. cbn in H1, H2. subst x. eexists. split; [done|].
    apply pc_out. rewrite H1. destruct (view w) as [[] [] ? ? ? ?]. cbn in *. destruct Hop as [-> ->]. done.
Qed.

Definition add_eoi (c : pic_chip) : pic_chip := Chip (icw_next c) (vector_base c) (imr c) (eois c + 1).

Lemma view_pic_send_eoi irq w :
  view (pic_send_eoi irq w) =
  let v := if 8 <=? irq then set_slave (add_eoi (slave (view w))) (view w) else view w in
  set_master (add_eoi (master v)) v.
Proof.
  unfold pic_send_eoi. destruct (view w) as [[] [] ? ? ? ?] eqn:E. destruct (8 <=? irq); cbn; pc_steps.
Qed.

(** The rate: the timer is given the divisor unless it takes more than 16 bits. *)
Lemma view_pit_configure_hz hz w : 0 < hz → pit_low (view w) = None →
  ∃ w', pit_configure_hz hz w = Some w' ∧
    view w' = set_pit None (1193182 / hz mod 2 ^ 16) (view w).
Proof.
  intros Hhz Hlow. unfold pit_configure_hz. rewrite (proj2 (Z.eqb_neq hz 0)) by lia.
  eexists. split; [done|]. set (d := 1193182 / hz).
  assert (d mod 2 ^ 16 = u8 (Z.land d 0xFF) + 256 * u8 (Z.land (Z.shiftr d 8) 0xFF)) as ->.
  { change 0xFF with (Z.ones 8). rewrite !Z.land_ones, Z.shiftr_div_pow2 by lia.
    unfold u8. change (2 ^ 16) with (2 ^ 8 * 2 ^ 8). rewrite Z.rem_mul_r by lia.
    rewrite !Z.mod_mod by lia. done. }
  destruct (view w) as [[] [] ? ? ? ?] eqn:E. cbn in Hlow. subst. unfold set_pit. cbn.
  eapply view_outb; [eapply view_outb; [eapply view_outb; [exact E|done]|done]|done].
Qed.

Section Start.
Context (idt_address : Z) (isr_stub : Z → Z).

Lemma idt_init_run k : zlen (idt k) = 48 →
  ∃ k', x86_64_idt_init idt_address isr_stub k = Some k' ∧ zlen (idt k') = 48 ∧
    (∀ n, 0 <= n → arr_get (idt k') n =
       if decide (n = 14 ∨ 32 <= n < 48) then Some (gate_of (isr_stub n)) else arr_get (idt k) n) ∧
    g_ticks k' = g_ticks k ∧ k_world k' = lidt 767 idt_address (k_world k).
Proof.
  intros Hk. unfold x86_64_idt_init. destruct (register_gates_run isr_stub (14 :: seqZ 32 16) (idt k)) as (t&->&Hl&Hg).
  { rewrite Hk. constructor; [lia|]. apply list.Forall_forall. intros n Hn%elem_of_seqZ. lia. }
  eexists. split; [done|]. split; [cbn; lia|]. split; [|done]. intros n Hn. cbn. rewrite Hg by done.
  apply decide_ext. rewrite elem_of_cons, elem_of_seqZ. lia.
Qed.

(** With only line 0 open the one interrupt is the timer's. *)
Lemma only_timer i n : 0 <= i < 8 →
  n = 0x20 + i ∧ Z.testbit 0xFE i = false ∨
  n = 0x28 + i ∧ Z.testbit 0xFF i = false ∧ Z.testbit 0xFE 2 = false → n = 32.
Proof.
  intros Hi [[-> H]|(_&_&H)]; [|done].
  assert (i = 0 ∨ i = 1 ∨ i = 2 ∨ i = 3 ∨ i = 4 ∨ i = 5 ∨ i = 6 ∨ i = 7) as Hc by lia.
  repeat destruct Hc as [-> |Hc]; try done. by subst i.
Qed.

(** C29. [kmain] brings the machine up from any state of the devices whose timer
    awaits no byte: before interrupts are enabled the controllers are mapped to
    vectors 0x20 and 0x28 with every line masked except line 0, the timer
    divides by 11931 (100 Hz), the descriptor table is loaded, and every
    interrupt that can then be delivered has a gate that leads to its stub. *)
Theorem kmain_starts k : zlen (idt k) = 48 → pit_low (view (k_world k)) = None →
  (∀ n, is_u64 (isr_stub n)) →
  ∃ k1 k2, kmain_setup idt_address isr_stub k = Some k1 ∧ kmain idt_address isr_stub k = Some k2 ∧
    idt k2 = idt k1 ∧ view (k_world k2) = set_if true (view (k_world k1)) ∧
    view (k_world k1) =
      Pc (Chip 0 0x20 0xFE (eois (master (view (k_world k)))))
         (Chip 0 0x28 0xFF (eois (slave (view (k_world k))))) None 11931 false (767, idt_address) ∧
    (∀ n, deliverable (view (k_world k2)) n →
       ∃ g, arr_get (idt k2) n = Some g ∧ gate_present g = true ∧ gate_target g = isr_stub n).
Proof.
  intros Hk Hlow Hstub. unfold kmain, kmain_setup.
  destruct (idt_init_run (with_world (serial_init (cli (k_world k))) k)) as (k0&->&_&Hg&_&Hw); [done|].
  cbn [mbind option_bind with_world k_world idt] in *.
  assert (Hv0 : view (k_world k0) =
    let v := view (k_world k) in Pc (master v) (slave v) None (pit_reload v) false (767, idt_address)).
  { rewrite Hw, pc_lidt, view_serial_init, pc_cli. cbn. by rewrite Hlow. }
  assert (Hv1 : view (pic_mask_all (pic_remap 0x20 0x28 (k_world k0))) =
    let v := view (k_world k) in
    Pc (Chip 0 0x20 0xFF (eois (master v))) (Chip 0 0x28 0xFF (eois (slave v))) None (pit_reload v) false
      (767, idt_address)).
  { rewrite view_pic_mask_all; rewrite view_pic_remap, Hv0; done. }
  generalize dependent (pic_mask_all (pic_remap 0x20 0x28 (k_world k0))). intros w1 Hv1.
  destruct (view_pic_unmask_irq 0 w1) as (w2&->&Hv2); [lia|by rewrite Hv1|].
  cbn [mbind option_bind]. rewrite Hv1 in Hv2.
  destruct (view_pit_configure_hz 100 w2) as (w3&->&Hv3); [lia|by rewrite Hv2|].
  cbn [mbind option_bind]. rewrite Hv2 in Hv3. vm_compute in Hv3.
  eexists _, _. split; [done|]. split; [done|]. split; [done|]. cbn [k_world with_world idt].
  split; [apply pc_sti|]. split; [by rewrite Hv3|]. intros n (i&Hi&Hn).
  rewrite pc_sti, Hv3 in Hn. apply only_timer in Hn; [|lia]. subst n.
  exists (gate_of (isr_stub 32)). split; [by rewrite Hg|]. split; [done|]. by apply gate_target_of.
Qed.

(** What each vector does: an interrupt of the controllers is acknowledged -
    to both of them when it came from the slave - and returns, having counted a
    tick when it is the timer's; a breakpoint returns at once; any other vector
    stops the processor with interrupts disabled. *)
Theorem x86_64_trap_dispatch_correct n k : 0 <= n < 2 ^ 64 →
  let v := view (k_world k) in
  match x86_64_trap_dispatch n k with
  | Resumes k' =>
      n = 3 ∧ k' = k ∨
      32 <= n < 48 ∧ idt k' = idt k ∧ g_ticks k' = (if n =? 32 then u64 (g_ticks k + 1) else g_ticks k) ∧
      view (k_world k') =
        set_master (add_eoi (master v)) (if 40 <=? n then set_slave (add_eoi (slave v)) v else v)
  | Halts k' => n ≠ 3 ∧ ¬ 32 <= n < 48 ∧ if_flag (view (k_world k')) = false ∧ g_ticks k' = g_ticks k
  end.
Proof.
  intros Hn v. unfold x86_64_trap_dispatch. subst v.
  destruct (Z.leb_spec 32 n), (Z.leb_spec n 47); cbn [andb];
    try (destruct (Z.eqb_spec n 3); [left; done|]; split; [done|]; split; [lia|]; cbn; by rewrite pc_cli).
  right. split; [lia|]. rewrite u8_small by words.
  assert (Hk : ∀ k0 : kstate W, view (k_world (with_world (pic_send_eoi (n - 32) (k_world k0)) k0)) =
    set_master (add_eoi (master (view (k_world k0))))
      (if 40 <=? n then set_slave (add_eoi (slave (view (k_world k0)))) (view (k_world k0)) else view (k_world k0))).
  { intros k0. cbn. rewrite view_pic_send_eoi. cbn zeta.
    destruct (Z.leb_spec 8 (n - 32)), (Z.leb_spec 40 n); try lia; done. }
  rewrite Hk. by destruct (n =? 32).
Qed.
End Start.
End Machine.

(** The breakpoint that the dispatcher means to survive has no gate: the table
    of [x86_64_idt_init] leaves vector 3 not present. *)
Theorem breakpoint_has_no_gate {W} `{!Cpu W} idt_address isr_stub (w : W) :
  ∃ k', x86_64_idt_init idt_address isr_stub (kstate0 w) = Some k' ∧
    arr_get (idt k') 3 = Some no_gate ∧ gate_present no_gate = false.
Proof.
  destruct (register_gates_run isr_stub (14 :: seqZ 32 16) (replicate 48 no_gate)) as (t&Ht&_&Hg).
  { change (zlen (replicate 48 no_gate)) with 48.
    constructor; [lia|]. apply list.Forall_forall. intros n Hn%elem_of_seqZ. lia. }
  unfold x86_64_idt_init. cbn [idt kstate0]. rewrite Ht. eexists. split; [done|]. split; [|done].
  cbn [idt]. by rewrite Hg by done.
Qed.

(** Where the processor goes for a vector; [None]: the vector has no gate that
    is present. *)
Definition handler_of (t : list idt_entry) (n : Z) : option Z :=
  g ← arr_get t n; if gate_present g then Some (gate_target g) else None.

(** Of the processor's exceptions only the page fault has a gate. *)
Lemma idt_init_handlers {W} `{!Cpu W} idt_address isr_stub (w : W) : (∀ n, is_u64 (isr_stub n)) →
  ∃ k', x86_64_idt_init idt_address isr_stub (kstate0 w) = Some k' ∧
    ∀ n, 0 <= n < 32 → handler_of (idt k') n = if n =? 14 then Some (isr_stub 14) else None.
Proof.
  intros Hs. destruct (register_gates_run isr_stub (14 :: seqZ 32 16) (replicate 48 no_gate)) as (t&Ht&_&Hg).
  { change (zlen (replicate 48 no_gate)) with 48.
    constructor; [lia|]. apply list.Forall_forall. intros n Hn%elem_of_seqZ. lia. }
  unfold x86_64_idt_init. cbn [idt kstate0]. rewrite Ht. eexists. split; [done|]. intros n Hn.
  unfold handler_of. cbn [idt]. rewrite Hg by lia. destruct (Z.eqb_spec n 14) as [->|Hne].
  - rewrite decide_True by (rewrite elem_of_cons; by left). cbn. by rewrite gate_target_of.
  - rewrite decide_False by (rewrite elem_of_cons, elem_of_seqZ; lia).
    rewrite arr_get_nat, lookup_replicate_2 by lia. done.
Qed.

(** A vector outside of the 48 entries - the system call gate 0x80 is one - is
    written past the table. *)
Theorem idt_set_gate_outside vector isr attributes t :
  zlen t = 48 → 48 <= vector → x86_64_idt_set_gate vector isr attributes t = None.
Proof. intros Ht Hv. unfold x86_64_idt_set_gate, arr_set. rewrite decide_False; [done|]. unfold zlen in Ht. lia. Qed.

(** ** A machine that is what the kernel relies on *)

#[local] Instance demo_pc_ports : Ports pc := {
  inb p v := (v, if p =? PIC_MASTER_DATA then imr (master v) else if p =? PIC_SLAVE_DATA then imr (slave v) else 0x20);
  outb p x v := match pc_outb p x v with Some v' => v' | None => v end;
}.
#[local] Instance demo_cpu : Cpu pc := {
  cli := set_if false;
  sti := set_if true;
  lidt limit base v := Pc (master v) (slave v) (pit_low v) (pit_reload v) (if_flag v) (limit, base);
}.
#[local] Instance demo_machine : PcMachine pc id.
Proof. split; try done. unfold id. intros p x w v Hv. cbn. by rewrite Hv. Qed.

(** Firmware leaves the controllers at the vectors of the processor's own
    exceptions, with interrupts on. *)
Definition demo_k : kstate pc := kstate0 (Pc (Chip 0 8 0xB8 0) (Chip 0 0x70 0x8E 0) None 0 true (0, 0)).
Definition demo_stub (n : Z) : Z := 0xFFFFFFFF80001000 + 16 * u8 n.

Lemma kmain_starts_witness :
  ∃ k1 k2, kmain_setup 0x5000 demo_stub demo_k = Some k1 ∧ kmain 0x5000 demo_stub demo_k = Some k2 ∧
    idt k2 = idt k1 ∧ k_world k2 = set_if true (k_world k1) ∧
    k_world k1 = Pc (Chip 0 0x20 0xFE 0) (Chip 0 0x28 0xFF 0) None 11931 false (767, 0x5000) ∧
    (∀ n, deliverable (k_world k2) n →
       ∃ g, arr_get (idt k2) n = Some g ∧ gate_present g = true ∧ gate_target g = demo_stub n).
Proof.
  apply (kmain_starts (view := id) 0x5000 demo_stub demo_k); [done|done|].
  intros n. unfold demo_stub. pose proof (u8_range n). words.
Defined.

Lemma x86_64_trap_dispatch_correct_witness :
  match x86_64_trap_dispatch 44 demo_k with
  | Resumes k' =>
      44 = 3 ∧ k' = demo_k ∨
      32 <= 44 < 48 ∧ idt k' = idt demo_k ∧ g_ticks k' = (if 44 =? 32 then u64 (g_ticks demo_k + 1) else g_ticks demo_k) ∧
      k_world k' =
        set_master (add_eoi (master (k_world demo_k)))
          (if 40 <=? 44 then set_slave (add_eoi (slave (k_world demo_k))) (k_world demo_k) else k_world demo_k)
  | Halts k' => 44 ≠ 3 ∧ ¬ 32 <= 44 < 48 ∧ if_flag (k_world k') = false ∧ g_ticks k' = g_ticks demo_k
  end.
Proof. apply (x86_64_trap_dispatch_correct (view := id) 44 demo_k). words. Defined.

(** ** Page fault report *)

Definition HEX_UPPER : list Z := literal "0123456789ABCDEF".

(** [for (i = 15; i >= 0; i--) { buf[2 + i] = hex[val & 0xF]; val >>= 4; }] *)
Fixpoint hex_fill (n : nat) (val : Z) (buf : list Z) : option (list Z) :=
  match n with
  | O => Some buf
  | S i =>
      c ← arr_get HEX_UPPER (Z.land val 0xF);
      buf ← arr_set buf (2 + Z.of_nat i) c;
      hex_fill i (Z.shiftr val 4) buf
  end.

(** The text of [print_hex_pure], for any contents [buf] of its 19 bytes. *)
Definition hex_buffer (val : Z) (buf : list Z) : option (list Z) :=
  buf ← arr_set buf 0 48;
  buf ← arr_set buf 1 120;
  buf ← hex_fill 16 val buf;
  arr_set buf 18 0.

Record fault_frame := FaultFrame { ff_rip : Z; ff_cs : Z; ff_rflags : Z; ff_rsp : Z; ff_ss : Z }.

Section Dump.
Context {W : Type} (serial_print : list Z → W → W).

Definition print_hex_pure (val : Z) (w : W) : option W :=
  buf ← hex_buffer val (replicate 19 0); Some (serial_print buf w).

Definition log_field (name : list Z) (val : Z) (w : W) : option W :=
  let w := serial_print (literal "  ") w in
  let w := serial_print name w in
  let w := serial_print (literal ": ") w in
  w ← print_hex_pure val w;
  Some (serial_print [10; 0] w).

Definition log_bool (name : list Z) (condition : bool) (w : W) : W :=
  let w := serial_print (literal "  ") w in
  let w := serial_print name w in
  let w := serial_print (literal ": ") w in
  if condition then serial_print (text "1 (TRUE)" ++ [10; 0]) w else serial_print (text "0 (FALSE)" ++ [10; 0]) w.

(** Up to the call of [kernel_panic_at]. *)
Definition page_fault_dump (cr2 error_code : Z) (tf : fault_frame) (w : W) : option W :=
  let w := serial_print ([10] ++ text "================ [M7 SYSTEM EXCEPTION] ================" ++ [10; 0]) w in
  let w := serial_print (text "#PF Page Fault Diagnostics Log System Detected" ++ [10; 0]) w in
  w ← log_field (literal "CR2 Fault Address") cr2 w;
  w ← log_field (literal "Error Code Raw   ") error_code w;
  w ← log_field (literal "Instruction RIP  ") (ff_rip tf) w;
  w ← log_field (literal "Stack Pointer RSP") (ff_rsp tf) w;
  let bit i := negb (Z.land error_code (Z.shiftl 1 i) =? 0) in
  let w := log_bool (literal "Present/Protection Violation (P)") (bit 0) w in
  let w := log_bool (literal "Write Access Attempted       (W)") (bit 1) w in
  let w := log_bool (literal "User Mode Execution Context  (U)") (bit 2) w in
  let w := log_bool (literal "Reserved Bit Mismatch Fault  (RSVD)") (bit 3) w in
  let w := log_bool (literal "Instruction Fetch Violation  (I/D)") (bit 4) w in
  Some (serial_print (text "=======================================================" ++ [10; 0]) w).
End Dump.

Definition upper_char (d : Z) : Z := if d <? 10 then 48 + d else 55 + d.
Fixpoint upper_text (n : nat) (v : Z) : list Z :=
  match n with
  | O => []
  | S n' => upper_text n' (Z.shiftr v 4) ++ [upper_char (v mod 16)]
  end.

Lemma hex_upper_get d : 0 <= d < 16 → arr_get HEX_UPPER d = Some (upper_char d).
Proof.
  intros Hd. assert (d ∈ seqZ 0 16) as Hin by (apply elem_of_seqZ; lia). clear Hd. revert d Hin.
  apply list.Forall_forall. by repeat constructor.
Qed.

Lemma length_upper_text n v : length (upper_text n v) = n.
Proof. revert v. induction n as [|n IH]; intros v; [done|]. cbn. rewrite length_app, IH. cbn. lia. Qed.

Lemma hex_fill_run n v buf : (2 + n <= length buf)%nat →
  hex_fill n v buf = Some (take 2 buf ++ upper_text n v ++ drop (2 + n) buf).
Proof.
  revert v buf. induction n as [|n IH]; intros v buf Hl; cbn [hex_fill upper_text].
  - cbn [app]. by rewrite Nat.add_0_r, take_drop.
  - change 0xF with (Z.ones 4). rewrite Z.land_ones by lia. change (2 ^ 4) with 16.
    rewrite hex_upper_get by (apply Z.mod_pos_bound; lia). cbn [mbind option_bind].
    rewrite arr_set_ok by (unfold zlen; lia). cbn [mbind option_bind].
    replace (Z.to_nat (2 + Z.of_nat n)) with (2 + n)%nat by lia.
    rewrite IH by (rewrite length_insert; lia). f_equal.
    rewrite take_insert_ge by lia. rewrite <-!app_assoc. do 2 f_equal.
    rewrite (drop_S _ (upper_char (v mod 16))) by (apply list_lookup_insert_eq; lia).
    rewrite drop_insert_lt by lia. by replace (2 + S n)%nat with (S (2 + n)) by lia.
Qed.

Lemma hex_buffer_run val buf : length buf = 19%nat →
  hex_buffer val buf = Some (text "0x" ++ upper_text 16 val ++ [0]).
Proof.
  intros Hl. unfold hex_buffer.
  destruct buf as [|z0 [|z1 buf]]; [done..|].
  rewrite arr_set_ok by (unfold zlen; lia). cbn [mbind option_bind].
  rewrite arr_set_ok by (unfold zlen; rewrite length_insert; lia). cbn [mbind option_bind].
  change (<[Z.to_nat 1:=120]> (<[Z.to_nat 0:=48]> (z0 :: z1 :: buf))) with (48 :: 120 :: buf).
  rewrite hex_fill_run by (cbn [length] in *; lia). cbn [mbind option_bind take drop Nat.add].
  cbn [length] in Hl. pose proof (length_drop buf 16) as Hd.
  destruct (drop 16 buf) as [|x [|y r]]; cbn in Hd; [lia| |lia].
  pose proof (length_upper_text 16 val) as Hu.
  rewrite arr_set_ok by (unfold zlen; rewrite !length_app, Hu; cbn; lia).
  reflexivity.
Qed.

(** The hexadecimal value that a reader sees. *)
Definition upper_val (c : Z) : Z := if c <? 58 then c - 48 else c - 55.
Definition parse_upper (s : list Z) : Z := fold_left (λ acc c, acc * 16 + upper_val c) s 0.

Lemma parse_upper_text n v : 0 <= v → parse_upper (upper_text n v) = v mod 16 ^ Z.of_nat n.
Proof.
  unfold parse_upper. revert v. induction n as [|n IH]; intros v Hv; [cbn; by rewrite Z.mod_1_r|].
  cbn [upper_text]. rewrite fold_left_app, IH by (apply Z.shiftr_nonneg; lia). cbn [fold_left].
  assert (0 <= v mod 16 < 16) by (apply Z.mod_pos_bound; lia).
  assert (upper_val (upper_char (v mod 16)) = v mod 16) as ->.
  { unfold upper_val, upper_char. generalize dependent (v mod 16). intros d Hd.
    destruct (Z.ltb_spec d 10); [destruct (Z.ltb_spec (48 + d) 58)|destruct (Z.ltb_spec (55 + d) 58)]; lia. }
  rewrite Nat2Z.inj_succ, Z.pow_succ_r, Z.shiftr_div_pow2 by lia. change (2 ^ 4) with 16.
  assert (0 < 16 ^ Z.of_nat n) by lia. rewrite Z.rem_mul_r by lia. lia.
Qed.

(** The report of a page fault. *)
Definition field_text (name : string) (v : Z) : list Z :=
  text "  " ++ text name ++ text ": 0x" ++ upper_text 16 v ++ [10].
Definition flag_text (name : string) (b : bool) : list Z :=
  text "  " ++ text name ++ text ": " ++ text (if b then "1 (TRUE)" else "0 (FALSE)") ++ [10].
Definition fault_text (cr2 e : Z) (tf : fault_frame) : list Z :=
  [10] ++ text "================ [M7 SYSTEM EXCEPTION] ================" ++ [10] ++
  text "#PF Page Fault Diagnostics Log System Detected" ++ [10] ++
  field_text "CR2 Fault Address" cr2 ++ field_text "Error Code Raw   " e ++
  field_text "Instruction RIP  " (ff_rip tf) ++ field_text "Stack Pointer RSP" (ff_rsp tf) ++
  flag_text "Present/Protection Violation (P)" (Z.testbit e 0) ++
  flag_text "Write Access Attempted       (W)" (Z.testbit e 1) ++
  flag_text "User Mode Execution Context  (U)" (Z.testbit e 2) ++
  flag_text "Reserved Bit Mismatch Fault  (RSVD)" (Z.testbit e 3) ++
  flag_text "Instruction Fetch Violation  (I/D)" (Z.testbit e 4) ++
  text "=======================================================" ++ [10].

Lemma land_bit e i : 0 <= i → negb (Z.land e (Z.shiftl 1 i) =? 0) = Z.testbit e i.
Proof.
  intros Hi. rewrite Z.shiftl_1_l. destruct (Z.testbit e i) eqn:E.
  - apply negb_true_iff, Z.eqb_neq. intros H. apply (f_equal (λ x, Z.testbit x i)) in H.
    rewrite Z.land_spec, Z.pow2_bits_true, E, Z.bits_0 in H by done. done.
  - apply negb_false_iff, Z.eqb_eq. apply Z.bits_inj'. intros j Hj.
    rewrite Z.land_spec, Z.pow2_bits_eqb, Z.bits_0 by done.
    destruct (Z.eqb_spec i j) as [<-|]; [by rewrite E|by rewrite andb_false_r].
Qed.

Section DumpSent.
Context {W : Type} (serial_print : list Z → W → W) (sent : W → list Z).
Hypothesis print_sent : ∀ s w, Forall (λ c, c ≠ 0) s → sent (serial_print (s ++ [0]) w) = sent w ++ s.

(** Literal text holds no zero: checked by evaluation. *)
Lemma print_text s w : forallb (λ c, negb (c =? 0)) s = true → sent (serial_print (s ++ [0]) w) = sent w ++ s.
Proof.
  intros Hs. apply print_sent. apply list.Forall_forall. intros c Hc%list_elem_of_In.
  rewrite forallb_forall in Hs. specialize (Hs c Hc). lia.
Qed.

Lemma print_line s w : forallb (λ c, negb (c =? 0)) s = true →
  sent (serial_print (s ++ [10; 0]) w) = sent w ++ s ++ [10].
Proof.
  intros Hs. change [10; 0] with ([10] ++ [0]). rewrite app_assoc. apply print_text.
  by rewrite forallb_app, Hs.
Qed.

Lemma upper_text_nonzero n v : Forall (λ c, c ≠ 0) (upper_text n v).
Proof.
  revert v. induction n as [|n IH]; intros v; [done|]. cbn [upper_text]. apply Forall_app. split; [done|].
  repeat constructor. unfold upper_char. assert (0 <= v mod 16 < 16) by (apply Z.mod_pos_bound; lia).
  destruct (Z.ltb_spec (v mod 16) 10); lia.
Qed.

Lemma log_field_sent name v w : forallb (λ c, negb (c =? 0)) (text name) = true →
  ∃ w', log_field serial_print (literal name) v w = Some w' ∧ sent w' = sent w ++ field_text name v.
Proof.
  intros Hn. unfold log_field, print_hex_pure. rewrite hex_buffer_run by done. cbn [mbind option_bind].
  eexists. split; [done|].
  rewrite (print_text [10]) by done. rewrite app_assoc.
  rewrite print_sent by (apply Forall_app; split; [by repeat constructor|apply upper_text_nonzero]).
  rewrite !literal_text, (print_text (text ": ")), (print_text (text name)), (print_text (text "  ")) by done.
  unfold field_text. by rewrite <-!app_assoc.
Qed.

Lemma log_bool_sent name b w : forallb (λ c, negb (c =? 0)) (text name) = true →
  sent (log_bool serial_print (literal name) b w) = sent w ++ flag_text name b.
Proof.
  intros Hn. unfold log_bool, flag_text. rewrite !literal_text.
  destruct b; rewrite print_line, (print_text (text ": ")), (print_text (text name)), (print_text (text "  "))
    by done; by rewrite <-!app_assoc.
Qed.

(** What a page fault prints, in order: the faulting address, the error
    code, the instruction and stack pointers, each as sixteen hexadecimal digits
    whose value is the register, and the five documented bits of the error
    code, each under its own name. *)
Theorem page_fault_dump_report cr2 e tf w :
  is_u64 cr2 → is_u64 e → is_u64 (ff_rip tf) → is_u64 (ff_rsp tf) →
  (∃ w', page_fault_dump serial_print cr2 e tf w = Some w' ∧ sent w' = sent w ++ fault_text cr2 e tf) ∧
  Forall (λ v, parse_upper (upper_text 16 v) = v) [cr2; e; ff_rip tf; ff_rsp tf].
Proof.
  intros Hc He Hi Hs. split.
  2: { repeat constructor; rewrite parse_upper_text by words; apply Z.mod_small; words. }
  unfold page_fault_dump. set (w0 := serial_print _ (serial_print _ w)).
  assert (sent w0 = sent w ++ [10] ++ text "================ [M7 SYSTEM EXCEPTION] ================" ++ [10] ++
    text "#PF Page Fault Diagnostics Log System Detected" ++ [10]) as Hw0.
  { unfold w0. rewrite print_line by done. rewrite (app_assoc [10]), print_line by done. by rewrite <-!app_assoc. }
  destruct (log_field_sent "CR2 Fault Address" cr2 w0) as (w1&->&H1); [done|]. cbn [mbind option_bind].
  destruct (log_field_sent "Error Code Raw   " e w1) as (w2&->&H2); [done|]. cbn [mbind option_bind].
  destruct (log_field_sent "Instruction RIP  " (ff_rip tf) w2) as (w3&->&H3); [done|]. cbn [mbind option_bind].
  destruct (log_field_sent "Stack Pointer RSP" (ff_rsp tf) w3) as (w4&->&H4); [done|]. cbn [mbind option_bind].
  eexists. split; [done|]. rewrite print_line, !log_bool_sent, !land_bit by done.
  rewrite H4, H3, H2, H1, Hw0. unfold fault_text. by rewrite <-!app_assoc.
Qed.
End DumpSent.

Lemma page_fault_dump_report_witness :
  let pr := λ s w, w ++ removelast s in
  (∃ w', page_fault_dump pr 0xDEAD 7 (FaultFrame 0x1000 8 2 0x2000 16) [] = Some w' ∧
     w' = [] ++ fault_text 0xDEAD 7 (FaultFrame 0x1000 8 2 0x2000 16)) ∧
  Forall (λ v, parse_upper (upper_text 16 v) = v) [0xDEAD; 7; 0x1000; 0x2000].
Proof.
  intros pr. apply (page_fault_dump_report pr id); [|unfold is_u64; cbn; lia..].
  intros s w _. unfold pr, id. by rewrite removelast_last.
Defined.
