(* ===== verification/Stubs.v ===== *)
(** The assembly around the C code: the interrupt stubs of
    [src/kernel/arch/x86_64/isr.S], the system call stub of
    [src/kernel/syscall/syscall_entry.S] and the two routines of
    [src/kernel/arch/x86_64/cpu.S], on a small model of the processor. *)
From stdpp Require Import functions.
From S2P Require Import Prelude Cstr Console Trap Syscall.

(** ** The processor *)

Inductive reg :=
| RAX | RBX | RCX | RDX | RBP | RDI | RSI | RSP
| R8 | R9 | R10 | R11 | R12 | R13 | R14 | R15.

#[export] Instance reg_eq_dec : EqDecision reg.
Proof. solve_decision. Defined.

(** Registers, flags, the two segment selectors that interrupts save, and the
    mapped memory as 8-byte words at multiples of 8. *)
Record cpu_state := CpuState {
  gpr : reg → Z;
  flags : Z;
  cseg : Z;
  sseg : Z;
  words_at : gmap Z Z;
}.

Definition set_reg (r : reg) (v : Z) (c : cpu_state) : cpu_state :=
  CpuState (<[r := v]> (gpr c)) (flags c) (cseg c) (sseg c) (words_at c).
Definition set_flags (f : Z) (c : cpu_state) : cpu_state :=
  CpuState (gpr c) f (cseg c) (sseg c) (words_at c).

Definition read_word (a : Z) (c : cpu_state) : option Z := words_at c !! a.
(** The eight bytes at an address that need not be a multiple of 8. *)
Definition load_word (a : Z) (c : cpu_state) : option Z :=
  let r := a mod 8 in
  x ← words_at c !! (a - r);
  if r =? 0 then Some x else
  y ← words_at c !! (a - r + 8);
  Some (u64 (Z.shiftr (x + 2 ^ 64 * y) (8 * r))).
Definition write_word (a v : Z) (c : cpu_state) : option cpu_state :=
  _ ← words_at c !! a;
  Some (CpuState (gpr c) (flags c) (cseg c) (sseg c) (<[a := v]> (words_at c))).

Definition push (v : Z) (c : cpu_state) : option cpu_state :=
  let c := set_reg RSP (u64 (gpr c RSP - 8)) c in write_word (gpr c RSP) v c.
Definition pop (c : cpu_state) : option (Z * cpu_state) :=
  v ← read_word (gpr c RSP) c; Some (v, set_reg RSP (u64 (gpr c RSP + 8)) c).

(** ** Instructions *)

(** The C functions that the stubs call. *)
Inductive cfun := Call_trap_dispatch | Call_syscall_dispatch_frame.

Inductive label :=
| L_isr_stub (n : Z)
| L_isr_common
| L_exception_stubs
| L_int80_stub
| L_read_rflags
| L_halt_forever.

(** AT&T order: [Movq_to r off b] is [movq r, off(b)], [Pushq_mem a] is [pushq a]
    without the dollar. *)
Inductive instr :=
| Pushq (r : reg)
| Pushq_imm (v : Z)
| Pushq_mem (a : Z)
| Popq (r : reg)
| Movq (src dst : reg)
| Movq_to (r : reg) (off : Z) (base : reg)
| Movq_imm (v off : Z) (base : reg)
| Movq_from (off : Z) (base r : reg)
| Addq (v : Z) (r : reg)
| Subq (v : Z) (r : reg)
| Cld
| Pushfq
| Hlt
| Call (f : cfun)
| Jmp (l : label)
| Ret
| Iretq.

(** How a routine ends: with [iretq] to an address, or [ret]. *)
Inductive stop := Iret (pc : Z) | Returned (pc : Z).

(** What is not in these files: what the called functions do, from the
    processor at their first instruction to the one after their [ret] ([None]
    if they do not return); the flags after an addition or subtraction and the
    return address of the call in a stub, neither of which matters; and what
    the processor does when it executes the bytes of the table
    [x86_64_exception_stubs], which are addresses that the linker chooses. *)
Record cpu_env (W : Type) := CpuEnv {
  callee : cfun → cpu_state → W → option (cpu_state * W);
  alu_flags : Z → Z → Z → Z;
  return_site : Z;
  table_code : cpu_state → W → option (stop * cpu_state * W);
}.
Arguments CpuEnv {W}. Arguments callee {W}. Arguments alu_flags {W}. Arguments return_site {W}.
Arguments table_code {W}.

Section Machine.
Context {W : Type} (env : cpu_env W).

Definition DIRECTION_FLAG : Z := 0x400.

(** An instruction that does not transfer control. *)
Definition step (i : instr) (c : cpu_state) : option cpu_state :=
  match i with
  | Pushq r => push (gpr c r) c
  | Pushq_imm v => push (u64 v) c
  | Pushq_mem a => v ← load_word a c; push v c
  | Popq r => '(v, c') ← pop c; Some (set_reg r v c')
  | Movq src dst => Some (set_reg dst (gpr c src) c)
  | Movq_to r off base => write_word (u64 (gpr c base + off)) (gpr c r) c
  | Movq_imm v off base => write_word (u64 (gpr c base + off)) (u64 v) c
  | Movq_from off base r => v ← read_word (u64 (gpr c base + off)) c; Some (set_reg r v c)
  | Addq v r =>
      Some (set_flags (alu_flags env (flags c) (gpr c r) v) (set_reg r (u64 (gpr c r + v)) c))
  | Subq v r =>
      Some (set_flags (alu_flags env (flags c) (gpr c r) (- v)) (set_reg r (u64 (gpr c r - v)) c))
  | Cld => Some (set_flags (Z.ldiff (flags c) DIRECTION_FLAG) c)
  | Pushfq => push (flags c) c
  | _ => Some c
  end.

Definition iretq (c : cpu_state) : option (Z * cpu_state) :=
  '(pc, c1) ← pop c;
  '(cs, c2) ← pop c1;
  '(fl, c3) ← pop c2;
  '(sp, c4) ← pop c3;
  '(ss, c5) ← pop c4;
  Some (pc, CpuState (<[RSP := sp]> (gpr c5)) fl cs ss (words_at c5)).

(** The instructions of a routine from one of them on; running off the end is
    undefined. *)
Fixpoint run_list (jump : label → cpu_state → W → option (stop * cpu_state * W)) (ins : list instr)
    (c : cpu_state) (w : W) : option (stop * cpu_state * W) :=
  match ins with
  | [] => None
  | Jmp l :: _ => jump l c w
  | Ret :: _ => '(pc, c') ← pop c; Some (Returned pc, c', w)
  | Iretq :: _ => '(pc, c') ← iretq c; Some (Iret pc, c', w)
  | Call f :: ins' =>
      c1 ← push (return_site env) c;
      '(c2, w') ← callee env f c1 w;
      run_list jump ins' c2 w'
  | i :: ins' => c' ← step i c; run_list jump ins' c' w
  end.

(** ** The code *)

(** Vectors for which the processor pushes an error code. *)
Definition error_vectors : list Z := [8; 10; 11; 12; 13; 14; 17; 21; 29; 30].

Definition ISR_NOERR (vector : Z) : list instr :=
  [Pushq_imm 0; Pushq_imm vector; Jmp L_isr_common].
Definition ISR_ERR (vector : Z) : list instr := [Pushq_imm vector; Jmp L_isr_common].
Definition irq_stub (num : Z) : list instr :=
  [Pushq_imm 0; Pushq_mem num; Jmp L_exception_stubs].

(** The order in which the registers are pushed. *)
Definition saved_regs : list reg :=
  [RAX; RBX; RCX; RDX; RBP; RDI; RSI; R8; R9; R10; R11; R12; R13; R14; R15].

Definition isr_common : list instr :=
  (Pushq <$> saved_regs) ++ [Movq RSP RDI; Call Call_trap_dispatch] ++
  (Popq <$> reverse saved_regs) ++ [Addq 16 RSP; Iretq].

(** The macro calls of the file, by vector. *)
Definition isr_stub_code (n : Z) : option (list instr) :=
  if (0 <=? n) && (n <? 32) then
    Some (if decide (n ∈ [8; 10; 11; 12; 13; 14; 17; 21; 29; 30]) then ISR_ERR n else ISR_NOERR n)
  else if (32 <=? n) && (n <? 48) then Some (irq_stub n)
  else None.

Definition x86_64_syscall_int80_stub : list instr :=
  [Cld; Subq 64 RSP;
   Movq_to RAX 0 RSP; Movq_to RDI 8 RSP; Movq_to RSI 16 RSP; Movq_to RDX 24 RSP;
   Movq_to R10 32 RSP; Movq_to R8 40 RSP; Movq_to R9 48 RSP; Movq_imm 0 56 RSP;
   Movq RSP RDI; Call Call_syscall_dispatch_frame;
   Movq_from 56 RSP RAX; Addq 64 RSP; Iretq].

Definition cpu_read_rflags : list instr := [Pushfq; Popq RAX; Ret].
Definition cpu_halt_forever : list instr := [Hlt; Jmp L_halt_forever].

(** The instructions at a label; [x86_64_exception_stubs] labels a table of
    addresses. *)
Definition code (l : label) : option (list instr) :=
  match l with
  | L_isr_stub n => isr_stub_code n
  | L_isr_common => Some isr_common
  | L_exception_stubs => None
  | L_int80_stub => Some x86_64_syscall_int80_stub
  | L_read_rflags => Some cpu_read_rflags
  | L_halt_forever => Some cpu_halt_forever
  end.

(** A routine, followed through at most [jumps] jumps. *)
Fixpoint run (jumps : nat) (l : label) (c : cpu_state) (w : W) : option (stop * cpu_state * W) :=
  match jumps with
  | O => None
  | S n =>
      match l with
      | L_exception_stubs => table_code env c w
      | _ => ins ← code l; run_list (run n) ins c w
      end
  end.

(** ** Interrupts *)

(** The flags that an interrupt gate clears: TF, IF, NT, RF and VM. *)
Definition GATE_CLEARS : Z := 0x34300.

(** The code segment of the gates that [x86_64_idt_set_gate] makes. *)
Definition GATE_CS : Z := 0x08.

Definition enter_gate (c : cpu_state) : cpu_state :=
  CpuState (gpr c) (Z.ldiff (flags c) GATE_CLEARS) GATE_CS (sseg c) (words_at c).

(** The processor takes an interrupt in kernel mode through an interrupt gate
    of the kernel, whose selector names a 64-bit code segment: it aligns the
    stack and pushes SS, RSP, RFLAGS, CS, RIP and, for some vectors, an error
    code. *)
Definition deliver (pc : Z) (error : option Z) (c : cpu_state) : option cpu_state :=
  let sp := gpr c RSP in
  c1 ← push (sseg c) (set_reg RSP (sp - sp mod 16) c);
  c2 ← push sp c1;
  c3 ← push (flags c) c2;
  c4 ← push (cseg c) c3;
  c5 ← push pc c4;
  c6 ← match error with Some e => push e c5 | None => Some c5 end;
  Some (enter_gate c6).

Definition take_interrupt (handler : label) (error : option Z) (pc : Z) (c : cpu_state) (w : W) :
    option (stop * cpu_state * W) :=
  c1 ← deliver pc error c; run 2 handler c1 w.
End Machine.

(** ** The stack *)

(** [c] with [v] pushed, and with a list pushed from left to right. *)
Definition pushed (v : Z) (c : cpu_state) : cpu_state :=
  CpuState (<[RSP := gpr c RSP - 8]> (gpr c)) (flags c) (cseg c) (sseg c)
    (<[gpr c RSP - 8 := v]> (words_at c)).
Definition pushes (vs : list Z) (c : cpu_state) : cpu_state :=
  foldl (λ c v, pushed v c) c vs.

(** The words at the stack pointer and above it. *)
Definition stacked (c : cpu_state) (ws : list Z) : Prop :=
  ∀ i w, ws !! i = Some w → words_at c !! (gpr c RSP + 8 * Z.of_nat i) = Some w.

(** The stack is mapped from [lo] to its top and the pointer aligned to 8. *)
Record room (lo : Z) (c : cpu_state) : Prop := {
  room_low : 0 ≤ lo ≤ gpr c RSP;
  room_high : gpr c RSP < 2 ^ 64;
  room_aligned : ∃ k, gpr c RSP = 8 * k;
  room_mapped : ∀ k, lo ≤ 8 * k < gpr c RSP → is_Some (words_at c !! (8 * k));
}.

Lemma words_set_reg r v c : words_at (set_reg r v c) = words_at c.
Proof. done. Qed.

Lemma gpr_set_same r v c : gpr (set_reg r v c) r = v.
Proof. apply fn_lookup_insert. Qed.

Lemma gpr_set_other r v c q : q ≠ r → gpr (set_reg r v c) q = gpr c q.
Proof. intros H. by apply fn_lookup_insert_ne. Qed.

Lemma pushed_gpr v c r : r ≠ RSP → gpr (pushed v c) r = gpr c r.
Proof. intros H. unfold pushed. cbn [gpr]. by apply fn_lookup_insert_ne. Qed.

Lemma pushed_rsp v c : gpr (pushed v c) RSP = gpr c RSP - 8.
Proof. unfold pushed. cbn [gpr]. apply fn_lookup_insert. Qed.

Lemma push_run lo v c : room lo c → lo + 8 ≤ gpr c RSP → push v c = Some (pushed v c).
Proof.
  intros [Hl Hh [k Hk] Hm] Hr. unfold push, write_word, set_reg. cbn [gpr words_at].
  rewrite fn_lookup_insert. rewrite u64_small by words.
  destruct (Hm (k - 1)) as [x Hx]; [lia|]. replace (8 * (k - 1)) with (gpr c RSP - 8) in Hx by lia.
  by rewrite Hx.
Qed.

Lemma pushed_above v c a : gpr c RSP ≤ a → words_at (pushed v c) !! a = words_at c !! a.
Proof. intros H. unfold pushed. cbn [words_at]. apply lookup_insert_ne. lia. Qed.

Lemma room_pushed lo v c : room lo c → lo + 8 ≤ gpr c RSP → room lo (pushed v c).
Proof.
  intros [Hl Hh [k Hk] Hm] Hr. split; rewrite ?pushed_rsp; [lia|lia|exists (k - 1); lia|].
  intros j Hj. unfold pushed. cbn [words_at]. destruct (decide (gpr c RSP - 8 = 8 * j)) as [->|Hne].
  - by rewrite lookup_insert_eq.
  - rewrite lookup_insert_ne by done. apply Hm. lia.
Qed.

Lemma stacked_pushed v c ws : stacked c ws → stacked (pushed v c) (v :: ws).
Proof.
  intros H i w Hi. rewrite pushed_rsp. destruct i as [|i]; simpl in Hi.
  - injection Hi as <-. rewrite Z.add_0_r. unfold pushed. cbn [words_at]. by rewrite lookup_insert_eq.
  - specialize (H i w Hi). rewrite pushed_above by lia. rewrite <-H. f_equal. lia.
Qed.

Lemma stacked_nil c : stacked c [].
Proof. by intros i w. Qed.

Lemma pushes_cons v vs c : pushes (v :: vs) c = pushes vs (pushed v c).
Proof. done. Qed.

Lemma pushes_app vs1 vs2 c : pushes (vs1 ++ vs2) c = pushes vs2 (pushes vs1 c).
Proof. unfold pushes. apply foldl_app. Qed.

Lemma pushes_rsp vs c : gpr (pushes vs c) RSP = gpr c RSP - 8 * zlen vs.
Proof.
  revert c. induction vs as [|v vs IH]; intros c; [unfold zlen; simpl; lia|].
  rewrite ?pushes_cons. rewrite IH, pushed_rsp. unfold zlen. simpl. lia.
Qed.

Lemma pushes_gpr vs c r : r ≠ RSP → gpr (pushes vs c) r = gpr c r.
Proof.
  intros Hr. revert c. induction vs as [|v vs IH]; intros c; [done|].
  rewrite ?pushes_cons. by rewrite IH, pushed_gpr.
Qed.

Lemma pushes_rest vs c : flags (pushes vs c) = flags c ∧ cseg (pushes vs c) = cseg c ∧
  sseg (pushes vs c) = sseg c.
Proof.
  revert c. induction vs as [|v vs IH]; intros c; [done|].
  rewrite ?pushes_cons. destruct (IH (pushed v c)) as (-> & -> & ->). done.
Qed.

Lemma pushes_above vs c a : gpr c RSP ≤ a → words_at (pushes vs c) !! a = words_at c !! a.
Proof.
  revert c. induction vs as [|v vs IH]; intros c Ha; [done|].
  rewrite ?pushes_cons. rewrite IH by (rewrite pushed_rsp; lia). by apply pushed_above.
Qed.

Lemma room_pushes lo vs c : room lo c → lo + 8 * zlen vs ≤ gpr c RSP → room lo (pushes vs c).
Proof.
  unfold zlen. revert c. induction vs as [|v vs IH]; intros c Hr Hl; [done|].
  rewrite pushes_cons. simpl in Hl. apply IH; [apply room_pushed; [done|lia]|]. rewrite pushed_rsp. lia.
Qed.

Lemma stacked_pushes vs c ws : stacked c ws → stacked (pushes vs c) (reverse vs ++ ws).
Proof.
  revert c ws. induction vs as [|v vs IH]; intros c ws H; [done|].
  rewrite pushes_cons, reverse_cons, <-app_assoc. apply IH. by apply stacked_pushed.
Qed.

Lemma pop_run c w ws : stacked c (w :: ws) → 0 ≤ gpr c RSP → gpr c RSP + 8 < 2 ^ 64 →
  pop c = Some (w, set_reg RSP (gpr c RSP + 8) c).
Proof.
  intros Hs H0 H1. unfold pop, read_word. pose proof (Hs 0%nat w eq_refl) as Hw.
  rewrite Z.add_0_r in Hw. rewrite Hw. cbn [mbind option_bind]. by rewrite u64_small by words.
Qed.

Lemma stacked_drop c c' w ws : stacked c (w :: ws) → words_at c' = words_at c →
  gpr c' RSP = gpr c RSP + 8 → stacked c' ws.
Proof.
  intros H Hw Hr i x Hi. rewrite Hw, Hr. rewrite <-(H (S i) x Hi). f_equal. lia.
Qed.

(** [c2] is [c] where the words from [sp] on are concerned, with the pointer at
    [sp]. *)
Lemma stacked_same c c2 ws : stacked c ws → gpr c2 RSP = gpr c RSP →
  (∀ a, gpr c RSP ≤ a → words_at c2 !! a = words_at c !! a) → stacked c2 ws.
Proof. intros H Hr Hw i x Hi. rewrite Hr, Hw by lia. by apply H. Qed.

Lemma enter_gate_pushes vs c : enter_gate (pushes vs c) = pushes vs (enter_gate c).
Proof. revert c. induction vs as [|v vs IH]; intros c; [done|]. by rewrite !pushes_cons, IH. Qed.

(** ** What a call leaves alone *)

Definition callee_saved : list reg := [RBX; RBP; R12; R13; R14; R15].

(** The System V conventions, for a function that has returned in [c'] from a
    call that it was entered with in [c], with the address of an object of
    [len] bytes as its argument: of the stack, which ends at [hi], it may have
    changed the object and what lies below the return address. *)
Record abi_return (hi len : Z) (c c' : cpu_state) : Prop := {
  abi_rsp : gpr c' RSP = gpr c RSP + 8;
  abi_saved : ∀ r, r ∈ callee_saved → gpr c' r = gpr c r;
  abi_segments : cseg c' = cseg c ∧ sseg c' = sseg c;
  abi_stack : ∀ a, gpr c RSP < a < hi → a < gpr c RDI ∨ gpr c RDI + len ≤ a →
    words_at c' !! a = words_at c !! a;
}.

(** The processor goes on with the registers, flags and segments of [t] and with
    the stack as it was in [c]. *)
Record resumed_as (hi : Z) (t c c' : cpu_state) : Prop := {
  re_regs : ∀ r, gpr c' r = gpr t r;
  re_flags : flags c' = flags t;
  re_segments : cseg c' = cseg t ∧ sseg c' = sseg t;
  re_stack : ∀ a, gpr c RSP ≤ a < hi → words_at c' !! a = words_at c !! a;
}.

(** What was interrupted goes on as if nothing had happened. *)
Abbreviation resumed hi c := (resumed_as hi c c).

Section Runs.
Context {W : Type} (env : cpu_env W).
#[local] Abbreviation exec := (run_list env).

Lemma run_pushes jump lo rs k c w : room lo c → lo + 8 * zlen rs ≤ gpr c RSP → RSP ∉ rs →
  exec jump ((Pushq <$> rs) ++ k) c w = exec jump k (pushes (gpr c <$> rs) c) w.
Proof.
  unfold zlen. revert c. induction rs as [|r rs IH]; intros c Hr Hl Hn; [done|].
  apply not_elem_of_cons in Hn as [Hne Hn]. simpl in Hl.
  cbn [fmap list_fmap app run_list step]. rewrite (push_run lo) by (done || lia).
  cbn [mbind option_bind]. rewrite IH; [|by apply room_pushed; [|lia]|rewrite pushed_rsp; lia|done].
  rewrite pushes_cons. do 2 f_equal. apply list_fmap_ext. intros i x Hx.
  apply pushed_gpr. intros ->. by apply list_elem_of_lookup_2 in Hx.
Qed.

Lemma run_pops jump g rs k c w ws : stacked c ((g <$> rs) ++ ws) → RSP ∉ rs →
  0 ≤ gpr c RSP → gpr c RSP + 8 * zlen rs < 2 ^ 64 →
  ∃ c', exec jump ((Popq <$> rs) ++ k) c w = exec jump k c' w ∧ stacked c' ws ∧
    gpr c' RSP = gpr c RSP + 8 * zlen rs ∧ words_at c' = words_at c ∧
    (∀ r, r ∈ rs → gpr c' r = g r) ∧ (∀ r, r ∉ rs → r ≠ RSP → gpr c' r = gpr c r).
Proof.
  unfold zlen. revert c. induction rs as [|r rs IH]; intros c Hs Hn H0 H1.
  { exists c. split; [done|]. split; [done|]. simpl. split; [lia|]. split; [done|].
    split; [intros r Hr; by apply elem_of_nil in Hr|done]. }
  apply not_elem_of_cons in Hn as [Hne Hn]. simpl in H1.
  cbn [fmap list_fmap app run_list step]. rewrite (pop_run _ _ _ Hs) by lia.
  cbn [mbind option_bind]. set (c1 := set_reg r (g r) _).
  assert (gpr c1 RSP = gpr c RSP + 8) as Hr1.
  { unfold c1, set_reg. cbn [gpr]. rewrite fn_lookup_insert_ne by done. apply fn_lookup_insert. }
  destruct (IH c1) as (c' & Hrun & Hs' & Hr' & Hw' & Hin & Hout);
    [exact (stacked_drop c c1 _ _ Hs eq_refl Hr1)|done|lia|lia|].
  exists c'. split; [exact Hrun|]. split; [done|]. split; [simpl; lia|]. split; [done|].
  split.
  - intros q Hq. destruct (decide (q ∈ rs)) as [Hq'|Hq']; [by apply Hin|].
    apply elem_of_cons in Hq as [->|Hq]; [|done]. rewrite Hout by done.
    unfold c1, set_reg. cbn [gpr]. apply fn_lookup_insert.
  - intros q Hq Hqr. apply not_elem_of_cons in Hq as [Hqn Hq]. rewrite Hout by done.
    unfold c1, set_reg. cbn [gpr]. by rewrite !fn_lookup_insert_ne by done.
Qed.

Lemma pop_stacked c v ws : stacked c (v :: ws) → 0 ≤ gpr c RSP → gpr c RSP + 8 < 2 ^ 64 →
  ∃ c', pop c = Some (v, c') ∧ stacked c' ws ∧ gpr c' RSP = gpr c RSP + 8 ∧
    (∀ r, r ≠ RSP → gpr c' r = gpr c r) ∧ words_at c' = words_at c.
Proof.
  intros Hs H0 H1. rewrite (pop_run _ _ _ Hs) by lia. eexists. split; [done|].
  assert (gpr (set_reg RSP (gpr c RSP + 8) c) RSP = gpr c RSP + 8) as Hr by apply fn_lookup_insert.
  split; [by eapply stacked_drop|]. split; [done|]. split; [|done].
  intros r Hne. by apply fn_lookup_insert_ne.
Qed.

Lemma iretq_run c pc cs fl sp ss ws : stacked c (pc :: cs :: fl :: sp :: ss :: ws) →
  0 ≤ gpr c RSP → gpr c RSP + 40 < 2 ^ 64 →
  ∃ c', iretq c = Some (pc, c') ∧ gpr c' RSP = sp ∧ (∀ r, r ≠ RSP → gpr c' r = gpr c r) ∧
    flags c' = fl ∧ cseg c' = cs ∧ sseg c' = ss ∧ words_at c' = words_at c.
Proof.
  intros Hs H0 H1. unfold iretq.
  destruct (pop_stacked _ _ _ Hs) as (c1 & -> & Hs1 & Hr1 & Ho1 & Hw1); [lia|lia|].
  cbn [mbind option_bind].
  destruct (pop_stacked _ _ _ Hs1) as (c2 & -> & Hs2 & Hr2 & Ho2 & Hw2); [lia|lia|].
  cbn [mbind option_bind].
  destruct (pop_stacked _ _ _ Hs2) as (c3 & -> & Hs3 & Hr3 & Ho3 & Hw3); [lia|lia|].
  cbn [mbind option_bind].
  destruct (pop_stacked _ _ _ Hs3) as (c4 & -> & Hs4 & Hr4 & Ho4 & Hw4); [lia|lia|].
  cbn [mbind option_bind].
  destruct (pop_stacked _ _ _ Hs4) as (c5 & -> & _ & Hr5 & Ho5 & Hw5); [lia|lia|].
  cbn [mbind option_bind]. eexists. split; [done|]. cbn [gpr flags cseg sseg words_at].
  split; [apply fn_lookup_insert|]. split; [|by rewrite Hw5, Hw4, Hw3, Hw2, Hw1].
  intros r Hr. rewrite fn_lookup_insert_ne by done. by rewrite Ho5, Ho4, Ho3, Ho2, Ho1 by done.
Qed.

(** Room for one more push after a list of known length. *)
Ltac rsp_room := unfold zlen; cbn [length app]; lia.

Lemma push_pushes lo vs v c : room lo c → lo + 8 * zlen vs + 8 ≤ gpr c RSP →
  push v (pushes vs c) = Some (pushes (vs ++ [v]) c).
Proof.
  intros Hr Hl. rewrite (push_run lo), pushes_app; [done|apply room_pushes; [done|lia]|].
  rewrite pushes_rsp. lia.
Qed.

(** The processor as an interrupt finds the stack, and what it pushes. *)
Definition aligned_sp (c : cpu_state) : Z := gpr c RSP - gpr c RSP mod 16.
Definition at_gate (c : cpu_state) : cpu_state := enter_gate (set_reg RSP (aligned_sp c) c).
Definition hardware_frame (pc : Z) (error : option Z) (c : cpu_state) : list Z :=
  [sseg c; gpr c RSP; flags c; cseg c; pc] ++ option_list error.

(** Room for the hardware's frame, the stub's and a return address. *)
Definition stack_room (lo : Z) (c : cpu_state) : Prop :=
  room lo (at_gate c) ∧ lo + 184 ≤ aligned_sp c.

Lemma at_gate_rsp c : gpr (at_gate c) RSP = aligned_sp c.
Proof. apply fn_lookup_insert. Qed.

Lemma at_gate_gpr c r : r ≠ RSP → gpr (at_gate c) r = gpr c r.
Proof. intros H. by apply fn_lookup_insert_ne. Qed.

(** Another value in a register that is not the stack pointer. *)
Lemma stack_room_set_reg lo r v c : r ≠ RSP → stack_room lo c → stack_room lo (set_reg r v c).
Proof.
  intros Hr [[Hl Hh Ha Hm] Hb].
  assert (aligned_sp (set_reg r v c) = aligned_sp c) as E by (unfold aligned_sp; by rewrite gpr_set_other by done).
  split; [|by rewrite E]. rewrite at_gate_rsp in *. split; rewrite at_gate_rsp, E; done.
Qed.

Lemma deliver_run lo pc error c : stack_room lo c →
  deliver pc error c = Some (pushes (hardware_frame pc error c) (at_gate c)).
Proof.
  intros [Hr Hl]. unfold deliver. fold (aligned_sp c). set (c0 := set_reg RSP (aligned_sp c) c).
  assert (room lo c0) as Hr0 by (destruct Hr as [? ? ? ?]; by split).
  assert (gpr c0 RSP = aligned_sp c) as Hsp by apply fn_lookup_insert.
  change (push (sseg c) c0) with (push (sseg c) (pushes [] c0)).
  do 5 (rewrite (push_pushes lo) by (done || rsp_room); cbn [mbind option_bind app]).
  unfold hardware_frame, at_gate. fold c0. rewrite <-enter_gate_pushes.
  destruct error as [e|]; cbn [option_list option_rect app]; [|done].
  by rewrite (push_pushes lo) by (done || rsp_room).
Qed.

(** The words at the stack pointer that the dispatcher is given, from the last
    one pushed. *)
Definition trap_words (n error pc : Z) (c : cpu_state) : list Z :=
  (gpr c <$> reverse saved_regs) ++
  [n; error; pc; cseg c; flags c; gpr c RSP; sseg c].

Definition words_from (a : Z) (c : cpu_state) (ws : list Z) : Prop :=
  ∀ i w, ws !! i = Some w → words_at c !! (a + 8 * Z.of_nat i) = Some w.

(** The processor pushes an error code exactly for the vectors that have one. *)
Definition error_fits (n : Z) (error : option Z) : Prop :=
  is_Some error ↔ n ∈ error_vectors.

(** The stack of [isr_common] on entry. *)
Definition entry_words (n : Z) (error : option Z) (pc : Z) (c : cpu_state) : list Z :=
  [sseg c; gpr c RSP; flags c; cseg c; pc; default 0 error; n].

Lemma run_code k l ins c w : code l = Some ins →
  run env (S k) l c w = exec (run env k) ins c w.
Proof. intros H. cbn [run]. destruct l; try (by rewrite H). done. Qed.

Lemma isr_stub_code_spec n : 0 ≤ n < 32 →
  isr_stub_code n = Some (if decide (n ∈ error_vectors) then ISR_ERR n else ISR_NOERR n).
Proof.
  intros Hn. unfold isr_stub_code.
  by rewrite (proj2 (Z.leb_le 0 n)), (proj2 (Z.ltb_lt n 32)) by lia.
Qed.

Lemma exec_push_imm jump lo v k vs c w : room lo c → lo + 8 * zlen vs + 8 ≤ gpr c RSP →
  0 ≤ v < 2 ^ 64 →
  exec jump (Pushq_imm v :: k) (pushes vs c) w = exec jump k (pushes (vs ++ [v]) c) w.
Proof.
  intros Hr Hl Hv. cbn [run_list step]. rewrite (u64_small v) by words.
  by rewrite (push_pushes lo).
Qed.

Lemma isr_entry lo n error pc c w : 0 ≤ n < 32 → error_fits n error → stack_room lo c →
  take_interrupt env (L_isr_stub n) error pc c w =
    exec (run env 0) isr_common
      (pushes (entry_words n error pc c) (at_gate c)) w.
Proof.
  intros Hn He Hr. pose proof Hr as [Hr0 Hl]. rewrite <-at_gate_rsp in Hl.
  unfold take_interrupt. rewrite (deliver_run lo) by done. cbn [mbind option_bind].
  rewrite (run_code 1 (L_isr_stub n) _ _ _ (isr_stub_code_spec n Hn)).
  unfold error_fits in He. unfold hardware_frame, entry_words.
  case_decide as Hd.
  - apply He in Hd as [e ->]. cbn [option_list option_rect app default]. unfold ISR_ERR.
    rewrite (exec_push_imm _ lo) by (done || rsp_room). cbn [run_list]. by apply run_code.
  - destruct error as [e|]; [by destruct Hd; apply He; eexists|].
    cbn [option_list option_rect app default]. unfold ISR_NOERR.
    rewrite (exec_push_imm _ lo) by (done || rsp_room).
    rewrite (exec_push_imm _ lo) by (done || rsp_room). cbn [run_list]. by apply run_code.
Qed.

(** The processor on entry to the dispatcher. *)
Definition all_pushed (n : Z) (error : option Z) (pc : Z) (c : cpu_state) : cpu_state :=
  pushes (entry_words n error pc c ++ (gpr c <$> saved_regs)) (at_gate c).
Definition called_with (n : Z) (error : option Z) (pc : Z) (c : cpu_state) : cpu_state :=
  let d := all_pushed n error pc c in pushed (return_site env) (set_reg RDI (gpr d RSP) d).

Lemma all_pushed_rsp n error pc c : gpr (all_pushed n error pc c) RSP = aligned_sp c - 176.
Proof. unfold all_pushed. rewrite pushes_rsp, at_gate_rsp. unfold zlen. simpl. lia. Qed.

Lemma called_with_rsp n error pc c : gpr (called_with n error pc c) RSP = aligned_sp c - 184.
Proof.
  unfold called_with. rewrite pushed_rsp, gpr_set_other, all_pushed_rsp by discriminate. lia.
Qed.

Lemma called_with_rdi n error pc c : gpr (called_with n error pc c) RDI = aligned_sp c - 176.
Proof. unfold called_with. rewrite pushed_gpr, gpr_set_same by discriminate. apply all_pushed_rsp. Qed.

Lemma called_with_above n error pc c a : aligned_sp c - 176 ≤ a →
  words_at (called_with n error pc c) !! a = words_at (all_pushed n error pc c) !! a.
Proof.
  intros Ha. unfold called_with. rewrite pushed_above, words_set_reg; [reflexivity|].
  rewrite gpr_set_other, all_pushed_rsp by discriminate. exact Ha.
Qed.

Lemma all_pushed_stacked n error pc c :
  stacked (all_pushed n error pc c) (trap_words n (default 0 error) pc c).
Proof.
  unfold all_pushed.
  assert (trap_words n (default 0 error) pc c =
    reverse (entry_words n error pc c ++ (gpr c <$> saved_regs)) ++ []) as ->.
  { rewrite app_nil_r, reverse_app, <-fmap_reverse. reflexivity. }
  apply stacked_pushes, stacked_nil.
Qed.

Lemma exec_movq jump src dst k c w :
  exec jump (Movq src dst :: k) c w = exec jump k (set_reg dst (gpr c src) c) w.
Proof. reflexivity. Qed.

Lemma exec_call jump lo f k c w : room lo c → lo + 8 ≤ gpr c RSP →
  exec jump (Call f :: k) c w =
    '(c2, w2) ← callee env f (pushed (return_site env) c) w; exec jump k c2 w2.
Proof. intros Hr Hl. cbn [run_list]. by rewrite (push_run lo). Qed.

Lemma isr_common_call jump lo n error pc c w : stack_room lo c →
  exec jump isr_common (pushes (entry_words n error pc c) (at_gate c)) w =
    '(c2, w2) ← callee env Call_trap_dispatch (called_with n error pc c) w;
    exec jump ((Popq <$> reverse saved_regs) ++ [Addq 16 RSP; Iretq]) c2 w2.
Proof.
  intros [Hr Hl]. rewrite <-at_gate_rsp in Hl. unfold isr_common.
  assert (room lo (pushes (entry_words n error pc c) (at_gate c))) as Hr1
    by (apply room_pushes; [done|]; unfold zlen; cbn [length entry_words]; lia).
  rewrite (run_pushes jump lo); [|done| |].
  2:{ rewrite pushes_rsp. unfold zlen. cbn [length entry_words saved_regs]. lia. }
  2:{ unfold saved_regs. rewrite !not_elem_of_cons, elem_of_nil. naive_solver. }
  rewrite <-pushes_app.
  assert (gpr (pushes (entry_words n error pc c) (at_gate c)) <$> saved_regs =
    gpr c <$> saved_regs) as ->.
  { unfold saved_regs. cbn [fmap list_fmap]. by rewrite !pushes_gpr, !at_gate_gpr by done. }
  fold (all_pushed n error pc c). set (d := all_pushed n error pc c).
  assert (room lo d) as [R1 R2 R3 R4].
  { apply room_pushes; [done|]. unfold zlen. cbn [length entry_words saved_regs app fmap list_fmap]. lia. }
  assert (gpr d RSP = aligned_sp c - 176) as Hd by apply all_pushed_rsp.
  cbn [app]. rewrite exec_movq, (exec_call jump lo).
  - unfold called_with. fold d. reflexivity.
  - split; rewrite ?words_set_reg, ?gpr_set_other by discriminate; assumption.
  - rewrite gpr_set_other by discriminate. rewrite at_gate_rsp in Hl. lia.
Qed.

Lemma aligned_sp_bounds lo c : stack_room lo c →
  0 ≤ aligned_sp c - 184 ∧ aligned_sp c < 2 ^ 64 ∧ aligned_sp c ≤ gpr c RSP.
Proof.
  intros [[[H0 H1] H2 _ _] Hl]. rewrite at_gate_rsp in *. unfold aligned_sp in *.
  pose proof (Z.mod_pos_bound (gpr c RSP) 16). lia.
Qed.

Lemma saved_regs_all r : r ≠ RSP → r ∈ reverse saved_regs.
Proof.
  intros H. apply (bool_decide_eq_true_1 _). destruct r; (done || vm_compute; reflexivity).
Qed.

Lemma saved_regs_rsp : RSP ∉ reverse saved_regs.
Proof. apply (bool_decide_eq_false_1 _). vm_compute. reflexivity. Qed.

Lemma exec_addq jump v r k c w : exec jump (Addq v r :: k) c w =
  exec jump k (set_flags (alu_flags env (flags c) (gpr c r) v) (set_reg r (u64 (gpr c r + v)) c)) w.
Proof. reflexivity. Qed.

Lemma isr_common_return jump lo hi n error pc c c2 w t n' e' pc' : stack_room lo c →
  abi_return hi 176 (called_with n error pc c) c2 →
  words_from (aligned_sp c - 176) c2 (trap_words n' e' pc' t) →
  ∃ c', exec jump ((Popq <$> reverse saved_regs) ++ [Addq 16 RSP; Iretq]) c2 w =
    Some (Iret pc', c', w) ∧ resumed_as hi t c c'.
Proof.
  intros Hroom [Hrsp _ _ Hstk] Hs. destruct (aligned_sp_bounds lo c Hroom) as (B1 & B2 & B3).
  rewrite called_with_rsp in Hrsp, Hstk. rewrite called_with_rdi in Hstk.
  replace (aligned_sp c - 176) with (gpr c2 RSP) in Hs by lia. fold (stacked c2 (trap_words n' e' pc' t)) in Hs.
  destruct (run_pops jump (gpr t) (reverse saved_regs) [Addq 16 RSP; Iretq] c2 w _ Hs saved_regs_rsp)
    as (c3 & Hrun & Hs3 & Hr3 & Hw3 & Hg3 & _); [lia|change (zlen (reverse saved_regs)) with 15; lia|].
  change (zlen (reverse saved_regs)) with 15 in Hr3. rewrite Hrun, exec_addq.
  assert (gpr c3 RSP + 16 = aligned_sp c - 40) as Hr4 by lia.
  rewrite Hr4, u64_small by words. set (c4 := set_flags _ _).
  assert (gpr c4 RSP = aligned_sp c - 40) as Hr5 by apply gpr_set_same.
  assert (stacked c4 [pc'; cseg t; flags t; gpr t RSP; sseg t]) as Hs4.
  { intros i x Hi. rewrite Hr5. change (words_at c4) with (words_at c3).
    rewrite <-(Hs3 (2 + i)%nat x Hi). f_equal. lia. }
  destruct (iretq_run c4 _ _ _ _ _ [] Hs4) as (c5 & Hir & Hsp & Hg5 & Hf & Hc & Hss5 & Hw5); [lia|lia|].
  exists c5. split; [cbn [run_list]; by rewrite Hir|]. split; [|done|done|].
  - intros r. destruct (decide (r = RSP)) as [->|Hne]; [done|].
    rewrite Hg5 by done. change (gpr c4 r) with (gpr (set_reg RSP (aligned_sp c - 40) c3) r).
    rewrite gpr_set_other by done. apply Hg3. by apply saved_regs_all.
  - intros a Ha. rewrite Hw5. change (words_at c4) with (words_at c3). rewrite Hw3, Hstk by lia.
    rewrite called_with_above by lia. unfold all_pushed. by rewrite pushes_above by (rewrite at_gate_rsp; lia).
Qed.

(** What the exception stub of vector [n] does around the dispatcher, which it
    enters in [c1]. *)
Definition stub_around (n : Z) (error : option Z) (pc hi : Z) (c : cpu_state) (w : W) (c1 : cpu_state) : Prop :=
  words_from (gpr c1 RDI) c1 (trap_words n (default 0 error) pc c) ∧ (gpr c1 RSP + 8) mod 16 = 0 ∧
  (callee env Call_trap_dispatch c1 w = None →
   take_interrupt env (L_isr_stub n) error pc c w = None) ∧
  (∀ c2 w2 t n' e' pc', callee env Call_trap_dispatch c1 w = Some (c2, w2) → abi_return hi 176 c1 c2 →
   words_from (gpr c1 RDI) c2 (trap_words n' e' pc' t) →
   ∃ c', take_interrupt env (L_isr_stub n) error pc c w = Some (Iret pc', c', w2) ∧ resumed_as hi t c c').

Lemma isr_stub_run (n : Z) (error : option Z) (pc lo hi : Z) (c : cpu_state) (w : W) :
  0 ≤ n < 32 → error_fits n error → stack_room lo c → ∃ c1, stub_around n error pc hi c w c1.
Proof.
  intros Hn He Hr. exists (called_with n error pc c). unfold stub_around.
  rewrite (isr_entry lo), (isr_common_call _ lo), called_with_rdi by done. split; [|split; [|split]].
  - intros i x Hi. rewrite called_with_above by lia.
    rewrite <-(all_pushed_rsp n error pc c). by apply all_pushed_stacked.
  - rewrite called_with_rsp. unfold aligned_sp.
    replace (gpr c RSP - gpr c RSP mod 16 - 184 + 8) with ((gpr c RSP / 16 - 11) * 16).
    + apply Z_mod_mult.
    + pose proof (Z.div_mod (gpr c RSP) 16). lia.
  - by intros ->.
  - intros c2 w2 t n' e' pc' -> Habi Hws. cbn [mbind option_bind]. by apply (isr_common_return _ lo hi n error pc c c2 w2 t n' e').
Qed.

(** C24. The exception stubs are transparent. For every vector below 32 that
    reaches its stub through a gate, in kernel mode, whatever the processor was
    doing and whatever the alignment of its stack pointer, as long as 184 bytes
    of stack are mapped below the pointer rounded down to 16: the stub calls the
    dispatcher with an aligned stack and the address of a frame that holds the
    vector, the error code (0 if there is none) and everything that was
    interrupted. If the dispatcher returns by the calling conventions, which let
    it change the frame it is given, the processor goes on with what the frame
    then holds: sixteen registers, flags, segments and the address of the next
    instruction; with an unchanged frame these are what they were. The stack of
    what was interrupted, which ends at [hi], is kept. If the dispatcher does
    not return, nor does the stub. *)
Theorem isr_stub_transparent (n : Z) (error : option Z) (pc lo hi : Z) (c : cpu_state) (w : W) :
  0 ≤ n < 32 → error_fits n error → stack_room lo c →
  ∃ c1, words_from (gpr c1 RDI) c1 (trap_words n (default 0 error) pc c) ∧
    (gpr c1 RSP + 8) mod 16 = 0 ∧
    (callee env Call_trap_dispatch c1 w = None →
     take_interrupt env (L_isr_stub n) error pc c w = None) ∧
    (∀ c2 w2 t n' e' pc', callee env Call_trap_dispatch c1 w = Some (c2, w2) → abi_return hi 176 c1 c2 →
     words_from (gpr c1 RDI) c2 (trap_words n' e' pc' t) →
     ∃ c', take_interrupt env (L_isr_stub n) error pc c w = Some (Iret pc', c', w2) ∧
       resumed_as hi t c c').
Proof. apply isr_stub_run. Qed.

(** ** The stubs of the device interrupts *)

End Runs.

(** ** The frame as C reads it *)

(** [struct trap_frame] of [src/kernel/core/trap.c]. *)
Record trap_frame := TrapFrame {
  tf_r15 : Z; tf_r14 : Z; tf_r13 : Z; tf_r12 : Z; tf_r11 : Z; tf_r10 : Z; tf_r9 : Z; tf_r8 : Z;
  tf_rbp : Z; tf_rdi : Z; tf_rsi : Z; tf_rdx : Z; tf_rcx : Z; tf_rbx : Z; tf_rax : Z;
  tf_trap_no : Z; tf_error_code : Z;
  tf_rip : Z; tf_cs : Z; tf_rflags : Z; tf_rsp : Z; tf_ss : Z;
}.

Definition trap_frame_of (ws : list Z) : option trap_frame :=
  match ws with
  | [a; b; c; d; e; f; g; h; i; j; k; l; m; n; o; p; q; r; s; t; u; v] =>
      Some (TrapFrame a b c d e f g h i j k l m n o p q r s t u v)
  | _ => None
  end.

(** [x86_64_trap_frame_t] of [idt.h]; it ends with the flags. *)
Record x86_64_trap_frame_t := IdtFrame {
  if_r15 : Z; if_r14 : Z; if_r13 : Z; if_r12 : Z; if_r11 : Z; if_r10 : Z; if_r9 : Z; if_r8 : Z;
  if_rsi : Z; if_rdi : Z; if_rbp : Z; if_rdx : Z; if_rcx : Z; if_rbx : Z; if_rax : Z;
  if_vector : Z; if_error_code : Z; if_rip : Z; if_cs : Z; if_rflags : Z;
}.

Definition idt_frame_of (ws : list Z) : option x86_64_trap_frame_t :=
  match ws with
  | a :: b :: c :: d :: e :: f :: g :: h :: i :: j :: k :: l :: m :: n :: o :: p :: q :: r :: s ::
    t :: _ => Some (IdtFrame a b c d e f g h i j k l m n o p q r s t)
  | _ => None
  end.

(** The words of the stub, read as the structure of the header, are the
    registers they are named after; read as the structure that the dispatcher
    itself declares, [rbp] and [rsi] are exchanged. *)
Theorem trap_frame_fields n error pc c :
  idt_frame_of (trap_words n error pc c) =
    Some (IdtFrame (gpr c R15) (gpr c R14) (gpr c R13) (gpr c R12) (gpr c R11) (gpr c R10)
      (gpr c R9) (gpr c R8) (gpr c RSI) (gpr c RDI) (gpr c RBP) (gpr c RDX) (gpr c RCX)
      (gpr c RBX) (gpr c RAX) n error pc (cseg c) (flags c)) ∧
  ∃ tf, trap_frame_of (trap_words n error pc c) = Some tf ∧
    tf_trap_no tf = n ∧ tf_error_code tf = error ∧ tf_rip tf = pc ∧ tf_rsp tf = gpr c RSP ∧
    tf_rdi tf = gpr c RDI ∧ tf_rsi tf = gpr c RBP ∧ tf_rbp tf = gpr c RSI.
Proof. split; [reflexivity|]. eexists. split; [reflexivity|]. by repeat split. Qed.

(** ** Stub and dispatcher together *)

Section Dispatch.
Context {W : Type} `{!Ports W, !Cpu W}.
Context (env : cpu_env (kstate W)).

(** [x86_64_trap_dispatch] compiled: entered with an aligned stack and the
    address of a frame, it does what its model does, by the conventions, and
    leaves the frame as it was (it only reads the vector in it). *)
Class CompiledDispatch (hi : Z) : Prop := {
  dispatch_resumes : ∀ c w ws tf w', words_from (gpr c RDI) c ws → trap_frame_of ws = Some tf →
    (gpr c RSP + 8) mod 16 = 0 → x86_64_trap_dispatch (tf_trap_no tf) w = Resumes w' →
    ∃ c', callee env Call_trap_dispatch c w = Some (c', w') ∧ abi_return hi 176 c c' ∧
      words_from (gpr c RDI) c' ws;
  dispatch_halts : ∀ c w ws tf w', words_from (gpr c RDI) c ws → trap_frame_of ws = Some tf →
    (gpr c RSP + 8) mod 16 = 0 → x86_64_trap_dispatch (tf_trap_no tf) w = Halts w' →
    callee env Call_trap_dispatch c w = None;
}.

Lemma exception_run hi `{!CompiledDispatch hi} n error pc lo c w :
  0 ≤ n < 32 → error_fits n error → stack_room lo c →
  if n =? 3 then
    ∃ c', take_interrupt env (L_isr_stub n) error pc c w = Some (Iret pc, c', w) ∧ resumed hi c c'
  else take_interrupt env (L_isr_stub n) error pc c w = None.
Proof.
  intros Hn He Hr. destruct (isr_stub_run env n error pc lo hi c w Hn He Hr) as (c1 & Hframe & Hal & Hnone & Hsome).
  destruct (trap_frame_fields n (default 0 error) pc c) as (_ & tf & Htf & Hno & _).
  destruct (x86_64_trap_dispatch n w) as [w'|w'] eqn:E; rewrite <-Hno in E.
  - destruct (dispatch_resumes _ _ _ _ _ Hframe Htf Hal E) as (c2 & Hc & Habi & Hkept).
    destruct (Hsome _ _ _ _ _ _ Hc Habi Hkept) as (c' & Hrun & Hres). rewrite Hno in E.
    unfold x86_64_trap_dispatch in E. rewrite (proj2 (Z.leb_gt 32 n)) in E by lia. cbn [andb] in E.
    destruct (n =? 3); [|done]. injection E as <-. by exists c'.
  - pose proof (dispatch_halts _ _ _ _ _ Hframe Htf Hal E) as Hc. rewrite Hno in E.
    unfold x86_64_trap_dispatch in E. rewrite (proj2 (Z.leb_gt 32 n)) in E by lia. cbn [andb] in E.
    destruct (n =? 3); [done|]. by apply Hnone.
Qed.

(** C26. The processor's exceptions in this kernel. The table of
    [x86_64_idt_init] sends the page fault (14) to its stub and leaves every
    other vector below 32 without a present gate: the breakpoint, which the
    dispatcher means to survive, does not get to it. What the stubs do when they
    are reached through a gate, in kernel mode, with 184 bytes of stack mapped
    below the aligned pointer, and with the dispatcher compiled by the calling
    conventions: vector 3 resumes what was running, with all registers, flags
    and its stack unchanged, and the kernel's state unchanged; every other
    vector below 32, the page fault with it, never returns. *)
Theorem exception_taken hi `{!CompiledDispatch hi} idt_address isr_stub w0 n error pc lo c w :
  (∀ i, is_u64 (isr_stub i)) → 0 ≤ n < 32 → error_fits n error → stack_room lo c →
  (∃ k, x86_64_idt_init idt_address isr_stub (kstate0 w0) = Some k ∧
     handler_of (idt k) n = if n =? 14 then Some (isr_stub 14) else None) ∧
  if n =? 3 then
    ∃ c', take_interrupt env (L_isr_stub n) error pc c w = Some (Iret pc, c', w) ∧ resumed hi c c'
  else take_interrupt env (L_isr_stub n) error pc c w = None.
Proof.
  intros Hs Hn He Hr. split; [|by apply (exception_run hi _ _ _ lo)].
  destruct (idt_init_handlers idt_address isr_stub w0 Hs) as (k & Hk & Hh). exists k. auto.
Qed.
End Dispatch.

(** ** The system call stub *)

Definition poke (a v : Z) (c : cpu_state) : cpu_state :=
  CpuState (gpr c) (flags c) (cseg c) (sseg c) (<[a := v]> (words_at c)).
Definition mapped (lo hi : Z) (c : cpu_state) : Prop :=
  ∀ k, lo ≤ 8 * k < hi → is_Some (words_at c !! (8 * k)).

(** The frame's address while the system call stub runs. *)
Definition frame_base (c : cpu_state) : Z := aligned_sp c - 104.

Definition syscall_words (c : cpu_state) : list Z :=
  [gpr c RAX; gpr c RDI; gpr c RSI; gpr c RDX; gpr c R10; gpr c R8; gpr c R9].
Definition interrupted_words (pc : Z) (c : cpu_state) : list Z :=
  [pc; cseg c; flags c; gpr c RSP; sseg c].

Lemma gpr_poke a v c : gpr (poke a v c) = gpr c.
Proof. done. Qed.

Lemma words_poke a v c : words_at (poke a v c) = <[a := v]> (words_at c).
Proof. done. Qed.

Lemma gpr_set_flags f c : gpr (set_flags f c) = gpr c.
Proof. done. Qed.

Lemma words_set_flags f c : words_at (set_flags f c) = words_at c.
Proof. done. Qed.

Lemma mapped_poke lo hi a v c : mapped lo hi c → mapped lo hi (poke a v c).
Proof.
  intros H k Hk. unfold poke. cbn [words_at]. destruct (decide (a = 8 * k)) as [->|Hne].
  - by rewrite lookup_insert_eq.
  - rewrite lookup_insert_ne by done. by apply H.
Qed.

Section Int80.
Context {W : Type} (env : cpu_env W).
#[local] Abbreviation exec := (run_list env).

Lemma write_mapped lo hi a v c : mapped lo hi c → lo ≤ a < hi → (∃ k, a = 8 * k) →
  write_word a v c = Some (poke a v c).
Proof.
  intros Hm Ha [k ->]. unfold write_word. destruct (Hm k Ha) as [x ->]. done.
Qed.

Lemma exec_movq_to jump lo hi b v r off k c w : mapped lo hi c → gpr c RSP = b → gpr c r = v →
  0 ≤ lo → hi < 2 ^ 64 → lo ≤ b + off < hi → (∃ k, b + off = 8 * k) →
  exec jump (Movq_to r off RSP :: k) c w = exec jump k (poke (b + off) v c) w.
Proof.
  intros Hm <- <- H0 H1 Ha Hk. cbn [run_list step]. rewrite u64_small by words.
  by rewrite (write_mapped lo hi).
Qed.

Lemma exec_movq_imm jump lo hi b v off k c w : mapped lo hi c → gpr c RSP = b →
  0 ≤ v < 2 ^ 64 → 0 ≤ lo → hi < 2 ^ 64 → lo ≤ b + off < hi → (∃ k, b + off = 8 * k) →
  exec jump (Movq_imm v off RSP :: k) c w = exec jump k (poke (b + off) v c) w.
Proof.
  intros Hm <- Hv H0 H1 Ha Hk. cbn [run_list step]. rewrite (u64_small v), u64_small by words.
  by rewrite (write_mapped lo hi).
Qed.

Lemma exec_cld jump k c w : exec jump (Cld :: k) c w =
  exec jump k (set_flags (Z.ldiff (flags c) DIRECTION_FLAG) c) w.
Proof. reflexivity. Qed.

Lemma exec_subq jump v r k c w : exec jump (Subq v r :: k) c w =
  exec jump k (set_flags (alu_flags env (flags c) (gpr c r) (- v)) (set_reg r (u64 (gpr c r - v)) c)) w.
Proof. reflexivity. Qed.

(** The processor when the frame has been reserved, and when it is filled. *)
Definition reserved (pc : Z) (c : cpu_state) : cpu_state :=
  let d := pushes (hardware_frame pc None c) (at_gate c) in
  let d := set_flags (Z.ldiff (flags d) DIRECTION_FLAG) d in
  set_flags (alu_flags env (flags d) (gpr d RSP) (- 64)) (set_reg RSP (frame_base c) d).
Definition framed (pc : Z) (c : cpu_state) : cpu_state :=
  let b := frame_base c in
  poke (b + 56) 0 (poke (b + 48) (gpr c R9) (poke (b + 40) (gpr c R8) (poke (b + 32) (gpr c R10)
    (poke (b + 24) (gpr c RDX) (poke (b + 16) (gpr c RSI) (poke (b + 8) (gpr c RDI)
      (poke (b + 0) (gpr c RAX) (reserved pc c)))))))).

Lemma reserved_rsp pc c : gpr (reserved pc c) RSP = frame_base c.
Proof. unfold reserved. cbv zeta. rewrite gpr_set_flags. apply gpr_set_same. Qed.

Lemma reserved_gpr pc c r : r ≠ RSP → gpr (reserved pc c) r = gpr c r.
Proof.
  intros H. unfold reserved. cbv zeta.
  rewrite gpr_set_flags, gpr_set_other, gpr_set_flags, pushes_gpr by exact H. by apply at_gate_gpr.
Qed.

Lemma reserved_words pc c :
  words_at (reserved pc c) = words_at (pushes (hardware_frame pc None c) (at_gate c)).
Proof. unfold reserved. cbv zeta. by rewrite words_set_flags, words_set_reg, words_set_flags. Qed.

Lemma framed_gpr pc c : gpr (framed pc c) = gpr (reserved pc c).
Proof. unfold framed. cbv zeta. by rewrite !gpr_poke. Qed.

Lemma framed_stacked pc c :
  stacked (framed pc c) (syscall_words c ++ [0] ++ interrupted_words pc c).
Proof.
  assert (stacked (pushes (hardware_frame pc None c) (at_gate c)) (interrupted_words pc c)) as Hs.
  { change (interrupted_words pc c) with (reverse (hardware_frame pc None c) ++ []).
    apply stacked_pushes, stacked_nil. }
  intros i x Hi. rewrite framed_gpr, reserved_rsp. unfold framed. cbv zeta.
  rewrite !words_poke, reserved_words. destruct (decide (i < 8)%nat) as [H8|H8].
  - do 8 (destruct i as [|i]; [injection Hi as <-;
      repeat first [rewrite lookup_insert_eq; reflexivity | rewrite lookup_insert_ne by lia]|]).
    lia.
  - replace i with (8 + (i - 8))%nat in Hi by lia.
    specialize (Hs (i - 8)%nat x Hi). rewrite pushes_rsp, at_gate_rsp in Hs.
    unfold frame_base. rewrite !lookup_insert_ne by lia. rewrite <-Hs.
    f_equal. unfold zlen, hardware_frame. cbn [length app option_list option_rect]. lia.
Qed.

Definition after_frame : list instr :=
  [Movq RSP RDI; Call Call_syscall_dispatch_frame; Movq_from 56 RSP RAX; Addq 64 RSP; Iretq].

Lemma hardware_room lo pc c : stack_room lo c →
  room lo (pushes (hardware_frame pc None c) (at_gate c)) ∧
  gpr (pushes (hardware_frame pc None c) (at_gate c)) RSP = aligned_sp c - 40.
Proof.
  intros [Hr Hl]. rewrite pushes_rsp, at_gate_rsp.
  change (zlen (hardware_frame pc None c)) with 5. split; [|lia].
  apply room_pushes; [done|]. change (zlen (hardware_frame pc None c)) with 5.
  rewrite at_gate_rsp. lia.
Qed.

Lemma frame_aligned lo (pc : Z) c i : stack_room lo c → ∃ j, frame_base c + 8 * i = 8 * j.
Proof.
  intros Hr. destruct (hardware_room lo pc c Hr) as [[_ _ [k Hk] _] Hsp].
  exists (k - 8 + i). unfold frame_base. lia.
Qed.

(** One of the stub's stores. *)
Lemma frame_store jump lo pc c d r i off k w : stack_room lo c →
  mapped lo (aligned_sp c - 40) d → gpr d = gpr (reserved pc c) → r ≠ RSP → off = 8 * i → 0 ≤ i < 8 →
  exec jump (Movq_to r off RSP :: k) d w = exec jump k (poke (frame_base c + off) (gpr c r) d) w.
Proof.
  intros Hr Hm Hd Hne -> Hi. destruct (aligned_sp_bounds lo c Hr) as (B1 & B2 & _).
  pose proof Hr as [[[H0 _] _ _ _] Hl].
  apply (exec_movq_to _ lo (aligned_sp c - 40)); try done.
  - rewrite Hd. apply reserved_rsp.
  - rewrite Hd. by apply reserved_gpr.
  - lia.
  - unfold frame_base. lia.
  - by eapply (frame_aligned lo pc).
Qed.

Lemma reserved_mapped lo pc c : stack_room lo c → mapped lo (aligned_sp c - 40) (reserved pc c).
Proof.
  intros Hr j Hj. destruct (hardware_room lo pc c Hr) as [[_ _ _ Hm] Hsp].
  rewrite reserved_words. apply Hm. by rewrite Hsp.
Qed.

Lemma framed_mapped lo pc c : stack_room lo c → mapped lo (aligned_sp c - 40) (framed pc c).
Proof. intros Hr. unfold framed. cbv zeta. do 8 apply mapped_poke. by apply reserved_mapped. Qed.

(** Earlier stores do not unmap anything. *)
Ltac by_mapped H :=
  repeat match goal with |- mapped _ _ (poke _ _ _) => apply mapped_poke end; exact H.

Lemma int80_entry lo pc c w : stack_room lo c →
  take_interrupt env L_int80_stub None pc c w =
    exec (run env 1) after_frame (framed pc c) w.
Proof.
  intros Hr. destruct (aligned_sp_bounds lo c Hr) as (B1 & B2 & _).
  destruct (hardware_room lo pc c Hr) as [[[H0 _] _ _ _] Hsp].
  unfold take_interrupt. rewrite (deliver_run lo) by done. cbn [mbind option_bind].
  rewrite (run_code _ 1 L_int80_stub x86_64_syscall_int80_stub) by done.
  unfold x86_64_syscall_int80_stub. rewrite exec_cld, exec_subq.
  rewrite !gpr_set_flags, Hsp.
  replace (u64 (aligned_sp c - 40 - 64)) with (frame_base c)
    by (unfold frame_base; rewrite u64_small by words; lia).
  rewrite <-Hsp at 1. change (exec ?j ?l (set_flags _ _) w) with (exec j l (reserved pc c) w).
  pose proof (reserved_mapped lo pc c Hr) as Hmap.
  rewrite (frame_store _ lo pc c _ RAX 0), (frame_store _ lo pc c _ RDI 1),
    (frame_store _ lo pc c _ RSI 2), (frame_store _ lo pc c _ RDX 3),
    (frame_store _ lo pc c _ R10 4), (frame_store _ lo pc c _ R8 5),
    (frame_store _ lo pc c _ R9 6);
    try exact Hr; try lia; try (rewrite ?gpr_poke; reflexivity); try discriminate;
    try (by_mapped Hmap).
  rewrite (exec_movq_imm _ lo (aligned_sp c - 40) (frame_base c));
    [reflexivity|by_mapped Hmap|rewrite !gpr_poke; apply reserved_rsp
     |lia|lia|lia|unfold frame_base; destruct Hr; lia|].
  by apply (frame_aligned lo pc c 7).
Qed.

(** The processor on entry to [mcsos_syscall_dispatch_frame]. *)
Definition int80_called (pc : Z) (c : cpu_state) : cpu_state :=
  pushed (return_site env) (set_reg RDI (frame_base c) (framed pc c)).

Lemma int80_called_rsp pc c : gpr (int80_called pc c) RSP = frame_base c - 8.
Proof.
  unfold int80_called. rewrite pushed_rsp, gpr_set_other, framed_gpr, reserved_rsp by discriminate.
  done.
Qed.

Lemma int80_called_rdi pc c : gpr (int80_called pc c) RDI = frame_base c.
Proof. unfold int80_called. rewrite pushed_gpr by discriminate. apply gpr_set_same. Qed.

Lemma int80_called_gpr pc c r : r ≠ RSP → r ≠ RDI → gpr (int80_called pc c) r = gpr c r.
Proof.
  intros H1 H2. unfold int80_called.
  rewrite pushed_gpr, gpr_set_other, framed_gpr by done. by apply reserved_gpr.
Qed.

Lemma int80_called_words pc c a : frame_base c ≤ a →
  words_at (int80_called pc c) !! a = words_at (framed pc c) !! a.
Proof.
  intros Ha. unfold int80_called. rewrite pushed_above, words_set_reg; [reflexivity|].
  rewrite gpr_set_other, framed_gpr, reserved_rsp by discriminate. exact Ha.
Qed.

Lemma framed_words pc c : words_from (frame_base c) (framed pc c)
  (syscall_words c ++ [0] ++ interrupted_words pc c).
Proof.
  intros i x Hi. rewrite <-(reserved_rsp pc c), <-(framed_gpr pc c). by apply framed_stacked.
Qed.

Lemma framed_above pc c a : aligned_sp c ≤ a → words_at (framed pc c) !! a = words_at c !! a.
Proof.
  intros Ha. unfold framed. cbv zeta. rewrite !words_poke, reserved_words. unfold frame_base.
  rewrite !lookup_insert_ne by lia. by rewrite pushes_above by (rewrite at_gate_rsp; lia).
Qed.

Lemma int80_call lo pc c w : stack_room lo c →
  take_interrupt env L_int80_stub None pc c w =
    '(c2, w2) ← callee env Call_syscall_dispatch_frame (int80_called pc c) w;
    exec (run env 1) [Movq_from 56 RSP RAX; Addq 64 RSP; Iretq] c2 w2.
Proof.
  intros Hr. rewrite (int80_entry lo) by done. unfold after_frame.
  rewrite exec_movq, framed_gpr, reserved_rsp.
  destruct (hardware_room lo pc c Hr) as [[[H0 _] _ [k Hk] _] Hsp].
  destruct (aligned_sp_bounds lo c Hr) as (B1 & B2 & _). pose proof Hr as [_ Hl].
  assert (gpr (set_reg RDI (frame_base c) (framed pc c)) RSP = frame_base c) as Hrsp.
  { rewrite gpr_set_other, framed_gpr by discriminate. apply reserved_rsp. }
  rewrite (exec_call _ _ lo).
  - reflexivity.
  - split; rewrite ?Hrsp; unfold frame_base; [lia|lia|exists (k - 8); lia|].
    intros j Hj. rewrite words_set_reg. apply (framed_mapped lo); [done|]. lia.
  - rewrite Hrsp. unfold frame_base. lia.
Qed.
End Int80.

(** What the compiled [mcsos_syscall_dispatch_frame] leaves: it stores the
    result in the frame of eight words, whose other words are its own to change,
    and obeys the conventions. *)
Record syscall_return (hi ret : Z) (c c' : cpu_state) : Prop := {
  sr_abi : abi_return hi 64 c c';
  sr_result : words_at c' !! (gpr c RDI + 56) = Some ret;
}.

(** What a system call leaves to its caller. *)
Record syscall_resumed (hi ret : Z) (c c' : cpu_state) : Prop := {
  sy_result : gpr c' RAX = ret;
  sy_regs : ∀ r, r ∈ RSP :: callee_saved → gpr c' r = gpr c r;
  sy_flags : flags c' = flags c;
  sy_segments : cseg c' = cseg c ∧ sseg c' = sseg c;
  sy_stack : ∀ a, gpr c RSP ≤ a < hi → words_at c' !! a = words_at c !! a;
}.

Section Int80Return.
Context {W : Type} (env : cpu_env W).
#[local] Abbreviation exec := (run_list env).

Lemma exec_movq_from jump off r k c w v : read_word (u64 (gpr c RSP + off)) c = Some v →
  exec jump (Movq_from off RSP r :: k) c w = exec jump k (set_reg r v c) w.
Proof. intros H. cbn [run_list step]. by rewrite H. Qed.

(** The hardware's frame when the dispatcher has returned. *)
Lemma int80_left hi ret pc c c2 : aligned_sp c ≤ hi → syscall_return hi ret (int80_called env pc c) c2 →
  words_from (aligned_sp c - 40) c2 (interrupted_words pc c).
Proof.
  intros Hhi [[_ _ _ Hstk] _] i x Hi. rewrite int80_called_rsp, int80_called_rdi in Hstk. unfold frame_base in Hstk.
  assert (i < 5)%nat as Hi5 by (by apply lookup_lt_Some in Hi).
  rewrite Hstk by lia. rewrite int80_called_words by (unfold frame_base; lia).
  rewrite <-(framed_words env pc c (8 + i)%nat x); [f_equal; unfold frame_base; lia|exact Hi].
Qed.

Lemma not_stub_reg r : r ∈ callee_saved → r ≠ RSP ∧ r ≠ RAX ∧ r ≠ RDI.
Proof.
  intros Hr. unfold callee_saved in Hr.
  repeat (apply elem_of_cons in Hr as [->|Hr]; [done|]). by apply elem_of_nil in Hr.
Qed.

Lemma int80_return jump lo hi ret pc c c2 w : stack_room lo c → aligned_sp c ≤ hi →
  syscall_return hi ret (int80_called env pc c) c2 →
  ∃ c', exec jump [Movq_from 56 RSP RAX; Addq 64 RSP; Iretq] c2 w = Some (Iret pc, c', w) ∧
    syscall_resumed hi ret c c'.
Proof.
  intros Hr Hhi Hret. destruct (aligned_sp_bounds lo c Hr) as (B1 & B2 & B3).
  pose proof (int80_left hi ret pc c c2 Hhi Hret) as Hs. destruct Hret as [[Hrsp Hsaved _ Hstk] Hres].
  rewrite int80_called_rsp in Hrsp, Hstk. rewrite int80_called_rdi in Hres, Hstk. unfold frame_base in *.
  rewrite (exec_movq_from _ _ _ _ _ _ ret).
  2:{ unfold read_word. rewrite u64_small by words. rewrite <-Hres. f_equal. lia. }
  rewrite exec_addq, gpr_set_other, Hrsp by discriminate. rewrite u64_small by words.
  set (c3 := set_flags _ _).
  assert (gpr c3 RSP = aligned_sp c - 40) as Hr3.
  { subst c3. rewrite gpr_set_flags, gpr_set_same. lia. }
  assert (∀ r, r ≠ RSP → gpr c3 r = gpr (set_reg RAX ret c2) r) as Hg3.
  { intros r Hne. subst c3. rewrite gpr_set_flags. by apply gpr_set_other. }
  assert (stacked c3 [pc; cseg c; flags c; gpr c RSP; sseg c]) as Hs3.
  { intros i x Hi. rewrite Hr3. by apply Hs. }
  destruct (iretq_run c3 _ _ _ _ _ [] Hs3) as (c5 & Hir & Hsp & Hg5 & Hf & Hc & Hss & Hw5); [lia|lia|].
  exists c5. split; [cbn [run_list]; by rewrite Hir|]. split; try done.
  - rewrite Hg5, Hg3 by discriminate. apply gpr_set_same.
  - intros r [->|Hr']%elem_of_cons; [done|]. destruct (not_stub_reg r Hr') as (N1 & N2 & N3).
    rewrite Hg5, Hg3, gpr_set_other, Hsaved by done. by apply int80_called_gpr.
  - intros a Ha. rewrite Hw5. change (words_at c3) with (words_at c2). rewrite Hstk by lia.
    rewrite int80_called_words, framed_above by (unfold frame_base; lia). done.
Qed.

(** What the system call stub does around the dispatcher, which it enters in
    [c1]: with a stack that is 8 bytes off the alignment of the conventions. *)
Definition int80_around (pc hi : Z) (c : cpu_state) (w : W) (c1 : cpu_state) : Prop :=
  words_from (gpr c1 RDI) c1 (syscall_words c ++ [0]) ∧ (gpr c1 RSP + 8) mod 16 = 8 ∧
  (callee env Call_syscall_dispatch_frame c1 w = None → take_interrupt env L_int80_stub None pc c w = None) ∧
  (∀ c2 w2 ret, callee env Call_syscall_dispatch_frame c1 w = Some (c2, w2) → syscall_return hi ret c1 c2 →
   ∃ c', take_interrupt env L_int80_stub None pc c w = Some (Iret pc, c', w2) ∧ syscall_resumed hi ret c c').

Lemma int80_run pc lo hi c w : stack_room lo c → aligned_sp c ≤ hi → ∃ c1, int80_around pc hi c w c1.
Proof.
  intros Hr Hhi. exists (int80_called env pc c). unfold int80_around. split; [|split; [|split]].
  - rewrite int80_called_rdi. intros i x Hi. rewrite int80_called_words by lia. apply framed_words.
    change (syscall_words c ++ [0] ++ interrupted_words pc c) with
      ((syscall_words c ++ [0]) ++ interrupted_words pc c). by apply lookup_app_l_Some.
  - rewrite int80_called_rsp. unfold frame_base, aligned_sp.
    replace (gpr c RSP - gpr c RSP mod 16 - 104 - 8 + 8) with (8 + (gpr c RSP / 16 - 7) * 16).
    + by rewrite Z.mod_add.
    + pose proof (Z.div_mod (gpr c RSP) 16). lia.
  - intros Hn. rewrite (int80_call _ lo) by done. by rewrite Hn.
  - intros c2 w2 ret Hc Hret. rewrite (int80_call _ lo) by done. rewrite Hc. cbn [mbind option_bind].
    by apply (int80_return _ lo).
Qed.
End Int80Return.

Section Syscalls.
Context {C : Type} (s : syscall_state C) (env : cpu_env C).

(** [mcsos_syscall_dispatch_frame] compiled, entered with a frame's address
    and a stack that is [off] bytes off the alignment to 16: System V lets the
    compiler count on 0, the stub needs 8. *)
Class CompiledSyscall (hi off : Z) : Prop := {
  syscall_returns : ∀ c w nr a0 a1 a2 a3 a4 a5 r0 f w',
    words_from (gpr c RDI) c [nr; a0; a1; a2; a3; a4; a5; r0] → (gpr c RSP + 8) mod 16 = off →
    mcsos_syscall_dispatch_frame s (Ref (Frame nr a0 a1 a2 a3 a4 a5 r0)) w = Some (Ref f, w') →
    ∃ c', callee env Call_syscall_dispatch_frame c w = Some (c', w') ∧
      syscall_return hi (u64 (f_ret f)) c c';
}.

Lemma int80_syscall_run hi (Hs : CompiledSyscall hi 8) pc lo (c : cpu_state) (w w' : C) (r : Z) :
  stack_room lo c → aligned_sp c ≤ hi →
  mcsos_syscall_dispatch s (gpr c RAX) (gpr c RDI) (gpr c RSI) (gpr c RDX) (gpr c R10)
    (gpr c R8) (gpr c R9) w = Some (w', r) →
  ∃ c', take_interrupt env L_int80_stub None pc c w = Some (Iret pc, c', w') ∧ syscall_resumed hi (u64 r) c c'.
Proof.
  intros Hr Hhi Hd. destruct (int80_run env pc lo hi c w Hr Hhi) as (c1 & Hframe & Hal & _ & Hsome).
  destruct (syscall_returns c1 w (gpr c RAX) (gpr c RDI) (gpr c RSI) (gpr c RDX) (gpr c R10) (gpr c R8) (gpr c R9) 0
    (Frame (gpr c RAX) (gpr c RDI) (gpr c RSI) (gpr c RDX) (gpr c R10) (gpr c R8) (gpr c R9) r) w'
    Hframe Hal) as (c2 & Hc2 & Hret).
  - unfold mcsos_syscall_dispatch_frame. cbn [f_nr f_arg0 f_arg1 f_arg2 f_arg3 f_arg4 f_arg5].
    by rewrite Hd.
  - by apply (Hsome c2).
Qed.

(** C25. A system call through [int 0x80], from a gate that leads to the stub
    (no code of the repository installs it; the table has 48 entries), taken in
    kernel mode with 184 bytes of stack mapped below the aligned pointer, on a
    stack that ends at [hi], not below that pointer. The stub calls the dispatcher with a frame of the number from [rax], the
    arguments from [rdi], [rsi], [rdx], [r10], [r8] and [r9] and a 0, and with
    a stack that is 8 bytes off the alignment of the System V conventions. If
    that call returns and otherwise obeys the conventions, the caller goes on
    at the next instruction with the word the dispatcher stored in the last
    field in [rax], and with the stack pointer, the registers that a function
    keeps, the flags, the segments and its stack as they were; if it does not
    return, nor does the stub. So if the dispatcher is compiled to code that
    works on such a stack too, a system call gives the caller the dispatcher's
    result. *)
Theorem int80_syscall (hi pc lo : Z) (c : cpu_state) (w : C) : stack_room lo c → aligned_sp c ≤ hi →
  (∃ c1, words_from (gpr c1 RDI) c1 (syscall_words c ++ [0]) ∧ (gpr c1 RSP + 8) mod 16 = 8 ∧
    (callee env Call_syscall_dispatch_frame c1 w = None → take_interrupt env L_int80_stub None pc c w = None) ∧
    (∀ c2 w2 ret, callee env Call_syscall_dispatch_frame c1 w = Some (c2, w2) → syscall_return hi ret c1 c2 →
     ∃ c', take_interrupt env L_int80_stub None pc c w = Some (Iret pc, c', w2) ∧ syscall_resumed hi ret c c')) ∧
  (∀ w' r, CompiledSyscall hi 8 →
    mcsos_syscall_dispatch s (gpr c RAX) (gpr c RDI) (gpr c RSI) (gpr c RDX) (gpr c R10)
      (gpr c R8) (gpr c R9) w = Some (w', r) →
    ∃ c', take_interrupt env L_int80_stub None pc c w = Some (Iret pc, c', w') ∧ syscall_resumed hi (u64 r) c c').
Proof.
  intros Hr Hhi. split; [by apply (int80_run env pc lo)|]. intros w' r Hs Hd. by apply (int80_syscall_run hi Hs pc lo).
Qed.

(** The stub calls the dispatcher with a stack that is 8 bytes off the
    alignment that the calling conventions promise to a function. *)
Theorem int80_call_misaligned (pc lo : Z) (c : cpu_state) (w : C) : stack_room lo c →
  ∃ c1, words_from (gpr c1 RDI) c1 (syscall_words c ++ [0]) ∧ (gpr c1 RSP + 8) mod 16 = 8 ∧
    (callee env Call_syscall_dispatch_frame c1 w = None →
     take_interrupt env L_int80_stub None pc c w = None).
Proof.
  intros Hr. destruct (int80_run env pc lo (aligned_sp c) c w Hr) as (c1 & H1 & H2 & H3 & _); [done|]. by exists c1.
Qed.
End Syscalls.

(** [m10_int80_ping_kernel_only]: with 0 in [rax] the stub returns the value
    that [kernel_main] compares with. *)
Theorem int80_ping {C} (s : syscall_state C) (env : cpu_env C) hi (Hs : CompiledSyscall s env hi 8) pc lo c w :
  stack_room lo c → aligned_sp c ≤ hi → gpr c RAX = MCSOS_SYS_PING →
  ∃ c', take_interrupt env L_int80_stub None pc c w = Some (Iret pc, c', w) ∧ gpr c' RAX = 0x2605020A.
Proof.
  intros Hr Hhi Ha.
  destruct (int80_syscall_run s env hi Hs pc lo c w w 0x2605020A Hr Hhi) as (c' & Hrun & Hres); [by rewrite Ha|].
  exists c'. split; [done|]. rewrite (sy_result _ _ _ _ Hres). by rewrite u64_small by words.
Qed.

(** ** [cpu.S] *)

(** [cpu_read_rflags] returns the flags and keeps the stack. *)
Theorem cpu_read_rflags_correct {W} (env : cpu_env W) lo c w pc ws :
  room lo c → lo + 8 ≤ gpr c RSP → gpr c RSP + 8 < 2 ^ 64 → stacked c (pc :: ws) →
  ∃ c', run env 1 L_read_rflags c w = Some (Returned pc, c', w) ∧
    gpr c' RAX = flags c ∧ gpr c' RSP = gpr c RSP + 8 ∧ flags c' = flags c ∧
    ∀ r, r ≠ RAX → r ≠ RSP → gpr c' r = gpr c r.
Proof.
  intros Hr Hl Hh Hs. pose proof (room_low _ _ Hr) as H0.
  rewrite (run_code _ 0 L_read_rflags cpu_read_rflags) by done.
  unfold cpu_read_rflags. cbn [run_list step]. rewrite (push_run lo) by done.
  cbn [mbind option_bind]. pose proof (stacked_pushed (flags c) c _ Hs) as Hs1.
  rewrite (pop_run _ _ _ Hs1) by (rewrite pushed_rsp; lia). cbn [mbind option_bind].
  set (c2 := set_reg RAX _ _).
  assert (gpr c2 RSP = gpr c RSP) as Hr2.
  { subst c2. rewrite gpr_set_other, gpr_set_same, pushed_rsp by discriminate. lia. }
  assert (stacked c2 (pc :: ws)) as Hs2.
  { eapply (stacked_drop (pushed (flags c) c)); [exact Hs1|reflexivity|]. rewrite pushed_rsp. lia. }
  rewrite (pop_run _ _ _ Hs2) by lia. cbn [mbind option_bind].
  eexists. split; [reflexivity|]. split; [|split; [|split; [reflexivity|]]].
  - rewrite gpr_set_other by discriminate. apply gpr_set_same.
  - rewrite gpr_set_same, Hr2. done.
  - intros r N1 N2. rewrite gpr_set_other by done. subst c2.
    rewrite !gpr_set_other by done. by apply pushed_gpr.
Qed.

(** [cpu_halt_forever] does not return, however long it runs. *)
Theorem cpu_halt_forever_runs {W} (env : cpu_env W) jumps c w :
  run env jumps L_halt_forever c w = None.
Proof. induction jumps as [|n IH]; [done|]. exact IH. Qed.

(** ** Concrete runs *)

(** A function that returns at once and leaves zeros in the registers it need
    not keep. *)
Definition ret_from (c : cpu_state) : cpu_state :=
  CpuState (λ r, if decide (r = RSP) then gpr c RSP + 8
                 else if decide (r ∈ callee_saved) then gpr c r else 0)
    (flags c) (cseg c) (sseg c) (words_at c).

Lemma ret_from_rsp c : gpr (ret_from c) RSP = gpr c RSP + 8.
Proof. done. Qed.

Lemma ret_from_saved c r : r ∈ callee_saved → gpr (ret_from c) r = gpr c r.
Proof.
  intros Hr. unfold ret_from. cbn [gpr]. rewrite decide_False.
  - by rewrite decide_True.
  - intros ->. revert Hr. apply (bool_decide_eq_false_1 _). vm_compute. reflexivity.
Qed.

Definition demo_trap {W} `{!Ports W, !Cpu W} (f : cfun) (c : cpu_state) (w : kstate W) :
    option (cpu_state * kstate W) :=
  n ← read_word (gpr c RDI + 120) c;
  match x86_64_trap_dispatch n w with
  | Resumes w' => Some (ret_from c, w')
  | Halts _ => None
  end.

Lemma trap_frame_number ws tf : trap_frame_of ws = Some tf → ws !! 15%nat = Some (tf_trap_no tf).
Proof. intros H. do 23 (destruct ws as [|? ws]; try discriminate). by injection H as <-. Qed.

(** The bytes of the table run into an undefined instruction. *)
Definition demo_env {W} (f : cfun → cpu_state → W → option (cpu_state * W)) : cpu_env W :=
  CpuEnv f (λ f _ _, f) 0x2000 (λ _ _, None).

#[export] Instance demo_trap_compiled {W} `{!Ports W, !Cpu W} hi : CompiledDispatch (demo_env demo_trap) hi.
Proof.
  assert (∀ c ws tf, words_from (gpr c RDI) c ws → trap_frame_of ws = Some tf →
    read_word (gpr c RDI + 120) c = Some (tf_trap_no tf)) as Hread.
  { intros c ws tf Hws Htf. apply (Hws 15%nat). by apply trap_frame_number. }
  split; intros c w ws tf w' Hws Htf _ Hd; cbn [callee demo_env]; unfold demo_trap; rewrite (Hread c ws tf) by done;
    cbn [mbind option_bind]; rewrite Hd; [|done].
  exists (ret_from c). split; [done|]. split; [|done]. split; try done. apply ret_from_saved.
Qed.

Definition demo_syscall {C} (s : syscall_state C) (f : cfun) (c : cpu_state) (w : C) :
    option (cpu_state * C) :=
  let word i := read_word (gpr c RDI + 8 * i) c in
  nr ← word 0; a0 ← word 1; a1 ← word 2; a2 ← word 3; a3 ← word 4; a4 ← word 5; a5 ← word 6;
  r0 ← word 7;
  '(fr, w') ← mcsos_syscall_dispatch_frame s (Ref (Frame nr a0 a1 a2 a3 a4 a5 r0)) w;
  match fr with
  | Ref fr => Some (poke (gpr c RDI + 56) (u64 (f_ret fr)) (ret_from c), w')
  | Null => None
  end.

#[export] Instance demo_syscall_compiled {C} (s : syscall_state C) hi off :
  CompiledSyscall s (demo_env (demo_syscall s)) hi off.
Proof.
  split. intros c w nr a0 a1 a2 a3 a4 a5 r0 f w' Hws _ Hd. cbn [callee demo_env]. unfold demo_syscall, read_word.
  cbv zeta.
  rewrite (Hws 0%nat nr eq_refl : words_at c !! (gpr c RDI + 8 * 0) = Some nr).
  rewrite (Hws 1%nat a0 eq_refl : words_at c !! (gpr c RDI + 8 * 1) = Some a0).
  rewrite (Hws 2%nat a1 eq_refl : words_at c !! (gpr c RDI + 8 * 2) = Some a1).
  rewrite (Hws 3%nat a2 eq_refl : words_at c !! (gpr c RDI + 8 * 3) = Some a2).
  rewrite (Hws 4%nat a3 eq_refl : words_at c !! (gpr c RDI + 8 * 4) = Some a3).
  rewrite (Hws 5%nat a4 eq_refl : words_at c !! (gpr c RDI + 8 * 5) = Some a4).
  rewrite (Hws 6%nat a5 eq_refl : words_at c !! (gpr c RDI + 8 * 6) = Some a5).
  rewrite (Hws 7%nat r0 eq_refl : words_at c !! (gpr c RDI + 8 * 7) = Some r0).
  cbn [mbind option_bind]. rewrite Hd. cbn [mbind option_bind]. eexists. split; [done|]. split.
  - split; rewrite ?gpr_poke; [done|apply ret_from_saved|done|].
    intros a _ Ha. rewrite words_poke, lookup_insert_ne by lia. done.
  - rewrite words_poke. apply lookup_insert_eq.
Qed.

#[local] Existing Instance demo_pc_ports.
#[local] Existing Instance Trap.demo_cpu.

(** A processor with 1 KiB of stack and an odd stack pointer. *)
Definition demo_regs (r : reg) : Z :=
  match r with
  | RAX => 0 | RBX => 1 | RCX => 2 | RDX => 3 | RBP => 4 | RDI => 5 | RSI => 6 | RSP => 1030
  | R8 => 8 | R9 => 9 | R10 => 10 | R11 => 11 | R12 => 12 | R13 => 13 | R14 => 14 | R15 => 15
  end.
Definition demo_processor : cpu_state :=
  CpuState demo_regs 0x202 0x28 0x30 (list_to_map ((λ i, (8 * i, 0)) <$> seqZ 0 128)).

Lemma demo_room : stack_room 0 demo_processor.
Proof.
  split; [split|]; rewrite ?at_gate_rsp; [by vm_compute|by vm_compute|by exists 128| |by vm_compute].
  change (aligned_sp demo_processor) with 1024. intros k Hk.
  assert (forallb (λ k, bool_decide (is_Some (words_at demo_processor !! (8 * k)))) (seqZ 0 128) = true) as H
    by (vm_compute; reflexivity).
  rewrite forallb_forall in H. specialize (H k). rewrite bool_decide_eq_true in H.
  apply H, list_elem_of_In, elem_of_seqZ. lia.
Qed.

Lemma isr_stub_transparent_witness :
  let env := demo_env demo_trap in
  ∃ c1, words_from (gpr c1 RDI) c1 (trap_words 14 2 0x1000 demo_processor) ∧
    (gpr c1 RSP + 8) mod 16 = 0 ∧
    (callee env Call_trap_dispatch c1 demo_k = None →
     take_interrupt env (L_isr_stub 14) (Some 2) 0x1000 demo_processor demo_k = None) ∧
    (∀ c2 w2 t n' e' pc', callee env Call_trap_dispatch c1 demo_k = Some (c2, w2) → abi_return 1024 176 c1 c2 →
     words_from (gpr c1 RDI) c2 (trap_words n' e' pc' t) →
     ∃ c', take_interrupt env (L_isr_stub 14) (Some 2) 0x1000 demo_processor demo_k = Some (Iret pc', c', w2) ∧
       resumed_as 1024 t demo_processor c').
Proof.
  intros env. apply (isr_stub_transparent env 14 (Some 2) 0x1000 0 1024 demo_processor demo_k).
  - lia.
  - split; [intros _; apply (bool_decide_eq_true_1 _); vm_compute; reflexivity|by eexists].
  - exact demo_room.
Defined.

Lemma exception_taken_witness :
  (∃ k, x86_64_idt_init 0x5000 demo_stub (kstate0 (k_world demo_k)) = Some k ∧ handler_of (idt k) 3 = None) ∧
  ∃ c', take_interrupt (demo_env demo_trap) (L_isr_stub 3) None 0x1000 demo_processor demo_k =
    Some (Iret 0x1000, c', demo_k) ∧ resumed 1024 demo_processor c'.
Proof.
  apply (exception_taken (demo_env demo_trap) 1024 0x5000 demo_stub (k_world demo_k) 3 None 0x1000 0
    demo_processor demo_k).
  - intros n. unfold demo_stub. pose proof (u8_range n). words.
  - lia.
  - split; [by intros [? ?]|]. intros H. exfalso. revert H.
    apply (bool_decide_eq_false_1 _). vm_compute. reflexivity.
  - exact demo_room.
Defined.


Lemma int80_syscall_witness :
  ∃ c', take_interrupt (demo_env (demo_syscall (@syscall_zero unit))) L_int80_stub None 0x1000 demo_processor tt =
      Some (Iret 0x1000, c', tt) ∧ syscall_resumed 1024 (u64 0x2605020A) demo_processor c'.
Proof.
  destruct (int80_syscall (@syscall_zero unit) (demo_env (demo_syscall (@syscall_zero unit))) 1024 0x1000 0
    demo_processor tt) as [_ H]; [exact demo_room|by vm_compute|].
  apply (H tt 0x2605020A); [apply _|reflexivity].
Defined.
