(* ===== verification/Kernel.v ===== *)
(** The composition of [kernel_main] ([src/kernel/kernel.c]): the ELF planner's
    smoke test, the scheduler with its two demonstration threads, the system
    calls with the kernel's callbacks - called directly and with [int $0x80] on
    the processor of [Stubs] - and the first switch. *)
From Stdlib Require Import String.
From S2P Require Import Stubs.
From S2P Require Import Prelude Err Bytes Mem Thread Elf Syscall.

(** What [klog] was given: text, here without its final line feed, or the
    address of a buffer. *)
Inductive log_entry := KText (s : string) | KBuffer (address : Z).

(** The objects that the callbacks act on. *)
Record kworld := KWorld {
  kw_machine : machine;
  kw_log : list log_entry;
}.
Definition klog (e : log_entry) (w : kworld) : kworld := KWorld (kw_machine w) (kw_log w ++ [e]).

(** A call whose result code is dropped. *)
Definition dropping {A} (f : M machine A) (w : kworld) : option kworld :=
  '(m, _) ← f (kw_machine w); Some (KWorld m (kw_log w)).

Section Kernel.
(** The addresses that the linker chooses. *)
Context (boot_name trampoline resume name_a name_b demo_thread_a demo_thread_b : Z).
Context (g_boot_thread g_thread_a g_thread_b g_stack_a g_stack_b : Z).

(** The processor that runs the kernel, as [Stubs] has it: the compiled C
    functions that the stubs call, where the descriptor table leads for the
    vector 0x80 ([None] is a gate that is not present), and the registers and
    the stack at the [int $0x80], whose next instruction is at [ping_pc]. *)
Context (env : cpu_env (option kworld)).
Context (gate80 : option label) (ping_pc : Z) (caller : cpu_state).

(** ** Callbacks

    The objects of the dispatcher are [option kworld]: [None] once a callback
    ran into undefined behaviour. *)

Definition k_get_ticks (c : option kworld) : option kworld * Z := (c, 42).

Definition k_yield_current (c : option kworld) : option kworld :=
  w ← c; dropping (mcsos_sched_yield resume (Ref tt)) w.

Definition k_exit_current (code : Z) (c : option kworld) : option kworld :=
  w ← c; Some (klog (KText "[M10] thread requesting exit via syscall") w).

Definition k_write_serial (buf len : Z) (c : option kworld) : option kworld * Z :=
  (w ← c; Some (klog (KBuffer buf) w), i64 len).

Definition kernel_ops : mcsos_syscall_ops (option kworld) :=
  SysOps (Ref k_get_ticks) (Ref k_yield_current) (Ref k_exit_current) (Ref k_write_serial).

(** ** The demonstration threads: one turn of their loops *)

Definition demo_thread_turn (line : string) (w : kworld) : option kworld :=
  dropping (mcsos_sched_yield resume (Ref tt)) (klog (KText line) w).
Definition demo_thread_a_turn : kworld → option kworld := demo_thread_turn "[M9] thread A tick".
Definition demo_thread_b_turn : kworld → option kworld := demo_thread_turn "[M9] thread B tick".

(** ** Start *)

(** [g_sched.next_id++] *)
Definition take_id (w : kworld) : kworld * Z :=
  let m := kw_machine w in
  let s := sched m in
  let s' := MSched (current s) (idle s) (ready_head s) (ready_tail s) (u64 (next_id s + 1)) (runnable_count s)
              (context_switches s) (sched_ticks s) (initialized s) in
  (KWorld (Machine (threads m) s' (stacks m) (cpu m)) (kw_log w), next_id s).

Definition prepare_demo (thread name entry stack : Z) (w : kworld) : option kworld :=
  let '(w, i) := take_id w in
  dropping (mcsos_thread_prepare trampoline thread name entry 0 stack 8192 i) w.

(** How the boot thread ends: it yielded - the processor goes on where the
    scheduler put it, and [hlt] is all that is left of [kernel_main] - or it is
    in the loop of a failed smoke test. *)
Inductive boot_outcome :=
| Yields (s : syscall_state (option kworld)) (w : kworld)
| Spins (w : kworld).

(** The direct call of the dispatcher: [None] when it failed. *)
Definition m10_syscall_smoke_direct (s : syscall_state (option kworld)) (w : kworld) : option (boot_outcome + kworld) :=
  '(c, r) ← mcsos_syscall_dispatch s MCSOS_SYS_PING 0 0 0 0 0 0 (Some w);
  w ← c;
  Some (if r =? 0x2605020A then inr (klog (KText "[M10] syscall ping direct ok") w)
        else inl (Spins (klog (KText "CRITICAL ERROR: M10 syscall ping failed") w))).

(** The value of [rax] after the [int $0x80] with [MCSOS_SYS_PING] in it, if the
    processor comes back to the next instruction. *)
Definition m10_int80_ping_kernel_only (w : kworld) : option (kworld * Z) :=
  handler ← gate80;
  r ← take_interrupt env handler None ping_pc (set_reg RAX 0 caller) (Some w);
  match r with
  | (Iret pc, c, w') => if pc =? ping_pc then w ← w'; Some (w, i64 (gpr c RAX)) else None
  | (Returned _, _, _) => None
  end.

(** [kernel_main] up to the [int $0x80]. *)
Definition kernel_start (s : syscall_state (option kworld)) (w : kworld) :
    option (boot_outcome + syscall_state (option kworld) * kworld) :=
  passed ← m11_kernel_smoke_test_elf_loader (Ref dummy_elf) 128;
  let w := if (passed : bool) then klog (KText "[M11] ELF loader smoke test plan passed") w else w in
  w ← dropping (mcsos_scheduler_init boot_name (Ref tt) g_boot_thread) w;
  w ← prepare_demo g_thread_a name_a demo_thread_a g_stack_a w;
  w ← prepare_demo g_thread_b name_b demo_thread_b g_stack_b w;
  w ← dropping (mcsos_sched_enqueue (Ref tt) g_thread_a) w;
  w ← dropping (mcsos_sched_enqueue (Ref tt) g_thread_b) w;
  let w := klog (KText "[M9] scheduler initialized") w in
  let s := mcsos_syscall_init (Ref kernel_ops) s in
  let w := klog (KText "[M10] syscall dispatcher registered to kernel init") w in
  r ← m10_syscall_smoke_direct s w;
  Some (match r with
        | inl o => inl o
        | inr w => inr (s, klog (KText "[M10] triggering int 0x80 gate test...") w)
        end).

Definition kernel_main (s : syscall_state (option kworld)) (w : kworld) : option boot_outcome :=
  r ← kernel_start s w;
  match r with
  | inl o => Some o
  | inr (s, w) =>
      '(w, asm_res) ← m10_int80_ping_kernel_only w;
      let w := if asm_res =? 0x2605020A then klog (KText "[M10] int 0x80 assembly jump path SUCCESS!") w
               else klog (KText "[M10] WARNING: assembly gate returned wrong token value") w in
      w ← dropping (mcsos_sched_yield resume (Ref tt)) w;
      Some (Yields s w)
  end.

(** ** What the start leaves *)

(** The objects of the kernel do not overlap and are where objects can be. *)
Record layout_ok : Prop := {
  lo_boot : g_boot_thread ≠ 0;
  lo_a : g_thread_a ≠ 0 ∧ g_thread_a ≠ g_boot_thread;
  lo_b : g_thread_b ≠ 0 ∧ g_thread_b ≠ g_boot_thread ∧ g_thread_b ≠ g_thread_a;
  lo_entries : demo_thread_a ≠ 0 ∧ demo_thread_b ≠ 0;
  lo_stack_a : 0 < g_stack_a ∧ g_stack_a + 8192 < 2 ^ 64;
  lo_stack_b : 0 < g_stack_b ∧ g_stack_b + 8192 < 2 ^ 64;
}.

(** The identifier counter is no part of the scheduler's invariant. *)
Lemma take_id_ok cs w q : sched_ok cs (kw_machine w) q → sched_ok cs (kw_machine (take_id w).1) q.
Proof.
  destruct w as [[T S st c] l]. cbn. intros [H1 H2 H3 H4 H5]. split; try done. by destruct H2.
Qed.

(** The registers with which a prepared thread is first switched to. *)
Definition first_context (stack : Z) : mcsos_context :=
  MContext ((stack + 8192) / 16 * 16 - 8) 0 0 0 0 0 0 trampoline.

Lemma prepare_demo_ok thread name entry stack w q :
  sched_ok MCSOS_THREAD_RUNNING (kw_machine w) q → not_in_use (kw_machine w) thread →
  thread ≠ 0 → entry ≠ 0 → 0 < stack → stack + 8192 < 2 ^ 64 →
  ∃ m', prepare_demo thread name entry stack w = Some (KWorld m' (kw_log w)) ∧
    sched_ok MCSOS_THREAD_RUNNING m' q ∧
    current (sched m') = current (sched (kw_machine w)) ∧
    idle (sched m') = idle (sched (kw_machine w)) ∧
    ∀ x, view (threads m') x = if decide (x = thread) then
      Some (MCSOS_THREAD_NEW, first_context stack, MCSOS_THREAD_MAGIC) else view (threads (kw_machine w)) x.
Proof.
  intros Hok Hn Ht He Hs Hw. pose proof (take_id_ok _ _ _ Hok) as Hok1.
  unfold prepare_demo. destruct (take_id w) as [w1 i] eqn:E1. cbn [fst] in Hok1.
  assert (not_in_use (kw_machine w1) thread ∧ threads (kw_machine w1) = threads (kw_machine w) ∧
    kw_log w1 = kw_log w ∧ current (sched (kw_machine w1)) = current (sched (kw_machine w)) ∧
    idle (sched (kw_machine w1)) = idle (sched (kw_machine w))) as (Hn1&E2&E3&E4&E5)
    by (unfold take_id in E1; injection E1 as <- _; done).
  pose proof (prepare_run trampoline thread name entry 0 stack 8192 i (kw_machine w1)) as Hr.
  rewrite decide_False, decide_False in Hr by lia. cbn zeta in Hr.
  specialize (Hr ltac:(words) ltac:(words)).
  pose proof (prepare_ok trampoline _ _ _ _ _ _ _ _ _ _ _ Hok1 Hn1 Hr) as Hok2.
  unfold dropping. rewrite Hr. cbn [mbind option_bind]. rewrite E3. eexists. split; [done|].
  split; [exact Hok2|]. cbn [sched threads]. split; [done|]. split; [done|].
  intros x. rewrite view_insert. by rewrite E2.
Qed.

Lemma start_ok w : g_boot_thread ≠ 0 →
  (∀ p c g, view (threads (kw_machine w)) p ≠ Some (MCSOS_THREAD_READY, c, g)) →
  ∃ m', dropping (mcsos_scheduler_init boot_name (Ref tt) g_boot_thread) w = Some (KWorld m' (kw_log w)) ∧
    sched_ok MCSOS_THREAD_RUNNING m' [] ∧ current (sched m') = g_boot_thread ∧ idle (sched m') = g_boot_thread ∧
    ∀ x, x ≠ g_boot_thread → view (threads m') x = view (threads (kw_machine w)) x.
Proof.
  intros Hb Hready. destruct (init_ok boot_name g_boot_thread (kw_machine w) Hb Hready) as (m1&E1&Hok1).
  unfold dropping. rewrite E1. exists m1. split; [done|]. split; [done|].
  unfold mcsos_scheduler_init in E1. rewrite (proj2 (Z.eqb_neq g_boot_thread 0)) in E1 by done.
  injection E1 as <-. cbn [sched threads current idle]. split; [done|]. split; [done|].
  intros x Hx. by rewrite view_insert, decide_False.
Qed.

Lemma enqueue_drop w q p c : sched_ok MCSOS_THREAD_RUNNING (kw_machine w) q → p ≠ 0 →
  p ≠ current (sched (kw_machine w)) → zlen q + 1 < 2 ^ 62 →
  view (threads (kw_machine w)) p = Some (MCSOS_THREAD_NEW, c, MCSOS_THREAD_MAGIC) →
  ∃ m', dropping (mcsos_sched_enqueue (Ref tt) p) w = Some (KWorld m' (kw_log w)) ∧
    sched_ok MCSOS_THREAD_RUNNING m' (q ++ [p]) ∧
    current (sched m') = current (sched (kw_machine w)) ∧ idle (sched m') = idle (sched (kw_machine w)) ∧
    ∀ x, view (threads m') x = if decide (x = p) then
      Some (MCSOS_THREAD_READY, c, MCSOS_THREAD_MAGIC) else view (threads (kw_machine w)) x.
Proof.
  intros Hok Hp Hc Hl Hv.
  destruct (enqueue_ok _ _ _ _ _ _ Hok ltac:(done) Hp Hc Hl Hv) as (m'&E&Hok'&(E1&E2&_)&Hv'); [by left|].
  unfold dropping. rewrite E. by exists m'.
Qed.

Lemma yield_drop w n q c : sched_ok MCSOS_THREAD_RUNNING (kw_machine w) (n :: q) → zlen (n :: q) + 1 < 2 ^ 62 →
  current (sched (kw_machine w)) = idle (sched (kw_machine w)) → n ≠ current (sched (kw_machine w)) →
  view (threads (kw_machine w)) n = Some (MCSOS_THREAD_READY, c, MCSOS_THREAD_MAGIC) →
  ∃ m', dropping (mcsos_sched_yield resume (Ref tt)) w = Some (KWorld m' (kw_log w)) ∧
    sched_ok MCSOS_THREAD_RUNNING m' q ∧ current (sched m') = n ∧
    idle (sched m') = idle (sched (kw_machine w)) ∧ cpu m' = c.
Proof.
  intros Hok Hl Hi Hn Hv.
  destruct (yield_switch resume _ _ _ Hok ltac:(done) Hl Hn) as (m'&E&Hok'&Y).
  unfold dropping. rewrite E. exists m'. split; [done|].
  unfold yield_queue, requeued in Hok'. rewrite decide_False, app_nil_r in Hok' by tauto.
  split; [done|]. destruct Y as [Y1 Y2 _ [st Y4] _ _ _]. split; [done|]. split; [done|].
  cbn [next_thread] in Y4. rewrite Hv in Y4. by injection Y4.
Qed.

(** The lines of the log before the interrupt, and the one after it. *)
Definition boot_log : list log_entry :=
  KText <$> ["[M9] scheduler initialized"; "[M10] syscall dispatcher registered to kernel init";
             "[M10] syscall ping direct ok"; "[M10] triggering int 0x80 gate test..."]%string.
Definition gate_line (asm_res : Z) : log_entry :=
  KText (if asm_res =? 0x2605020A then "[M10] int 0x80 assembly jump path SUCCESS!"
         else "[M10] WARNING: assembly gate returned wrong token value").

(** With the stub behind the gate and the dispatcher compiled, the interrupt
    returns the token and changes nothing else of the kernel. *)
Lemma ping_kernel_only_run s w lo hi : gate80 = Some L_int80_stub → stack_room lo caller → aligned_sp caller ≤ hi →
  CompiledSyscall (mcsos_syscall_init (Ref kernel_ops) s) env hi 8 →
  m10_int80_ping_kernel_only w = Some (w, 0x2605020A).
Proof.
  intros Hg Hr Hhi Hs. unfold m10_int80_ping_kernel_only. rewrite Hg. cbn [mbind option_bind].
  destruct (int80_ping (mcsos_syscall_init (Ref kernel_ops) s) env hi Hs ping_pc lo
    (set_reg RAX 0 caller) (Some w)) as (c' & -> & Ha).
  - by apply stack_room_set_reg.
  - unfold aligned_sp. by rewrite gpr_set_other.
  - apply gpr_set_same.
  - cbn [mbind option_bind]. rewrite Z.eqb_refl, Ha. reflexivity.
Qed.

(** The kernel before the [int $0x80]. *)
Record started (w w1 : kworld) : Prop := {
  sd_sched : sched_ok MCSOS_THREAD_RUNNING (kw_machine w1) [g_thread_a; g_thread_b];
  sd_current : current (sched (kw_machine w1)) = g_boot_thread;
  sd_idle : idle (sched (kw_machine w1)) = g_boot_thread;
  sd_first : view (threads (kw_machine w1)) g_thread_a =
    Some (MCSOS_THREAD_READY, first_context g_stack_a, MCSOS_THREAD_MAGIC);
  sd_second : view (threads (kw_machine w1)) g_thread_b =
    Some (MCSOS_THREAD_READY, first_context g_stack_b, MCSOS_THREAD_MAGIC);
  sd_log : kw_log w1 = kw_log w ++ boot_log;
}.

Lemma kernel_start_run s w : layout_ok →
  (∀ p c g, view (threads (kw_machine w)) p ≠ Some (MCSOS_THREAD_READY, c, g)) →
  ∃ w1, kernel_start s w = Some (inr (mcsos_syscall_init (Ref kernel_ops) s, w1)) ∧ started w w1.
Proof.
  intros [Hb [Ha Hab] (Hb0&Hbb&Hba) [Hea Heb] [Hsa Hsa'] [Hsb Hsb']] Hready. unfold kernel_start.
  rewrite dummy_elf_refused. cbn [mbind option_bind].
  destruct (start_ok w Hb Hready) as (m1&->&Hok1&C1&I1&V1). cbn [mbind option_bind].
  destruct (prepare_demo_ok g_thread_a name_a demo_thread_a g_stack_a (KWorld m1 (kw_log w)) [])
    as (m2&->&Hok2&C2&I2&V2); try done.
  { cbn. split; [congruence|]. split; [congruence|]. intros c g. rewrite V1 by done. apply Hready. }
  cbn [mbind option_bind kw_machine kw_log] in *.
  destruct (prepare_demo_ok g_thread_b name_b demo_thread_b g_stack_b (KWorld m2 (kw_log w)) [])
    as (m3&->&Hok3&C3&I3&V3); try done.
  { cbn. split; [congruence|]. split; [congruence|]. intros c g.
    rewrite V2, decide_False, V1 by done. apply Hready. }
  cbn [mbind option_bind kw_machine kw_log] in *.
  destruct (enqueue_drop (KWorld m3 (kw_log w)) [] g_thread_a (first_context g_stack_a))
    as (m4&->&Hok4&C4&I4&V4); try done; cbn [kw_machine]; [congruence| |].
  { by rewrite V3, decide_False, V2, decide_True. }
  cbn [mbind option_bind kw_machine kw_log app] in *.
  destruct (enqueue_drop (KWorld m4 (kw_log w)) [g_thread_a] g_thread_b (first_context g_stack_b))
    as (m5&->&Hok5&C5&I5&V5); try done; cbn [kw_machine]; [congruence| |].
  { by rewrite V4, decide_False, V3, decide_True. }
  cbn [mbind option_bind kw_machine kw_log app klog] in *.
  assert (Hsmoke : ∀ w0, m10_syscall_smoke_direct (mcsos_syscall_init (Ref kernel_ops) s) w0 =
    Some (inr (klog (KText "[M10] syscall ping direct ok") w0))) by done.
  rewrite Hsmoke. cbn [mbind option_bind]. eexists. split; [done|]. unfold klog. cbn [kw_machine kw_log].
  split; cbn [kw_machine kw_log]; [done|congruence|congruence| | |by rewrite <-!app_assoc].
  - by rewrite V5, decide_False, V4, decide_True.
  - by rewrite V5, decide_True.
Qed.

(** The switch after the interrupt came back with [r]. *)
Lemma first_switch_run s w w1 w2 r : layout_ok →
  kernel_start s w = Some (inr (mcsos_syscall_init (Ref kernel_ops) s, w1)) → started w w1 →
  m10_int80_ping_kernel_only w1 = Some (w2, r) → kw_machine w2 = kw_machine w1 →
  ∃ w', kernel_main s w = Some (Yields (mcsos_syscall_init (Ref kernel_ops) s) w') ∧
    sched_ok MCSOS_THREAD_RUNNING (kw_machine w') [g_thread_b] ∧
    current (sched (kw_machine w')) = g_thread_a ∧ idle (sched (kw_machine w')) = g_boot_thread ∧
    cpu (kw_machine w') = first_context g_stack_a ∧ kw_log w' = kw_log w2 ++ [gate_line r].
Proof.
  intros [Hb [Ha Hab] _ _ _ _] Hk [Hok Hc Hi Hv _ _] Hp Hm. unfold kernel_main. rewrite Hk.
  cbn [mbind option_bind]. rewrite Hp. cbn [mbind option_bind].
  set (w3 := if r =? 0x2605020A then _ else _).
  assert (kw_machine w3 = kw_machine w1) as Hm3 by (unfold w3; by destruct (r =? 0x2605020A)).
  assert (kw_log w3 = kw_log w2 ++ [gate_line r]) as Hl3 by (unfold w3, gate_line; by destruct (r =? 0x2605020A)).
  destruct (yield_drop w3 g_thread_a [g_thread_b] (first_context g_stack_a)) as (m6&->&Hok6&C6&I6&F6);
    rewrite ?Hm3; [done|done|congruence|congruence|done|].
  cbn [mbind option_bind]. eexists. split; [done|]. cbn [kw_machine kw_log]. by rewrite I6, Hm3.
Qed.

(** C28. The kernel starts: from objects that hold no ready thread, laid out
    without overlap, [kernel_main] gets to its [int $0x80] with a valid
    scheduler in which both demonstration threads are queued in order, each with
    the trampoline and its own stack, and the boot thread runs as the idle
    thread; the dispatcher has the kernel's callbacks, the direct system call
    succeeded, and the log has no line of the ELF smoke test, which the planner
    refuses. There it ends if no gate for the vector is present, and no code of
    the repository installs one. If the interrupt does come back with the
    scheduler's objects as they were, then, whatever it returned, [kernel_main]
    logs which of the two it was and makes the first switch: the first thread
    runs, on its own stack and at the trampoline, and the second one waits. And
    it comes back with the token if the gate leads to the stub, the stack has
    room, and the dispatcher is compiled to code that works on the stub's stack
    of odd alignment. *)
Theorem kernel_main_starts s w : layout_ok →
  (∀ p c g, view (threads (kw_machine w)) p ≠ Some (MCSOS_THREAD_READY, c, g)) →
  let s1 := mcsos_syscall_init (Ref kernel_ops) s in
  g_ops s1 = kernel_ops ∧ g_user_region s1 = g_user_region s ∧
  ∃ w1, kernel_start s w = Some (inr (s1, w1)) ∧ started w w1 ∧
    (gate80 = None → kernel_main s w = None) ∧
    (∀ w2 r, m10_int80_ping_kernel_only w1 = Some (w2, r) → kw_machine w2 = kw_machine w1 →
     ∃ w', kernel_main s w = Some (Yields s1 w') ∧
       sched_ok MCSOS_THREAD_RUNNING (kw_machine w') [g_thread_b] ∧
       current (sched (kw_machine w')) = g_thread_a ∧ idle (sched (kw_machine w')) = g_boot_thread ∧
       cpu (kw_machine w') = first_context g_stack_a ∧ kw_log w' = kw_log w2 ++ [gate_line r]) ∧
    (∀ lo hi, gate80 = Some L_int80_stub → stack_room lo caller → aligned_sp caller ≤ hi →
     CompiledSyscall s1 env hi 8 → m10_int80_ping_kernel_only w1 = Some (w1, 0x2605020A)).
Proof.
  intros Hl Hready s1. destruct (kernel_start_run s w Hl Hready) as (w1 & Hk & Hst).
  split; [done|]. split; [done|]. exists w1. split; [done|]. split; [done|]. split; [|split].
  - intros Hg. unfold kernel_main. rewrite Hk. cbn [mbind option_bind]. unfold m10_int80_ping_kernel_only. by rewrite Hg.
  - intros w2 r Hp Hm. by apply (first_switch_run s w w1).
  - intros lo hi Hg Hr Hhi Hs. by apply (ping_kernel_only_run s w1 lo hi).
Qed.

(** What the calls do once the kernel's callbacks are installed: a yield is a
    step of the scheduler; an exit is logged and returns to the thread, which is
    still the running one; a write hands [klog] the address only. *)
Theorem kernel_calls s w a b c d e f :
  let call nr := mcsos_syscall_dispatch (mcsos_syscall_init (Ref kernel_ops) s) nr a b c d e f (Some w) in
  call MCSOS_SYS_GET_TICKS = Some (Some w, 42) ∧
  call MCSOS_SYS_YIELD = Some (dropping (mcsos_sched_yield resume (Ref tt)) w, MCSOS_OK) ∧
  call MCSOS_SYS_EXIT_THREAD =
    Some (Some (klog (KText "[M10] thread requesting exit via syscall") w), MCSOS_OK) ∧
  (∀ o r, call MCSOS_SYS_WRITE_SERIAL = Some (o, r) → o = Some w ∨ o = Some (klog (KBuffer a) w)).
Proof.
  split; [done|]. split; [done|]. split; [done|]. intros o r.
  change (sys_write_serial (mcsos_syscall_init (Ref kernel_ops) s) a b c d e f (Some w) = Some (o, r) →
    o = Some w ∨ o = Some (klog (KBuffer a) w)).
  unfold sys_write_serial. repeat case_match; intros [= <- _]; auto.
Qed.
End Kernel.

(** The compiled dispatcher of a kernel with its callbacks installed. *)
Definition demo_kernel_env : cpu_env (option kworld) :=
  demo_env (demo_syscall (mcsos_syscall_init (Ref (kernel_ops 5)) syscall_zero)).

Lemma kernel_main_starts_witness :
  let w := KWorld demo_empty [] in
  ∃ s' w', kernel_main 1 2 5 3 4 65536 65537 4096 8192 12288 1048576 2097152
      demo_kernel_env (Some L_int80_stub) 0x1000 demo_processor syscall_zero w = Some (Yields s' w') ∧
    sched_ok MCSOS_THREAD_RUNNING (kw_machine w') [12288] ∧
    current (sched (kw_machine w')) = 8192 ∧ idle (sched (kw_machine w')) = 4096 ∧
    cpu (kw_machine w') = first_context 2 1048576 ∧
    kw_log w' = boot_log ++ [gate_line 0x2605020A].
Proof.
  intros w. destruct (kernel_main_starts 1 2 5 3 4 65536 65537 4096 8192 12288 1048576 2097152
    demo_kernel_env (Some L_int80_stub) 0x1000 demo_processor syscall_zero w)
    as (_ & _ & w1 & _ & Hst & _ & Hswitch & Hping).
  - split; lia.
  - intros p c g. unfold view. cbn [w kw_machine]. change (threads demo_empty) with (∅ : gmap Z mcsos_thread).
    by rewrite lookup_empty.
  - destruct (Hswitch w1 0x2605020A) as (w' & H1 & H2 & H3 & H4 & H5 & H6).
    + apply (Hping 0 1024); [done|exact demo_room|by vm_compute|apply demo_syscall_compiled].
    + done.
    + rewrite (sd_log _ _ _ _ _ _ _ _ Hst) in H6. eexists _, w'. split; [exact H1|]. by split_and!.
Defined.
