(* ===== verification/Mcsfs1.v ===== *)
(** MCSFS1 ([src/fs/mcsfs1/mcsfs1.c]): the file system without a journal, over a
    block device given by three callbacks. The callbacks are a parameter: they
    act on the object that [ctx] leads to, of any type [C]. *)
From S2P Require Import Prelude Bitmap Bytes Cstr Err.

#[local] Open Scope err_scope.

(** ** Constants *)

Definition MCSFS1_BLOCK_SIZE : Z := 512.
Definition MCSFS1_MAGIC : Z := 0x31465343.
Definition MCSFS1_VERSION : Z := 1.
Definition MCSFS1_MAX_INODES : Z := 32.
Definition MCSFS1_DIRECT_BLOCKS : Z := 8.
Definition MCSFS1_MAX_NAME : Z := 27.
Definition MCSFS1_ROOT_INO : Z := 1.
Definition MCSFS1_MODE_FILE : Z := 1.
Definition MCSFS1_MODE_DIR : Z := 2.
Definition MCSFS1_ERR_INVAL : Z := -1.
Definition MCSFS1_ERR_IO : Z := -2.
Definition MCSFS1_ERR_NOSPC : Z := -3.
Definition MCSFS1_ERR_EXIST : Z := -4.
Definition MCSFS1_ERR_NOENT : Z := -5.
Definition MCSFS1_ERR_NAMETOOLONG : Z := -6.
Definition MCSFS1_ERR_CORRUPT : Z := -7.
Definition MCSFS1_ERR_ISDIR : Z := -8.
Definition MCSFS1_ERR_RANGE : Z := -9.

Definition MCSFS1_SB_LBA : Z := 0.
Definition MCSFS1_INODE_BMAP_LBA : Z := 1.
Definition MCSFS1_BLOCK_BMAP_LBA : Z := 2.
Definition MCSFS1_INODE_TABLE_LBA : Z := 3.
Definition MCSFS1_INODE_TABLE_BLOCKS : Z := 4.
Definition MCSFS1_ROOT_DIR_LBA : Z := 7.
Definition MCSFS1_DATA_START_LBA : Z := 8.
Definition MCSFS1_MIN_BLOCKS : Z := 16.
Definition MCSFS1_DIRENT_COUNT : Z := 16.

(** ** Structures and their layout *)

Record mcsfs1_super_disk := Super {
  sb_magic : Z;
  sb_version : Z;
  sb_block_size : Z;
  sb_block_count : Z;
  sb_inode_count : Z;
  sb_inode_bmap_lba : Z;
  sb_block_bmap_lba : Z;
  sb_inode_table_lba : Z;
  sb_inode_table_blocks : Z;
  sb_root_ino : Z;
  sb_root_dir_lba : Z;
  sb_data_start_lba : Z;
  sb_clean : Z;
  sb_reserved : list Z;
}.

Definition super_of (l : list Z) : mcsfs1_super_disk :=
  Super (field 4 0 l) (field 4 4 l) (field 4 8 l) (field 4 12 l) (field 4 16 l) (field 4 20 l)
    (field 4 24 l) (field 4 28 l) (field 4 32 l) (field 4 36 l) (field 4 40 l) (field 4 44 l)
    (field 4 48 l) (drop 52 l).
Definition super_bytes (s : mcsfs1_super_disk) : list Z :=
  le_encode 4 (sb_magic s) ++ le_encode 4 (sb_version s) ++ le_encode 4 (sb_block_size s) ++
  le_encode 4 (sb_block_count s) ++ le_encode 4 (sb_inode_count s) ++
  le_encode 4 (sb_inode_bmap_lba s) ++ le_encode 4 (sb_block_bmap_lba s) ++
  le_encode 4 (sb_inode_table_lba s) ++ le_encode 4 (sb_inode_table_blocks s) ++
  le_encode 4 (sb_root_ino s) ++ le_encode 4 (sb_root_dir_lba s) ++
  le_encode 4 (sb_data_start_lba s) ++ le_encode 4 (sb_clean s) ++ sb_reserved s.

Record mcsfs1_inode_disk := Inode {
  i_mode : Z;
  i_links : Z;
  i_size : Z;
  i_direct : list Z;
  i_reserved : list Z;
}.

Definition inode_of (l : list Z) : mcsfs1_inode_disk :=
  Inode (field 2 0 l) (field 2 2 l) (field 4 4 l)
    [field 4 8 l; field 4 12 l; field 4 16 l; field 4 20 l; field 4 24 l; field 4 28 l;
     field 4 32 l; field 4 36 l] (drop 40 l).
Definition inode_bytes (i : mcsfs1_inode_disk) : list Z :=
  le_encode 2 (i_mode i) ++ le_encode 2 (i_links i) ++ le_encode 4 (i_size i) ++
  concat (le_encode 4 <$> i_direct i) ++ i_reserved i.

Record mcsfs1_dirent_disk := Dirent {
  d_ino : Z;
  d_type : Z;
  d_name : list Z;
}.

Definition dirent_of (l : list Z) : mcsfs1_dirent_disk :=
  Dirent (field 4 0 l) (field 1 4 l) (drop 5 l).
Definition dirent_bytes (d : mcsfs1_dirent_disk) : list Z :=
  le_encode 4 (d_ino d) ++ le_encode 1 (d_type d) ++ d_name d.

(** [de[i]] of a directory block, and the block with [de[i]] assigned. *)
Definition dirent_at (dir : list Z) (i : Z) : mcsfs1_dirent_disk :=
  dirent_of (slice (Z.to_nat i * 32) 32 dir).
Definition dirent_set (dir : list Z) (i : Z) (d : mcsfs1_dirent_disk) : list Z :=
  splice (Z.to_nat i * 32) (dirent_bytes d) dir.

(** ** Helpers *)

Definition mcsfs_memset (dst : list Z) (c n : Z) : option (list Z) :=
  mem_fill (Z.to_nat n) dst (u8 c).
Definition mcsfs_memcpy (dst src : list Z) (n : Z) : option (list Z) :=
  mem_copy (Z.to_nat n) dst src.

Fixpoint memcmp_loop (n : nat) (i : Z) (x y : list Z) : option Z :=
  match n with
  | O => Some 0
  | S n' =>
      a ← arr_get x i;
      b ← arr_get y i;
      if negb (a =? b) then Some (a - b) else memcmp_loop n' (i + 1) x y
  end.
Definition mcsfs_memcmp (a b : list Z) (n : Z) : option Z := memcmp_loop (Z.to_nat n) 0 a b.

Definition mcsfs_strlen_bound (s : ptr (list Z)) (max_plus_one : Z) : option Z :=
  match s with
  | Null => Some max_plus_one
  | Ref s => strlen_loop (Z.to_nat max_plus_one) s 0
  end.

(** [name[j] == '/'] for some [j] in [i .. i + n - 1]. *)
Fixpoint has_slash (n : nat) (i : Z) (name : list Z) : option bool :=
  match n with
  | O => Some false
  | S n' =>
      c ← arr_get name i;
      if c =? 47 then Some true else has_slash n' (i + 1) name
  end.

(** The length of the name, or the status. *)
Definition valid_name (name : ptr (list Z)) : option (Z + Z) :=
  n ← mcsfs_strlen_bound name (MCSFS1_MAX_NAME + 1);
  if n =? 0 then Some (inl MCSFS1_ERR_INVAL) else
  if MCSFS1_MAX_NAME <? n then Some (inl MCSFS1_ERR_NAMETOOLONG) else
  s ← deref name;
  slash ← has_slash (Z.to_nat n) 0 s;
  if (slash : bool) then Some (inl MCSFS1_ERR_INVAL) else Some (inr n).

Definition bit_set (b : list Z) (bit : Z) : option (list Z) :=
  x ← arr_get b (bit / 8);
  arr_set b (bit / 8) (u8 (Z.lor x (u8 (Z.shiftl 1 (bit mod 8))))).
Definition bit_clear (b : list Z) (bit : Z) : option (list Z) :=
  x ← arr_get b (bit / 8);
  arr_set b (bit / 8) (u8 (Z.land x (u8 (Z.lnot (u8 (Z.shiftl 1 (bit mod 8))))))).
Definition bit_test (b : list Z) (bit : Z) : option bool :=
  x ← arr_get b (bit / 8);
  Some (negb (Z.land x (u8 (Z.shiftl 1 (bit mod 8))) =? 0)).

(** The first clear bit in [i .. i + n - 1]; [None] inside when there is none. *)
Fixpoint find_clear (n : nat) (i : Z) (b : list Z) : option (option Z) :=
  match n with
  | O => Some None
  | S n' =>
      t ← bit_test b i;
      if (t : bool) then find_clear n' (i + 1) b else Some (Some i)
  end.

(** A buffer of [n] bytes set to zero. *)
Definition zeros (n : nat) : list Z := replicate n 0.

(** A helper that computes a status without touching the device. *)
Definition mret {S A} (o : option (Z + A)) : M S A := λ s,
  match o with Some r => Some (s, r) | None => None end.

Section Mcsfs1.
Context {C : Type}.

(** ** The device and the mount *)

Record mcsfs1_blkdev := BlkDev {
  block_count : Z;
  bd_read : ptr (Z → C → C * (Z * list Z));
  bd_write : ptr (Z → list Z → C → C * Z);
  bd_flush : ptr (C → C * Z);
}.

Record mcsfs1_mnt := Mount {
  m_dev : ptr mcsfs1_blkdev;
  m_block_count : Z;
  m_data_start : Z;
}.

Implicit Types dev : mcsfs1_blkdev.

Definition dev_read dev (lba : Z) : M C (list Z) :=
  match bd_read dev with
  | Null => merr MCSFS1_ERR_INVAL
  | Ref read =>
      if block_count dev <=? lba then merr MCSFS1_ERR_INVAL else λ c,
      let '(c, (rc, buf)) := read lba c in
      Some (c, if rc =? 0 then inr buf else inl MCSFS1_ERR_IO)
  end.

Definition dev_write dev (lba : Z) (buf : list Z) : M C unit :=
  match bd_write dev with
  | Null => merr MCSFS1_ERR_INVAL
  | Ref write =>
      if block_count dev <=? lba then merr MCSFS1_ERR_INVAL else λ c,
      let '(c, rc) := write lba buf c in
      Some (c, if rc =? 0 then inr tt else inl MCSFS1_ERR_IO)
  end.

Definition dev_flush dev : M C unit :=
  match bd_flush dev with
  | Null => merr MCSFS1_ERR_INVAL
  | Ref flush => λ c,
      let '(c, rc) := flush c in
      Some (c, if rc =? 0 then inr tt else inl MCSFS1_ERR_IO)
  end.

(** ** Metadata *)

Definition load_super dev : M C mcsfs1_super_disk :=
  block <- dev_read dev MCSFS1_SB_LBA ;;
  let sb := super_of block in
  guard_err (sb_magic sb =? MCSFS1_MAGIC) && (sb_version sb =? MCSFS1_VERSION) &&
    (sb_block_size sb =? MCSFS1_BLOCK_SIZE) else MCSFS1_ERR_CORRUPT ;;
  guard_err (sb_block_count sb =? block_count dev) &&
    (sb_inode_count sb =? MCSFS1_MAX_INODES) else MCSFS1_ERR_CORRUPT ;;
  guard_err (sb_inode_bmap_lba sb =? MCSFS1_INODE_BMAP_LBA) &&
    (sb_block_bmap_lba sb =? MCSFS1_BLOCK_BMAP_LBA) &&
    (sb_inode_table_lba sb =? MCSFS1_INODE_TABLE_LBA) else MCSFS1_ERR_CORRUPT ;;
  guard_err (sb_root_ino sb =? MCSFS1_ROOT_INO) &&
    (sb_root_dir_lba sb =? MCSFS1_ROOT_DIR_LBA) &&
    (sb_data_start_lba sb =? MCSFS1_DATA_START_LBA) else MCSFS1_ERR_CORRUPT ;;
  guard_err sb_data_start_lba sb <? sb_block_count sb else MCSFS1_ERR_CORRUPT ;;
  mok sb.

(** Where inode [ino] is: the block and the offset in it. *)
Definition inode_lba (ino : Z) : Z := MCSFS1_INODE_TABLE_LBA + (ino - 1) / (512 / 60).
Definition inode_off (ino : Z) : Z := (ino - 1) mod (512 / 60) * 60.

Definition read_inode dev (ino : Z) : M C mcsfs1_inode_disk :=
  guard_err negb ((ino =? 0) || (MCSFS1_MAX_INODES <? ino)) else MCSFS1_ERR_INVAL ;;
  guard_err inode_lba ino <? MCSFS1_DATA_START_LBA else MCSFS1_ERR_CORRUPT ;;
  block <- dev_read dev (inode_lba ino) ;;
  src <- mub (bytes_from (inode_off ino) block) ;;
  raw <- mub (mcsfs_memcpy (zeros 60) src 60) ;;
  mok (inode_of raw).

Definition write_inode dev (ino : Z) (inode : mcsfs1_inode_disk) : M C unit :=
  guard_err negb ((ino =? 0) || (MCSFS1_MAX_INODES <? ino)) else MCSFS1_ERR_INVAL ;;
  guard_err inode_lba ino <? MCSFS1_DATA_START_LBA else MCSFS1_ERR_CORRUPT ;;
  block <- dev_read dev (inode_lba ino) ;;
  block <- mub (at_off (inode_off ino) block (λ d, mcsfs_memcpy d (inode_bytes inode) 60)) ;;
  dev_write dev (inode_lba ino) block.

Definition load_bmaps dev : M C (list Z * list Z) :=
  ib <- dev_read dev MCSFS1_INODE_BMAP_LBA ;;
  bb <- dev_read dev MCSFS1_BLOCK_BMAP_LBA ;;
  mok (ib, bb).

Definition store_bmaps dev (ib bb : list Z) : M C unit :=
  dev_write dev MCSFS1_INODE_BMAP_LBA ib ;;;
  dev_write dev MCSFS1_BLOCK_BMAP_LBA bb.

(** ** Directory *)

(** The three tests on [de[i]]; [de[i].name] is a pointer into the block, and
    the bounded length may run past the 27 bytes of the field. *)
Definition dirent_matches (dir : list Z) (i : Z) (name : list Z) (name_len : Z) : option bool :=
  if d_ino (dirent_at dir i) =? 0 then Some false else
  s ← bytes_from (i * 32 + 5) dir;
  n ← mcsfs_strlen_bound (Ref s) (MCSFS1_MAX_NAME + 1);
  if negb (n =? name_len) then Some false else
  c ← mcsfs_memcmp s name name_len;
  Some (c =? 0).

Fixpoint find_dirent_loop (n : nat) (i : Z) (dir name : list Z) (name_len : Z) :
    option (option Z) :=
  match n with
  | O => Some None
  | S n' =>
      m ← dirent_matches dir i name name_len;
      if (m : bool) then Some (Some i) else find_dirent_loop n' (i + 1) dir name name_len
  end.

(** Returns [*slot_out] and [*ino_out]. *)
Definition find_dirent dev (name : ptr (list Z)) : M C (Z * Z) :=
  name_len <- mret (valid_name name) ;;
  block <- dev_read dev MCSFS1_ROOT_DIR_LBA ;;
  s <- mub (deref name) ;;
  r <- mub (find_dirent_loop 16 0 block s name_len) ;;
  match r with
  | Some i => mok (i, d_ino (dirent_at block i))
  | None => merr MCSFS1_ERR_NOENT
  end.

(** ** Allocation *)

Definition alloc_inode_block dev : M C (Z * Z) :=
  bm <- load_bmaps dev ;;
  let '(ib, bb) := bm in
  ino <- mub (find_clear (Z.to_nat (MCSFS1_MAX_INODES - 1)) 2 ib) ;;
  match ino with
  | None => merr MCSFS1_ERR_NOSPC
  | Some ino =>
      lba <- mub (find_clear (Z.to_nat (block_count dev - MCSFS1_DATA_START_LBA))
                    MCSFS1_DATA_START_LBA bb) ;;
      match lba with
      | None => merr MCSFS1_ERR_NOSPC
      | Some lba =>
          ib <- mub (bit_set ib ino) ;;
          bb <- mub (bit_set bb lba) ;;
          store_bmaps dev ib bb ;;;
          mok (ino, lba)
      end
  end.

Definition alloc_data_block dev : M C Z :=
  bm <- load_bmaps dev ;;
  let '(ib, bb) := bm in
  b <- mub (find_clear (Z.to_nat (block_count dev - MCSFS1_DATA_START_LBA))
              MCSFS1_DATA_START_LBA bb) ;;
  match b with
  | None => merr MCSFS1_ERR_NOSPC
  | Some b =>
      bb <- mub (bit_set bb b) ;;
      store_bmaps dev ib bb ;;;
      mok b
  end.

(** The loop over [inode->direct]. *)
Fixpoint clear_direct (count : Z) (direct : list Z) (bb : list Z) : option (list Z) :=
  match direct with
  | [] => Some bb
  | d :: direct' =>
      bb ← (if negb (d =? 0) && (d <? count) then bit_clear bb d else Some bb);
      clear_direct count direct' bb
  end.

Definition free_inode_and_blocks dev (ino : Z) (inode : mcsfs1_inode_disk) : M C unit :=
  bm <- load_bmaps dev ;;
  let '(ib, bb) := bm in
  ib <- mub (bit_clear ib ino) ;;
  bb <- mub (clear_direct (block_count dev) (i_direct inode) bb) ;;
  store_bmaps dev ib bb.

(** ** Formatting and mounting *)

Definition format_super (count : Z) : mcsfs1_super_disk :=
  Super MCSFS1_MAGIC MCSFS1_VERSION MCSFS1_BLOCK_SIZE count MCSFS1_MAX_INODES
    MCSFS1_INODE_BMAP_LBA MCSFS1_BLOCK_BMAP_LBA MCSFS1_INODE_TABLE_LBA
    MCSFS1_INODE_TABLE_BLOCKS MCSFS1_ROOT_INO MCSFS1_ROOT_DIR_LBA MCSFS1_DATA_START_LBA 1
    (zeros 460).

(** [for (b = i; b < i + n; b++) bit_set(bb, b);] *)
Fixpoint set_bits (n : nat) (i : Z) (bb : list Z) : option (list Z) :=
  match n with
  | O => Some bb
  | S n' => bb ← bit_set bb i; set_bits n' (i + 1) bb
  end.

Definition root_inode : mcsfs1_inode_disk :=
  Inode MCSFS1_MODE_DIR 1 MCSFS1_BLOCK_SIZE (<[0%nat := MCSFS1_ROOT_DIR_LBA]> (replicate 8 0))
    (zeros 20).

Definition mcsfs1_format (dev : ptr mcsfs1_blkdev) : M C unit :=
  match dev with
  | Null => merr MCSFS1_ERR_INVAL
  | Ref dev =>
      guard_err negb ((block_count dev <? MCSFS1_MIN_BLOCKS) ||
        (MCSFS1_BLOCK_SIZE * 8 <? block_count dev)) else MCSFS1_ERR_INVAL ;;
      mfor (Z.to_nat (block_count dev)) 0 (λ lba, dev_write dev lba (zeros 512)) ;;;
      dev_write dev MCSFS1_SB_LBA (super_bytes (format_super (block_count dev))) ;;;
      ib <- mub (bit_set (zeros 512) 0) ;;
      ib <- mub (bit_set ib MCSFS1_ROOT_INO) ;;
      bb <- mub (set_bits 8 0 (zeros 512)) ;;
      bb <- mub (bit_set bb MCSFS1_ROOT_DIR_LBA) ;;
      store_bmaps dev ib bb ;;;
      write_inode dev MCSFS1_ROOT_INO root_inode ;;;
      dev_flush dev
  end.

(** The test on the root inode in [mcsfs1_mount] and [mcsfs1_fsck]. *)
Definition check_root (root : mcsfs1_inode_disk) : M C unit :=
  d0 <- mub (arr_get (i_direct root) 0) ;;
  guard_err (i_mode root =? MCSFS1_MODE_DIR) && (d0 =? MCSFS1_ROOT_DIR_LBA)
    else MCSFS1_ERR_CORRUPT ;;
  mok tt.

(** Returns [*mnt]. *)
Definition mcsfs1_mount (mnt : ptr mcsfs1_mnt) (dev : ptr mcsfs1_blkdev) : M C mcsfs1_mnt :=
  match mnt, dev with
  | Ref _, Ref dev =>
      sb <- load_super dev ;;
      root <- read_inode dev MCSFS1_ROOT_INO ;;
      check_root root ;;;
      mok (Mount (Ref dev) (sb_block_count sb) (sb_data_start_lba sb))
  | _, _ => merr MCSFS1_ERR_INVAL
  end.

(** [if (mnt == 0 || mnt->dev == 0) return MCSFS1_ERR_INVAL;] *)
Definition with_mnt {A} (mnt : ptr mcsfs1_mnt) (k : mcsfs1_mnt → mcsfs1_blkdev → M C A) : M C A :=
  match mnt with
  | Ref m => match m_dev m with Ref dev => k m dev | Null => merr MCSFS1_ERR_INVAL end
  | Null => merr MCSFS1_ERR_INVAL
  end.

(** ** Files *)

Fixpoint free_slot_loop (n : nat) (i : Z) (dir : list Z) : Z :=
  match n with
  | O => MCSFS1_DIRENT_COUNT
  | S n' => if d_ino (dirent_at dir i) =? 0 then i else free_slot_loop n' (i + 1) dir
  end.

Definition file_inode (first_data : Z) : mcsfs1_inode_disk :=
  Inode MCSFS1_MODE_FILE 1 0 (<[0%nat := first_data]> (replicate 8 0)) (zeros 20).

Definition mcsfs1_create (mnt : ptr mcsfs1_mnt) (name : ptr (list Z)) : M C unit :=
  with_mnt mnt (λ _ dev,
  name_len <- mret (valid_name name) ;;
  found <- mstatus (find_dirent dev name) ;;
  guard_err match found with inl _ => true | inr _ => false end else MCSFS1_ERR_EXIST ;;
  dir <- dev_read dev MCSFS1_ROOT_DIR_LBA ;;
  let free_slot := free_slot_loop 16 0 dir in
  guard_err negb (free_slot =? MCSFS1_DIRENT_COUNT) else MCSFS1_ERR_NOSPC ;;
  al <- alloc_inode_block dev ;;
  let '(ino, first_data) := al in
  write_inode dev ino (file_inode first_data) ;;;
  s <- mub (deref name) ;;
  nm <- mub (mcsfs_memset (d_name (dirent_at dir free_slot)) 0 MCSFS1_MAX_NAME) ;;
  nm <- mub (mcsfs_memcpy nm s name_len) ;;
  dev_write dev MCSFS1_ROOT_DIR_LBA (dirent_set dir free_slot (Dirent ino MCSFS1_MODE_FILE nm)) ;;;
  dev_flush dev).

(** The number of blocks for [len] bytes. *)
Definition blocks_for (len : Z) : Z := u32 (len + MCSFS1_BLOCK_SIZE - 1) / MCSFS1_BLOCK_SIZE.

(** The loop that gives the file the blocks it lacks; the value carried is
    [inode.direct]. *)
Definition grow_body dev (i : Z) (direct : list Z) : M C (list Z) :=
  d <- mub (arr_get direct i) ;;
  if d =? 0 then b <- alloc_data_block dev ;; mub (arr_set direct i b) else mok direct.

(** The loop that writes the data; the value carried is [written]. *)
Definition write_body dev (direct : list Z) (buf : ptr (list Z)) (len : Z) (i written : Z) :
    M C Z :=
  let remain := u32 (len - written) in
  let chunk := if MCSFS1_BLOCK_SIZE <? remain then MCSFS1_BLOCK_SIZE else remain in
  block <- mub (if chunk =? 0 then Some (zeros 512) else
                b ← deref buf;
                src ← bytes_from written b;
                mcsfs_memcpy (zeros 512) src chunk) ;;
  lba <- mub (arr_get direct i) ;;
  dev_write dev lba block ;;;
  mok (u32 (written + chunk)).

Definition mcsfs1_write (mnt : ptr mcsfs1_mnt) (name buf : ptr (list Z)) (len : Z) : M C unit :=
  with_mnt mnt (λ _ dev,
  guard_err negb (is_null buf && negb (len =? 0)) else MCSFS1_ERR_INVAL ;;
  guard_err len <=? MCSFS1_DIRECT_BLOCKS * MCSFS1_BLOCK_SIZE else MCSFS1_ERR_RANGE ;;
  found <- find_dirent dev name ;;
  let ino := found.2 in
  inode <- read_inode dev ino ;;
  guard_err i_mode inode =? MCSFS1_MODE_FILE else MCSFS1_ERR_ISDIR ;;
  let blocks_needed := if blocks_for len =? 0 then 1 else blocks_for len in
  direct <- mfold (Z.to_nat blocks_needed) 0 (i_direct inode) (grow_body dev) ;;
  mfold (Z.to_nat blocks_needed) 0 0 (write_body dev direct buf len) ;;;
  write_inode dev ino (Inode (i_mode inode) (i_links inode) len direct (i_reserved inode)) ;;;
  dev_flush dev).

(** The loop of [mcsfs1_read]; the value carried is the buffer and [copied]. *)
Definition read_body dev (count : Z) (inode : mcsfs1_inode_disk) (i : Z) (st : list Z * Z) :
    M C (list Z * Z) :=
  let '(buf, copied) := st in
  d <- mub (arr_get (i_direct inode) i) ;;
  guard_err negb ((d =? 0) || (count <=? d)) else MCSFS1_ERR_CORRUPT ;;
  block <- dev_read dev d ;;
  let remain := u32 (i_size inode - copied) in
  let chunk := if MCSFS1_BLOCK_SIZE <? remain then MCSFS1_BLOCK_SIZE else remain in
  buf <- mub (at_off copied buf (λ b, mcsfs_memcpy b block chunk)) ;;
  mok (buf, u32 (copied + chunk)).

(** Returns the buffer after the call and [*out_len]. *)
Definition mcsfs1_read (mnt : ptr mcsfs1_mnt) (name buf : ptr (list Z)) (cap : Z)
    (out_len : ptr Z) : M C (list Z * Z) :=
  with_mnt mnt (λ m dev,
  match buf, out_len with
  | Ref buf, Ref _ =>
      found <- find_dirent dev name ;;
      inode <- read_inode dev found.2 ;;
      guard_err i_mode inode =? MCSFS1_MODE_FILE else MCSFS1_ERR_ISDIR ;;
      guard_err i_size inode <=? cap else MCSFS1_ERR_RANGE ;;
      st <- mfold (Z.to_nat (blocks_for (i_size inode))) 0 (buf, 0)
              (read_body dev (m_block_count m) inode) ;;
      mok (st.1, i_size inode)
  | _, _ => merr MCSFS1_ERR_INVAL
  end).

Definition zero_inode : mcsfs1_inode_disk := Inode 0 0 0 (replicate 8 0) (zeros 20).

Definition mcsfs1_unlink (mnt : ptr mcsfs1_mnt) (name : ptr (list Z)) : M C unit :=
  with_mnt mnt (λ _ dev,
  found <- find_dirent dev name ;;
  let '(slot, ino) := found in
  inode <- read_inode dev ino ;;
  guard_err i_mode inode =? MCSFS1_MODE_FILE else MCSFS1_ERR_ISDIR ;;
  dir <- dev_read dev MCSFS1_ROOT_DIR_LBA ;;
  dir <- mub (at_off (slot * 32) dir (λ d, mcsfs_memset d 0 32)) ;;
  dev_write dev MCSFS1_ROOT_DIR_LBA dir ;;;
  free_inode_and_blocks dev ino inode ;;;
  write_inode dev ino zero_inode ;;;
  dev_flush dev).

(** ** Consistency check *)

(** [bit_test(bb, b)] for every [b] in [i .. i + n - 1]. *)
Fixpoint all_set (n : nat) (i : Z) (bb : list Z) : option bool :=
  match n with
  | O => Some true
  | S n' =>
      t ← bit_test bb i;
      if (t : bool) then all_set n' (i + 1) bb else Some false
  end.

(** The loop over the blocks of one file. *)
Fixpoint fsck_blocks (n : nat) (j : Z) (count : Z) (direct bb : list Z) : option bool :=
  match n with
  | O => Some true
  | S n' =>
      lba ← arr_get direct j;
      if (lba <? MCSFS1_DATA_START_LBA) || (count <=? lba) then Some false else
      t ← bit_test bb lba;
      if (t : bool) then fsck_blocks n' (j + 1) count direct bb else Some false
  end.

(** One directory entry. *)
Definition fsck_entry dev (ib bb : list Z) (de : mcsfs1_dirent_disk) : M C unit :=
  if d_ino de =? 0 then mok tt else
  guard_err negb ((MCSFS1_MAX_INODES <? d_ino de) || negb (d_type de =? MCSFS1_MODE_FILE))
    else MCSFS1_ERR_CORRUPT ;;
  t <- mub (bit_test ib (d_ino de)) ;;
  guard_err t else MCSFS1_ERR_CORRUPT ;;
  inode <- read_inode dev (d_ino de) ;;
  guard_err negb (negb (i_mode inode =? MCSFS1_MODE_FILE) ||
    (MCSFS1_DIRECT_BLOCKS * MCSFS1_BLOCK_SIZE <? i_size inode)) else MCSFS1_ERR_CORRUPT ;;
  let needed := if blocks_for (i_size inode) =? 0 then 1 else blocks_for (i_size inode) in
  ok <- mub (fsck_blocks (Z.to_nat needed) 0 (block_count dev) (i_direct inode) bb) ;;
  guard_err ok else MCSFS1_ERR_CORRUPT ;;
  mok tt.

Definition mcsfs1_fsck (dev : ptr mcsfs1_blkdev) : M C unit :=
  match dev with
  | Null => merr MCSFS1_ERR_INVAL
  | Ref dev =>
      load_super dev ;;;
      bm <- load_bmaps dev ;;
      let '(ib, bb) := bm in
      r <- mub (bit_test ib MCSFS1_ROOT_INO) ;;
      d <- mub (bit_test bb MCSFS1_ROOT_DIR_LBA) ;;
      guard_err r && d else MCSFS1_ERR_CORRUPT ;;
      sys <- mub (all_set 8 0 bb) ;;
      guard_err sys else MCSFS1_ERR_CORRUPT ;;
      root <- read_inode dev MCSFS1_ROOT_INO ;;
      check_root root ;;;
      dir <- dev_read dev MCSFS1_ROOT_DIR_LBA ;;
      mfor 16 0 (λ i, fsck_entry dev ib bb (dirent_at dir i))
  end.
End Mcsfs1.

Arguments mcsfs1_blkdev : clear implicits.
Arguments mcsfs1_mnt : clear implicits.
