(* ===== verification/Mcsfs1View.v ===== *)
(** MCSFS1 on a device that works: the disk as bitmaps, inodes, directory
    entries and data blocks, and what each access to the metadata does to
    them. *)
From S2P Require Import Prelude Bitmap Bytes Cstr Err Mcsfs1.

#[local] Open Scope err_scope.

(** ** The device's contract *)

(** What the file system expects of the three callbacks: [disk] is the array
    of blocks that the object behind [ctx] stands for. *)
Class WorkingDevice {C} (dev : mcsfs1_blkdev C) (disk : C → list (list Z)) : Prop := {
  wd_read : ∃ read, bd_read dev = Ref read ∧
    ∀ c lba b, 0 ≤ lba → disk c !! Z.to_nat lba = Some b →
    ∃ c', read lba c = (c', (0, b)) ∧ disk c' = disk c;
  wd_write : ∃ write, bd_write dev = Ref write ∧
    ∀ c lba b, 0 ≤ lba < zlen (disk c) → length b = 512%nat →
    ∃ c', write lba b c = (c', 0) ∧ disk c' = <[Z.to_nat lba := b]> (disk c);
  wd_flush : ∃ flush, bd_flush dev = Ref flush ∧
    ∀ c, ∃ c', flush c = (c', 0) ∧ disk c' = disk c;
}.

(** ** Blocks *)

Definition blk (d : list (list Z)) (lba : Z) : list Z := default [] (d !! Z.to_nat lba).
Definition put (lba : Z) (b : list Z) (d : list (list Z)) : list (list Z) :=
  <[Z.to_nat lba := b]> d.

Definition super_ok (n : Z) (sb : mcsfs1_super_disk) : Prop :=
  sb_magic sb = MCSFS1_MAGIC ∧ sb_version sb = MCSFS1_VERSION ∧
  sb_block_size sb = MCSFS1_BLOCK_SIZE ∧ sb_block_count sb = n ∧
  sb_inode_count sb = MCSFS1_MAX_INODES ∧ sb_inode_bmap_lba sb = MCSFS1_INODE_BMAP_LBA ∧
  sb_block_bmap_lba sb = MCSFS1_BLOCK_BMAP_LBA ∧
  sb_inode_table_lba sb = MCSFS1_INODE_TABLE_LBA ∧ sb_root_ino sb = MCSFS1_ROOT_INO ∧
  sb_root_dir_lba sb = MCSFS1_ROOT_DIR_LBA ∧ sb_data_start_lba sb = MCSFS1_DATA_START_LBA.

(** A disk of [n] blocks with a valid super block. *)
Record disk_ok (n : Z) (d : list (list Z)) : Prop := {
  dk_size : 16 ≤ n ≤ 4096;
  dk_length : zlen d = n;
  dk_blocks : Forall block_ok d;
  dk_super : super_ok n (super_of (blk d 0));
}.

Lemma blk_lookup n d lba : disk_ok n d → 0 ≤ lba < n → d !! Z.to_nat lba = Some (blk d lba).
Proof.
  intros Hd Hl. unfold blk. destruct (d !! Z.to_nat lba) eqn:E; [done|].
  apply lookup_ge_None in E. pose proof (dk_length _ _ Hd). unfold zlen in *. lia.
Qed.

Lemma blk_ok n d lba : disk_ok n d → 0 ≤ lba < n → block_ok (blk d lba).
Proof.
  intros Hd Hl. eapply Forall_lookup_1; [apply (dk_blocks _ _ Hd)|]. by apply blk_lookup with n.
Qed.

Lemma blk_zlen n d lba : disk_ok n d → 0 ≤ lba < n → zlen (blk d lba) = 512.
Proof. intros Hd Hl. destruct (blk_ok n d lba) as [H _]; [done..|]. unfold zlen. lia. Qed.

Lemma blk_put n d lba b i : disk_ok n d → 0 ≤ lba < n → 0 ≤ i →
  blk (put lba b d) i = if decide (i = lba) then b else blk d i.
Proof.
  intros Hd Hl Hi. unfold blk, put. pose proof (dk_length _ _ Hd). unfold zlen in *.
  case_decide as E.
  - subst. by rewrite list_lookup_insert_eq by lia.
  - by rewrite list_lookup_insert_ne by lia.
Qed.

Lemma put_ok n d lba b : disk_ok n d → 1 ≤ lba < n → block_ok b → disk_ok n (put lba b d).
Proof.
  intros Hd Hl Hb. destruct Hd as [Hn Hlen Hbl Hs]. split; [done| | |].
  - unfold put. by rewrite zlen_insert.
  - by apply Forall_insert.
  - rewrite (blk_put n) by (done || lia). by rewrite decide_False by lia.
Qed.

(** ** Calls on a disk *)

Section Runs.
Context {C : Type} (dev : mcsfs1_blkdev C) (disk : C → list (list Z)).
Context {W : WorkingDevice dev disk}.
Implicit Types d : list (list Z).

(** The call finds the disk [d], leaves the disk [d'] and returns [r]. *)
Definition runs {A} (m : M C A) d d' (r : Z + A) : Prop :=
  ∀ c, disk c = d → ∃ c', m c = Some (c', r) ∧ disk c' = d'.

Lemma runs_ok {A} (a : A) d : runs (mok a) d d (inr a).
Proof. intros c Hc. by exists c. Qed.
Lemma runs_err {A} rc d : runs (A := A) (merr rc) d d (inl rc).
Proof. intros c Hc. by exists c. Qed.

Lemma runs_bind {A B} (m : M C A) (k : A → M C B) d d1 d2 a r :
  runs m d d1 (inr a) → runs (k a) d1 d2 r → runs (mseq m k) d d2 r.
Proof.
  intros Hm Hk c Hc. destruct (Hm c Hc) as (c1 & E1 & H1). destruct (Hk c1 H1) as (c2 & E2 & H2).
  exists c2. by rewrite (mseq_inr _ _ _ _ _ E1).
Qed.

Lemma runs_fail {A B} (m : M C A) (k : A → M C B) d d1 rc :
  runs m d d1 (inl rc) → runs (mseq m k) d d1 (inl rc).
Proof.
  intros Hm c Hc. destruct (Hm c Hc) as (c1 & E1 & H1). exists c1.
  by rewrite (mseq_inl _ _ _ _ _ E1).
Qed.

Lemma runs_mub {A B} (o : option A) (k : A → M C B) d d' a r :
  o = Some a → runs (k a) d d' r → runs (mseq (mub o) k) d d' r.
Proof. intros -> Hk. exact Hk. Qed.

Lemma runs_mret {A B} (o : option (Z + A)) (k : A → M C B) d d' a r :
  o = Some (inr a) → runs (k a) d d' r → runs (mseq (mret o) k) d d' r.
Proof. intros -> Hk. exact Hk. Qed.

Lemma runs_status {A B} (m : M C A) (k : Z + A → M C B) d d1 d2 r r' :
  runs m d d1 r → runs (k r) d1 d2 r' → runs (mseq (mstatus m) k) d d2 r'.
Proof.
  intros Hm Hk c Hc. destruct (Hm c Hc) as (c1 & E1 & H1). destruct (Hk c1 H1) as (c2 & E2 & H2).
  exists c2. split; [|done]. rewrite <-E2. unfold mseq, mstatus. by rewrite E1.
Qed.

Variable n : Z.
Hypothesis Hcount : block_count dev = n.

Lemma read_runs d lba : disk_ok n d → 0 ≤ lba < n → runs (dev_read dev lba) d d (inr (blk d lba)).
Proof.
  intros Hd Hl c Hc. destruct wd_read as (read & E & Hread). unfold dev_read.
  rewrite E, Hcount. destruct (Z.leb_spec n lba); [lia|].
  destruct (Hread c lba (blk d lba)) as (c' & Hr & Hc'); [lia| |].
  { rewrite Hc. by apply blk_lookup with n. }
  exists c'. rewrite Hr. split; [done|congruence].
Qed.

(** Writing needs no more than a disk of the right size. *)
Lemma write_sized_runs d lba b : zlen d = n → 0 ≤ lba < n → length b = 512%nat →
  runs (dev_write dev lba b) d (put lba b d) (inr tt).
Proof.
  intros Hd Hl Hb c Hc. destruct wd_write as (write & E & Hwrite). unfold dev_write.
  rewrite E, Hcount. destruct (Z.leb_spec n lba); [lia|].
  destruct (Hwrite c lba b) as (c' & Hr & Hc'); [|done|].
  { by rewrite Hc, Hd. }
  exists c'. rewrite Hr. split; [done|]. by rewrite Hc', Hc.
Qed.

Lemma write_runs d lba b : disk_ok n d → 0 ≤ lba < n → length b = 512%nat →
  runs (dev_write dev lba b) d (put lba b d) (inr tt).
Proof. intros Hd. apply write_sized_runs, Hd. Qed.

Lemma flush_runs d : runs (dev_flush dev) d d (inr tt).
Proof.
  intros c Hc. destruct wd_flush as (flush & E & Hflush). unfold dev_flush. rewrite E.
  destruct (Hflush c) as (c' & Hr & Hc'). exists c'. rewrite Hr. split; [done|congruence].
Qed.

Lemma load_super_runs d : disk_ok n d → runs (load_super dev) d d (inr (super_of (blk d 0))).
Proof.
  intros Hd. unfold load_super. pose proof (dk_size _ _ Hd).
  eapply runs_bind; [apply read_runs; [done|unfold MCSFS1_SB_LBA; lia]|]. cbn zeta.
  unfold MCSFS1_SB_LBA.
  destruct (dk_super _ _ Hd) as (-> & -> & -> & -> & -> & -> & -> & -> & -> & -> & ->).
  rewrite Hcount. simpl. rewrite Z.eqb_refl. simpl. unfold MCSFS1_DATA_START_LBA.
  destruct (Z.ltb_spec 8 n); [apply runs_ok|lia].
Qed.

Lemma load_bmaps_runs d : disk_ok n d → runs (load_bmaps dev) d d (inr (blk d 1, blk d 2)).
Proof.
  intros Hd. pose proof (dk_size _ _ Hd).
  eapply runs_bind; [apply read_runs; [done|unfold MCSFS1_INODE_BMAP_LBA; lia]|].
  eapply runs_bind; [apply read_runs; [done|unfold MCSFS1_BLOCK_BMAP_LBA; lia]|].
  apply runs_ok.
Qed.

Lemma store_bmaps_runs d ib bb : disk_ok n d → block_ok ib → block_ok bb →
  runs (store_bmaps dev ib bb) d (put 2 bb (put 1 ib d)) (inr tt).
Proof.
  intros Hd Hi Hb. pose proof (dk_size _ _ Hd). unfold store_bmaps.
  eapply runs_bind; [apply write_runs; [done|unfold MCSFS1_INODE_BMAP_LBA; lia|apply Hi]|].
  apply write_runs; [|unfold MCSFS1_BLOCK_BMAP_LBA; lia|apply Hb].
  apply put_ok; [done|unfold MCSFS1_INODE_BMAP_LBA; lia|done].
Qed.
End Runs.

(** ** Inodes and directory entries in their blocks *)

Definition inode_ok (i : mcsfs1_inode_disk) : Prop :=
  is_u16 (i_mode i) ∧ is_u16 (i_links i) ∧ is_u32 (i_size i) ∧
  length (i_direct i) = 8%nat ∧ Forall is_u32 (i_direct i) ∧
  length (i_reserved i) = 20%nat ∧ Forall is_u8 (i_reserved i).

Lemma fs1_inode_of_bytes i : inode_ok i → inode_of (inode_bytes i) = i.
Proof.
  destruct i as [m l s d r]. unfold inode_ok, inode_of, inode_bytes.
  cbn [i_mode i_links i_size i_direct i_reserved].
  intros (Hm & Hl & Hs & Hlen & Hd & _ & _).
  destruct d as [|d0 [|d1 [|d2 [|d3 [|d4 [|d5 [|d6 [|d7 []]]]]]]]]; try done.
  rewrite !Forall_cons in Hd. destruct Hd as (H0 & H1 & H2 & H3 & H4 & H5 & H6 & H7 & _).
  cbn [fmap list_fmap concat]. rewrite app_nil_r, <-!app_assoc.
  f_equal; try layout. by repeat (apply (f_equal2 cons); [layout|]).
Qed.

Lemma length_fs1_inode_bytes i : inode_ok i → length (inode_bytes i) = 60%nat.
Proof.
  destruct i as [m l s d r]. unfold inode_ok, inode_bytes.
  cbn [i_mode i_links i_size i_direct i_reserved].
  intros (Hm & Hl & Hs & Hlen & Hd & Hr & _).
  destruct d as [|d0 [|d1 [|d2 [|d3 [|d4 [|d5 [|d6 [|d7 []]]]]]]]]; try done.
  cbn [fmap list_fmap concat]. rewrite !length_app, !length_le_encode, Hr. simpl. done.
Qed.

Lemma fs1_inode_bytes_u8 i : inode_ok i → Forall is_u8 (inode_bytes i).
Proof.
  destruct i as [m l s d r]. unfold inode_ok, inode_bytes.
  cbn [i_mode i_links i_size i_direct i_reserved].
  intros (Hm & Hl & Hs & Hlen & Hd & _ & Hr).
  repeat (apply Forall_app; split); try apply le_encode_u8; try done.
  clear. induction d as [|x d IH]; [constructor|]. cbn [fmap list_fmap concat].
  apply Forall_app. split; [apply le_encode_u8|done].
Qed.

Lemma fs1_inode_of_ok l : length l = 60%nat → Forall is_u8 l → inode_ok (inode_of l).
Proof.
  intros Hl Hb. unfold inode_ok, inode_of. cbn [i_mode i_links i_size i_direct i_reserved].
  repeat split; try (by apply field_u16 || apply field_u32); repeat constructor;
    try (by apply field_u32).
  - rewrite length_drop. lia.
  - by apply Forall_drop.
Qed.

Definition dirent_ok (d : mcsfs1_dirent_disk) : Prop :=
  is_u32 (d_ino d) ∧ is_u8 (d_type d) ∧ length (d_name d) = 27%nat ∧ Forall is_u8 (d_name d).

Lemma fs1_dirent_of_bytes d : dirent_ok d → dirent_of (dirent_bytes d) = d.
Proof.
  destruct d as [i t n]. unfold dirent_ok, dirent_of, dirent_bytes. cbn [d_ino d_type d_name].
  intros (Hi & Ht & _). f_equal; layout.
Qed.

Lemma length_fs1_dirent_bytes d : dirent_ok d → length (dirent_bytes d) = 32%nat.
Proof.
  intros (_ & _ & Hn & _). unfold dirent_bytes. by rewrite !length_app, !length_le_encode, Hn.
Qed.

Lemma dirent_at_ok dir i : block_ok dir → 0 ≤ i < 16 → dirent_ok (dirent_at dir i).
Proof.
  intros [Hl Hb] Hi. unfold dirent_at.
  assert (length (slice (Z.to_nat i * 32) 32 dir) = 32%nat) by (apply slice_length; lia).
  assert (Forall is_u8 (slice (Z.to_nat i * 32) 32 dir)) by (by apply Forall_take, Forall_drop).
  unfold dirent_ok, dirent_of. cbn [d_ino d_type d_name].
  split; [by apply field_u32|]. split; [by apply (field_range 1)|].
  split; [rewrite length_drop; lia|by apply Forall_drop].
Qed.

Lemma dirent_set_at dir i j d : length dir = 512%nat → dirent_ok d → 0 ≤ i < 16 → 0 ≤ j < 16 →
  dirent_at (dirent_set dir i d) j = if decide (j = i) then d else dirent_at dir j.
Proof.
  intros Hl Hd Hi Hj. pose proof (length_fs1_dirent_bytes d Hd) as Hlen.
  unfold dirent_at, dirent_set. case_decide as E.
  - subst j. rewrite <-Hlen at 2. rewrite slice_splice_same by lia. by apply fs1_dirent_of_bytes.
  - rewrite slice_splice_other; [done|lia|]. rewrite Hlen. lia.
Qed.

Lemma dirent_set_ok dir i d : block_ok dir → dirent_ok d → 0 ≤ i < 16 →
  block_ok (dirent_set dir i d).
Proof.
  intros [Hl Hb] Hd Hi. pose proof (length_fs1_dirent_bytes d Hd) as Hlen.
  destruct Hd as (_ & _ & _ & Hn). split.
  - unfold dirent_set. rewrite length_splice; lia.
  - apply splice_u8; [|done]. unfold dirent_bytes.
    repeat (apply Forall_app; split); (apply le_encode_u8 || done).
Qed.

(** ** The disk as the file system sees it *)

Record fs := Fs {
  f_ib : Z → bool;
  f_bb : Z → bool;
  f_inode : Z → mcsfs1_inode_disk;
  f_slot : Z → mcsfs1_dirent_disk;
  f_data : Z → list Z;
}.

Definition inode_at (d : list (list Z)) (ino : Z) : mcsfs1_inode_disk :=
  inode_of (slice (Z.to_nat (inode_off ino)) 60 (blk d (inode_lba ino))).
Definition view (d : list (list Z)) : fs :=
  Fs (bit (blk d 1)) (bit (blk d 2)) (inode_at d) (dirent_at (blk d 7)) (blk d).

Definition upd {A} (i : Z) (x : A) (f : Z → A) : Z → A := λ j, if decide (j = i) then x else f j.
Definition set_ib (f : Z → bool) (v : fs) : fs := Fs f (f_bb v) (f_inode v) (f_slot v) (f_data v).
Definition set_bb (f : Z → bool) (v : fs) : fs := Fs (f_ib v) f (f_inode v) (f_slot v) (f_data v).
Definition set_inode (ino : Z) (x : mcsfs1_inode_disk) (v : fs) : fs :=
  Fs (f_ib v) (f_bb v) (upd ino x (f_inode v)) (f_slot v) (f_data v).
Definition set_slot (i : Z) (x : mcsfs1_dirent_disk) (v : fs) : fs :=
  Fs (f_ib v) (f_bb v) (f_inode v) (upd i x (f_slot v)) (f_data v).
Definition set_data (b : Z) (x : list Z) (v : fs) : fs :=
  Fs (f_ib v) (f_bb v) (f_inode v) (f_slot v) (upd b x (f_data v)).

(** Two views are the same when they agree on what a disk of [n] blocks has:
    32 inodes, 16 directory entries, and the bits and data blocks below [n]. *)
Record same (n : Z) (v w : fs) : Prop := {
  same_ib : ∀ i, 0 ≤ i ≤ 32 → f_ib v i = f_ib w i;
  same_bb : ∀ b, 0 ≤ b < n → f_bb v b = f_bb w b;
  same_inode : ∀ i, 1 ≤ i ≤ 32 → f_inode v i = f_inode w i;
  same_slot : ∀ i, 0 ≤ i < 16 → f_slot v i = f_slot w i;
  same_data : ∀ b, 8 ≤ b < n → f_data v b = f_data w b;
}.

#[export] Instance same_equivalence n : Equivalence (same n).
Proof.
  split.
  - intros v. by split.
  - intros v w []. split; intros; symmetry; auto.
  - intros v w x [a b c e f] [a' b' c' e' f']. split; intros i Hi;
      [rewrite a by done; by apply a'|rewrite b by done; by apply b'|rewrite c by done; by apply c'
      |rewrite e by done; by apply e'|rewrite f by done; by apply f'].
Qed.

#[export] Instance set_inode_proper n ino x : Proper (same n ==> same n) (set_inode ino x).
Proof. intros v w []. split; intros; simpl; unfold upd; try case_decide; auto. Qed.
#[export] Instance set_slot_proper n i x : Proper (same n ==> same n) (set_slot i x).
Proof. intros v w []. split; intros; simpl; unfold upd; try case_decide; auto. Qed.
#[export] Instance set_data_proper n b x : Proper (same n ==> same n) (set_data b x).
Proof. intros v w []. split; intros; simpl; unfold upd; try case_decide; auto. Qed.
#[export] Instance set_ib_proper n f : Proper (same n ==> same n) (set_ib f).
Proof. intros v w []. split; intros; simpl; auto. Qed.
#[export] Instance set_bb_proper n f : Proper (same n ==> same n) (set_bb f).
Proof. intros v w []. split; intros; simpl; auto. Qed.

(** Where inodes are. *)
Lemma inode_place ino : 1 ≤ ino ≤ 32 →
  3 ≤ inode_lba ino < 7 ∧ 0 ≤ inode_off ino ∧ inode_off ino + 60 ≤ 512.
Proof.
  intros Hi. unfold inode_lba, inode_off, MCSFS1_INODE_TABLE_LBA. change (512 / 60) with 8. dlia.
Qed.

Lemma inode_apart i j : 1 ≤ i ≤ 32 → 1 ≤ j ≤ 32 → i ≠ j → inode_lba i = inode_lba j →
  inode_off i + 60 ≤ inode_off j ∨ inode_off j + 60 ≤ inode_off i.
Proof.
  unfold inode_lba, inode_off, MCSFS1_INODE_TABLE_LBA. change (512 / 60) with 8. dlia.
Qed.

Lemma inode_at_ok n d ino : disk_ok n d → 1 ≤ ino ≤ 32 → inode_ok (inode_at d ino).
Proof.
  intros Hd Hi. destruct (inode_place ino Hi) as (Hl & Ho & Ho').
  pose proof (dk_size _ _ Hd). destruct (blk_ok n d (inode_lba ino)) as [Hlen Hb]; [done|lia|].
  apply fs1_inode_of_ok; [apply slice_length; lia|]. by apply Forall_take, Forall_drop.
Qed.

(** Views after a block is replaced. *)
Lemma view_put_data n d b x : disk_ok n d → 8 ≤ b < n →
  same n (view (put b x d)) (set_data b x (view d)).
Proof.
  intros Hd Hb. pose proof (dk_size _ _ Hd).
  assert (∀ i, 0 ≤ i < 8 → blk (put b x d) i = blk d i) as Hlow.
  { intros i Hi. rewrite (blk_put n) by (done || lia). by rewrite decide_False by lia. }
  split; intros i Hi; simpl; try (by rewrite Hlow by lia).
  - unfold inode_at. destruct (inode_place i Hi). by rewrite Hlow by lia.
  - unfold upd. by rewrite (blk_put n) by (done || lia).
Qed.

(** The entries of a copy of the directory block. *)
Definition dir_copy (dir : list Z) (v : fs) : Prop :=
  block_ok dir ∧ ∀ i, 0 ≤ i < 16 → dirent_at dir i = f_slot v i.

Lemma view_put_dir n d dir i x : disk_ok n d → dir_copy dir (view d) → 0 ≤ i < 16 → dirent_ok x →
  same n (view (put 7 (dirent_set dir i x) d)) (set_slot i x (view d)).
Proof.
  intros Hd [[Hlen _] Hdir] Hi Hx. pose proof (dk_size _ _ Hd).
  split; intros j Hj; simpl; try (rewrite (blk_put n) by (done || lia));
    try (rewrite decide_False by lia; done).
  - unfold inode_at. destruct (inode_place j Hj). rewrite (blk_put n) by (done || lia).
    by rewrite decide_False by lia.
  - rewrite decide_True by done. unfold upd. rewrite dirent_set_at by done.
    case_decide; [done|]. by apply Hdir.
Qed.

Lemma view_put_bmaps n d ib bb : disk_ok n d → zlen ib = 512 →
  block_ok ib →
  same n (view (put 2 bb (put 1 ib d))) (set_ib (bit ib) (set_bb (bit bb) (view d))).
Proof.
  intros Hd Hl Hi. pose proof (dk_size _ _ Hd).
  assert (disk_ok n (put 1 ib d)) as Hd1 by (apply put_ok; [done|lia|done]).
  assert (∀ i, 0 ≤ i → blk (put 2 bb (put 1 ib d)) i =
    if decide (i = 2) then bb else if decide (i = 1) then ib else blk d i) as Hb.
  { intros i Hi0. rewrite (blk_put n) by (done || lia). by rewrite (blk_put n) by (done || lia). }
  split; intros i Hi0; simpl; try (by rewrite Hb by lia).
  - unfold inode_at. destruct (inode_place i Hi0). rewrite Hb by lia.
    by rewrite !decide_False by lia.
  - rewrite Hb by lia. by rewrite !decide_False by lia.
Qed.

Lemma view_put_inode n d ino x : disk_ok n d → 1 ≤ ino ≤ 32 → inode_ok x →
  same n (view (put (inode_lba ino)
    (splice (Z.to_nat (inode_off ino)) (inode_bytes x) (blk d (inode_lba ino))) d))
    (set_inode ino x (view d)).
Proof.
  intros Hd Hi Hx. pose proof (dk_size _ _ Hd). destruct (inode_place ino Hi) as (Hl & Ho & Ho').
  destruct (blk_ok n d (inode_lba ino)) as [Hlen _]; [done|lia|].
  pose proof (length_fs1_inode_bytes x Hx) as Hxl.
  split; intros j Hj; simpl; try (rewrite (blk_put n) by (done || lia));
    try (rewrite decide_False by lia; done).
  unfold inode_at, upd. destruct (inode_place j Hj) as (Hl2 & Ho2 & Ho2').
  rewrite (blk_put n) by (done || lia). destruct (decide (j = ino)) as [->|Hne].
  - rewrite decide_True by done. rewrite <-Hxl at 1. rewrite slice_splice_same by lia.
    by apply fs1_inode_of_bytes.
  - case_decide as E; [|done]. rewrite slice_splice_other; [by rewrite E|lia|].
    rewrite Hxl. destruct (inode_apart j ino Hj Hi Hne E); lia.
Qed.

(** ** Metadata accesses *)

Section Accesses.
Context {C : Type} (dev : mcsfs1_blkdev C) (disk : C → list (list Z)).
Context {W : WorkingDevice dev disk}.
Variable n : Z.
Hypothesis Hcount : block_count dev = n.

Lemma inode_guards ino : 1 ≤ ino ≤ 32 →
  negb ((ino =? 0) || (MCSFS1_MAX_INODES <? ino)) = true ∧
  (inode_lba ino <? MCSFS1_DATA_START_LBA) = true.
Proof.
  intros Hi. destruct (inode_place ino Hi). unfold MCSFS1_MAX_INODES, MCSFS1_DATA_START_LBA.
  destruct (Z.eqb_spec ino 0), (Z.ltb_spec 32 ino); lia.
Qed.

Lemma read_inode_runs d ino : disk_ok n d → 1 ≤ ino ≤ 32 →
  runs disk (read_inode dev ino) d d (inr (f_inode (view d) ino)).
Proof.
  intros Hd Hi. destruct (inode_place ino Hi) as (Hl & Ho & Ho').
  destruct (inode_guards ino Hi) as [G1 G2]. pose proof (dk_size _ _ Hd).
  destruct (blk_ok n d (inode_lba ino)) as [Hlen _]; [done|lia|].
  unfold read_inode. rewrite G1, G2.
  eapply runs_bind; [by apply (read_runs dev disk n); [..|lia]|].
  eapply runs_mub; [unfold bytes_from; rewrite decide_True by (unfold zlen; lia); done|].
  eapply runs_mub.
  { unfold mcsfs_memcpy. apply mem_copy_ok; [done|]. rewrite length_drop. simpl. lia. }
  change (drop _ (zeros 60)) with (@nil Z). rewrite app_nil_r. apply runs_ok.
Qed.

Lemma write_inode_runs d ino x : disk_ok n d → 1 ≤ ino ≤ 32 → inode_ok x →
  ∃ d', runs disk (write_inode dev ino x) d d' (inr tt) ∧ disk_ok n d' ∧
    same n (view d') (set_inode ino x (view d)).
Proof.
  intros Hd Hi Hx. destruct (inode_place ino Hi) as (Hl & Ho & Ho').
  destruct (inode_guards ino Hi) as [G1 G2]. pose proof (dk_size _ _ Hd).
  pose proof (blk_ok n d (inode_lba ino) Hd) as Hb.
  destruct Hb as [Hlen Hb]; [lia|]. pose proof (length_fs1_inode_bytes x Hx) as Hxl.
  exists (put (inode_lba ino)
    (splice (Z.to_nat (inode_off ino)) (inode_bytes x) (blk d (inode_lba ino))) d).
  split_and!.
  - unfold write_inode. rewrite G1, G2.
    eapply runs_bind; [by apply (read_runs dev disk n); [..|lia]|].
    eapply runs_mub.
    { unfold at_off. rewrite decide_True by (unfold zlen; lia). unfold mcsfs_memcpy.
      rewrite mem_copy_ok by (rewrite ?length_drop, ?Hxl; simpl; lia). done. }
    rewrite (take_ge (inode_bytes x)) by (rewrite Hxl; simpl; lia). rewrite drop_drop.
    replace (Z.to_nat (inode_off ino) + Z.to_nat 60)%nat
      with (Z.to_nat (inode_off ino) + length (inode_bytes x))%nat by (rewrite Hxl; simpl; lia).
    apply (write_runs dev disk n); [done..|lia|].
    fold (splice (Z.to_nat (inode_off ino)) (inode_bytes x) (blk d (inode_lba ino))).
    rewrite length_splice; lia.
  - apply put_ok; [done|lia|]. split; [rewrite length_splice; lia|].
    apply splice_u8; [by apply fs1_inode_bytes_u8|done].
  - by apply view_put_inode.
Qed.

Lemma write_dir_runs d dir i x : disk_ok n d → dir_copy dir (view d) → 0 ≤ i < 16 → dirent_ok x →
  ∃ d', runs disk (dev_write dev MCSFS1_ROOT_DIR_LBA (dirent_set dir i x)) d d' (inr tt) ∧
    disk_ok n d' ∧ same n (view d') (set_slot i x (view d)).
Proof.
  intros Hd Hdir Hi Hx. pose proof (dk_size _ _ Hd).
  pose proof (dirent_set_ok _ i x (proj1 Hdir) Hx Hi) as Hs.
  eexists. split_and!.
  - apply (write_runs dev disk n); [done..|unfold MCSFS1_ROOT_DIR_LBA; lia|apply Hs].
  - apply put_ok; [done|unfold MCSFS1_ROOT_DIR_LBA; lia|done].
  - by apply view_put_dir.
Qed.

Lemma dir_copy_read d : disk_ok n d → dir_copy (blk d 7) (view d).
Proof.
  intros Hd. pose proof (dk_size _ _ Hd). split; [by apply (blk_ok n); [|lia]|done].
Qed.

Lemma dir_copy_same dir v w : dir_copy dir v → (∀ i, 0 ≤ i < 16 → f_slot w i = f_slot v i) →
  dir_copy dir w.
Proof. intros [H1 H2] Hw. split; [done|]. intros i Hi. rewrite Hw by done. by apply H2. Qed.

Lemma write_data_runs d b x : disk_ok n d → 8 ≤ b < n → block_ok x →
  ∃ d', runs disk (dev_write dev b x) d d' (inr tt) ∧ disk_ok n d' ∧
    same n (view d') (set_data b x (view d)).
Proof.
  intros Hd Hb Hx. eexists. split_and!.
  - apply (write_runs dev disk n); [done..|lia|apply Hx].
  - apply put_ok; [done|lia|done].
  - by apply view_put_data.
Qed.

Lemma write_bmaps_runs d ib bb : disk_ok n d → block_ok ib → block_ok bb →
  ∃ d', runs disk (store_bmaps dev ib bb) d d' (inr tt) ∧ disk_ok n d' ∧
    same n (view d') (set_ib (bit ib) (set_bb (bit bb) (view d))).
Proof.
  intros Hd Hi Hb. pose proof (dk_size _ _ Hd). eexists. split_and!.
  - by apply (store_bmaps_runs dev disk n).
  - apply put_ok; [by apply put_ok; [|lia|]|lia|done].
  - apply view_put_bmaps; [done| |done]. unfold zlen. destruct Hi. lia.
Qed.
End Accesses.

(** ** Bits of a bitmap block *)

Lemma arr_set_u8 l i x l' : Forall is_u8 l → is_u8 x → arr_set l i x = Some l' → Forall is_u8 l'.
Proof. intros Hl Hx H. apply arr_set_Some in H as [_ ->]. by apply Forall_insert. Qed.

Lemma bit_set_run b i : block_ok b → 0 ≤ i < 4096 →
  ∃ b', bit_set b i = Some b' ∧ block_ok b' ∧
    ∀ j, 0 ≤ j < 4096 → bit b' j = upd i true (bit b) j.
Proof.
  intros [Hl Hb] Hi. destruct (bm_set_ok b i) as (b' & E & Hz & Hbits); [unfold zlen; lia|].
  exists b'. split; [exact E|]. split.
  - split; [unfold zlen in Hz; lia|]. unfold bm_set in E. ub_inv E.
    eapply arr_set_u8; [done| |done]. apply u8_range.
  - intros j Hj. apply Hbits. unfold zlen. lia.
Qed.

Lemma bit_clear_run b i : block_ok b → 0 ≤ i < 4096 →
  ∃ b', bit_clear b i = Some b' ∧ block_ok b' ∧
    ∀ j, 0 ≤ j < 4096 → bit b' j = upd i false (bit b) j.
Proof.
  intros [Hl Hb] Hi. destruct (bm_clear_ok b i) as (b' & E & Hz & Hbits); [unfold zlen; lia|].
  exists b'. split; [exact E|]. split.
  - split; [unfold zlen in Hz; lia|]. unfold bm_clear in E. ub_inv E.
    eapply arr_set_u8; [done| |done]. apply u8_range.
  - intros j Hj. apply Hbits. unfold zlen. lia.
Qed.

Lemma bit_test_run b i : block_ok b → 0 ≤ i < 4096 → bit_test b i = Some (bit b i).
Proof. intros [Hl _] Hi. apply (bm_test_ok b i). unfold zlen. lia. Qed.

Lemma find_clear_run k i b : block_ok b → 0 ≤ i → i + Z.of_nat k ≤ 4096 →
  ∃ r, find_clear k i b = Some r ∧
    match r with
    | None => ∀ j, i ≤ j < i + Z.of_nat k → bit b j = true
    | Some j => i ≤ j < i + Z.of_nat k ∧ bit b j = false
    end.
Proof.
  intros Hb. revert i. induction k as [|k IH]; intros i Hi Hn; cbn [find_clear].
  { exists None. split; [done|]. intros j ?. lia. }
  rewrite bit_test_run by (done || lia). cbn [mbind option_bind]. destruct (bit b i) eqn:E.
  - destruct (IH (i + 1)) as (r & Hr & Hs); [lia|lia|]. exists r. split; [done|].
    destruct r as [j|]; [split; [lia|tauto]|].
    intros j Hj. destruct (decide (j = i)) as [->|]; [done|]. apply Hs. lia.
  - exists (Some i). split; [done|]. split; [lia|done].
Qed.
