(* ===== verification/Mcsfs1Files.v ===== *)
(** The files of MCSFS1: when a disk is consistent, which files it holds, and
    what creating, writing, reading and unlinking do to them. *)
From S2P Require Import Prelude Bitmap Bytes Cstr Err Mcsfs1 Mcsfs1View.

#[local] Open Scope err_scope.

(** ** Files *)

(** The slot carries the name [s]. *)
Definition named (s : list Z) (d : mcsfs1_dirent_disk) : Prop := d_ino d ≠ 0 ∧ cstr (d_name d) = s.
#[export] Instance named_dec s d : Decision (named s d).
Proof. unfold named. apply _. Defined.

Definition slot_ids : list Z := [0; 1; 2; 3; 4; 5; 6; 7; 8; 9; 10; 11; 12; 13; 14; 15].
Definition find_slot (v : fs) (s : list Z) : option Z :=
  snd <$> list_find (λ i, named s (f_slot v i)) slot_ids.

(** The bytes of the file with inode [ino]. *)
Definition content (v : fs) (ino : Z) : list Z :=
  let x := f_inode v ino in
  take (Z.to_nat (i_size x))
    (concat (f_data v <$> take (Z.to_nat (blocks_for (i_size x))) (i_direct x))).

Definition file (v : fs) (s : list Z) : option (list Z) :=
  (λ i, content v (d_ino (f_slot v i))) <$> find_slot v s.

(** The number of blocks a file has at least. *)
Definition needed (size : Z) : Z := if blocks_for size =? 0 then 1 else blocks_for size.

(** ** Consistency *)

Definition used (v : fs) (i : Z) : Prop := 0 ≤ i < 16 ∧ d_ino (f_slot v i) ≠ 0.
Definition slot_inode (v : fs) (i : Z) : mcsfs1_inode_disk := f_inode v (d_ino (f_slot v i)).
Definition slot_name (v : fs) (i : Z) : list Z := cstr (d_name (f_slot v i)).
(** Block number [x] is entry [a] of the file in slot [i]. *)
Definition slot_block (v : fs) (i : Z) (a : nat) (x : Z) : Prop :=
  i_direct (slot_inode v i) !! a = Some x ∧ x ≠ 0.

(** A name that the directory can hold and that a lookup can find again: one to
    26 characters. *)
Definition good_name (s : list Z) : Prop := (1 ≤ length s ≤ 26)%nat.

Record good_slot (n : Z) (v : fs) (i : Z) : Prop := {
  gs_type : d_type (f_slot v i) = MCSFS1_MODE_FILE;
  gs_ino : 2 ≤ d_ino (f_slot v i) ≤ 32;
  gs_bit : f_ib v (d_ino (f_slot v i)) = true;
  gs_name : good_name (slot_name v i);
  gs_mode : i_mode (slot_inode v i) = MCSFS1_MODE_FILE;
  gs_size : 0 ≤ i_size (slot_inode v i) ≤ 4096;
  gs_direct : length (i_direct (slot_inode v i)) = 8%nat;
  gs_alloc : ∀ a x, i_direct (slot_inode v i) !! a = Some x →
    Z.of_nat a < needed (i_size (slot_inode v i)) → x ≠ 0;
  gs_blocks : ∀ a x, slot_block v i a x → 8 ≤ x < n ∧ f_bb v x = true;
  gs_distinct : ∀ a b x, slot_block v i a x → slot_block v i b x → a = b;
}.

Definition root_ok (v : fs) : Prop :=
  f_ib v 1 = true ∧ (∀ b, 0 ≤ b < 8 → f_bb v b = true) ∧
  i_mode (f_inode v 1) = MCSFS1_MODE_DIR ∧ i_direct (f_inode v 1) !! 0%nat = Some 7.

(** Two files have nothing in common. *)
Record apart (v w : fs) (i j : Z) : Prop := {
  ap_ino : d_ino (f_slot v i) ≠ d_ino (f_slot w j);
  ap_name : slot_name v i ≠ slot_name w j;
  ap_blocks : ∀ a b x, slot_block v i a x → slot_block w j b x → False;
}.

Record consistent (n : Z) (v : fs) : Prop := {
  cons_root : root_ok v;
  cons_slots : ∀ i, used v i → good_slot n v i;
  cons_apart : ∀ i j, used v i → used v j → i ≠ j → apart v v i j;
}.

(** ** Looking a name up *)

Lemma slot_ids_in i : i ∈ slot_ids ↔ 0 ≤ i < 16.
Proof.
  unfold slot_ids. split; [intros Hi; repeat (apply elem_of_cons in Hi as [->|Hi]; [lia|]);
    by apply not_elem_of_nil in Hi|].
  intros Hi. rewrite !elem_of_cons. lia.
Qed.

Lemma find_slot_Some v s i : find_slot v s = Some i → 0 ≤ i < 16 ∧ named s (f_slot v i).
Proof.
  unfold find_slot. intros H. apply fmap_Some in H as ([k j] & H & ->).
  apply list_find_Some in H as (Hk & Hn & _). split; [|done].
  apply slot_ids_in. by eapply list_elem_of_lookup_2.
Qed.

Lemma find_slot_None v s : find_slot v s = None ↔ ∀ i, 0 ≤ i < 16 → ¬ named s (f_slot v i).
Proof.
  unfold find_slot. rewrite fmap_None, list_find_None, Forall_forall.
  split; intros H i Hi; apply H; by apply slot_ids_in.
Qed.

Lemma find_slot_used n v i : consistent n v → used v i → find_slot v (slot_name v i) = Some i.
Proof.
  intros Hc Hu. destruct (find_slot v (slot_name v i)) as [j|] eqn:E.
  - apply find_slot_Some in E as (Hj & Hn & Hs). destruct (decide (j = i)) as [->|Hne]; [done|].
    exfalso. destruct (cons_apart _ _ Hc j i) as [_ Hap _]; [done..|]. by apply Hap.
  - rewrite find_slot_None in E. destruct Hu as [Hi Hd]. by destruct (E i Hi).
Qed.

Lemma file_used n v i : consistent n v → used v i →
  file v (slot_name v i) = Some (content v (d_ino (f_slot v i))).
Proof. intros Hc Hu. unfold file. by rewrite (find_slot_used n) by done. Qed.

Lemma file_Some v s x : file v s = Some x →
  ∃ i, used v i ∧ slot_name v i = s ∧ x = content v (d_ino (f_slot v i)).
Proof.
  unfold file. intros H. apply fmap_Some in H as (i & H & ->).
  apply find_slot_Some in H as (Hi & Hd & Hs). by exists i.
Qed.

Lemma file_None v s : (∀ i, used v i → slot_name v i ≠ s) → file v s = None.
Proof.
  intros H. unfold file. apply fmap_None, find_slot_None. intros i Hi [Hd Hs].
  by apply (H i).
Qed.

(** ** Changing one file *)

(** The file in slot [i] of [v] is the same in [w]. *)
Record kept (v w : fs) (i : Z) : Prop := {
  kp_slot : f_slot w i = f_slot v i;
  kp_inode : slot_inode w i = slot_inode v i;
  kp_ib : f_ib w (d_ino (f_slot v i)) = true;
  kp_blocks : ∀ a x, slot_block v i a x → f_bb w x = true ∧ f_data w x = f_data v x;
}.

Lemma kept_block v w i a x : kept v w i → slot_block w i a x ↔ slot_block v i a x.
Proof. intros [_ Hi _ _]. unfold slot_block. by rewrite Hi. Qed.

Lemma kept_good n v w i : kept v w i → good_slot n v i → good_slot n w i.
Proof.
  intros Hk [Ht Hi Hb Hn Hm Hs Hd Ha Hbl Hdi]. pose proof Hk as [E1 E2 E3 E4].
  split; try (rewrite ?E2; unfold slot_name; rewrite ?E1; done).
  - intros a x H. apply (kept_block v w) in H; [|done]. split; [by apply (Hbl a)|by apply (E4 a)].
  - intros a b x Hx Hy. apply (kept_block v w) in Hx, Hy; [|done..]. by apply (Hdi a b x).
Qed.

Lemma blocks_for_range size : 0 ≤ size ≤ 4096 →
  0 ≤ blocks_for size ≤ 8 ∧ size ≤ 512 * blocks_for size ∧ 512 * blocks_for size < size + 512 ∧
  blocks_for size ≤ needed size ∧ 1 ≤ needed size ≤ 8.
Proof.
  intros Hs. unfold needed, blocks_for, MCSFS1_BLOCK_SIZE. rewrite u32_small by words.
  destruct (Z.eqb_spec ((size + 512 - 1) / 512) 0); dlia.
Qed.

(** The blocks a file's bytes are in are its own. *)
Lemma content_block n v i a x : good_slot n v i →
  take (Z.to_nat (blocks_for (i_size (slot_inode v i)))) (i_direct (slot_inode v i)) !! a = Some x →
  slot_block v i a x.
Proof.
  intros Hg Hx. apply lookup_take_Some in Hx as [Hx Ha]. split; [done|].
  destruct (blocks_for_range _ (gs_size _ _ _ Hg)). eapply (gs_alloc _ _ _ Hg); [done|lia].
Qed.

Lemma kept_content n v w i : kept v w i → good_slot n v i →
  content w (d_ino (f_slot w i)) = content v (d_ino (f_slot v i)).
Proof.
  intros [E1 E2 E3 E4] Hg. unfold content. fold (slot_inode w i) (slot_inode v i). rewrite E2.
  do 2 f_equal. apply list_fmap_ext. intros a x Hx. apply (E4 a). by apply content_block with n.
Qed.

(** The files of [w] are those of [v] but for the one in slot [i] ([-1] for
    none). *)
Lemma change_slot n v w i :
  consistent n v → root_ok w →
  (∀ j, 0 ≤ j < 16 → j ≠ i → f_slot w j = f_slot v j) →
  (∀ j, used v j → j ≠ i → kept v w j) →
  (used w i → good_slot n w i ∧ ∀ j, used v j → j ≠ i → apart v w j i) →
  consistent n w ∧
  (∀ s, (used w i → s ≠ slot_name w i) → (used v i → s ≠ slot_name v i) → file w s = file v s) ∧
  (used w i → file w (slot_name w i) = Some (content w (d_ino (f_slot w i)))).
Proof.
  intros Hc Hr Hsl Hk Hi.
  assert (∀ j, j ≠ i → used w j ↔ used v j) as Hu.
  { intros j Hne. unfold used. split; intros [Hj Hd]; (split; [done|]);
      [by rewrite <-Hsl|by rewrite Hsl]. }
  assert (∀ j, j ≠ i → used v j → apart w w j i ∨ ¬ used w i) as Hap.
  { intros j Hne Huj. destruct (decide (0 ≤ i < 16 ∧ d_ino (f_slot w i) ≠ 0)) as [Hui|Hui];
      [left|by right]. destruct (Hi Hui) as [_ Ha]. destruct (Ha j Huj Hne) as [A1 A2 A3].
    pose proof (Hk j Huj Hne) as Hkj. pose proof (kp_slot _ _ _ Hkj) as E. split.
    - by rewrite E.
    - unfold slot_name at 1. by rewrite E.
    - intros a b x Hx. apply (kept_block v w) in Hx; [|done]. by apply (A3 a b x). }
  assert (consistent n w) as Hcw.
  { split; [done| |].
    - intros j Huj. destruct (decide (j = i)) as [->|Hne]; [by apply Hi|]. apply Hu in Huj as Hv; [|done].
      apply (kept_good n v w); [by apply Hk|by apply Hc].
    - intros j k Huj Huk Hne. destruct (decide (j = i)) as [->|Hji].
      + destruct (Hap k) as [[A1 A2 A3]|?]; [done|by apply Hu|split|done];
          [by apply not_eq_sym|by apply not_eq_sym|]. intros a b x H1 H2. by apply (A3 b a x).
      + destruct (decide (k = i)) as [->|Hki].
        * destruct (Hap j) as [|?]; [done|by apply Hu|done|done].
        * apply Hu in Huj, Huk; [|done..].
          destruct (cons_apart _ _ Hc j k) as [A1 A2 A3]; [done..|].
          pose proof (Hk j Huj Hji) as Kj. pose proof (Hk k Huk Hki) as Kk.
          pose proof (kp_slot _ _ _ Kj) as Ej. pose proof (kp_slot _ _ _ Kk) as Ek. split.
          -- by rewrite Ej, Ek.
          -- unfold slot_name. by rewrite Ej, Ek.
          -- intros a b x H1 H2. apply (kept_block v w) in H1, H2; [|done..]. by apply (A3 a b x). }
  split; [done|]. split; [|intros Hui; by apply (file_used n)].
  intros s Hwi Hvi. destruct (file v s) as [x|] eqn:E.
  - apply file_Some in E as (j & Huj & Hn & ->). assert (j ≠ i) as Hne by (intros ->; by apply Hvi).
    pose proof (Hk j Huj Hne) as Kj.
    rewrite <-(kept_content n v w j) by (done || by apply Hc). rewrite <-Hn.
    replace (slot_name v j) with (slot_name w j) by (unfold slot_name; by rewrite (kp_slot _ _ _ Kj)).
    apply (file_used n); [done|by apply Hu].
  - apply file_None. intros j Huj Hn. destruct (decide (j = i)) as [->|Hne]; [by apply Hwi|].
    apply Hu in Huj; [|done]. pose proof (Hk j Huj Hne) as Kj.
    rewrite <-Hn in E. unfold slot_name in E. rewrite (kp_slot _ _ _ Kj) in E.
    fold (slot_name v j) in E. by rewrite (file_used n) in E by done.
Qed.

(** Nothing changes but what no file uses. *)
Lemma change_none n v w : consistent n v → root_ok w →
  (∀ j, 0 ≤ j < 16 → f_slot w j = f_slot v j) → (∀ j, used v j → kept v w j) →
  consistent n w ∧ ∀ s, file w s = file v s.
Proof.
  intros Hc Hr Hsl Hk. destruct (change_slot n v w (-1)) as (Hw & Hf & _); auto.
  - intros [? _]. lia.
  - split; [done|]. intros s. apply Hf; intros [? _]; lia.
Qed.

Lemma same_root n v w : 16 ≤ n → same n v w → root_ok v → root_ok w.
Proof.
  intros Hn [S1 S2 S3 _ _] (H1 & H2 & H3 & H4). unfold root_ok.
  rewrite <-S1, <-S3 by lia. split_and!; try done. intros b Hb. rewrite <-S2 by lia. by apply H2.
Qed.

Lemma same_files n v w : 16 ≤ n → same n v w → consistent n v →
  consistent n w ∧ ∀ s, file w s = file v s.
Proof.
  intros Hn Hs Hc. pose proof Hs as [S1 S2 S3 S4 S5]. apply change_none; [done| | |].
  - eapply same_root; [done..|]. apply Hc.
  - intros j Hj. symmetry. by apply S4.
  - intros j Huj. destruct (cons_slots _ _ Hc j Huj) as [_ Hi Hb _ _ _ _ _ Hbl _].
    destruct Huj as [Hj Hd]. assert (f_slot w j = f_slot v j) as E by (symmetry; by apply S4). split.
    + done.
    + unfold slot_inode. rewrite E. symmetry. apply S3. lia.
    + rewrite <-S1 by lia. done.
    + intros a x Hx. destruct (Hbl a x Hx). split; [rewrite <-S2 by lia; done|].
      symmetry. apply S5. lia.
Qed.

(** ** The three changes of a directory

    A new empty file in a free slot, with a fresh inode and block. *)
Definition with_file (i ino b : Z) (nm : list Z) (v : fs) : fs :=
  set_slot i (Dirent ino MCSFS1_MODE_FILE nm) (set_inode ino (file_inode b)
    (set_ib (upd ino true (f_ib v)) (set_bb (upd b true (f_bb v)) v))).

Lemma upd_eq {A} i (x : A) f : upd i x f i = x.
Proof. unfold upd. by rewrite decide_True. Qed.
Lemma upd_ne {A} i j (x : A) f : j ≠ i → upd i x f j = f j.
Proof. intros. unfold upd. by rewrite decide_False. Qed.
Lemma upd_true i f j : f j = true → upd i true f j = true.
Proof. unfold upd. by case_decide. Qed.

Lemma file_inode_block b a x : b ≠ 0 →
  i_direct (file_inode b) !! a = Some x ∧ x ≠ 0 ↔ a = 0%nat ∧ x = b.
Proof.
  intros Hb. split.
  - destruct a as [|[|[|[|[|[|[|[|]]]]]]]]; simpl; intros [[= <-] ?]; done.
  - by intros [-> ->].
Qed.

Lemma with_file_ok n v i ino b nm :
  consistent n v → 16 ≤ n → 0 ≤ i < 16 → d_ino (f_slot v i) = 0 →
  2 ≤ ino ≤ 32 → f_ib v ino = false → 8 ≤ b < n → f_bb v b = false →
  good_name (cstr nm) → file v (cstr nm) = None →
  let w := with_file i ino b nm v in
  consistent n w ∧ ∀ s, file w s = if decide (s = cstr nm) then Some [] else file v s.
Proof.
  intros Hc Hn Hi Hfree Hino Hib Hb Hbb Hnm Hnone w.
  assert (f_slot w i = Dirent ino MCSFS1_MODE_FILE nm) as Ei by (unfold w; simpl; apply upd_eq).
  assert (slot_inode w i = file_inode b) as Ex.
  { unfold slot_inode. rewrite Ei. unfold w. simpl. apply upd_eq. }
  assert (∀ a x, slot_block w i a x ↔ a = 0%nat ∧ x = b) as Hblk.
  { intros a x. unfold slot_block. rewrite Ex. apply file_inode_block. lia. }
  assert (∀ j, used v j → j ≠ i ∧ d_ino (f_slot v j) ≠ ino) as Hne.
  { intros j Huj. split; [intros ->; by destruct Huj|]. intros E.
    pose proof (gs_bit _ _ _ (cons_slots _ _ Hc j Huj)) as Hbit. congruence. }
  destruct (change_slot n v w i) as (Hcw & Hf & Hfi).
  - done.
  - destruct (cons_root _ _ Hc) as (R1 & R2 & R3 & R4). unfold root_ok, w. simpl.
    rewrite upd_true, upd_ne by (done || lia). split_and!; try done.
    intros x Hx. apply upd_true. by apply R2.
  - intros j Hj Hji. unfold w. simpl. by apply upd_ne.
  - intros j Huj Hji. destruct (Hne j Huj) as [_ Hnej].
    pose proof (cons_slots _ _ Hc j Huj) as Hg. split.
    + unfold w. simpl. by apply upd_ne.
    + unfold slot_inode, w. simpl. by rewrite !upd_ne by (rewrite ?upd_ne by done; done).
    + unfold w. simpl. apply upd_true, Hg.
    + intros a x Hx. split; [|done]. unfold w. simpl. apply upd_true. by apply (gs_blocks _ _ _ Hg a).
  - intros _. split.
    + split; rewrite ?Ex, ?Ei; unfold slot_name; rewrite ?Ei; try done.
      * unfold w. simpl. apply upd_eq.
      * intros a x Hx Ha. change (needed (i_size (file_inode b))) with 1 in Ha.
        assert (a = 0%nat) as -> by lia. simpl in Hx. injection Hx as <-. lia.
      * intros a x Hx. apply Hblk in Hx as [-> ->]. split; [done|]. unfold w. simpl. apply upd_eq.
      * intros a a' x Hx Hx'. apply Hblk in Hx as [-> ->], Hx' as [-> _]. done.
    + intros j Huj Hji. destruct (Hne j Huj) as [_ Hnej]. split.
      * by rewrite Ei.
      * unfold slot_name at 2. rewrite Ei. simpl. intros E.
        rewrite <-E, (file_used n) in Hnone by done. done.
      * intros a a' x Hx Hx'. apply Hblk in Hx' as [-> ->].
        destruct (gs_blocks _ _ _ (cons_slots _ _ Hc j Huj) a b Hx). congruence.
  - split; [done|]. assert (used w i) as Hui by (split; [done|]; rewrite Ei; simpl; lia).
    assert (slot_name w i = cstr nm) as En by (unfold slot_name; by rewrite Ei).
    rewrite En in *. intros s. case_decide as E.
    + rewrite E, Hfi by done. unfold content. fold (slot_inode w i). by rewrite Ex.
    + apply Hf; [done|]. by intros [_ ?].
Qed.

(** Slot [i] cleared, its inode and blocks given back. *)
Definition zero_dirent : mcsfs1_dirent_disk := Dirent 0 0 (replicate 27 0).
Definition without_file (i ino : Z) (bb : Z → bool) (v : fs) : fs :=
  set_inode ino zero_inode (set_ib (upd ino false (f_ib v)) (set_bb bb (set_slot i zero_dirent v))).

Lemma without_file_ok n v i bb :
  consistent n v → 16 ≤ n → used v i →
  (∀ x, f_bb v x = true → (∀ a, ¬ slot_block v i a x) → bb x = true) →
  let w := without_file i (d_ino (f_slot v i)) bb v in
  consistent n w ∧ ∀ s, file w s = if decide (s = slot_name v i) then None else file v s.
Proof.
  intros Hc Hn Hui Hbb w. pose proof (cons_slots _ _ Hc i Hui) as Hg.
  assert (d_ino (f_slot w i) = 0) as Ei by (unfold w; simpl; by rewrite upd_eq).
  assert (∀ j, used v j → j ≠ i → d_ino (f_slot v j) ≠ d_ino (f_slot v i)) as Hne.
  { intros j Huj Hji. by destruct (cons_apart _ _ Hc j i). }
  destruct (change_slot n v w i) as (Hcw & Hf & _).
  - done.
  - destruct (cons_root _ _ Hc) as (R1 & R2 & R3 & R4). pose proof (gs_ino _ _ _ Hg).
    unfold root_ok, w. simpl. rewrite !upd_ne by lia. split_and!; try done.
    intros x Hx. apply Hbb; [by apply R2|]. intros a Ha.
    destruct (gs_blocks _ _ _ Hg a x Ha). lia.
  - intros j Hj Hji. unfold w. simpl. by apply upd_ne.
  - intros j Huj Hji. pose proof (Hne j Huj Hji) as Hnej.
    pose proof (cons_slots _ _ Hc j Huj) as Hgj. split.
    + unfold w. simpl. by apply upd_ne.
    + unfold slot_inode, w. simpl. by rewrite !upd_ne by (rewrite ?upd_ne by done; done).
    + unfold w. simpl. rewrite upd_ne by done. apply Hgj.
    + intros a x Hx. split; [|done]. unfold w. simpl. apply Hbb; [by apply (gs_blocks _ _ _ Hgj a)|].
      intros a' Hx'. destruct (cons_apart _ _ Hc j i) as [_ _ Hap]; [done..|]. by apply (Hap a a' x).
  - intros [_ Hu]. done.
  - split; [done|]. intros s. case_decide as E.
    + subst s. apply file_None. intros j Huj Hnj.
      destruct (decide (j = i)) as [->|Hji]; [by destruct Huj|].
      assert (f_slot w j = f_slot v j) as Ej by (unfold w; simpl; by apply upd_ne).
      assert (used v j) as Hvj by (destruct Huj; split; [done|]; by rewrite <-Ej).
      destruct (cons_apart _ _ Hc j i) as [_ Hap _]; [done..|]. apply Hap.
      rewrite <-Hnj. unfold slot_name. by rewrite Ej.
    + apply Hf; [intros [_ ?]; done|done].
Qed.

(** The file in slot [i] is given the blocks [D] and new bytes. *)
Definition with_blocks (bb : Z → bool) (data : Z → list Z) (v : fs) : fs :=
  Fs (f_ib v) bb (f_inode v) (f_slot v) data.
Definition resized (size : Z) (D : list Z) (x : mcsfs1_inode_disk) : mcsfs1_inode_disk :=
  Inode (i_mode x) (i_links x) size D (i_reserved x).

(** [D] extends the blocks of slot [i] with blocks that were free in [v]; [bb]
    has them marked. *)
Record grown (n : Z) (v : fs) (i : Z) (bb : Z → bool) (D : list Z) : Prop := {
  gr_bb : ∀ x, f_bb v x = true → bb x = true;
  gr_len : length D = 8%nat;
  gr_old : ∀ a x, slot_block v i a x → D !! a = Some x;
  gr_new : ∀ a x, D !! a = Some x → x ≠ 0 →
    8 ≤ x < n ∧ bb x = true ∧ (slot_block v i a x ∨ f_bb v x = false);
  gr_distinct : ∀ a b x, D !! a = Some x → D !! b = Some x → x ≠ 0 → a = b;
}.

Lemma with_blocks_ok n v bb :
  consistent n v → 16 ≤ n → (∀ x, f_bb v x = true → bb x = true) →
  let w := with_blocks bb (f_data v) v in consistent n w ∧ ∀ s, file w s = file v s.
Proof.
  intros Hc Hn Hbb w. apply change_none; [done| |done|].
  - destruct (cons_root _ _ Hc) as (R1 & R2 & R3). split; [done|]. split; [|done].
    intros x Hx. by apply Hbb, R2.
  - intros j Huj. pose proof (cons_slots _ _ Hc j Huj) as Hg. split; [done..|apply Hg|].
    intros a x Hx. split; [|done]. simpl. apply Hbb. by apply (gs_blocks _ _ _ Hg a).
Qed.

Lemma resized_ok n v i bb data size D :
  consistent n v → 16 ≤ n → used v i → grown n v i bb D → 0 ≤ size ≤ 4096 →
  (∀ a x, D !! a = Some x → Z.of_nat a < needed size → x ≠ 0) →
  (∀ x, 8 ≤ x < n → x ∉ D → data x = f_data v x) →
  let ino := d_ino (f_slot v i) in
  let w := set_inode ino (resized size D (f_inode v ino)) (with_blocks bb data v) in
  consistent n w ∧
  ∀ s, file w s = if decide (s = slot_name v i) then Some (content w ino) else file v s.
Proof.
  intros Hc Hn Hui [Gbb Glen Gold Gnew Gdi] Hsize Halloc Hdata ino w.
  pose proof (cons_slots _ _ Hc i Hui) as Hg.
  assert (slot_inode w i = resized size D (f_inode v ino)) as Ex.
  { unfold slot_inode, w. simpl. apply upd_eq. }
  assert (∀ j, used v j → j ≠ i → d_ino (f_slot v j) ≠ ino) as Hne.
  { intros j Huj Hji. by destruct (cons_apart _ _ Hc j i). }
  assert (∀ a x, slot_block w i a x ↔ D !! a = Some x ∧ x ≠ 0) as Hblk.
  { intros a x. unfold slot_block. by rewrite Ex. }
  assert (∀ j a x, used v j → j ≠ i → slot_block v j a x → x ∉ D) as Hout.
  { intros j a x Huj Hji Hx Hin. apply list_elem_of_lookup_1 in Hin as [b Hb].
    pose proof (cons_slots _ _ Hc j Huj) as Hgj. destruct (gs_blocks _ _ _ Hgj a x Hx) as [_ Hbx].
    destruct (Gnew b x Hb) as (_ & _ & [Hv|Hv]); [by destruct Hx| |congruence].
    destruct (cons_apart _ _ Hc j i) as [_ _ Hap]; [done..|]. by apply (Hap a b x). }
  destruct (change_slot n v w i) as (Hcw & Hf & Hfi).
  - done.
  - destruct (cons_root _ _ Hc) as (R1 & R2 & R3 & R4). pose proof (gs_ino _ _ _ Hg).
    unfold root_ok, w. simpl. rewrite upd_ne by (unfold ino; lia). split_and!; try done.
    intros x Hx. by apply Gbb, R2.
  - done.
  - intros j Huj Hji. pose proof (cons_slots _ _ Hc j Huj) as Hgj. split.
    + done.
    + unfold slot_inode, w. simpl. by rewrite upd_ne by auto.
    + apply Hgj.
    + intros a x Hx. destruct (gs_blocks _ _ _ Hgj a x Hx) as [Hxr Hxb].
      split; [by apply Gbb|]. apply Hdata; [done|]. by apply (Hout j a).
  - intros _. split.
    + destruct Hg as [Ht Hi Hb Hname Hm Hs Hd Ha Hbl Hdi].
      split; rewrite ?Ex; try done.
      * intros a x Hx. apply Hblk in Hx as [Hx Hx0]. destruct (Gnew a x Hx Hx0) as (? & ? & _). done.
      * intros a b x Hx Hx'. apply Hblk in Hx as [Hx Hx0], Hx' as [Hx' _]. by apply (Gdi a b x).
    + intros j Huj Hji. destruct (cons_apart _ _ Hc j i) as [A1 A2 A3]; [done..|]. split; [done..|].
      intros a b x Hx Hx'. apply Hblk in Hx' as [Hx' _]. apply (Hout j a x); [done..|].
      by eapply list_elem_of_lookup_2.
  - split; [done|]. intros s. case_decide as E.
    + subst s. by apply Hfi.
    + by apply Hf.
Qed.

(** ** Names *)

Lemma has_slash_spec k i l : 0 ≤ i → i + Z.of_nat k ≤ zlen l →
  has_slash k i l = Some (bool_decide (47 ∈ take k (drop (Z.to_nat i) l))).
Proof.
  revert i. induction k as [|k IH]; intros i Hi Hk; cbn [has_slash].
  { rewrite take_0. done. }
  unfold zlen in Hk. destruct (drop (Z.to_nat i) l) as [|c l'] eqn:E.
  { apply (f_equal length) in E. rewrite length_drop in E. simpl in E. lia. }
  rewrite arr_get_nat by done.
  assert (l !! Z.to_nat i = Some c) as ->.
  { rewrite <-(Nat.add_0_r (Z.to_nat i)), <-lookup_drop, E. done. }
  cbn [mbind option_bind take]. destruct (Z.eqb_spec c 47) as [->|Hc].
  - by rewrite bool_decide_true by apply list_elem_of_here.
  - rewrite IH by (unfold zlen; lia). replace (Z.to_nat (i + 1)) with (Z.to_nat i + 1)%nat by lia.
    rewrite <-drop_drop, E. simpl. f_equal. apply bool_decide_ext. rewrite elem_of_cons.
    split; [by right|by intros [?|?]].
Qed.

(** The status [valid_name] gives for the string [s]. *)
Definition name_status (s : list Z) : Z + Z :=
  if bool_decide (s = []) then inl MCSFS1_ERR_INVAL else
  if bool_decide (27 < length s)%nat then inl MCSFS1_ERR_NAMETOOLONG else
  if bool_decide (47 ∈ s) then inl MCSFS1_ERR_INVAL else inr (zlen s).

Lemma valid_name_run name s : holds name s → valid_name (Ref name) = Some (name_status s).
Proof.
  intros Hh. unfold valid_name, mcsfs_strlen_bound, name_status. rewrite strlen_loop_cstr by eauto.
  rewrite (cstr_holds name s) by done. cbn [mbind option_bind].
  change (Z.to_nat (MCSFS1_MAX_NAME + 1)) with 28%nat. unfold MCSFS1_MAX_NAME.
  destruct s as [|c s]; [done|]. rewrite bool_decide_false by done.
  destruct (Z.eqb_spec (Z.of_nat (28 `min` length (c :: s))) 0) as [E|_]; [simpl in E; lia|].
  destruct (Z.ltb_spec 27 (Z.of_nat (28 `min` length (c :: s))));
    [by rewrite bool_decide_true by lia|]. rewrite (bool_decide_false (_ < _)%nat) by lia.
  cbn [deref mbind option_bind]. replace (28 `min` length (c :: s))%nat with (length (c :: s)) by lia.
  rewrite has_slash_spec.
  - rewrite drop_0, Nat2Z.id, holds_take by done. cbn [mbind option_bind].
    case_bool_decide; [done|]. done.
  - lia.
  - destruct Hh as [_ [r ->]]. unfold zlen. rewrite length_app. lia.
Qed.

Lemma memcmp_spec k i x y : 0 ≤ i → i + Z.of_nat k ≤ zlen x → i + Z.of_nat k ≤ zlen y →
  ∃ c, memcmp_loop k i x y = Some c ∧
    (c = 0 ↔ take k (drop (Z.to_nat i) x) = take k (drop (Z.to_nat i) y)).
Proof.
  revert i. induction k as [|k IH]; intros i Hi Hx Hy; cbn [memcmp_loop].
  { exists 0. split; [done|]. by rewrite !take_0. }
  assert (∀ l : list Z, i + Z.of_nat (S k) ≤ zlen l →
    ∃ a, arr_get l i = Some a ∧ drop (Z.to_nat i) l = a :: drop (Z.to_nat (i + 1)) l) as Hl.
  { intros l Hl. destruct (arr_get_is_Some l i) as [a Ha]; [lia|]. exists a. split; [done|].
    apply arr_get_Some in Ha as [_ Ha]. rewrite (drop_S _ _ _ Ha). do 2 f_equal. lia. }
  destruct (Hl x Hx) as (a & -> & Ex), (Hl y Hy) as (b & -> & Ey). rewrite Ex, Ey.
  cbn [mbind option_bind take]. destruct (Z.eqb_spec a b) as [->|Hne]; cbn [negb].
  - destruct (IH (i + 1)) as (c & Hc & Hiff); [lia..|]. exists c. split; [done|]. rewrite Hiff.
    split; [by intros ->|by intros [= ->]].
  - exists (a - b). split; [done|]. split; [lia|]. by intros [= ? _].
Qed.

Lemma dirent_name_bytes dir i : block_ok dir → 0 ≤ i < 16 →
  ∃ r, drop (Z.to_nat (i * 32 + 5)) dir = d_name (dirent_at dir i) ++ r.
Proof.
  intros [Hl _] Hi. exists (drop 32 (drop (Z.to_nat i * 32) dir)).
  unfold dirent_at, dirent_of, slice. cbn [d_name].
  replace (Z.to_nat (i * 32 + 5)) with (Z.to_nat i * 32 + 5)%nat by lia. rewrite <-drop_drop.
  set (l := drop (Z.to_nat i * 32) dir). rewrite <-(take_drop 32 l) at 1.
  rewrite drop_app_le; [done|]. rewrite length_take. unfold l. rewrite length_drop. lia.
Qed.

Lemma dirent_matches_run dir i name s : block_ok dir → 0 ≤ i < 16 → holds name s →
  (d_ino (dirent_at dir i) ≠ 0 → (length (cstr (d_name (dirent_at dir i))) ≤ 26)%nat) →
  dirent_matches dir i name (zlen s) = Some (bool_decide (named s (dirent_at dir i))).
Proof.
  intros Hb Hi Hh Hlen. unfold dirent_matches, named.
  destruct (Z.eqb_spec (d_ino (dirent_at dir i)) 0) as [E|E];
    [by rewrite bool_decide_false by tauto|]. specialize (Hlen E).
  destruct (dirent_at_ok dir i Hb Hi) as (_ & _ & Hn & _).
  destruct (dirent_name_bytes dir i Hb Hi) as [r Hr]. set (nm := d_name (dirent_at dir i)) in *.
  assert (cstr (nm ++ r) = cstr nm) as Ec by (apply cstr_app_inside; lia).
  unfold bytes_from. rewrite decide_True by (destruct Hb; unfold zlen; lia). rewrite Hr.
  cbn [mbind option_bind]. unfold mcsfs_strlen_bound.
  rewrite strlen_loop_cstr; [|left; exists (cstr (nm ++ r)); apply holds_cstr].
  2:{ rewrite Ec, length_app. lia. }
  rewrite Ec. change (Z.to_nat (MCSFS1_MAX_NAME + 1)) with 28%nat.
  rewrite Nat.min_r by lia. cbn [mbind option_bind]. unfold zlen.
  destruct (Z.eqb_spec (Z.of_nat (length (cstr nm))) (Z.of_nat (length s))) as [El|El]; cbn [negb].
  2:{ rewrite bool_decide_false; [done|]. intros [_ H]. by rewrite H in El. }
  unfold mcsfs_memcmp. destruct (memcmp_spec (Z.to_nat (Z.of_nat (length s))) 0 (nm ++ r) name)
    as (c & -> & Hc); [done| | |].
  { unfold zlen. rewrite length_app. lia. }
  { destruct Hh as [_ [r' ->]]. unfold zlen. rewrite length_app. lia. }
  cbn [mbind option_bind]. f_equal. rewrite !drop_0, Nat2Z.id, (holds_take name) in Hc by done.
  assert (length s = length (cstr (nm ++ r))) as Els by (rewrite Ec; lia).
  rewrite Els, cstr_take, Ec in Hc.
  destruct (Z.eqb_spec c 0); symmetry; [apply bool_decide_true|apply bool_decide_false]; tauto.
Qed.

(** The lookup in a directory whose names are short enough is a search by
    name. *)
Definition short_names (dir : list Z) : Prop := ∀ i, 0 ≤ i < 16 →
  d_ino (dirent_at dir i) ≠ 0 → (length (cstr (d_name (dirent_at dir i))) ≤ 26)%nat.

Lemma find_dirent_loop_run dir name s k i : block_ok dir → short_names dir → holds name s →
  0 ≤ i → i + Z.of_nat k ≤ 16 →
  find_dirent_loop k i dir name (zlen s) =
    Some (snd <$> list_find (λ j, named s (dirent_at dir j)) (seqZ i (Z.of_nat k))).
Proof.
  intros Hb Hs Hh. revert i. induction k as [|k IH]; intros i Hi Hk; cbn [find_dirent_loop]; [done|].
  rewrite (dirent_matches_run dir i name s) by (done || lia || (apply Hs; lia)).
  rewrite seqZ_cons by lia. cbn [mbind option_bind list_find].
  replace (Z.pred (Z.of_nat (S k))) with (Z.of_nat k) by lia.
  case_bool_decide as E; [by rewrite decide_True|]. rewrite decide_False by done.
  rewrite IH by lia. by rewrite <-option_fmap_compose.
Qed.

(** ** Calls *)

Section Calls.
Context {C : Type} (dev : mcsfs1_blkdev C) (disk : C → list (list Z)).
Context {W : WorkingDevice dev disk}.
Variable n : Z.
Hypothesis Hcount : block_count dev = n.

(** A valid disk whose directory is consistent. *)
Definition fs_ok (d : list (list Z)) : Prop := disk_ok n d ∧ consistent n (view d).

Lemma fs_size d : fs_ok d → 16 ≤ n ≤ 4096.
Proof. intros [Hd _]. apply (dk_size _ _ Hd). Qed.

Lemma fs_dir d : fs_ok d → block_ok (blk d 7) ∧ short_names (blk d 7).
Proof.
  intros [Hd Hc]. pose proof (dk_size _ _ Hd).
  split; [apply (blk_ok n); [done|lia]|]. intros i Hi Hu.
  destruct (gs_name _ _ _ (cons_slots _ _ Hc i (conj Hi Hu))). done.
Qed.

Lemma read_dir_runs d : disk_ok n d →
  runs disk (dev_read dev MCSFS1_ROOT_DIR_LBA) d d (inr (blk d 7)).
Proof.
  intros Hd. pose proof (dk_size _ _ Hd).
  apply (read_runs dev disk n); [done..|unfold MCSFS1_ROOT_DIR_LBA; lia].
Qed.

Lemma find_dirent_runs d name s : fs_ok d → holds name s →
  runs disk (find_dirent dev (Ref name)) d d
    match name_status s with
    | inl rc => inl rc
    | inr _ => match find_slot (view d) s with
               | Some i => inr (i, d_ino (f_slot (view d) i))
               | None => inl MCSFS1_ERR_NOENT end
    end.
Proof.
  intros Hf Hh. destruct (fs_dir d Hf) as [Hb Hs]. destruct Hf as [Hd Hc].
  pose proof (dk_size _ _ Hd). unfold find_dirent. rewrite (valid_name_run name s Hh).
  unfold name_status. repeat (case_bool_decide; [intros c Hcc; by exists c|]).
  eapply runs_mret; [done|].
  eapply runs_bind; [by apply read_dir_runs|].
  eapply runs_mub; [done|]. apply (runs_mub _ _ _ _ _ (find_slot (view d) s)).
  - by rewrite (find_dirent_loop_run _ _ s 16 0).
  - destruct (find_slot (view d) s); [apply runs_ok|apply runs_err].
Qed.

(** A name that a file can have. *)
Definition usable_name (s : list Z) : Prop := Forall is_u8 s ∧ good_name s ∧ 47 ∉ s.

Lemma usable_status s : usable_name s → name_status s = inr (zlen s).
Proof.
  intros (_ & [H1 H2] & H3). unfold name_status.
  destruct s; [simpl in H1; lia|]. by rewrite !bool_decide_false by (done || lia).
Qed.

Lemma free_slot_run dir k i : block_ok dir → 0 ≤ i → i + Z.of_nat k = 16 →
  let j := free_slot_loop k i dir in
  (j = 16 ∧ ∀ a, i ≤ a < 16 → d_ino (dirent_at dir a) ≠ 0) ∨
  (i ≤ j < 16 ∧ d_ino (dirent_at dir j) = 0).
Proof.
  intros Hb. revert i. induction k as [|k IH]; intros i Hi Hk; cbn [free_slot_loop].
  { left. split; [done|]. intros a ?. lia. }
  destruct (Z.eqb_spec (d_ino (dirent_at dir i)) 0) as [E|E]; [right; lia|].
  destruct (IH (i + 1)) as [[Hj Ha]|[Hj Ha]]; [lia|lia| |].
  - left. split; [done|]. intros a Ha'. destruct (decide (a = i)) as [->|]; [done|]. apply Ha. lia.
  - right. split; [lia|done].
Qed.

Lemma set_bits_ext ib ib' bb bb' v : (∀ i, 0 ≤ i ≤ 32 → ib i = ib' i) →
  (∀ b, 0 ≤ b < n → bb b = bb' b) → same n (set_ib ib (set_bb bb v)) (set_ib ib' (set_bb bb' v)).
Proof. intros H1 H2. by split. Qed.

(** Allocating an inode and its first block. *)
Lemma alloc_inode_block_runs d : fs_ok d →
  (runs disk (alloc_inode_block dev) d d (inl MCSFS1_ERR_NOSPC) ∧
    ((∀ i, 2 ≤ i ≤ 32 → f_ib (view d) i = true) ∨
     (∀ b, 8 ≤ b < n → f_bb (view d) b = true))) ∨
  ∃ ino b d', runs disk (alloc_inode_block dev) d d' (inr (ino, b)) ∧ disk_ok n d' ∧
    2 ≤ ino ≤ 32 ∧ f_ib (view d) ino = false ∧ 8 ≤ b < n ∧ f_bb (view d) b = false ∧
    same n (view d') (set_ib (upd ino true (f_ib (view d)))
      (set_bb (upd b true (f_bb (view d))) (view d))).
Proof.
  intros [Hd Hc]. pose proof (dk_size _ _ Hd) as Hn. unfold alloc_inode_block.
  pose proof (load_bmaps_runs dev disk n Hcount d Hd) as Hl.
  assert (block_ok (blk d 1)) as B1 by (apply (blk_ok n); [done|lia]).
  assert (block_ok (blk d 2)) as B2 by (apply (blk_ok n); [done|lia]).
  change (Z.to_nat (MCSFS1_MAX_INODES - 1)) with 31%nat. rewrite Hcount.
  change MCSFS1_DATA_START_LBA with 8.
  destruct (find_clear_run 31 2 (blk d 1)) as (r1 & E1 & H1); [done|lia..|].
  destruct (find_clear_run (Z.to_nat (n - 8)) 8 (blk d 2)) as (r2 & E2 & H2); [done|lia..|].
  destruct r1 as [ino|].
  2:{ left. split; [|left; intros i Hi; apply H1; lia].
      eapply runs_bind; [done|]. simpl. eapply runs_mub; [done|]. apply runs_err. }
  destruct r2 as [b|].
  2:{ left. split; [|right; intros b Hb; apply H2; lia].
      eapply runs_bind; [done|]. simpl. eapply runs_mub; [done|]. eapply runs_mub; [done|].
      apply runs_err. }
  right. destruct H1 as [I1 I2], H2 as [J1 J2].
  destruct (bit_set_run (blk d 1) ino) as (ib & Ei & Bi & Hi); [done|lia|].
  destruct (bit_set_run (blk d 2) b) as (bb & Eb & Bb & Hb); [done|lia|].
  destruct (write_bmaps_runs dev disk n Hcount d ib bb) as (d' & Hr & Hd' & Hs); [done..|].
  exists ino, b, d'. split_and!; try done; try lia.
  - eapply runs_bind; [done|]. simpl. do 4 (eapply runs_mub; [done|]).
    eapply runs_bind; [done|]. apply runs_ok.
  - etrans; [done|]. apply set_bits_ext; intros; [apply Hi|apply Hb]; lia.
Qed.

(** Status after creating [s]. *)
Definition create_result (d d' : list (list Z)) (s : list Z) (r : Z + unit) : Prop :=
  match r with
  | inr _ => file (view d) s = None ∧
      ∀ s', file (view d') s' = if decide (s' = s) then Some [] else file (view d) s'
  | inl rc => d' = d ∧
      (rc = MCSFS1_ERR_EXIST ∧ is_Some (file (view d) s) ∨
       rc = MCSFS1_ERR_NOSPC ∧ file (view d) s = None ∧
        ((∀ i, 0 ≤ i < 16 → d_ino (f_slot (view d) i) ≠ 0) ∨
         (∀ i, 2 ≤ i ≤ 32 → f_ib (view d) i = true) ∨
         (∀ b, 8 ≤ b < n → f_bb (view d) b = true)))
  end.
Lemma file_inode_ok b : is_u32 b → inode_ok (file_inode b).
Proof.
  intros Hb. unfold inode_ok. simpl. split_and!; try words; try done;
    repeat constructor; words.
Qed.

(** The name field of a new directory entry. *)
Lemma new_name_run old name s : length old = 27%nat → holds name s → usable_name s →
  mcsfs_memset old 0 MCSFS1_MAX_NAME = Some (replicate 27 0) ∧
  mcsfs_memcpy (replicate 27 0) name (zlen s) = Some (s ++ replicate (27 - length s) 0) ∧
  cstr (s ++ replicate (27 - length s) 0) = s.
Proof.
  intros Ho Hh (Hu & Hg & _). destruct Hg as [Hg1 Hg2]. split_and!.
  - unfold mcsfs_memset. rewrite mem_fill_ok by (rewrite Ho; done).
    rewrite drop_ge by (rewrite Ho; done). by rewrite app_nil_r.
  - unfold mcsfs_memcpy, zlen. rewrite Nat2Z.id, mem_copy_ok.
    + by rewrite holds_take, drop_replicate.
    + rewrite length_replicate. lia.
    + destruct Hh as [_ [r ->]]. rewrite length_app. lia.
  - apply cstr_pad, Hh.
Qed.

Definition mounted : mcsfs1_mnt C := Mount (Ref dev) n MCSFS1_DATA_START_LBA.

Lemma file_find d s : file (view d) s = None ↔ find_slot (view d) s = None.
Proof. unfold file. by rewrite fmap_None. Qed.

(** The name as it is stored, padded with zeros. *)
Definition stored_name (s : list Z) : list Z := s ++ replicate (27 - length s) 0.

Lemma stored_dirent_ok ino s : is_u32 ino → usable_name s →
  dirent_ok (Dirent ino MCSFS1_MODE_FILE (stored_name s)).
Proof.
  intros Hi (Hu8 & [_ Hl] & _). unfold dirent_ok, stored_name. cbn [d_ino d_type d_name].
  split_and!; [done|split; done| |].
  - rewrite length_app, length_replicate. lia.
  - apply Forall_app. split; [done|]. apply Forall_replicate. words.
Qed.

(** The inode and the entry of a new file, written after its inode and its
    block were taken. *)
Lemma store_new_runs d d1 s j ino b : fs_ok d → usable_name s → 0 ≤ j < 16 → 2 ≤ ino ≤ 32 → is_u32 b →
  disk_ok n d1 →
  same n (view d1) (set_ib (upd ino true (f_ib (view d))) (set_bb (upd b true (f_bb (view d))) (view d))) →
  ∃ d2 d3, runs disk (write_inode dev ino (file_inode b)) d1 d2 (inr tt) ∧
    runs disk (dev_write dev MCSFS1_ROOT_DIR_LBA
      (dirent_set (blk d 7) j (Dirent ino MCSFS1_MODE_FILE (stored_name s)))) d2 d3 (inr tt) ∧
    disk_ok n d3 ∧ same n (view d3) (with_file j ino b (stored_name s) (view d)).
Proof.
  intros Hf Hu Hj Hino Hb Hd1 Hs1. destruct (fs_dir d Hf) as [Hdb _]. pose proof Hf as [Hd _].
  destruct (write_inode_runs dev disk n Hcount d1 ino (file_inode b))
    as (d2 & W2 & Hd2 & Hs2); [done|lia|by apply file_inode_ok|].
  assert (same n (view d2) (set_inode ino (file_inode b) (set_ib (upd ino true (f_ib (view d)))
      (set_bb (upd b true (f_bb (view d))) (view d))))) as S2 by (etrans; [done|by rewrite Hs1]).
  destruct (write_dir_runs dev disk n Hcount d2 (blk d 7) j (Dirent ino MCSFS1_MODE_FILE (stored_name s)))
    as (d3 & W3 & Hd3 & Hs3); [done| |done|apply stored_dirent_ok; [words|done]|].
  { eapply dir_copy_same; [by apply (dir_copy_read n)|]. intros i Hi. by apply (same_slot _ _ _ S2). }
  exists d2, d3. split_and!; [done..|]. etrans; [done|]. by rewrite S2.
Qed.

Lemma create_runs d name s : fs_ok d → holds name s → usable_name s →
  ∃ d' r, runs disk (mcsfs1_create (Ref mounted) (Ref name)) d d' r ∧ fs_ok d' ∧
    create_result d d' s r.
Proof.
  intros Hf Hh Hu. destruct (fs_dir d Hf) as [Hb _]. pose proof (fs_size d Hf) as Hn.
  pose proof (find_dirent_runs d name s Hf Hh) as Hfind.
  unfold mcsfs1_create, with_mnt. cbn [mounted m_dev].
  rewrite (valid_name_run name s Hh), (usable_status s Hu) in *. pose proof Hf as [Hd Hc].
  destruct (find_slot (view d) s) as [i|] eqn:Ef.
  { exists d, (inl MCSFS1_ERR_EXIST). split_and!; [|done|split; [done|left; split; [done|]]].
    - eapply runs_mret; [done|]. eapply runs_status; [done|]. apply runs_err.
    - destruct (file (view d) s) eqn:E; [by eexists|]. apply file_find in E. congruence. }
  assert (file (view d) s = None) as Hnone by by apply file_find.
  destruct (free_slot_run (blk d 7) 16 0) as [[Ej Hfull]|[Hj Hfree]]; [done|done|done| |];
    set (j := free_slot_loop 16 0 (blk d 7)) in *.
  { exists d, (inl MCSFS1_ERR_NOSPC). split_and!; [|done|].
    - eapply runs_mret; [done|]. eapply runs_status; [done|]. cbv beta iota.
      eapply runs_bind; [by apply read_dir_runs|].
      cbv beta iota zeta. fold j. rewrite Ej. apply runs_err.
    - split; [done|]. right. by split_and!; [..|left]. }
  destruct (alloc_inode_block_runs d Hf) as [[Ha Hno]|(ino & b & d1 & Ha & Hd1 & Hino & Hib & Hbr & Hbb & Hs1)].
  { exists d, (inl MCSFS1_ERR_NOSPC). split_and!; [|done|].
    - eapply runs_mret; [done|]. eapply runs_status; [done|]. cbv beta iota.
      eapply runs_bind; [by apply read_dir_runs|].
      cbv beta iota zeta. fold j. rewrite (proj2 (Z.eqb_neq j MCSFS1_DIRENT_COUNT))
        by (unfold MCSFS1_DIRENT_COUNT; lia). by apply runs_fail.
    - split; [done|]. right. split_and!; [done..|by right]. }
  destruct (dirent_at_ok (blk d 7) j Hb Hj) as (_ & _ & Hnl & _).
  destruct (new_name_run (d_name (dirent_at (blk d 7) j)) name s) as (N1 & N2 & N3); [done..|].
  fold (stored_name s) in *.
  destruct (store_new_runs d d1 s j ino b) as (d2 & d3 & W2 & W3 & Hd3 & S3); [done|done|done|done|words|done|done|].
  destruct (with_file_ok n (view d) j ino b (stored_name s)) as [Hcw Hfw]; [done|lia|done|done|lia|done|lia|done| | |].
  { rewrite N3. apply Hu. }
  { by rewrite N3. }
  symmetry in S3. apply same_files in S3 as [Hc3 Hf3]; [|lia|done].
  exists d3, (inr tt). split_and!.
  - eapply runs_mret; [done|]. eapply runs_status; [done|]. cbv beta iota.
    eapply runs_bind; [by apply read_dir_runs|].
    cbv beta iota zeta. fold j. rewrite (proj2 (Z.eqb_neq j MCSFS1_DIRENT_COUNT))
      by (unfold MCSFS1_DIRENT_COUNT; lia).
    eapply runs_bind; [done|]. cbn beta iota. eapply runs_bind; [done|].
    do 3 (eapply runs_mub; [done|]). eapply runs_bind; [done|]. by apply flush_runs.
  - split; done.
  - split; [done|]. intros s'. rewrite Hf3, Hfw. by rewrite N3.
Qed.
(** *** Writing *)

Lemma alloc_data_block_runs d : disk_ok n d →
  (runs disk (alloc_data_block dev) d d (inl MCSFS1_ERR_NOSPC) ∧
    ∀ b, 8 ≤ b < n → f_bb (view d) b = true) ∨
  ∃ b d', runs disk (alloc_data_block dev) d d' (inr b) ∧ disk_ok n d' ∧
    8 ≤ b < n ∧ f_bb (view d) b = false ∧
    same n (view d') (set_bb (upd b true (f_bb (view d))) (view d)).
Proof.
  intros Hd. pose proof (dk_size _ _ Hd) as Hn. unfold alloc_data_block.
  pose proof (load_bmaps_runs dev disk n Hcount d Hd) as Hl.
  assert (block_ok (blk d 1)) as B1 by (apply (blk_ok n); [done|lia]).
  assert (block_ok (blk d 2)) as B2 by (apply (blk_ok n); [done|lia]).
  rewrite Hcount. change MCSFS1_DATA_START_LBA with 8.
  destruct (find_clear_run (Z.to_nat (n - 8)) 8 (blk d 2)) as (r2 & E2 & H2); [done|lia..|].
  destruct r2 as [b|].
  2:{ left. split; [|intros b Hb; apply H2; lia].
      eapply runs_bind; [done|]. cbv beta iota. eapply runs_mub; [done|]. apply runs_err. }
  right. destruct H2 as [J1 J2].
  destruct (bit_set_run (blk d 2) b) as (bb & Eb & Bb & Hb); [done|lia|].
  destruct (write_bmaps_runs dev disk n Hcount d (blk d 1) bb) as (d' & Hr & Hd' & Hs); [done..|].
  exists b, d'. split_and!; try done; try lia.
  - eapply runs_bind; [done|]. cbv beta iota. do 2 (eapply runs_mub; [done|]).
    eapply runs_bind; [done|]. apply runs_ok.
  - etrans; [done|]. etrans; [apply (set_bits_ext _ (bit (blk d 1)) _ (upd b true (bit (blk d 2))))|].
    + done.
    + intros x Hx. apply Hb. lia.
    + by split.
Qed.

(** A disk on which the file in slot [i] of [v] is being written: its inode is
    still the old one, but it has been given the blocks [D]. *)
Record writing (v : fs) (i : Z) (d : list (list Z)) (bb : Z → bool) (data : Z → list Z)
    (D : list Z) : Prop := {
  wr_disk : disk_ok n d;
  wr_same : same n (view d) (with_blocks bb data v);
  wr_grown : grown n v i bb D;
}.

Lemma grown_add v i bb D a b : grown n v i bb D → D !! a = Some 0 → 8 ≤ b < n → bb b = false →
  grown n v i (upd b true bb) (<[a := b]> D).
Proof.
  intros [G1 G2 G3 G4 G5] Ha Hb Hbb.
  assert (a < length D)%nat as Hlt by (by eapply lookup_lt_Some).
  assert (∀ j x, <[a := b]> D !! j = Some x → j = a ∧ x = b ∨ j ≠ a ∧ D !! j = Some x) as Hl.
  { intros j x Hj. destruct (decide (j = a)) as [->|Hne].
    - rewrite list_lookup_insert_eq in Hj by done. left. split; [done|congruence].
    - rewrite list_lookup_insert_ne in Hj by done. by right. }
  assert (∀ j x, D !! j = Some x → x ≠ 0 → x ≠ b) as Hfresh.
  { intros j x Hj Hx ->. destruct (G4 j b Hj Hx) as (_ & ? & _). congruence. }
  split.
  - intros x Hx. apply upd_true. by apply G1.
  - by rewrite length_insert.
  - intros j x Hx. rewrite list_lookup_insert_ne; [by apply G3|]. intros ->.
    pose proof (G3 _ _ Hx) as Hj. destruct Hx. congruence.
  - intros j x Hj Hx. apply Hl in Hj as [[-> ->]|[Hne Hj]].
    + split; [done|]. split; [apply upd_eq|]. right.
      destruct (f_bb v b) eqn:E; [|done]. apply G1 in E. congruence.
    + destruct (G4 j x Hj Hx) as (? & ? & ?). split_and!; try done; try lia. by apply upd_true.
  - intros j k x Hj Hk Hx. apply Hl in Hj as [[-> ->]|[Hne Hj]], Hk as [[-> ?]|[Hne' Hk]]; try done.
    + by destruct (Hfresh _ _ Hk Hx).
    + subst. by destruct (Hfresh _ _ Hj Hx).
    + by eapply G5.
Qed.

Lemma grow_runs v i k a d bb D :
  writing v i d bb (f_data v) D → Z.of_nat (a + k) ≤ 8 →
  (∀ j x, (j < a)%nat → D !! j = Some x → x ≠ 0) →
  ∃ d' bb' D', writing v i d' bb' (f_data v) D' ∧
    ((runs disk (mfold k (Z.of_nat a) D (grow_body dev)) d d' (inl MCSFS1_ERR_NOSPC) ∧
      ∀ b, 8 ≤ b < n → bb' b = true) ∨
     (runs disk (mfold k (Z.of_nat a) D (grow_body dev)) d d' (inr D') ∧
      ∀ j x, (j < a + k)%nat → D' !! j = Some x → x ≠ 0)).
Proof.
  revert a d bb D. induction k as [|k IH]; intros a d bb D Hw Hk Hlow; cbn [mfold].
  { exists d, bb, D. split; [done|]. right. split; [apply runs_ok|]. intros j x Hj. apply Hlow. lia. }
  pose proof Hw as [Hd Hs Hg]. pose proof (gr_len _ _ _ _ _ Hg) as Hlen.
  replace (Z.of_nat a + 1) with (Z.of_nat (S a)) by lia.
  destruct (lookup_lt_is_Some_2 D a) as [x Hx]; [lia|].
  assert (arr_get D (Z.of_nat a) = Some x) as Hget by (rewrite arr_get_nat by lia; by rewrite Nat2Z.id).
  destruct (decide (x = 0)) as [->|Hx0].
  - assert (∀ d' r, runs disk (alloc_data_block dev) d d' r →
      runs disk (grow_body dev (Z.of_nat a) D) d d'
        match r with inl rc => inl rc | inr b => inr (<[a := b]> D) end) as Hbody.
    { intros d' r Hr. unfold grow_body. eapply runs_mub; [done|]. cbv beta iota.
      destruct r as [rc|b]; [by apply runs_fail|]. eapply runs_bind; [done|].
      rewrite arr_set_ok by (unfold zlen; lia). rewrite Nat2Z.id. apply runs_ok. }
    destruct (alloc_data_block_runs d Hd) as [[Hr Hfull]|(b & d1 & Hr & Hd1 & Hb & Hbb & Hs1)].
    + exists d, bb, D. split; [done|]. left. split; [by apply runs_fail, (Hbody d (inl _))|].
      intros b Hb. rewrite <-(Hfull b Hb). symmetry. apply (same_bb _ _ _ Hs). lia.
    + destruct (IH (S a) d1 (upd b true bb) (<[a := b]> D)) as (d' & bb' & D' & Hw' & Hrun).
      * split; [done| |].
        -- etrans; [done|]. split; intros y Hy; simpl; try (by apply Hs).
           unfold upd. case_decide; [done|]. by apply (same_bb _ _ _ Hs).
        -- apply grown_add; [done|done|lia|]. rewrite <-Hbb. symmetry. apply (same_bb _ _ _ Hs). lia.
      * lia.
      * intros j y Hj. destruct (decide (j = a)) as [->|Hne].
        -- rewrite list_lookup_insert_eq by lia. intros [= <-]. lia.
        -- rewrite list_lookup_insert_ne by done. apply Hlow. lia.
      * exists d', bb', D'. split; [done|]. destruct Hrun as [[Hrun Hf]|[Hrun Hf]]; [left|right].
        -- split; [|done]. eapply runs_bind; [by apply (Hbody d1 (inr b))|done].
        -- split; [eapply runs_bind; [by apply (Hbody d1 (inr b))|done]|].
           intros j y Hj. apply Hf. lia.
  - assert (runs disk (grow_body dev (Z.of_nat a) D) d d (inr D)) as Hbody.
    { unfold grow_body. eapply runs_mub; [done|]. rewrite (proj2 (Z.eqb_neq x 0)) by done.
      apply runs_ok. }
    destruct (IH (S a) d bb D) as (d' & bb' & D' & Hw' & Hrun); [done|lia| |].
    + intros j y Hj Hy. destruct (decide (j = a)) as [->|Hne]; [congruence|]. apply (Hlow j); [lia|done].
    + exists d', bb', D'. split; [done|]. destruct Hrun as [[Hrun Hf]|[Hrun Hf]]; [left|right].
      * split; [by eapply runs_bind|done].
      * split; [by eapply runs_bind|]. intros j y Hj. apply Hf. lia.
Qed.
(** The buffer passed by the caller holds [data]. *)
Definition buf_holds (buf : ptr (list Z)) (data : list Z) : Prop :=
  match buf with Null => data = [] | Ref b => take (length data) b = data end.

Definition written (data : list Z) (a : nat) : Z := Z.min (zlen data) (Z.of_nat a * 512).

Lemma chunk_eq data a : zlen data ≤ 4096 →
  let remain := u32 (zlen data - written data a) in
  let chunk := if MCSFS1_BLOCK_SIZE <? remain then MCSFS1_BLOCK_SIZE else remain in
  chunk = Z.of_nat (length (slice (a * 512) 512 data)) ∧
  u32 (written data a + chunk) = written data (S a).
Proof.
  intros Hl. pose proof (zlen_nonneg data). unfold written, MCSFS1_BLOCK_SIZE, slice.
  rewrite length_take, length_drop. unfold zlen in *. cbv zeta. rewrite u32_small by words.
  destruct (Z.ltb_spec 512 (Z.of_nat (length data) - Z.min (Z.of_nat (length data)) (Z.of_nat a * 512)));
    (split; [lia|]); rewrite u32_small by words; lia.
Qed.

(** The block that an iteration of the loop prepares. *)
Lemma chunk_block buf data a chunk : buf_holds buf data → zlen data ≤ 4096 →
  chunk = Z.of_nat (length (slice (a * 512) 512 data)) →
  (if chunk =? 0 then Some (zeros 512) else
   b ← deref buf;
   src ← bytes_from (written data a) b;
   mcsfs_memcpy (zeros 512) src chunk) = Some (padded data a).
Proof.
  intros Hb Hl ->. unfold padded. cbv zeta. set (c := slice (a * 512) 512 data).
  destruct (Z.eqb_spec (Z.of_nat (length c)) 0) as [E|E].
  { destruct c; [done|simpl in E; lia]. }
  destruct buf as [|b]; simpl in Hb.
  { exfalso. apply E. unfold c, slice. rewrite Hb. by destruct (a * 512)%nat. }
  assert (length c = Nat.min 512 (length data - a * 512)) as Ec by
    (unfold c, slice; rewrite length_take, length_drop; lia).
  assert (length data ≤ length b)%nat as Hlb.
  { apply (f_equal length) in Hb. rewrite length_take in Hb. lia. }
  assert (c = take (length c) (drop (a * 512) b)) as Ecb.
  { rewrite Ec. transitivity (slice (a * 512) 512 (take (length data) b)); [by rewrite Hb|].
    unfold slice. by rewrite skipn_firstn_comm, take_take. }
  cbn [deref mbind option_bind]. unfold bytes_from, written, zlen.
  rewrite decide_True by lia. cbn [mbind option_bind]. unfold mcsfs_memcpy.
  rewrite Z.min_r by lia. replace (Z.to_nat (Z.of_nat a * 512)) with (a * 512)%nat by lia.
  rewrite Nat2Z.id, mem_copy_ok.
  - unfold zeros. by rewrite <-Ecb, drop_replicate.
  - simpl. lia.
  - rewrite length_drop. lia.
Qed.

Lemma write_blocks_runs v i buf data k a d bb g D :
  writing v i d bb g D → buf_holds buf data → zlen data ≤ 4096 → Forall is_u8 data →
  (a + k ≤ 8)%nat → (∀ j x, (j < a + k)%nat → D !! j = Some x → x ≠ 0) →
  (∀ j x, (j < a)%nat → D !! j = Some x → g x = padded data j) →
  (∀ x, x ∉ D → g x = f_data v x) →
  ∃ d' g', writing v i d' bb g' D ∧
    runs disk (mfold k (Z.of_nat a) (written data a) (write_body dev D buf (zlen data))) d d'
      (inr (written data (a + k))) ∧
    (∀ j x, (j < a + k)%nat → D !! j = Some x → g' x = padded data j) ∧
    (∀ x, x ∉ D → g' x = f_data v x).
Proof.
  intros Hw Hbuf Hl Hu8. revert a d g Hw. induction k as [|k IH]; intros a d g Hw Hk Hnz Hg Hout;
    cbn [mfold].
  { exists d, g. split; [done|]. rewrite Nat.add_0_r. split; [apply runs_ok|done]. }
  replace (Z.of_nat a + 1) with (Z.of_nat (S a)) by lia.
  pose proof Hw as [Hd Hs Hgr]. pose proof (gr_len _ _ _ _ _ Hgr) as Hlen.
  destruct (lookup_lt_is_Some_2 D a) as [x Hx]; [lia|].
  assert (x ≠ 0) as Hx0 by (by apply (Hnz a x); [lia|]).
  destruct (gr_new _ _ _ _ _ Hgr a x Hx Hx0) as (Hxr & _ & _).
  destruct (chunk_eq data a Hl) as [Hc Hwr].
  destruct (write_data_runs dev disk n Hcount d x (padded data a)) as (d1 & Hr & Hd1 & Hs1);
    [done|done|by split; [apply length_padded|apply padded_u8]|].
  destruct (IH (S a) d1 (upd x (padded data a) g)) as (d' & g' & Hw' & Hrun & Hg' & Hout').
  - split; [done| |done]. etrans; [done|]. rewrite Hs. by split.
  - lia.
  - intros j y Hj. apply Hnz. lia.
  - intros j y Hj Hy. unfold upd. case_decide as E.
    + subst y. by rewrite (gr_distinct _ _ _ _ _ Hgr j a x).
    + apply Hg; [|done]. destruct (decide (j = a)) as [->|]; [congruence|lia].
  - intros y Hy. rewrite upd_ne; [by apply Hout|]. intros ->. apply Hy.
    by eapply list_elem_of_lookup_2.
  - exists d', g'. replace (a + S k)%nat with (S a + k)%nat by lia. split_and!; try done.
    eapply runs_bind; [|exact Hrun]. unfold write_body. cbv zeta in Hc, Hwr |- *.
    eapply runs_mub; [by apply chunk_block|]. eapply runs_mub.
    { rewrite arr_get_nat, Nat2Z.id by lia. done. }
    eapply runs_bind; [done|]. rewrite Hwr. apply runs_ok.
Qed.

(** Status after writing [data] to [s]. *)
Definition write_result (d d' : list (list Z)) (s data : list Z) (r : Z + unit) : Prop :=
  match r with
  | inr _ => is_Some (file (view d) s) ∧
      ∀ s', file (view d') s' = if decide (s' = s) then Some data else file (view d) s'
  | inl rc => (∀ s', file (view d') s' = file (view d) s') ∧
      (rc = MCSFS1_ERR_NOENT ∧ file (view d) s = None ∧ d' = d ∨
       rc = MCSFS1_ERR_NOSPC ∧ is_Some (file (view d) s) ∧
         ∀ b, 8 ≤ b < n → f_bb (view d') b = true)
  end.

(** What reading back the new inode gives. *)
Lemma resized_content v ino size D x bb g data :
  size = zlen data → zlen data ≤ 4096 → length D = 8%nat →
  (∀ j y, (j < Z.to_nat (needed (zlen data)))%nat → D !! j = Some y → g y = padded data j) →
  content (set_inode ino (resized size D x) (with_blocks bb g v)) ino = data.
Proof.
  intros -> Hl Hlen Hg. pose proof (zlen_nonneg data).
  destruct (blocks_for_range (zlen data)) as (B1 & B2 & B3 & B4 & B5); [lia|].
  unfold content. simpl. rewrite upd_eq. simpl.
  set (m := Z.to_nat (blocks_for (zlen data))) in *.
  assert (g <$> take m D = padded data <$> seq 0 m) as Em.
  { apply list_eq. intros j. rewrite !list_lookup_fmap. destruct (decide (j < m)%nat) as [Hj|Hj].
    - rewrite lookup_take_lt, lookup_seq_lt by done.
      destruct (lookup_lt_is_Some_2 D j) as [y Hy]; [lia|]. rewrite Hy. simpl. f_equal.
      apply Hg; [lia|done].
    - rewrite lookup_take_ge, lookup_seq_ge by lia. done. }
  rewrite Em. unfold zlen at 1. rewrite Nat2Z.id. apply concat_padded. unfold zlen in *. lia.
Qed.
Lemma found_file d s i : find_slot (view d) s = Some i →
  used (view d) i ∧ slot_name (view d) i = s ∧ is_Some (file (view d) s).
Proof.
  intros H. pose proof (find_slot_Some _ _ _ H) as (Hi & Hd & Hs). split_and!; [done|done|].
  unfold file. rewrite H. by eexists.
Qed.

Lemma slot_inode_ok d i : fs_ok d → used (view d) i → inode_ok (slot_inode (view d) i).
Proof.
  intros [Hd Hc] Hu. apply (inode_at_ok n); [done|].
  destruct (gs_ino _ _ _ (cons_slots _ _ Hc i Hu)). lia.
Qed.

Lemma start_writing d i : fs_ok d → used (view d) i →
  writing (view d) i d (f_bb (view d)) (f_data (view d)) (i_direct (slot_inode (view d) i)).
Proof.
  intros [Hd Hc] Hu. pose proof (cons_slots _ _ Hc i Hu) as Hg. split; [done|by split|]. split.
  - done.
  - apply Hg.
  - intros a x Hx. apply Hx.
  - intros a x Hx Hx0. destruct (gs_blocks _ _ _ Hg a x) as [? ?]; [by split|].
    split; [done|]. split; [done|]. left. by split.
  - intros a b x Ha Hb Hx. by apply (gs_distinct _ _ _ Hg a b x).
Qed.

Lemma resized_inode_ok x size D : inode_ok x → 0 ≤ size ≤ 4096 → length D = 8%nat →
  (∀ a y, D !! a = Some y → y ≠ 0 → 8 ≤ y < 4096) → inode_ok (resized size D x).
Proof.
  intros (Hm & Hl & Hs & _ & _ & Hr & Hu) Hsz Hlen HD. unfold inode_ok.
  refine (conj Hm (conj Hl (conj _ (conj Hlen (conj _ (conj Hr Hu)))))); [simpl; words|].
  apply Forall_lookup. intros a y Hy.
  destruct (decide (y = 0)) as [->|Hy0]; [words|]. specialize (HD a y Hy Hy0). words.
Qed.

Lemma file_mode v i : good_slot n v i → (i_mode (slot_inode v i) =? MCSFS1_MODE_FILE) = true.
Proof. intros Hg. apply Z.eqb_eq, Hg. Qed.

Lemma needed_spec len :
  (if blocks_for len =? 0 then 1 else blocks_for len) = needed len.
Proof. done. Qed.

(** The second half of a write: the data, then the inode. *)
Lemma write_tail_runs d i buf data d1 bb D : fs_ok d → used (view d) i →
  writing (view d) i d1 bb (f_data (view d)) D → buf_holds buf data → zlen data ≤ 4096 →
  Forall is_u8 data →
  (∀ j x, (j < Z.to_nat (needed (zlen data)))%nat → D !! j = Some x → x ≠ 0) →
  let ino := d_ino (f_slot (view d) i) in
  ∃ d2 d3,
    runs disk (mfold (Z.to_nat (needed (zlen data))) 0 0 (write_body dev D buf (zlen data))) d1 d2
      (inr (written data (Z.to_nat (needed (zlen data))))) ∧
    runs disk (write_inode dev ino (resized (zlen data) D (slot_inode (view d) i))) d2 d3 (inr tt) ∧
    fs_ok d3 ∧ ∀ s, file (view d3) s =
      if decide (s = slot_name (view d) i) then Some data else file (view d) s.
Proof.
  intros Hf Hu Hw Hbuf Hl Hu8 Hnz ino. pose proof Hf as [Hd Hc]. pose proof (fs_size d Hf) as Hn.
  pose proof (cons_slots _ _ Hc i Hu) as Hg. pose proof (gs_ino _ _ _ Hg) as Hino.
  pose proof (zlen_nonneg data).
  destruct (blocks_for_range (zlen data)) as (_ & _ & _ & _ & Hneed); [lia|].
  destruct (write_blocks_runs (view d) i buf data (Z.to_nat (needed (zlen data))) 0 d1 bb
    (f_data (view d)) D) as (d2 & g & Hw2 & Hrun & Hg2 & Hout); [done..|lia|done| |done|].
  { intros j x Hj. lia. }
  pose proof Hw2 as [Hd2 Hs2 Hgr]. pose proof (gr_len _ _ _ _ _ Hgr) as Hlen.
  destruct (write_inode_runs dev disk n Hcount d2 ino (resized (zlen data) D (slot_inode (view d) i)))
    as (d3 & Hr3 & Hd3 & Hs3); [done|unfold ino; lia| |].
  { apply resized_inode_ok; [by apply slot_inode_ok|lia|done|].
    intros a y Hy Hy0. destruct (gr_new _ _ _ _ _ Hgr a y Hy Hy0) as [? _]. lia. }
  destruct (resized_ok n (view d) i bb g (zlen data) D) as [Hcw Hfw]; [done|lia|done|done|lia| |auto|].
  { intros a x Ha Hlt. apply (Hnz a x); [lia|done]. }
  assert (same n (view d3) (set_inode ino (resized (zlen data) D (f_inode (view d) ino))
    (with_blocks bb g (view d)))) as S3 by (etrans; [done|by rewrite Hs2]).
  symmetry in S3. apply same_files in S3 as [Hc3 Hf3]; [|lia|done].
  exists d2, d3. split_and!; [|done|by split|].
  - replace 0 with (written data 0) at 2 by (unfold written; lia). exact Hrun.
  - intros s. rewrite Hf3, Hfw. case_decide; [|done]. f_equal.
    by apply resized_content; try done.
Qed.

Lemma write_runs_spec d name s buf data : fs_ok d → holds name s → usable_name s →
  buf_holds buf data → zlen data ≤ 4096 → Forall is_u8 data →
  ∃ d' r, runs disk (mcsfs1_write (Ref mounted) (Ref name) buf (zlen data)) d d' r ∧ fs_ok d' ∧
    write_result d d' s data r.
Proof.
  intros Hf Hh Hu Hbuf Hl Hu8. pose proof Hf as [Hd Hc]. pose proof (fs_size d Hf) as Hn.
  pose proof (find_dirent_runs d name s Hf Hh) as Hfind.
  unfold mcsfs1_write, with_mnt. cbn [mounted m_dev].
  assert (is_null buf && negb (zlen data =? 0) = false) as ->.
  { destruct buf; [|done]. simpl in Hbuf. by rewrite Hbuf. }
  rewrite (usable_status s Hu) in Hfind. cbn [negb].
  replace (zlen data <=? MCSFS1_DIRECT_BLOCKS * MCSFS1_BLOCK_SIZE) with true
    by (symmetry; apply Z.leb_le; done).
  destruct (find_slot (view d) s) as [i|] eqn:Ef.
  2:{ exists d, (inl MCSFS1_ERR_NOENT). split_and!; [by apply runs_fail|done|]. split; [done|].
      left. split_and!; [done| |done]. by apply file_find. }
  destruct (found_file d s i Ef) as (Hui & Hname & Hsome).
  pose proof (cons_slots _ _ Hc i Hui) as Hg. pose proof (gs_ino _ _ _ Hg) as Hino.
  pose proof (read_inode_runs dev disk n Hcount d (d_ino (f_slot (view d) i)) Hd) as Hrd.
  fold (slot_inode (view d) i) in Hrd.
  pose proof (start_writing d i Hf Hui) as Hw.
  pose proof (zlen_nonneg data).
  destruct (blocks_for_range (zlen data)) as (_ & _ & _ & _ & Hneed); [lia|].
  destruct (grow_runs (view d) i (Z.to_nat (needed (zlen data))) 0 d _ _ Hw)
    as (d1 & bb & D & Hw1 & Hgrow); [lia|intros j x Hj; lia|].
  destruct Hgrow as [[Hr Hfull]|[Hr Hnz]].
  - destruct (with_blocks_ok n (view d) bb) as [Hcb Hfb];
      [done|lia|apply (gr_bb _ _ _ _ _ (wr_grown _ _ _ _ _ _ Hw1))|].
    pose proof (wr_same _ _ _ _ _ _ Hw1) as S1. pose proof (same_bb _ _ _ S1) as Sbb.
    symmetry in S1. apply same_files in S1 as [Hc1 Hf1]; [|lia|done].
    exists d1, (inl MCSFS1_ERR_NOSPC). split_and!.
    + eapply runs_bind; [done|]. cbn [snd]. eapply runs_bind; [apply Hrd; lia|].
      rewrite (file_mode _ _ Hg). cbv zeta. rewrite needed_spec. by apply runs_fail.
    + split; [apply Hw1|done].
    + split; [intros s'; by rewrite Hf1, Hfb|]. right. split_and!; [done|done|].
      intros b Hb. rewrite Sbb by lia. by apply Hfull.
  - destruct (write_tail_runs d i buf data d1 bb D) as (d2 & d3 & R2 & R3 & Hf3 & Hfile); [done..|].
    exists d3, (inr tt). split_and!; [|done|].
    + eapply runs_bind; [done|]. cbn [snd]. eapply runs_bind; [apply Hrd; lia|].
      rewrite (file_mode _ _ Hg). cbv zeta. rewrite needed_spec.
      eapply runs_bind; [exact Hr|]. eapply runs_bind; [exact R2|].
      eapply runs_bind; [exact R3|]. by apply flush_runs.
    + split; [done|]. intros s'. rewrite Hfile. by rewrite Hname.
Qed.
(** *** Reading *)

Definition file_blocks (v : fs) (i : Z) : list (list Z) :=
  f_data v <$> take (Z.to_nat (blocks_for (i_size (slot_inode v i)))) (i_direct (slot_inode v i)).

Lemma file_blocks_ok d i : fs_ok d → used (view d) i →
  Forall (λ l, length l = 512%nat) (file_blocks (view d) i) ∧
  length (file_blocks (view d) i) = Z.to_nat (blocks_for (i_size (slot_inode (view d) i))).
Proof.
  intros [Hd Hc] Hu. pose proof (cons_slots _ _ Hc i Hu) as Hg. unfold file_blocks. split.
  - apply Forall_fmap, Forall_lookup. intros a x Hx.
    destruct (gs_blocks _ _ _ Hg a x) as [Hr _]; [by apply content_block with n|].
    simpl. apply (blk_ok n); [done|lia].
  - rewrite length_fmap, length_take, (gs_direct _ _ _ Hg).
    destruct (blocks_for_range _ (gs_size _ _ _ Hg)). lia.
Qed.

Lemma concat_length (ls : list (list Z)) k : Forall (λ l, length l = k) ls →
  length (concat ls) = (length ls * k)%nat.
Proof. induction 1 as [|l ls Hl Hls IH]; simpl; [done|]. rewrite length_app, IH. lia. Qed.

Lemma content_zlen d i : fs_ok d → used (view d) i →
  zlen (content (view d) (d_ino (f_slot (view d) i))) = i_size (slot_inode (view d) i).
Proof.
  intros Hf Hu. destruct (file_blocks_ok d i Hf Hu) as [H1 H2]. destruct Hf as [_ Hc].
  pose proof (gs_size _ _ _ (cons_slots _ _ Hc i Hu)) as Hs.
  destruct (blocks_for_range _ Hs) as (B1 & B2 & _).
  unfold content. fold (slot_inode (view d) i). cbv zeta. fold (file_blocks (view d) i).
  unfold zlen. rewrite length_take, (concat_length _ 512) by done. rewrite H2. lia.
Qed.

(** The bytes that iteration [a] copies. *)
Lemma read_chunk d i a b : fs_ok d → used (view d) i → file_blocks (view d) i !! a = Some b →
  let data := content (view d) (d_ino (f_slot (view d) i)) in
  written data a = Z.of_nat (a * 512) ∧
  slice (a * 512) 512 data = take (length (slice (a * 512) 512 data)) b.
Proof.
  intros Hf Hu Ha data. pose proof (content_zlen d i Hf Hu) as Hl. fold data in Hl.
  destruct (file_blocks_ok d i Hf Hu) as [H1 H2].
  pose proof (lookup_lt_Some _ _ _ Ha) as Hlt. rewrite H2 in Hlt.
  destruct Hf as [_ Hc]. pose proof (gs_size _ _ _ (cons_slots _ _ Hc i Hu)) as Hs.
  destruct (blocks_for_range _ Hs) as (B1 & B2 & B3 & _).
  split; [unfold written; lia|]. unfold zlen in Hl.
  assert (data = take (Z.to_nat (i_size (slot_inode (view d) i))) (concat (file_blocks (view d) i)))
    as Ed by done.
  set (k := length (slice (a * 512) 512 data)).
  assert (k = Nat.min 512 (length data - a * 512)) as Ek by
    (unfold k, slice; rewrite length_take, length_drop; lia).
  rewrite <-(slice_concat 512 (file_blocks (view d) i) a b k) by (done || lia).
  unfold slice at 1. rewrite Ed, skipn_firstn_comm, take_take. unfold slice. f_equal. lia.
Qed.

Lemma written_all data k : zlen data ≤ Z.of_nat k * 512 → written data k = zlen data.
Proof. unfold written. lia. Qed.

Lemma read_blocks_runs d i k a buf :
  fs_ok d → used (view d) i →
  let data := content (view d) (d_ino (f_slot (view d) i)) in
  (a + k ≤ length (file_blocks (view d) i))%nat → zlen data ≤ zlen buf →
  let st a := (take (Z.to_nat (written data a)) data ++ drop (Z.to_nat (written data a)) buf,
               written data a) in
  runs disk (mfold k (Z.of_nat a) (st a) (read_body dev n (slot_inode (view d) i))) d d
    (inr (st (a + k)%nat)).
Proof.
  intros Hf Hu data Hk Hbuf st. pose proof Hf as [Hd Hc]. pose proof (fs_size d Hf) as Hn.
  pose proof (cons_slots _ _ Hc i Hu) as Hg. pose proof (content_zlen d i Hf Hu) as Hl.
  fold data in Hl. pose proof (gs_size _ _ _ Hg) as Hs.
  revert a Hk. induction k as [|k IH]; intros a Hk; cbn [mfold].
  { rewrite Nat.add_0_r. apply runs_ok. }
  replace (Z.of_nat a + 1) with (Z.of_nat (S a)) by lia.
  replace (a + S k)%nat with (S a + k)%nat by lia.
  eapply runs_bind; [|apply IH; lia].
  destruct (lookup_lt_is_Some_2 (file_blocks (view d) i) a) as [b Hb]; [lia|].
  destruct (read_chunk d i a b Hf Hu Hb) as [Hw Hslice]. fold data in Hw, Hslice.
  destruct (chunk_eq data a) as [Hc1 Hc2]; [lia|]. rewrite Hl in Hc1, Hc2. cbv zeta in Hc1, Hc2.
  unfold file_blocks in Hb. rewrite list_lookup_fmap in Hb. apply fmap_Some in Hb as (x & Hx & ->).
  pose proof (content_block n _ _ _ _ Hg Hx) as [Hx1 Hx2].
  destruct (gs_blocks _ _ _ Hg a x) as [Hxr _]; [by split|].
  unfold read_body. cbv beta iota zeta delta [st].
  eapply runs_mub; [rewrite arr_get_nat, Nat2Z.id by lia; exact Hx1|].
  replace (negb ((x =? 0) || (n <=? x))) with true by lia.
  eapply runs_bind; [apply (read_runs dev disk n); [done..|lia]|].
  rewrite Hc2, Hc1. set (c := slice (a * 512) 512 data) in *.
  assert (length c = Nat.min 512 (length data - a * 512)) as Ek by
    (unfold c, slice; rewrite length_take, length_drop; lia).
  assert (length (blk d x) = 512%nat) as Hbl by (apply (blk_ok n); [done|lia]).
  assert (length (take (a * 512) data) = a * 512)%nat as Htl.
  { rewrite length_take. unfold written in Hw. unfold zlen in *. lia. }
  assert (written data (S a) = Z.of_nat (a * 512 + length c)) as Hw2.
  { unfold written, zlen in *. lia. }
  unfold zlen in Hbuf, Hw. eapply runs_mub.
  { rewrite Hw, Nat2Z.id. unfold at_off. rewrite decide_True by
      (unfold zlen; rewrite length_app, length_drop, Htl; unfold written, zlen in Hw; lia).
    rewrite Nat2Z.id, take_app_length' by done. rewrite drop_app_length' by done.
    unfold mcsfs_memcpy. rewrite Nat2Z.id, mem_copy_ok; [done| |].
    - rewrite length_drop. unfold written, zlen in Hw. lia.
    - simpl. rewrite Hbl. lia. }
  rewrite Hw2, Nat2Z.id. unfold runs. intros c0 Hc0. exists c0. split; [|done]. unfold mok. do 3 f_equal.
  rewrite drop_drop, app_assoc. f_equal. simpl in Hslice. change (f_data (view d) x) with (blk d x) in Hslice.
  rewrite <-Hslice, <-take_take_drop. f_equal. unfold c, slice.
  set (l := drop (a * 512) data). symmetry. rewrite <-(take_drop 512 l) at 2.
  f_equal. apply take_app_length.
Qed.

Definition read_result (d : list (list Z)) (s buf : list Z) (cap : Z) (r : Z + (list Z * Z)) : Prop :=
  match file (view d) s with
  | None => r = inl MCSFS1_ERR_NOENT
  | Some data =>
      r = if decide (zlen data ≤ cap)
          then inr (data ++ drop (length data) buf, zlen data) else inl MCSFS1_ERR_RANGE
  end.

Lemma read_runs_spec d name s buf cap out : fs_ok d → holds name s → usable_name s →
  cap ≤ zlen buf →
  ∃ r, runs disk (mcsfs1_read (Ref mounted) (Ref name) (Ref buf) cap (Ref out)) d d r ∧
    read_result d s buf cap r.
Proof.
  intros Hf Hh Hu Hcap. pose proof Hf as [Hd Hc]. pose proof (fs_size d Hf) as Hn.
  pose proof (find_dirent_runs d name s Hf Hh) as Hfind. rewrite (usable_status s Hu) in Hfind.
  unfold mcsfs1_read, with_mnt, read_result, file. cbn [mounted m_dev m_block_count].
  destruct (find_slot (view d) s) as [i|] eqn:Ef; cbn [fmap option_fmap option_map].
  2:{ eexists. split; [by apply runs_fail|done]. }
  destruct (found_file d s i Ef) as (Hui & _ & _).
  pose proof (cons_slots _ _ Hc i Hui) as Hg. pose proof (gs_ino _ _ _ Hg) as Hino.
  pose proof (read_inode_runs dev disk n Hcount d (d_ino (f_slot (view d) i)) Hd) as Hrd.
  fold (slot_inode (view d) i) in Hrd. pose proof (content_zlen d i Hf Hui) as Hl.
  set (data := content (view d) (d_ino (f_slot (view d) i))) in *.
  case_decide as Hfit.
  - eexists. split; [|done]. eapply runs_bind; [done|]. cbn [snd].
    eapply runs_bind; [apply Hrd; lia|]. rewrite (file_mode _ _ Hg).
    replace (i_size (slot_inode (view d) i) <=? cap) with true by lia.
    destruct (file_blocks_ok d i Hf Hui) as [_ Hbl].
    destruct (blocks_for_range _ (gs_size _ _ _ Hg)) as (B1 & B2 & _).
    pose proof (read_blocks_runs d i (Z.to_nat (blocks_for (i_size (slot_inode (view d) i)))) 0 buf
      Hf Hui) as Hloop. cbv beta zeta in Hloop. fold data in Hloop.
    assert (written data 0 = 0) as E0 by (unfold written; pose proof (zlen_nonneg data); lia).
    rewrite E0, take_0, drop_0, app_nil_l, Nat.add_0_l in Hloop.
    rewrite (written_all data) in Hloop by lia.
    eapply runs_bind; [apply Hloop; lia|]. cbn [fst]. rewrite <-Hl.
    unfold zlen at 1 2. rewrite Nat2Z.id, take_ge by lia. apply runs_ok.
  - eexists. split; [|done]. eapply runs_bind; [done|]. cbn [snd].
    eapply runs_bind; [apply Hrd; lia|]. rewrite (file_mode _ _ Hg).
    replace (i_size (slot_inode (view d) i) <=? cap) with false by lia. apply runs_err.
Qed.

(** *** Unlinking *)

Lemma clear_direct_run D bb : block_ok bb → Forall (λ x, 0 ≤ x) D → n ≤ 4096 →
  ∃ bb', clear_direct n D bb = Some bb' ∧ block_ok bb' ∧
    ∀ x, 0 ≤ x < n → bit bb' x = bit bb x && negb (bool_decide (x ∈ D ∧ x ≠ 0)).
Proof.
  intros Hb HD Hn. revert bb Hb. induction HD as [|y D Hy HD IH]; intros bb Hb; cbn [clear_direct].
  { exists bb. split; [done|]. split; [done|]. intros x _. rewrite bool_decide_false.
    - by rewrite andb_true_r.
    - intros [Hx _]. by apply not_elem_of_nil in Hx. }
  destruct (negb (y =? 0) && (y <? n)) eqn:E.
  - destruct (bit_clear_run bb y) as (b1 & -> & Hb1 & Hbits); [done|lia|]. cbn [mbind option_bind].
    destruct (IH b1 Hb1) as (bb' & Hr & Hb' & Hx). exists bb'. split; [done|]. split; [done|].
    intros x Hxr. rewrite Hx, Hbits by lia. unfold upd. case_decide as Exy.
    + rewrite (bool_decide_true (x ∈ y :: D ∧ x ≠ 0)); [by rewrite andb_false_r|].
      rewrite elem_of_cons. split; [by left|lia].
    + do 2 f_equal. apply bool_decide_ext. rewrite elem_of_cons. tauto.
  - cbn [mbind option_bind]. destruct (IH bb Hb) as (bb' & Hr & Hb' & Hx). exists bb'.
    split; [done|]. split; [done|]. intros x Hxr. rewrite Hx by done.
    do 2 f_equal. apply bool_decide_ext. rewrite elem_of_cons. split; [tauto|].
    intros [[->|] ?]; [lia|done].
Qed.

Lemma free_inode_runs d ino x : disk_ok n d → 1 ≤ ino ≤ 32 → inode_ok x →
  ∃ d' bb, runs disk (free_inode_and_blocks dev ino x) d d' (inr tt) ∧ disk_ok n d' ∧
    same n (view d') (set_ib (upd ino false (f_ib (view d))) (set_bb bb (view d))) ∧
    ∀ y, 0 ≤ y < n → bb y = f_bb (view d) y && negb (bool_decide (y ∈ i_direct x ∧ y ≠ 0)).
Proof.
  intros Hd Hi (_ & _ & _ & _ & HD & _). pose proof (dk_size _ _ Hd) as Hn.
  pose proof (load_bmaps_runs dev disk n Hcount d Hd) as Hl.
  assert (block_ok (blk d 1)) as B1 by (apply (blk_ok n); [done|lia]).
  assert (block_ok (blk d 2)) as B2 by (apply (blk_ok n); [done|lia]).
  destruct (bit_clear_run (blk d 1) ino) as (ib & Ei & Bi & Hib); [done|lia|].
  destruct (clear_direct_run (i_direct x) (blk d 2)) as (bb & Eb & Bb & Hbb); [done| |lia|].
  { eapply Forall_impl; [done|]. intros y Hy. by destruct Hy. }
  destruct (write_bmaps_runs dev disk n Hcount d ib bb) as (d' & Hr & Hd' & Hs); [done..|].
  exists d', (bit bb). split; [|split; [done|split; [|done]]].
  - unfold free_inode_and_blocks. rewrite Hcount. eapply runs_bind; [done|]. cbv beta iota.
    do 2 (eapply runs_mub; [done|]). done.
  - etrans; [done|]. apply set_bits_ext; [|done]. intros i Hi'. apply Hib. lia.
Qed.

Definition unlink_result (d d' : list (list Z)) (s : list Z) (r : Z + unit) : Prop :=
  match r with
  | inr _ => ∃ i, find_slot (view d) s = Some i ∧
      (∀ s', file (view d') s' = if decide (s' = s) then None else file (view d) s') ∧
      f_ib (view d') (d_ino (f_slot (view d) i)) = false ∧
      ∀ a x, slot_block (view d) i a x → f_bb (view d') x = false
  | inl rc => rc = MCSFS1_ERR_NOENT ∧ file (view d) s = None ∧ d' = d
  end.

Lemma clear_slot_run dir i : block_ok dir → 0 ≤ i < 16 →
  at_off (i * 32) dir (λ d, mcsfs_memset d 0 32) = Some (dirent_set dir i zero_dirent).
Proof.
  intros [Hl _] Hi. unfold at_off. rewrite decide_True by (unfold zlen; lia).
  unfold mcsfs_memset. rewrite mem_fill_ok by (rewrite length_drop; simpl; lia).
  unfold dirent_set, splice. change (dirent_bytes zero_dirent) with (replicate 32 0).
  rewrite drop_drop. replace (Z.to_nat (i * 32)) with (Z.to_nat i * 32)%nat by lia. done.
Qed.

(** The inode and the blocks of a file given back, after its entry was cleared. *)
Lemma forget_file_runs d d1 i : fs_ok d → used (view d) i → disk_ok n d1 →
  same n (view d1) (set_slot i zero_dirent (view d)) →
  ∃ d2 d3 bb, runs disk (free_inode_and_blocks dev (d_ino (f_slot (view d) i)) (slot_inode (view d) i)) d1 d2 (inr tt) ∧
    runs disk (write_inode dev (d_ino (f_slot (view d) i)) zero_inode) d2 d3 (inr tt) ∧ disk_ok n d3 ∧
    same n (view d3) (without_file i (d_ino (f_slot (view d) i)) bb (view d)) ∧
    (∀ x, 0 ≤ x < n → bb x = f_bb (view d) x &&
      negb (bool_decide (x ∈ i_direct (slot_inode (view d) i) ∧ x ≠ 0))) ∧
    (∀ x, ¬ (0 ≤ x < n) → bb x = f_bb (view d) x).
Proof.
  intros Hf Hui Hd1 S1. pose proof (fs_size d Hf) as Hn.
  pose proof (gs_ino _ _ _ (cons_slots _ _ (proj2 Hf) i Hui)) as Hino.
  destruct (free_inode_runs d1 (d_ino (f_slot (view d) i)) (slot_inode (view d) i))
    as (d2 & bb & R2 & Hd2 & S2 & Hbb); [done|lia|by apply slot_inode_ok|].
  destruct (write_inode_runs dev disk n Hcount d2 (d_ino (f_slot (view d) i)) zero_inode)
    as (d3 & R3 & Hd3 & S3); [done|lia| |].
  { unfold inode_ok, zero_inode. simpl. split_and!; try words; try done; repeat constructor; words. }
  exists d2, d3, (λ x, if decide (0 ≤ x < n) then bb x else f_bb (view d) x). split_and!; [done..| | |].
  - etrans; [done|]. rewrite S2. unfold without_file. apply set_inode_proper.
    split; simpl; intros y Hy; try (by apply S1).
    + unfold upd. case_decide; [done|]. by apply (same_ib _ _ _ S1).
    + by rewrite decide_True.
  - intros x Hx. rewrite decide_True, Hbb by done. by rewrite (same_bb _ _ _ S1) by lia.
  - intros x Hx. by rewrite decide_False.
Qed.

Lemma unlink_runs d name s : fs_ok d → holds name s → usable_name s →
  ∃ d' r, runs disk (mcsfs1_unlink (Ref mounted) (Ref name)) d d' r ∧ fs_ok d' ∧
    unlink_result d d' s r.
Proof.
  intros Hf Hh Hu. pose proof Hf as [Hd Hc]. pose proof (fs_size d Hf) as Hn.
  pose proof (find_dirent_runs d name s Hf Hh) as Hfind. rewrite (usable_status s Hu) in Hfind.
  unfold mcsfs1_unlink, with_mnt. cbn [mounted m_dev].
  destruct (find_slot (view d) s) as [i|] eqn:Ef.
  2:{ exists d, (inl MCSFS1_ERR_NOENT). split_and!; [by apply runs_fail|done..|].
      split_and!; [done|by apply file_find|done]. }
  destruct (found_file d s i Ef) as (Hui & Hname & _).
  pose proof (cons_slots _ _ Hc i Hui) as Hg. pose proof (gs_ino _ _ _ Hg) as Hino.
  pose proof (read_inode_runs dev disk n Hcount d (d_ino (f_slot (view d) i)) Hd) as Hrd.
  fold (slot_inode (view d) i) in Hrd.
  destruct (fs_dir d Hf) as [Hdb _]. pose proof Hui as [Hi16 Hiu].
  destruct (write_dir_runs dev disk n Hcount d (blk d 7) i zero_dirent) as (d1 & R1 & Hd1 & S1);
    [done|by apply (dir_copy_read n)|done| |].
  { unfold dirent_ok, zero_dirent. simpl. split; [words|]. split; [words|]. split; [done|].
    by apply (Forall_replicate _ 27 0); words. }
  destruct (forget_file_runs d d1 i) as (d2 & d3 & bb' & R2 & R3 & Hd3 & S & Hbb' & Hbo); [done..|].
  destruct (without_file_ok n (view d) i bb') as [Hcw Hfw]; [done|lia|done| |].
  { intros x Hx Hno. destruct (decide (0 ≤ x < n)) as [Hxr|Hxr]; [|by rewrite Hbo]. rewrite Hbb', Hx by done.
    rewrite bool_decide_false; [done|]. intros [Hin Hx0].
    apply list_elem_of_lookup_1 in Hin as [a Ha]. by destruct (Hno a). }
  pose proof S as S'. symmetry in S'. apply same_files in S' as [Hc3 Hf3]; [|lia|done].
  exists d3, (inr tt). split; [|split; [by split|]].
  - eapply runs_bind; [done|]. cbv beta iota. eapply runs_bind; [apply Hrd; lia|].
    rewrite (file_mode _ _ Hg). eapply runs_bind; [by apply read_dir_runs|].
    eapply runs_mub; [by apply clear_slot_run|]. eapply runs_bind; [exact R1|].
    eapply runs_bind; [exact R2|]. eapply runs_bind; [exact R3|]. by apply flush_runs.
  - exists i. split_and!; [done| | |].
    + intros s'. rewrite Hf3, Hfw. by rewrite Hname.
    + rewrite (same_ib _ _ _ S) by lia. simpl. apply upd_eq.
    + intros a x Hx. destruct (gs_blocks _ _ _ Hg a x Hx) as [Hxr _].
      rewrite (same_bb _ _ _ S) by lia. simpl.
      rewrite Hbb' by lia. rewrite bool_decide_true; [apply andb_false_r|].
      destruct Hx as [Hx Hx0]. split; [|done]. by eapply list_elem_of_lookup_2.
Qed.
End Calls.
