(* ===== verification/Mcsfs1Spec.v ===== *)
(** What MCSFS1 promises: a map from names to contents, kept by every sequence
    of calls; formatting gives the empty map; the check accepts every disk so
    reached. *)
From S2P Require Import Prelude Bitmap Bytes Cstr Err Mcsfs1 Mcsfs1View Mcsfs1Files.

#[local] Open Scope err_scope.

(** ** The abstract file system *)

Abbreviation file_map := (gmap (list Z) (list Z)).

Inductive call :=
| CCreate (s : list Z)
| CWrite (s data : list Z)
| CRead (s : list Z) (cap : nat)
| CUnlink (s : list Z).

(** The calls that are refused for their arguments alone: names that are empty,
    longer than 27 characters or contain ['/'], and data of more than eight
    blocks. *)
Definition name_refused (s : list Z) : option Z :=
  match name_status s with inl rc => Some rc | inr _ => None end.
Definition refused (c : call) : option Z :=
  match c with
  | CCreate s | CUnlink s | CRead s _ => name_refused s
  | CWrite s data => if 4096 <? zlen data then Some MCSFS1_ERR_RANGE else name_refused s
  end.

(** What any other call may return and how it changes the map. Running out of
    space is the only freedom left to the implementation; [full] says when. *)
Inductive spec_accepted (full : Prop) (m : file_map) : call → Z + list Z → file_map → Prop :=
| Sp_create s : m !! s = None → spec_accepted full m (CCreate s) (inr []) (<[s := []]> m)
| Sp_create_exists s : is_Some (m !! s) → spec_accepted full m (CCreate s) (inl MCSFS1_ERR_EXIST) m
| Sp_create_full s : m !! s = None → full → spec_accepted full m (CCreate s) (inl MCSFS1_ERR_NOSPC) m
| Sp_write s data : is_Some (m !! s) → spec_accepted full m (CWrite s data) (inr []) (<[s := data]> m)
| Sp_write_none s data : m !! s = None → spec_accepted full m (CWrite s data) (inl MCSFS1_ERR_NOENT) m
| Sp_write_full s data : is_Some (m !! s) → full →
    spec_accepted full m (CWrite s data) (inl MCSFS1_ERR_NOSPC) m
| Sp_read s data cap : m !! s = Some data → (length data ≤ cap)%nat →
    spec_accepted full m (CRead s cap) (inr data) m
| Sp_read_none s cap : m !! s = None → spec_accepted full m (CRead s cap) (inl MCSFS1_ERR_NOENT) m
| Sp_read_range s data cap : m !! s = Some data → (cap < length data)%nat →
    spec_accepted full m (CRead s cap) (inl MCSFS1_ERR_RANGE) m
| Sp_unlink s : is_Some (m !! s) → spec_accepted full m (CUnlink s) (inr []) (delete s m)
| Sp_unlink_none s : m !! s = None → spec_accepted full m (CUnlink s) (inl MCSFS1_ERR_NOENT) m.

Definition spec_call (full : Prop) (m : file_map) (c : call) (r : Z + list Z) (m' : file_map) : Prop :=
  match refused c with
  | Some rc => r = inl rc ∧ m' = m
  | None => spec_accepted full m c r m'
  end.

(** The calls a client may make: any name but those of exactly 27 characters
    that would be accepted (see [mcsfs1_long_name_lost]), any data. *)
Definition name_given (s : list Z) : Prop :=
  nonzero s ∧ Forall is_u8 s ∧ (length s = 27%nat → 47 ∈ s).
Definition call_ok (c : call) : Prop :=
  match c with
  | CCreate s | CUnlink s | CRead s _ => name_given s
  | CWrite s data => name_given s ∧ Forall is_u8 data ∧ is_u32 (zlen data)
  end.

(** The names that are accepted: 1 to 26 characters without ['/']. *)
Definition name_ok (s : list Z) : Prop := nonzero s ∧ usable_name s.

Lemma name_given_cases s : name_given s →
  (∃ rc, name_status s = inl rc ∧ name_refused s = Some rc) ∨ (usable_name s ∧ name_refused s = None).
Proof.
  intros (_ & Hu & H27). unfold name_refused, name_status.
  case_bool_decide as E1; [left; by eexists|]. case_bool_decide as E2; [left; by eexists|].
  case_bool_decide as E3; [left; by eexists|]. right. split; [|done]. split; [done|]. split; [|done].
  unfold good_name. destruct (decide (length s = 27%nat)) as [E|E]; [by destruct E3; apply H27|].
  destruct s; [done|]. simpl in *. lia.
Qed.

Lemma name_ok_given s : name_ok s → name_given s ∧ name_refused s = None.
Proof.
  intros [Hz Hu]. pose proof Hu as (H8 & [_ Hl] & _). split.
  - split_and!; [done|done|]. intros E. rewrite E in Hl. lia.
  - unfold name_refused. by rewrite usable_status.
Qed.

(** ** The files of a disk as a map *)

Definition files (v : fs) : file_map :=
  list_to_map ((λ i, (slot_name v i, content v (d_ino (f_slot v i)))) <$>
    filter (λ i, d_ino (f_slot v i) ≠ 0) slot_ids).

Lemma files_lookup v s : files v !! s = file v s.
Proof.
  unfold files, file, find_slot. generalize slot_ids. intros l.
  induction l as [|i l IH]; [done|]. cbn [list_find]. unfold named at 1. fold (slot_name v i).
  destruct (decide (d_ino (f_slot v i) ≠ 0)) as [Hu|Hu].
  - rewrite filter_cons_True by done. rewrite fmap_cons, list_to_map_cons.
    destruct (decide (slot_name v i = s)) as [Hs|Hs].
    + rewrite decide_True by done. rewrite Hs. by rewrite lookup_insert_eq.
    + rewrite decide_False by (intros [_ ?]; done). rewrite lookup_insert_ne by done.
      rewrite IH. by destruct (list_find _ l) as [[? ?]|].
  - rewrite filter_cons_False by done. rewrite decide_False by (intros [? _]; done).
    rewrite IH. by destruct (list_find _ l) as [[? ?]|].
Qed.

Lemma files_insert v w s x : (∀ s', file w s' = if decide (s' = s) then Some x else file v s') →
  files w = <[s := x]> (files v).
Proof.
  intros H. apply map_eq. intros s'. rewrite files_lookup, H. case_decide as E.
  - subst. by rewrite lookup_insert_eq.
  - rewrite lookup_insert_ne by done. by rewrite files_lookup.
Qed.

Lemma files_delete v w s : (∀ s', file w s' = if decide (s' = s) then None else file v s') →
  files w = delete s (files v).
Proof.
  intros H. apply map_eq. intros s'. rewrite files_lookup, H. case_decide as E.
  - subst. by rewrite lookup_delete_eq.
  - rewrite lookup_delete_ne by done. by rewrite files_lookup.
Qed.

Lemma files_same v w : (∀ s, file w s = file v s) → files w = files v.
Proof. intros H. apply map_eq. intros s. by rewrite !files_lookup. Qed.

(** The calls on a disk of [n] blocks, one after the other: a call that reports
    that space has run out left no slot of the directory, no inode number or no
    data block (creating), or no data block (writing) free. *)
Definition no_room (n : Z) (v v' : fs) (c : call) : Prop :=
  match c with
  | CCreate _ => (∀ i, 0 ≤ i < 16 → d_ino (f_slot v i) ≠ 0) ∨ (∀ i, 2 ≤ i ≤ 32 → f_ib v i = true) ∨
      (∀ b, 8 ≤ b < n → f_bb v b = true)
  | CWrite _ _ => ∀ b, 8 ≤ b < n → f_bb v' b = true
  | _ => False
  end.

Inductive spec_calls (n : Z) : fs → list call → list (Z + list Z) → fs → Prop :=
| Sps_nil v : spec_calls n v [] [] v
| Sps_cons v v1 v2 c r cs rs : spec_call (no_room n v v1 c) (files v) c r (files v1) →
    spec_calls n v1 cs rs v2 → spec_calls n v (c :: cs) (r :: rs) v2.

(** ** The implementation of the calls *)

Section Refinement.
Context {C : Type} (dev : mcsfs1_blkdev C) (disk : C → list (list Z)).
Context {W : WorkingDevice dev disk}.
Variable n : Z.
Hypothesis Hcount : block_count dev = n.

Definition c_str (s : list Z) : ptr (list Z) := Ref (s ++ [0]).

Definition do_call (c : call) : M C (list Z) :=
  let mnt := Ref (mounted dev n) in
  match c with
  | CCreate s => mcsfs1_create mnt (c_str s) ;;; mok []
  | CWrite s data => mcsfs1_write mnt (c_str s) (Ref data) (zlen data) ;;; mok []
  | CRead s cap =>
      r <- mcsfs1_read mnt (c_str s) (Ref (replicate cap 0)) (Z.of_nat cap) (Ref 0) ;;
      mok (take (Z.to_nat r.2) r.1)
  | CUnlink s => mcsfs1_unlink mnt (c_str s) ;;; mok []
  end.

Fixpoint do_calls (cs : list call) : M C (list (Z + list Z)) :=
  match cs with
  | [] => mok []
  | c :: cs => r <- mstatus (do_call c) ;; rs <- do_calls cs ;; mok (r :: rs)
  end.

Lemma name_holds s : nonzero s → holds (s ++ [0]) s.
Proof. intros Hs. split; [done|by exists []]. Qed.

(** A call that returns no value. *)
Lemma runs_unit (m : M C unit) d d' r : runs disk m d d' r →
  runs disk (m ;;; mok ([] : list Z)) d d' match r with inl rc => inl rc | inr _ => inr [] end.
Proof. intros Hr. destruct r as [rc|[]]; [by apply runs_fail|]. eapply runs_bind; [done|]. apply runs_ok. Qed.

(** A call that is refused does nothing. *)
Lemma refused_runs d c rc : fs_ok n d → call_ok c → refused c = Some rc → runs disk (do_call c) d d (inl rc).
Proof.
  intros Hf Hc Hr.
  assert (∀ s, name_given s → name_refused s = Some rc →
    valid_name (c_str s) = Some (inl rc) ∧ runs disk (find_dirent dev (c_str s)) d d (inl rc)) as Hname.
  { intros s (Hz & _ & _) Hs. pose proof (find_dirent_runs dev disk n Hcount d (s ++ [0]) s Hf (name_holds s Hz)) as H.
    pose proof (valid_name_run (s ++ [0]) s (name_holds s Hz)) as Hv. unfold name_refused in Hs.
    destruct (name_status s); [|done]. injection Hs as ->. done. }
  destruct c as [s|s data|s cap|s]; cbn [do_call call_ok refused] in *; apply runs_fail;
    unfold mcsfs1_create, mcsfs1_write, mcsfs1_read, mcsfs1_unlink, with_mnt, c_str; cbn [mounted m_dev].
  - destruct (Hname s Hc Hr) as [E _]. unfold c_str in E. rewrite E. intros x Hx. by exists x.
  - destruct Hc as (Hc & _ & _). cbn [is_null andb negb]. unfold MCSFS1_DIRECT_BLOCKS, MCSFS1_BLOCK_SIZE.
    change (8 * 512) with 4096. destruct (Z.ltb_spec 4096 (zlen data)).
    + injection Hr as <-. rewrite (proj2 (Z.leb_gt _ _)) by done. apply runs_err.
    + rewrite (proj2 (Z.leb_le _ _)) by done. by apply runs_fail, Hname.
  - by apply runs_fail, Hname.
  - by apply runs_fail, Hname.
Qed.

Lemma read_call_runs d s cap : fs_ok n d → holds (s ++ [0]) s → usable_name s →
  ∃ r, runs disk (do_call (CRead s cap)) d d r ∧ ∀ full, spec_accepted full (files (view d)) (CRead s cap) r (files (view d)).
Proof.
  intros Hf Hh Hu. destruct (read_runs_spec dev disk n Hcount d (s ++ [0]) s (replicate cap 0) (Z.of_nat cap) 0)
    as (r & Hr & Hres); [done|done|done|unfold zlen; by rewrite length_replicate|].
  unfold read_result in Hres.
  destruct (file (view d) s) as [data|] eqn:E; rewrite <-files_lookup in E.
  - case_decide as Hfit; subst r; unfold zlen in Hfit.
    + exists (inr data). split; [|intros full; apply Sp_read; [done|lia]].
      eapply runs_bind; [done|]. cbn [fst snd]. unfold zlen. rewrite Nat2Z.id, take_app_length.
      apply runs_ok.
    + exists (inl MCSFS1_ERR_RANGE). split; [by apply runs_fail|].
      intros full. eapply Sp_read_range; [done|lia].
  - subst r. exists (inl MCSFS1_ERR_NOENT). split; [by apply runs_fail|].
    intros full. by apply Sp_read_none.
Qed.

Lemma accepted_runs d c : fs_ok n d → call_ok c → refused c = None →
  ∃ d' r, runs disk (do_call c) d d' r ∧ fs_ok n d' ∧
    spec_accepted (no_room n (view d) (view d') c) (files (view d)) c r (files (view d')).
Proof.
  intros Hf Hc Hacc.
  assert (∀ s, name_given s → name_refused s = None → holds (s ++ [0]) s ∧ usable_name s) as Hname.
  { intros s Hg Hs. split; [apply name_holds, Hg|].
    destruct (name_given_cases s Hg) as [(rc & _ & E)|[? _]]; [congruence|done]. }
  destruct c as [s|s data|s cap|s]; cbn [call_ok refused] in Hc, Hacc.
  - destruct (Hname s Hc Hacc) as [Hh Hu]. destruct (create_runs dev disk n Hcount d (s ++ [0]) s)
      as (d' & r & Hr & Hf' & Hres); [done..|].
    exists d', match r with inl rc => inl rc | inr _ => inr [] end. split; [by apply runs_unit|].
    split; [done|]. destruct r as [rc|[]]; simpl in Hres.
    + destruct Hres as [-> [[-> Hs]|(-> & Hs & Hfull)]];
        [apply Sp_create_exists|apply Sp_create_full]; by rewrite ?files_lookup.
    + destruct Hres as [Hs Hall]. rewrite (files_insert _ _ _ _ Hall).
      apply Sp_create. by rewrite files_lookup.
  - destruct Hc as (Hc & Hu8 & _). destruct (Z.ltb_spec 4096 (zlen data)); [done|].
    destruct (Hname s Hc Hacc) as [Hh Hu].
    destruct (write_runs_spec dev disk n Hcount d (s ++ [0]) s (Ref data) data)
      as (d' & r & Hr & Hf' & Hres); [done|done|done|by apply take_ge|done|done|].
    exists d', match r with inl rc => inl rc | inr _ => inr [] end. split; [by apply runs_unit|].
    split; [done|]. destruct r as [rc|[]]; simpl in Hres.
    + destruct Hres as [Hall Hres]. rewrite (files_same _ _ Hall).
      destruct Hres as [(-> & Hs & _)|(-> & Hs & Hfull)];
        [apply Sp_write_none|apply Sp_write_full]; by rewrite ?files_lookup.
    + destruct Hres as [Hs Hall]. rewrite (files_insert _ _ _ _ Hall).
      apply Sp_write. by rewrite files_lookup.
  - destruct (Hname s Hc Hacc) as [Hh Hu].
    destruct (read_call_runs d s cap Hf Hh Hu) as (r & Hr & Hs). by exists d, r.
  - destruct (Hname s Hc Hacc) as [Hh Hu]. destruct (unlink_runs dev disk n Hcount d (s ++ [0]) s)
      as (d' & r & Hr & Hf' & Hres); [done..|].
    exists d', match r with inl rc => inl rc | inr _ => inr [] end. split; [by apply runs_unit|].
    split; [done|]. destruct r as [rc|[]]; simpl in Hres.
    + destruct Hres as (-> & Hs & ->). apply Sp_unlink_none. by rewrite files_lookup.
    + destruct Hres as (i & Hi & Hall & _). rewrite (files_delete _ _ _ Hall).
      apply Sp_unlink. rewrite files_lookup. by apply (found_file d s i).
Qed.

Lemma call_runs d c : fs_ok n d → call_ok c →
  ∃ d' r, runs disk (do_call c) d d' r ∧ fs_ok n d' ∧
    spec_call (no_room n (view d) (view d') c) (files (view d)) c r (files (view d')).
Proof.
  intros Hf Hc. unfold spec_call. destruct (refused c) as [rc|] eqn:E; [|by apply accepted_runs].
  exists d, (inl rc). split; [by apply refused_runs|done].
Qed.

Lemma calls_run d cs : fs_ok n d → Forall call_ok cs →
  ∃ d' rs, runs disk (do_calls cs) d d' (inr rs) ∧ fs_ok n d' ∧ spec_calls n (view d) cs rs (view d').
Proof.
  intros Hf Hcs. revert d Hf. induction Hcs as [|c cs Hc Hcs IH]; intros d Hf; cbn [do_calls].
  { exists d, []. split; [apply runs_ok|]. split; [done|constructor]. }
  destruct (call_runs d c Hf Hc) as (d1 & r & Hr & Hf1 & Hs1).
  destruct (IH d1 Hf1) as (d2 & rs & Hrs & Hf2 & Hs2).
  exists d2, (r :: rs). split; [|split; [done|by econstructor]].
  eapply runs_status; [done|]. eapply runs_bind; [done|]. apply runs_ok.
Qed.

(** ** Mounting and checking *)

Lemma check_root_runs d : fs_ok n d →
  runs disk (read_inode dev MCSFS1_ROOT_INO) d d (inr (f_inode (view d) 1)) ∧
  runs disk (check_root (f_inode (view d) 1)) d d (inr tt).
Proof.
  intros Hf. pose proof Hf as [Hd Hc]. destruct (cons_root _ _ Hc) as (_ & _ & Hm & H0). split.
  - by apply (read_inode_runs dev disk n).
  - unfold check_root. eapply runs_mub; [by rewrite arr_get_nat by done|]. rewrite Hm. apply runs_ok.
Qed.

Lemma mount_runs d m : fs_ok n d →
  runs disk (mcsfs1_mount (Ref m) (Ref dev)) d d (inr (mounted dev n)).
Proof.
  intros Hf. pose proof Hf as [Hd Hc]. destruct (check_root_runs d Hf) as [Hr Hk].
  unfold mcsfs1_mount. eapply runs_bind; [by apply (load_super_runs dev disk n)|].
  eapply runs_bind; [exact Hr|]. eapply runs_bind; [exact Hk|].
  destruct (dk_super _ _ Hd) as (_ & _ & _ & -> & _ & _ & _ & _ & _ & _ & ->). apply runs_ok.
Qed.

Lemma all_set_run k i b : block_ok b → 0 ≤ i → i + Z.of_nat k ≤ 4096 →
  (∀ j, i ≤ j < i + Z.of_nat k → bit b j = true) → all_set k i b = Some true.
Proof.
  intros Hb. revert i. induction k as [|k IH]; intros i Hi Hk Hall; cbn [all_set]; [done|].
  rewrite bit_test_run by (done || lia). cbn [mbind option_bind]. rewrite Hall by lia.
  apply IH; [lia|lia|]. intros j Hj. apply Hall. lia.
Qed.

Lemma fsck_blocks_run k j D b : block_ok b → 0 ≤ j → j + Z.of_nat k ≤ zlen D → n ≤ 4096 →
  (∀ a x, Z.of_nat a < j + Z.of_nat k → D !! a = Some x → 8 ≤ x < n ∧ bit b x = true) →
  fsck_blocks k j n D b = Some true.
Proof.
  intros Hb Hj Hk Hn Hall. revert j Hj Hk Hall. induction k as [|k IH]; intros j Hj Hk Hall;
    cbn [fsck_blocks]; [done|].
  destruct (arr_get_is_Some D j) as [x Hx]; [lia|]. rewrite Hx. cbn [mbind option_bind].
  apply arr_get_Some in Hx as [_ Hx]. destruct (Hall (Z.to_nat j) x) as [Hr Hbit]; [lia|done|].
  replace ((x <? MCSFS1_DATA_START_LBA) || (n <=? x)) with false
    by (unfold MCSFS1_DATA_START_LBA; lia).
  rewrite bit_test_run by (done || lia). cbn [mbind option_bind]. rewrite Hbit.
  apply IH; [lia|lia|]. intros a y Ha. apply Hall. lia.
Qed.

Lemma fsck_entry_runs d i : fs_ok n d → 0 ≤ i < 16 →
  runs disk (fsck_entry dev (blk d 1) (blk d 2) (dirent_at (blk d 7) i)) d d (inr tt).
Proof.
  intros Hf Hi. pose proof Hf as [Hd Hc]. pose proof (fs_size n d Hf) as Hn.
  unfold fsck_entry. change (dirent_at (blk d 7) i) with (f_slot (view d) i).
  destruct (Z.eqb_spec (d_ino (f_slot (view d) i)) 0) as [E|E]; [apply runs_ok|].
  destruct (cons_slots _ _ Hc i (conj Hi E)) as [Ht Hino Hbit _ Hm Hs Hlen Ha Hbl _].
  rewrite Ht, Z.eqb_refl. unfold MCSFS1_MAX_INODES.
  destruct (Z.ltb_spec 32 (d_ino (f_slot (view d) i))); [lia|]. cbn [negb orb].
  assert (block_ok (blk d 1)) as B1 by (apply (blk_ok n); [done|lia]).
  assert (block_ok (blk d 2)) as B2 by (apply (blk_ok n); [done|lia]).
  eapply runs_mub; [apply bit_test_run; [done|lia]|]. cbn [view f_ib] in Hbit. rewrite Hbit.
  eapply runs_bind; [apply (read_inode_runs dev disk n); [done..|lia]|].
  fold (slot_inode (view d) i). rewrite Hm. unfold MCSFS1_DIRECT_BLOCKS, MCSFS1_BLOCK_SIZE.
  destruct (Z.ltb_spec (8 * 512) (i_size (slot_inode (view d) i))); [lia|]. cbn [negb orb Z.eqb].
  destruct (blocks_for_range _ Hs) as (_ & _ & _ & _ & Hneed).
  cbv zeta. rewrite needed_spec, Hcount. eapply runs_mub.
  { apply fsck_blocks_run; [done|done|unfold zlen; lia|lia|]. intros a x Hlt Hx.
    apply (Hbl a). split; [done|]. eapply Ha; [done|lia]. }
  apply runs_ok.
Qed.

Lemma mfor_runs (body : Z → M C unit) d k i :
  (∀ j, i ≤ j < i + Z.of_nat k → runs disk (body j) d d (inr tt)) →
  runs disk (mfor k i body) d d (inr tt).
Proof.
  revert i. induction k as [|k IH]; intros i Hb; cbn [mfor]; [apply runs_ok|].
  eapply runs_bind; [apply Hb; lia|]. apply IH. intros j Hj. apply Hb. lia.
Qed.

Lemma fsck_runs d : fs_ok n d → runs disk (mcsfs1_fsck (Ref dev)) d d (inr tt).
Proof.
  intros Hf. pose proof Hf as [Hd Hc]. pose proof (fs_size n d Hf) as Hn.
  destruct (check_root_runs d Hf) as [Hr Hk]. destruct (cons_root _ _ Hc) as (R1 & R2 & _).
  cbn [view f_ib f_bb] in R1, R2.
  assert (block_ok (blk d 1)) as B1 by (apply (blk_ok n); [done|lia]).
  assert (block_ok (blk d 2)) as B2 by (apply (blk_ok n); [done|lia]).
  unfold mcsfs1_fsck. eapply runs_bind; [by apply (load_super_runs dev disk n)|].
  eapply runs_bind; [by apply (load_bmaps_runs dev disk n)|]. cbv beta iota.
  apply (runs_mub _ _ _ _ _ true); [rewrite bit_test_run by done; by f_equal|].
  apply (runs_mub _ _ _ _ _ true); [rewrite bit_test_run by done; f_equal; by apply R2|].
  cbn [andb]. eapply runs_mub; [by apply all_set_run|].
  eapply runs_bind; [exact Hr|]. eapply runs_bind; [exact Hk|].
  eapply runs_bind; [by apply (read_dir_runs dev disk n)|].
  apply mfor_runs. intros j Hj. by apply fsck_entry_runs.
Qed.

(** ** Formatting *)

Definition zero_disk : list (list Z) := replicate (Z.to_nat n) (zeros 512).

Lemma zero_loop_runs k i d : zlen d = n → 0 ≤ i → i + Z.of_nat k ≤ n →
  runs disk (mfor k i (λ lba, dev_write dev lba (zeros 512))) d
    (take (Z.to_nat i) d ++ replicate k (zeros 512) ++ drop (Z.to_nat i + k) d) (inr tt).
Proof.
  revert i d. induction k as [|k IH]; intros i d Hd Hi Hk; cbn [mfor].
  { rewrite Nat.add_0_r. cbn [replicate app]. rewrite take_drop. apply runs_ok. }
  eapply runs_bind; [apply (write_sized_runs dev disk n); [done|done|lia|done]|].
  specialize (IH (i + 1) (put i (zeros 512) d)). unfold put in IH at 1. rewrite zlen_insert in IH.
  specialize (IH Hd ltac:(lia) ltac:(lia)).
  assert (Z.to_nat i < length d)%nat as Hlt by (unfold zlen in Hd; lia).
  replace (take (Z.to_nat i) d ++ replicate (S k) (zeros 512) ++ drop (Z.to_nat i + S k) d)
    with (take (Z.to_nat (i + 1)) (put i (zeros 512) d) ++ replicate k (zeros 512) ++
      drop (Z.to_nat (i + 1) + k) (put i (zeros 512) d)); [exact IH|].
  unfold put. replace (Z.to_nat (i + 1)) with (S (Z.to_nat i)) by lia.
  rewrite (take_S_r _ _ (zeros 512)) by (by apply list_lookup_insert_eq).
  rewrite take_insert_ge, drop_insert_lt by lia. rewrite <-app_assoc. cbn [replicate app].
  do 3 f_equal. f_equal. lia.
Qed.

Lemma format_super_ok : 16 ≤ n ≤ 4096 →
  block_ok (super_bytes (format_super n)) ∧ super_ok n (super_of (super_bytes (format_super n))).
Proof.
  intros Hn. assert (super_of (super_bytes (format_super n)) = format_super n) as E.
  { unfold super_of, super_bytes, format_super.
    cbn [sb_magic sb_version sb_block_size sb_block_count sb_inode_count sb_inode_bmap_lba
      sb_block_bmap_lba sb_inode_table_lba sb_inode_table_blocks sb_root_ino sb_root_dir_lba
      sb_data_start_lba sb_clean sb_reserved].
    unfold MCSFS1_MAGIC, MCSFS1_VERSION, MCSFS1_BLOCK_SIZE, MCSFS1_MAX_INODES,
      MCSFS1_INODE_BMAP_LBA, MCSFS1_BLOCK_BMAP_LBA, MCSFS1_INODE_TABLE_LBA,
      MCSFS1_INODE_TABLE_BLOCKS, MCSFS1_ROOT_INO, MCSFS1_ROOT_DIR_LBA, MCSFS1_DATA_START_LBA.
    f_equal; layout. }
  rewrite E. split; [split|by split_and!].
  - unfold super_bytes. rewrite !length_app, !length_le_encode. done.
  - unfold super_bytes. repeat (apply Forall_app; split); try apply le_encode_u8.
    simpl. apply (Forall_replicate _ 460 0). words.
Qed.

Lemma zeros_ok : block_ok (zeros 512).
Proof. split; [done|]. apply Forall_replicate. words. Qed.

Lemma set_bits_run k i b : block_ok b → 0 ≤ i → i + Z.of_nat k ≤ 4096 →
  ∃ b', set_bits k i b = Some b' ∧ block_ok b' ∧
    ∀ j, 0 ≤ j < 4096 → bit b' j = bool_decide (i ≤ j < i + Z.of_nat k) || bit b j.
Proof.
  revert i b. induction k as [|k IH]; intros i b Hb Hi Hk; cbn [set_bits].
  { exists b. split; [done|]. split; [done|]. intros j _. rewrite bool_decide_false by lia. done. }
  destruct (bit_set_run b i) as (b1 & -> & Hb1 & Hbit); [done|lia|]. cbn [mbind option_bind].
  destruct (IH (i + 1) b1) as (b' & Hr & Hb' & Hall); [done|lia|lia|].
  exists b'. split; [done|]. split; [done|]. intros j Hj. rewrite Hall, Hbit by done. unfold upd.
  case_decide; [subst; rewrite orb_true_r; by rewrite bool_decide_true by lia|].
  f_equal. apply bool_decide_ext. lia.
Qed.

Lemma root_inode_ok : inode_ok root_inode.
Proof.
  unfold inode_ok. refine (conj _ (conj _ (conj _ (conj _ (conj _ (conj _ _))))));
    simpl; try words; try done; repeat (apply Forall_cons; split; [by split|]); by apply Forall_nil.
Qed.

Lemma zero_block_views d : disk_ok n d → blk d 7 = zeros 512 →
  ∀ i, 0 ≤ i < 16 → d_ino (f_slot (view d) i) = 0.
Proof.
  intros Hd Hz i Hi. cbn [view f_slot]. rewrite Hz. unfold dirent_at, dirent_of, slice, zeros.
  cbn [d_ino]. rewrite drop_replicate, take_replicate. unfold field. rewrite drop_replicate, take_replicate.
  replace (4 `min` (32 `min` (512 - Z.to_nat i * 32) - 0))%nat with 4%nat by lia. done.
Qed.

Lemma fresh_fs_consistent v : 16 ≤ n → root_ok v → (∀ i, 0 ≤ i < 16 → d_ino (f_slot v i) = 0) →
  consistent n v ∧ files v = ∅.
Proof.
  intros Hn Hr Hz. assert (∀ i, ¬ used v i) as Hno by (intros i [Hi Hu]; by rewrite Hz in Hu).
  split; [split; [done|intros i Hu; by destruct (Hno i)|intros i j Hu; by destruct (Hno i)]|].
  apply map_empty. intros s. rewrite files_lookup. apply file_None. intros i Hu. by destruct (Hno i).
Qed.

Lemma format_runs d : zlen d = n → 16 ≤ n ≤ 4096 →
  ∃ d', runs disk (mcsfs1_format (Ref dev)) d d' (inr tt) ∧ fs_ok n d' ∧ files (view d') = ∅.
Proof.
  intros Hd Hn. destruct (format_super_ok Hn) as [Hsb Hso].
  assert (disk_ok n (put 0 (super_bytes (format_super n)) zero_disk)) as Hd1.
  { assert (zlen zero_disk = n) as Hz by (unfold zero_disk, zlen; rewrite length_replicate; lia).
    split; [done| | |].
    - unfold put. by rewrite zlen_insert.
    - apply Forall_insert; [|done]. apply Forall_replicate. apply zeros_ok.
    - unfold blk, put. rewrite list_lookup_insert_eq by (unfold zlen in Hz; lia). done. }
  set (d1 := put 0 (super_bytes (format_super n)) zero_disk) in *.
  assert (∀ i, 1 ≤ i < n → blk d1 i = zeros 512) as Hz.
  { intros i Hi. unfold d1, blk, put. rewrite list_lookup_insert_ne by lia.
    unfold zero_disk. rewrite lookup_replicate_2 by lia. done. }
  destruct (bit_set_run (zeros 512) 0) as (ib1 & E1 & B1 & _); [apply zeros_ok|lia|].
  destruct (bit_set_run ib1 1) as (ib & E2 & B2 & Hib); [done|lia|].
  destruct (set_bits_run 8 0 (zeros 512)) as (bb1 & E3 & B3 & Hbb1); [apply zeros_ok|lia|lia|].
  destruct (bit_set_run bb1 7) as (bb & E4 & B4 & Hbb); [done|lia|].
  destruct (write_bmaps_runs dev disk n Hcount d1 ib bb Hd1 B2 B4) as (d2 & R2 & Hd2 & S2).
  destruct (write_inode_runs dev disk n Hcount d2 1 root_inode Hd2) as (d3 & R3 & Hd3 & S3);
    [lia|apply root_inode_ok|].
  assert (same n (view d3) (set_inode 1 root_inode (set_ib (bit ib) (set_bb (bit bb) (view d1)))))
    as S by (etrans; [done|by rewrite S2]).
  destruct (fresh_fs_consistent (set_inode 1 root_inode (set_ib (bit ib) (set_bb (bit bb) (view d1)))))
    as [Hc He].
  - lia.
  - unfold root_ok. simpl. split_and!; [|intros b Hb|done|done].
    + rewrite Hib by lia. apply upd_eq.
    + rewrite Hbb, upd_true; [done| |lia]. rewrite Hbb1 by lia. by rewrite bool_decide_true by lia.
  - intros i Hi. simpl. apply (zero_block_views d1); [done|apply Hz; lia|done].
  - symmetry in S. destruct (same_files n _ _ ltac:(lia) S Hc) as [Hc3 Hf3].
    exists d3. split; [|split; [by split|by rewrite (files_same _ _ Hf3)]].
    unfold mcsfs1_format. rewrite Hcount.
    replace (negb ((n <? MCSFS1_MIN_BLOCKS) || (MCSFS1_BLOCK_SIZE * 8 <? n))) with true
      by (unfold MCSFS1_MIN_BLOCKS, MCSFS1_BLOCK_SIZE; lia).
    eapply runs_bind; [apply (zero_loop_runs (Z.to_nat n) 0 d Hd); lia|].
    rewrite take_0, app_nil_l, (drop_ge d) by (unfold zlen in Hd; lia). rewrite app_nil_r.
    change (replicate (Z.to_nat n) (zeros 512)) with zero_disk.
    eapply runs_bind; [apply (write_sized_runs dev disk n); [done| | |apply Hsb]|].
    { unfold zero_disk, zlen. rewrite length_replicate. lia. }
    { unfold MCSFS1_SB_LBA. lia. }
    do 4 (eapply runs_mub; [done|]). eapply runs_bind; [exact R2|].
    eapply runs_bind; [exact R3|]. by apply flush_runs.
Qed.
End Refinement.

Lemma write_read_runs {C} (dev : mcsfs1_blkdev C) disk `{!WorkingDevice dev disk} n d s data cap :
  block_count dev = n → fs_ok n d → name_ok s → Forall is_u8 data → zlen data ≤ 4096 →
  (length data ≤ cap)%nat → is_Some (file (view d) s) →
  ∃ d' r1 r2, runs disk (do_calls dev n [CWrite s data; CRead s cap]) d d' (inr [r1; r2]) ∧
    (r1 = inr [] ∧ r2 = inr data ∧
       (∀ s', s' ≠ s → file (view d') s' = file (view d) s') ∨
     r1 = inl MCSFS1_ERR_NOSPC ∧ files (view d') = files (view d) ∧
       ∀ b, 8 ≤ b < n → f_bb (view d') b = true).
Proof.
  intros Hn Hf [Hz Hu] Hu8 Hl Hcap Hex.
  destruct (write_runs_spec dev disk n Hn d (s ++ [0]) s (Ref data) data)
    as (d' & r & Hr & Hf' & Hres); [done|by apply name_holds|done|by apply take_ge|done|done|].
  destruct (read_runs_spec dev disk n Hn d' (s ++ [0]) s (replicate cap 0) (Z.of_nat cap) 0)
    as (r2 & Hr2 & Hres2);
    [done|by apply name_holds|done|unfold zlen; by rewrite length_replicate|].
  assert (runs disk (do_call dev n (CRead s cap)) d' d'
    match r2 with inl rc => inl rc | inr (out, len) => inr (take (Z.to_nat len) out) end) as Hc2.
  { destruct r2 as [rc|[out len]]; [by apply runs_fail|]. eapply runs_bind; [exact Hr2|]. apply runs_ok. }
  pose proof (runs_unit disk _ _ _ _ Hr) as Hw.
  do 3 eexists. split.
  { eapply runs_status; [exact Hw|]. eapply runs_bind; [|apply runs_ok].
    eapply runs_status; [exact Hc2|]. eapply runs_bind; [apply runs_ok|apply runs_ok]. }
  destruct r as [rc|[]]; simpl in Hres.
  - right. destruct Hres as [Hall [(-> & Hnone & _)|(-> & _ & Hfull)]];
      [rewrite Hnone in Hex; by destruct Hex|]. split_and!; [done|by apply files_same|done].
  - left. destruct Hres as [_ Hall]. split; [done|]. split.
    + unfold read_result in Hres2. rewrite Hall, decide_True in Hres2 by done.
      rewrite decide_True in Hres2 by (unfold zlen; lia). rewrite Hres2.
      unfold zlen. by rewrite Nat2Z.id, take_app_length.
    + intros s' Hne. rewrite Hall. by rewrite decide_False.
Qed.

(** What follows a name field in the block. *)
Lemma dirent_tail dir i : block_ok dir → 0 ≤ i < 16 →
  drop (Z.to_nat (i * 32 + 5)) dir =
    d_name (dirent_at dir i) ++ drop (S (Z.to_nat i) * 32) dir.
Proof.
  intros [Hl _] Hi. unfold dirent_at, dirent_of, slice. cbn [d_name].
  replace (Z.to_nat (i * 32 + 5)) with (Z.to_nat i * 32 + 5)%nat by lia. rewrite <-drop_drop.
  replace (S (Z.to_nat i) * 32)%nat with (Z.to_nat i * 32 + 32)%nat by lia. rewrite <-drop_drop.
  set (l := drop (Z.to_nat i * 32) dir). rewrite <-(take_drop 32 l) at 1.
  rewrite drop_app_le; [done|]. rewrite length_take. unfold l. rewrite length_drop. lia.
Qed.

Lemma dirent_first_byte dir i : block_ok dir → 0 ≤ i < 16 →
  ∃ r, drop (Z.to_nat i * 32) dir = d_ino (dirent_at dir i) mod 256 :: r.
Proof.
  intros [Hl Hb] Hi. destruct (drop (Z.to_nat i * 32) dir) as [|b r] eqn:E.
  { apply (f_equal length) in E. rewrite length_drop in E. simpl in E. lia. }
  exists r. f_equal. assert (is_u8 b) as Hu.
  { eapply Forall_forall; [apply Forall_drop, Hb|]. rewrite E. apply list_elem_of_here. }
  unfold dirent_at, dirent_of, slice. cbn [d_ino]. rewrite E. unfold field. rewrite drop_0.
  cbn [take le_decode]. rewrite (Z.mul_comm 256), Z.mod_add by done. symmetry. by apply Z.mod_small.
Qed.

(** ** Properties *)

(** C5. On a working device that holds a consistent file system, every
    sequence of create, write, read and unlink calls returns, with the results
    that a map from names to contents gives, and leaves a consistent file
    system that stands for the resulting map. The names may be any strings but
    those of exactly 27 characters without ['/'], which the code accepts and
    can lose again ([mcsfs1_long_name_lost]); the data may be any bytes, as many
    as the 32-bit length can say. An empty name, one of more than 27 characters
    or with ['/'], and data of more than 4096 bytes are refused with their
    codes, a buffer shorter than the file with a range error, and the only
    freedom is running out of space, which changes no file and is reported only
    when no directory slot, no inode or no data block is left. *)
Theorem mcsfs1_refines {C} (dev : mcsfs1_blkdev C) disk `{!WorkingDevice dev disk} n c cs :
  block_count dev = n → fs_ok n (disk c) → Forall call_ok cs →
  ∃ c' rs, do_calls dev n cs c = Some (c', inr rs) ∧ fs_ok n (disk c') ∧
    spec_calls n (view (disk c)) cs rs (view (disk c')).
Proof.
  intros Hn Hf Hcs. destruct (calls_run dev disk n Hn (disk c) cs Hf Hcs) as (d' & rs & Hr & Hf' & Hs).
  destruct (Hr c eq_refl) as (c' & Hc & <-). by exists c', rs.
Qed.

(** C6. On a working device that holds a consistent file system, what is
    written to an existing file whose name has 1 to 26 characters, none of them
    ['/'], is what a read with a large enough buffer gives back, whatever the
    data (up to 4096 bytes), and no other file changes; unless the write reports
    that space has run out: then no file changes, and indeed no data block is
    left. *)
Theorem mcsfs1_write_read {C} (dev : mcsfs1_blkdev C) disk `{!WorkingDevice dev disk} n c s data cap :
  block_count dev = n → fs_ok n (disk c) → name_ok s → Forall is_u8 data → zlen data ≤ 4096 →
  (length data ≤ cap)%nat → is_Some (file (view (disk c)) s) →
  ∃ c' r1 r2, do_calls dev n [CWrite s data; CRead s cap] c = Some (c', inr [r1; r2]) ∧
    (r1 = inr [] ∧ r2 = inr data ∧
       (∀ s', s' ≠ s → file (view (disk c')) s' = file (view (disk c)) s') ∨
     r1 = inl MCSFS1_ERR_NOSPC ∧ files (view (disk c')) = files (view (disk c)) ∧
       ∀ b, 8 ≤ b < n → f_bb (view (disk c')) b = true).
Proof.
  intros Hn Hf Hs Hu8 Hl Hcap Hex.
  destruct (write_read_runs dev disk n (disk c) s data cap) as (d' & r1 & r2 & Hr & Hres); [done..|].
  destruct (Hr c eq_refl) as (c' & Hc & <-). by exists c', r1, r2.
Qed.

(** Formatting a working device of 16 to 4096 blocks, whatever it held,
    gives a file system without files that mounts and that the check accepts;
    and the check accepts every consistent file system. *)
Theorem mcsfs1_format_correct {C} (dev : mcsfs1_blkdev C) disk `{!WorkingDevice dev disk} n c m :
  block_count dev = n → zlen (disk c) = n → 16 ≤ n ≤ 4096 →
  ∃ c', mcsfs1_format (Ref dev) c = Some (c', inr tt) ∧
    fs_ok n (disk c') ∧ files (view (disk c')) = ∅ ∧
    ∀ c1, fs_ok n (disk c1) →
      (∃ c2, mcsfs1_mount (Ref m) (Ref dev) c1 = Some (c2, inr (mounted dev n)) ∧ disk c2 = disk c1) ∧
      (∃ c2, mcsfs1_fsck (Ref dev) c1 = Some (c2, inr tt) ∧ disk c2 = disk c1).
Proof.
  intros Hn Hd Hr. destruct (format_runs dev disk n Hn (disk c) Hd Hr) as (d' & Hrun & Hf & He).
  destruct (Hrun c eq_refl) as (c' & Hc & <-). exists c'. split_and!; [done..|].
  intros c1 Hf1. split.
  - by apply (mount_runs dev disk n Hn (disk c1) m Hf1).
  - by apply (fsck_runs dev disk n Hn (disk c1) Hf1).
Qed.

(** A stored name of 27 characters has no terminating NUL in its field,
    and the bounded length used in the lookup runs on into the next directory
    entry: when that entry's inode number has a non-zero low byte (which every
    number a file can have does), no lookup finds the name any more; and in the
    last entry the scan reads past the end of the block. *)
Theorem mcsfs1_long_name_lost dir i name name_len :
  block_ok dir → 0 ≤ i < 16 → d_ino (dirent_at dir i) ≠ 0 →
  nonzero (d_name (dirent_at dir i)) → name_len ≤ MCSFS1_MAX_NAME →
  (i < 15 → d_ino (dirent_at dir (i + 1)) mod 256 ≠ 0 →
    dirent_matches dir i name name_len = Some false) ∧
  (i = 15 → dirent_matches dir i name name_len = None).
Proof.
  intros Hb Hi Hu Hz Hlen. pose proof (dirent_at_ok dir i Hb Hi) as (_ & _ & Hn & _).
  unfold dirent_matches. rewrite (proj2 (Z.eqb_neq _ 0)) by done.
  unfold bytes_from. rewrite decide_True by (destruct Hb; unfold zlen; lia).
  rewrite (dirent_tail dir i Hb Hi). cbn [mbind option_bind]. unfold mcsfs_strlen_bound.
  change (Z.to_nat (MCSFS1_MAX_NAME + 1)) with 28%nat. unfold MCSFS1_MAX_NAME in Hlen. split.
  - intros Hi15 Hnext. destruct (dirent_first_byte dir (i + 1) Hb) as [r Hr]; [lia|].
    replace (Z.to_nat (i + 1) * 32)%nat with (S (Z.to_nat i) * 32)%nat in Hr by lia. rewrite Hr.
    rewrite strlen_loop_cstr; [|right; rewrite length_app, Hn; simpl; lia].
    rewrite cstr_app_nonzero by done. cbn [cstr]. rewrite (proj2 (Z.eqb_neq _ 0)) by done.
    rewrite length_app, Hn. cbn [length mbind option_bind].
    destruct (Z.eqb_spec (Z.of_nat (28 `min` (27 + S (length (cstr r))))) name_len); [lia|done].
  - intros ->. change (S (Z.to_nat 15) * 32)%nat with 512%nat.
    rewrite (drop_ge dir 512) by (destruct Hb; lia). rewrite app_nil_r.
    rewrite strlen_loop_overrun; [done|done|by rewrite drop_0|rewrite drop_0, Hn; lia].
Qed.

(** ** A disk in memory *)

(** The callbacks of a disk that is an array of blocks. *)
Definition ram_dev (n : Z) : mcsfs1_blkdev (list (list Z)) := BlkDev n
  (Ref (λ lba c, match c !! Z.to_nat lba with Some b => (c, (0, b)) | None => (c, (1, [])) end))
  (Ref (λ lba b c, (<[Z.to_nat lba := b]> c, 0)))
  (Ref (λ c, (c, 0))).

#[export] Instance ram_working n : WorkingDevice (ram_dev n) id.
Proof.
  split.
  - eexists. split; [done|]. intros c lba b _ Hb. exists c. simpl in *. by rewrite Hb.
  - eexists. split; [done|]. intros c lba b _ _. by eexists.
  - eexists. split; [done|]. intros c. by exists c.
Qed.

Definition blank : list (list Z) := replicate 16 (zeros 512).

(** The disk after a call on the memory disk. *)
Definition after {A} (m : M (list (list Z)) A) (c : list (list Z)) : list (list Z) :=
  match m c with Some (c', _) => c' | None => c end.

Definition formatted : list (list Z) := after (mcsfs1_format (Ref (ram_dev 16))) blank.
Definition demo_name : list Z := [104; 105].
Definition with_demo_file : list (list Z) := after (do_calls (ram_dev 16) 16 [CCreate demo_name]) formatted.
Definition demo_calls : list call :=
  [CCreate demo_name; CCreate demo_name; CWrite demo_name [1; 2; 3]; CRead demo_name 8; CUnlink demo_name;
   CRead demo_name 8].

Lemma demo_name_ok : name_ok demo_name.
Proof.
  split; [by repeat constructor|]. split; [repeat constructor; done|]. split; [split; simpl; lia|].
  unfold demo_name. rewrite !elem_of_cons, elem_of_nil. lia.
Qed.

Lemma formatted_ok : fs_ok 16 formatted ∧ files (view formatted) = ∅.
Proof.
  destruct (format_runs (ram_dev 16) id 16 eq_refl blank) as (d' & Hr & Hf & He); [done|lia|].
  destruct (Hr blank eq_refl) as (c' & Hc & Hd). simpl in Hd. subst c'.
  unfold formatted, after. by rewrite Hc.
Qed.

Lemma demo_name_given : name_given demo_name ∧ refused (CCreate demo_name) = None.
Proof. apply (name_ok_given _ demo_name_ok). Qed.

Lemma demo_file_ok : fs_ok 16 with_demo_file ∧ files (view with_demo_file) = {[ demo_name := [] ]}.
Proof.
  destruct formatted_ok as [Hf He].
  destruct (calls_run (ram_dev 16) id 16 eq_refl formatted [CCreate demo_name])
    as (d' & rs & Hr & Hf' & Hs); [done|apply Forall_singleton, demo_name_given|].
  destruct (Hr formatted eq_refl) as (c' & Hc & Hd). simpl in Hd. subst c'.
  unfold with_demo_file, after. rewrite Hc. split; [done|].
  inversion Hs as [|? v1 ? ? r ? rs1 H1 H2]; subst. inversion H2; subst.
  unfold spec_call in H1. rewrite (proj2 demo_name_given) in H1. cbn [id] in H1. rewrite He in H1.
  inversion H1; subst.
  - done.
  - match goal with H : is_Some (∅ !! _) |- _ => rewrite lookup_empty in H; by destruct H end.
  - exfalso. revert Hc. vm_compute. discriminate.
Qed.

Lemma mcsfs1_refines_witness :
  ∃ c', do_calls (ram_dev 16) 16 demo_calls formatted =
      Some (c', inr [inr []; inl MCSFS1_ERR_EXIST; inr []; inr [1; 2; 3]; inr [];
                     inl MCSFS1_ERR_NOENT]) ∧ fs_ok 16 c'.
Proof.
  destruct (mcsfs1_refines (ram_dev 16) id 16 formatted demo_calls eq_refl) as (c' & rs & Hr & Hf & _).
  - apply formatted_ok.
  - assert (is_u8 1 ∧ is_u8 2 ∧ is_u8 3) as (? & ? & ?) by (split_and!; words).
    repeat (apply Forall_cons; split); try apply demo_name_given; [|by apply Forall_nil].
    split; [apply demo_name_given|]. split; [by repeat (apply Forall_cons; split)|by split].
  - exists c'. split; [|exact Hf]. rewrite Hr. do 2 f_equal. revert Hr. vm_compute. congruence.
Defined.

Lemma mcsfs1_write_read_witness :
  ∃ c', do_calls (ram_dev 16) 16 [CWrite demo_name [1; 2; 3]; CRead demo_name 8] with_demo_file =
    Some (c', inr [inr []; inr [1; 2; 3]]).
Proof.
  destruct (mcsfs1_write_read (ram_dev 16) id 16 with_demo_file demo_name [1; 2; 3] 8 eq_refl)
    as (c' & r1 & r2 & Hr & Hres).
  - apply demo_file_ok.
  - apply demo_name_ok.
  - repeat (apply Forall_cons; split); try words. by apply Forall_nil.
  - done.
  - simpl. lia.
  - rewrite <-files_lookup. change (view (id with_demo_file)) with (view with_demo_file).
    rewrite (proj2 demo_file_ok), lookup_singleton_eq. by eexists.
  - exists c'. rewrite Hr. do 3 f_equal. destruct Hres as [(-> & -> & _)|(-> & _)]; [done|].
    exfalso. revert Hr. vm_compute. discriminate.
Defined.

Lemma mcsfs1_format_correct_witness :
  ∃ c', mcsfs1_format (Ref (ram_dev 16)) blank = Some (c', inr tt) ∧ fs_ok 16 c' ∧
    files (view c') = ∅.
Proof.
  destruct (mcsfs1_format_correct (ram_dev 16) id 16 blank (mounted (ram_dev 16) 16))
    as (c' & Hr & Hf & He & _); [done|done|lia|]. exists c'. split; [exact Hr|]. split; [exact Hf|exact He].
Defined.

(** A name of 27 characters, found until a second file is created after it;
    then it can be created again. *)
Definition long_name : list Z := replicate 27 97.
Definition with_long_name : list (list Z) :=
  after (do_calls (ram_dev 16) 16 [CCreate long_name; CCreate demo_name]) formatted.
Lemma long_name_twice : ∃ c',
  do_calls (ram_dev 16) 16 [CCreate long_name; CCreate long_name; CCreate demo_name; CCreate long_name]
    formatted = Some (c', inr [inr []; inl MCSFS1_ERR_EXIST; inr []; inr []]).
Proof. eexists. vm_compute. reflexivity. Qed.

Lemma mcsfs1_long_name_lost_witness :
  d_name (dirent_at (blk with_long_name 7) 0) = long_name ∧
  dirent_matches (blk with_long_name 7) 0 (long_name ++ [0]) 27 = Some false.
Proof.
  split; [vm_compute; reflexivity|].
  apply (mcsfs1_long_name_lost (blk with_long_name 7) 0 (long_name ++ [0]) 27).
  - split; [vm_compute; reflexivity|]. apply (bool_decide_unpack _). vm_compute. exact I.
  - lia.
  - vm_compute. discriminate.
  - apply (bool_decide_unpack _). vm_compute. exact I.
  - done.
  - lia.
  - vm_compute. discriminate.
Defined.
