(* ===== verification/HostTests.v ===== *)
(** The tests of the repository that run on the host ([src/tests/]), as
    programs over the models: what they assert of the C code holds of the
    definitions here. A test is [Some tt] when every assertion holds, and
    [None] when one fails or a call is undefined. *)
From Stdlib Require Import String.
From S2P Require Import Prelude Bytes Cstr Err Mem Frames Pmm Vmm Thread Sync Elf Kmem Block Bcache Syscall Mcsfs1.

#[local] Open Scope Z_scope.

Definition assert (b : bool) : option unit := if b then Some tt else None.
Definition passed : option unit := Some tt.

(** The value returned by a function that returns a status. *)
Definition status {A} (r : Z + A) : Z := match r with inl rc => rc | inr _ => 0 end.

(** ** [test_pmm_host.c] *)

Module PmmHost.
Import Pmm.

Definition BOOT_MEM_RESERVED : Z := 2.
Definition BOOT_MEM_KERNEL_AND_MODULES : Z := 4.

Definition regions : list boot_mem_region :=
  [BootMemRegion 0x00000000 0x0009f000 BOOT_MEM_USABLE;
   BootMemRegion 0x0009f000 0x00001000 BOOT_MEM_RESERVED;
   BootMemRegion 0x00100000 0x00300000 BOOT_MEM_USABLE;
   BootMemRegion 0x00400000 0x00100000 BOOT_MEM_KERNEL_AND_MODULES;
   BootMemRegion 0x00500000 0x00400000 BOOT_MEM_USABLE].

Definition test_pmm_host (bitmap_bytes : Z) : option unit :=
  '(pmm, ok) ← pmm_init_from_map (Ref (PmmState [] 0 0 0 0 0 0 0 0 false)) (Ref regions)
                 (Ref (replicate (Z.to_nat bitmap_bytes) 0)) bitmap_bytes (64 * 1024 * 1024);
  _ ← assert ok;
  _ ← assert (pmm_frame_count pmm =? 64 * 1024 * 1024 / PMM_PAGE_SIZE);
  f ← pmm_is_frame_free pmm 0; _ ← assert (negb f);
  f ← pmm_is_frame_free pmm 0x00100000; _ ← assert f;
  f ← pmm_is_frame_free pmm 0x00400000; _ ← assert (negb f);
  let before := pmm_free_count pmm in
  '(pmm, frame) ← pmm_alloc_frame pmm;
  _ ← assert (negb (frame =? PMM_INVALID_FRAME));
  _ ← assert (Z.land frame (PMM_PAGE_SIZE - 1) =? 0);
  f ← pmm_is_frame_free pmm frame; _ ← assert (negb f);
  _ ← assert (pmm_free_count pmm =? before - 1);
  '(pmm, ok) ← pmm_free_frame pmm frame; _ ← assert ok;
  _ ← assert (pmm_free_count pmm =? before);
  '(pmm, ok) ← pmm_free_frame pmm frame; _ ← assert (negb ok);
  '(pmm, ok) ← pmm_reserve_range pmm 0x00500000 0x2000; _ ← assert ok;
  f ← pmm_is_frame_free pmm 0x00500000; _ ← assert (negb f);
  f ← pmm_is_frame_free pmm 0x00501000; _ ← assert (negb f);
  passed.

(** With the 2048 bytes of bitmap that 64 MiB need, in place of
    [PMM_BITMAP_BYTES]; the bytes beyond them are not touched. *)
Lemma test_pmm_host_passes : test_pmm_host 2048 = passed.
Proof. vm_compute. reflexivity. Qed.
End PmmHost.

(** ** [test_vmm_host.c] *)

Module VmmHost.
Import Vmm.

Definition TEST_FRAMES : Z := 64.

(** [phys] is at this address. *)
Definition phys : Z := 0x200000.

Definition host_phys_to_virt (paddr : Z) : Z :=
  if negb (vmm_is_aligned_4k paddr) then 0 else
  if TEST_FRAMES <=? paddr / VMM_PAGE_SIZE then 0 else phys + paddr.

Fixpoint host_alloc_loop (n : nat) (i : Z) (used : list bool) : option (list bool * Z) :=
  match n with
  | O => Some (used, VMM_INVALID_PHYS)
  | S n' =>
      u ← arr_get used i;
      if u : bool then host_alloc_loop n' (i + 1) used
      else used ← arr_set used i true; Some (used, i * VMM_PAGE_SIZE)
  end.

Definition host_free (used : list bool) (paddr : Z) : option (list bool) :=
  _ ← assert (vmm_is_aligned_4k paddr);
  _ ← assert (paddr / VMM_PAGE_SIZE <? TEST_FRAMES);
  arr_set used (paddr / VMM_PAGE_SIZE) false.

(** The frames from 2 on hold the bytes [0xA5] from the start: [host_alloc]
    fills a frame with them when it hands it out, and nothing is written to a
    frame before. *)
#[local] Instance host_frames : FrameAllocator (list bool) := {
  fa_alloc used := host_alloc_loop (Z.to_nat (TEST_FRAMES - 2)) 2 used;
  fa_free := host_free;
}.

Fixpoint fill_words (n : nat) (a v : Z) (m : gmap Z Z) : gmap Z Z :=
  match n with
  | O => m
  | S n' => fill_words n' (a + 8) v (<[a := v]> m)
  end.

(** The first 8 of the 64 frames of [phys]; an access to another one would be
    undefined here. *)
Definition host_memory : gmap Z Z :=
  fill_words 1024 phys 0 (fill_words 3072 (phys + 8192) 0xA5A5A5A5A5A5A5A5 ∅).

Definition test_vmm_host : option unit :=
  let st := VState host_memory (<[1%nat := true]> (replicate 64 false)) [] in
  let '(sp, rc) := vmm_space_init (Ref (VmmSpace 0 false false None)) VMM_PAGE_SIZE true true
                     (Some host_phys_to_virt) in
  _ ← assert (rc =? VMM_MAP_OK);
  _ ← assert (vmm_is_canonical 0xFFFF800000200000);
  _ ← assert (negb (vmm_is_canonical 0x0000800000000000));
  '(st, rc) ← vmm_map_page sp 0xFFFF800000200000 0x0000000000300000
                (Z.lor VMM_PTE_WRITABLE (Z.lor VMM_PTE_GLOBAL VMM_PTE_NO_EXECUTE)) st;
  _ ← assert (rc =? VMM_MAP_OK);
  '(rc, out) ← vmm_query_page sp 0xFFFF800000200000 (Ref (VmmMapping 0 0 0)) st;
  _ ← assert (rc =? VMM_MAP_OK);
  m ← deref out;
  _ ← assert (m_vaddr m =? 0xFFFF800000200000);
  _ ← assert (m_paddr m =? 0x0000000000300000);
  _ ← assert (negb (Z.land (m_flags m) VMM_PTE_PRESENT =? 0));
  _ ← assert (negb (Z.land (m_flags m) VMM_PTE_WRITABLE =? 0));
  _ ← assert (negb (Z.land (m_flags m) VMM_PTE_NO_EXECUTE =? 0));
  '(st, rc) ← vmm_map_page sp 0xFFFF800000200000 0x0000000000400000 0 st;
  _ ← assert (rc =? VMM_ERR_EXISTS);
  '(st, rc) ← vmm_map_page sp 0xFFFF800000201000 0x0000000000400001 0 st;
  _ ← assert (rc =? VMM_ERR_INVAL);
  '(st, rc) ← vmm_map_page sp 0x0000800000000000 0x0000000000400000 0 st;
  _ ← assert (rc =? VMM_ERR_INVAL);
  '(st, rc) ← vmm_unmap_page sp 0xFFFF800000200000 st;
  _ ← assert (rc =? VMM_MAP_OK);
  '(rc, out) ← vmm_query_page sp 0xFFFF800000200000 out st;
  _ ← assert (rc =? VMM_ERR_NOT_FOUND);
  '(st, rc) ← vmm_unmap_page sp 0xFFFF800000200000 st;
  _ ← assert (rc =? VMM_ERR_NOT_FOUND);
  '(st, rc) ← vmm_map_page sp 0x0000000000400000 0x0000000000500000 VMM_PTE_WRITABLE st;
  _ ← assert (rc =? VMM_MAP_OK);
  '(rc, out) ← vmm_query_page sp 0x0000000000400000 out st;
  _ ← assert (rc =? VMM_MAP_OK);
  m ← deref out;
  _ ← assert (m_paddr m =? 0x0000000000500000);
  passed.

Lemma test_vmm_host_passes : test_vmm_host = passed.
Proof. vm_compute. reflexivity. Qed.
End VmmHost.

(** ** [test_scheduler.c] *)

Module SchedulerHost.
Import Thread.

(** Addresses of the objects: [boot], [a], [b], the stacks, [noop] and the
    string literals. *)
Definition boot : Z := 4096.
Definition a : Z := 8192.
Definition b : Z := 12288.
Definition stack_a : Z := 65536.
Definition stack_b : Z := 131072.
Definition noop : Z := 7.

(** [sched.next_id++] *)
Definition take_id (m : machine) : machine * Z :=
  let s := sched m in
  (Machine (threads m)
     (MSched (current s) (idle s) (ready_head s) (ready_tail s) (u64 (next_id s + 1)) (runnable_count s)
        (context_switches s) (sched_ticks s) (initialized s)) (stacks m) (cpu m), next_id s).

(** [REQUIRE(call == MCSOS_SCHED_OK)] *)
Definition require_ok {A} (call : M machine A) (m : machine) : option machine :=
  '(m, r) ← call m; _ ← assert (status r =? 0); Some m.

Definition test_scheduler : option unit :=
  let s := Ref tt in
  let m := Machine ∅ (MSched 0 0 0 0 0 0 0 0 0) ∅ (MContext 0 0 0 0 0 0 0 0) in
  m ← require_ok (mcsos_scheduler_init 1 s boot) m;
  m ← require_ok (mcsos_sched_validate s) m;
  let '(m, i) := take_id m in
  m ← require_ok (mcsos_thread_prepare 2 a 3 noop 0 stack_a 8192 i) m;
  let '(m, i) := take_id m in
  m ← require_ok (mcsos_thread_prepare 2 b 4 noop 0 stack_b 8192 i) m;
  ta ← threads m !! a; _ ← assert (Z.land (rsp (context ta)) 0xf =? 8);
  m ← require_ok (mcsos_sched_enqueue s a) m;
  m ← require_ok (mcsos_sched_enqueue s b) m;
  n ← mcsos_sched_ready_count 16 s m; n ← n; _ ← assert (n =? 2);
  m ← require_ok (mcsos_sched_validate s) m;
  m ← require_ok (mcsos_sched_yield 5 s) m;
  _ ← assert (current (sched m) =? a);
  ta ← threads m !! a; _ ← assert (bool_decide (state ta = MCSOS_THREAD_RUNNING));
  n ← mcsos_sched_ready_count 16 s m; n ← n; _ ← assert (n =? 1);
  m ← require_ok (mcsos_sched_tick s) m;
  ta ← threads m !! a; _ ← assert (ticks ta =? 1);
  m ← require_ok (mcsos_sched_yield 5 s) m; _ ← assert (current (sched m) =? b);
  m ← require_ok (mcsos_sched_yield 5 s) m; _ ← assert (current (sched m) =? a);
  _ ← assert (context_switches (sched m) =? 3);
  m ← require_ok (mcsos_sched_validate s) m;
  passed.

Lemma test_scheduler_passes : test_scheduler = passed.
Proof. vm_compute. reflexivity. Qed.
End SchedulerHost.

(** ** [m12_sync_host_test.c] *)

Module SyncHost.
Import Sync.

(** Addresses of the string literals. *)
Definition pmm : Z := 1.
Definition vmm : Z := 2.
Definition proc_table : Z := 3.
Definition counter : Z := 4.

Definition test_lockdep_order : option unit :=
  let st := Lockdep.mcs_lockdep_init (Ref (MLockdep [] [] 0 0)) in
  '(st, r) ← Lockdep.mcs_lockdep_before_acquire st 10 pmm; _ ← assert (r =? MCS_SYNC_OK);
  '(st, r) ← Lockdep.mcs_lockdep_before_acquire st 20 vmm; _ ← assert (r =? MCS_SYNC_OK);
  s ← deref st; _ ← assert (depth s =? 2);
  '(st, r) ← Lockdep.mcs_lockdep_after_release st 20 vmm; _ ← assert (r =? MCS_SYNC_OK);
  '(st, r) ← Lockdep.mcs_lockdep_after_release st 10 pmm; _ ← assert (r =? MCS_SYNC_OK);
  s ← deref st; _ ← assert (depth s =? 0);
  passed.

Definition test_lockdep_negative : option unit :=
  let st := Lockdep.mcs_lockdep_init (Ref (MLockdep [] [] 0 0)) in
  '(st, r) ← Lockdep.mcs_lockdep_before_acquire st 20 vmm; _ ← assert (r =? MCS_SYNC_OK);
  '(st, r) ← Lockdep.mcs_lockdep_before_acquire st 10 pmm; _ ← assert (r =? MCS_SYNC_EDEADLK);
  '(st, r) ← Lockdep.mcs_lockdep_before_acquire st 20 vmm; _ ← assert (r =? MCS_SYNC_EDEADLK);
  s ← deref st; _ ← assert (violation_count s =? 2);
  '(st, r) ← Lockdep.mcs_lockdep_after_release st 20 vmm; _ ← assert (r =? MCS_SYNC_OK);
  passed.

(** A mutex call by a thread on its own. *)
Definition on (p : prog mcs_mutex Z) (m : ptr mcs_mutex) : option (ptr mcs_mutex * Z) :=
  m ← deref m; let '(m, r) := run p m in Some (Ref m, r).

Definition test_mutex_owner : option unit :=
  let m := Mutex.mcs_mutex_init (Ref (MMutex 0 0 0 0)) 200 proc_table in
  '(m, r) ← on (Mutex.mcs_mutex_try_lock 1) m; _ ← assert (r =? MCS_SYNC_OK);
  _ ← assert (Mutex.mcs_mutex_owner m =? 1);
  '(m, r) ← on (Mutex.mcs_mutex_try_lock 1) m; _ ← assert (r =? MCS_SYNC_EDEADLK);
  '(m, r) ← on (Mutex.mcs_mutex_try_lock 2) m; _ ← assert (r =? MCS_SYNC_EBUSY);
  '(m, r) ← on (Mutex.mcs_mutex_unlock 2) m; _ ← assert (r =? MCS_SYNC_EPERM);
  '(m, r) ← on (Mutex.mcs_mutex_unlock 1) m; _ ← assert (r =? MCS_SYNC_OK);
  _ ← assert (negb (Mutex.mcs_mutex_is_locked m));
  passed.

Lemma sync_host_tests_pass :
  test_lockdep_order = passed ∧ test_lockdep_negative = passed ∧ test_mutex_owner = passed.
Proof. split_and!; vm_compute; reflexivity. Qed.
End SyncHost.

(** ** [test_syscall_host.c] *)

Module SyscallHost.
Import Syscall.

(** [g_yield_count], [g_exit_code] and whether [fake_write] met a wrong buffer. *)
Record world := World { g_yield_count : Z; g_exit_code : Z; write_ok : bool }.

(** [user_buf] at 4096 and [kernel_buf] after it. *)
Definition user_buf : Z := 4096.
Definition kernel_buf : Z := 4112.
Definition buffers : memory := Mem user_buf (literal "hello" ++ replicate 26 0).

Definition holds_hello (m : memory) (p : Z) : bool :=
  bool_decide (bytes_at m p 5 = Some (text "hello")).

Definition fake_ops : mcsos_syscall_ops world := SysOps
  (Ref (λ c, (c, 12345)))
  (Ref (λ c, World (g_yield_count c + 1) (g_exit_code c) (write_ok c)))
  (Ref (λ code c, World (g_yield_count c) code (write_ok c)))
  (Ref (λ buf len c,
     (World (g_yield_count c) (g_exit_code c)
        (write_ok c && negb (buf =? 0) && (len =? 5) && holds_hello buffers buf), len))).

Definition test_syscall_host : option unit :=
  let s := mcsos_syscall_init (Ref fake_ops) syscall_zero in
  let s := mcsos_syscall_set_user_region (Region user_buf (user_buf + 16)) s in
  let c := World 0 0 true in
  '(c, r) ← mcsos_syscall_dispatch s MCSOS_SYS_PING 0 0 0 0 0 0 c; _ ← assert (r =? 0x2605020A);
  '(c, r) ← mcsos_syscall_dispatch s MCSOS_SYS_GET_TICKS 0 0 0 0 0 0 c; _ ← assert (r =? 12345);
  '(c, r) ← mcsos_syscall_dispatch s MCSOS_SYS_WRITE_SERIAL user_buf 5 0 0 0 0 c;
  _ ← assert (r =? 5); _ ← assert (write_ok c);
  '(m, r) ← mcsos_copy_from_user (g_user_region s) buffers kernel_buf user_buf 5; _ ← assert (r =? MCSOS_OK);
  _ ← assert (holds_hello m kernel_buf);
  '(m, r) ← mcsos_copy_from_user (g_user_region s) m kernel_buf 1 5; _ ← assert (r =? MCSOS_EFAULT);
  '(c, r) ← mcsos_syscall_dispatch s 999 0 0 0 0 0 0 c; _ ← assert (r =? MCSOS_ENOSYS);
  '(c, r) ← mcsos_syscall_dispatch s MCSOS_SYS_YIELD 0 0 0 0 0 0 c; _ ← assert (r =? MCSOS_OK);
  _ ← assert (g_yield_count c =? 1);
  '(c, r) ← mcsos_syscall_dispatch s MCSOS_SYS_EXIT_THREAD 7 0 0 0 0 0 c; _ ← assert (r =? MCSOS_OK);
  _ ← assert (g_exit_code c =? 7);
  '(frame, _) ← mcsos_syscall_dispatch_frame s (Ref (Frame MCSOS_SYS_GET_TICKS 0 0 0 0 0 0 0)) c;
  f ← deref frame; _ ← assert (f_ret f =? 12345);
  passed.

Lemma test_syscall_host_passes : test_syscall_host = passed.
Proof. vm_compute. reflexivity. Qed.
End SyscallHost.

(** ** [test_kmem.c] *)

Module KmemHost.
Import Mem Kmem.

(** [arena], of [n] bytes, and the state after [kmem_reset_for_test]. *)
Definition arena : Z := 0x10000.
Definition reset (n : Z) : kmem := kmem_zero_state (Mem arena (replicate (Z.to_nat n) 0)).

Definition init (n : Z) : option kmem :=
  '(s, r) ← kmem_init arena n (reset n); _ ← assert (r =? 0); Some s.
Definition alloc (bytes : Z) (s : kmem) : option (kmem * Z) :=
  '(s, p) ← kmem_alloc bytes s; _ ← assert (negb (p =? 0)); Some (s, p).
Definition free (p : Z) (s : kmem) : option kmem :=
  '(s, r) ← kmem_free_checked p s; _ ← assert (r =? 0); Some s.
Definition valid (s : kmem) : option unit := r ← kmem_validate s; assert (r =? 0).
Definition memset (p c n : Z) (s : kmem) : option kmem :=
  m ← fill_at (k_mem s) p n c; Some (with_mem m s).

Definition test_basic_alloc_free (n : Z) : option unit :=
  s ← init n;
  '(s, a) ← alloc 24 s;
  '(s, b) ← alloc 128 s;
  '(s, c) ← alloc 4096 s;
  _ ← assert (Z.land a (KMEM_ALIGN - 1) =? 0);
  _ ← assert (Z.land b (KMEM_ALIGN - 1) =? 0);
  _ ← assert (Z.land c (KMEM_ALIGN - 1) =? 0);
  s ← memset a 0x11 24 s;
  s ← memset b 0x22 128 s;
  s ← memset c 0x33 4096 s;
  _ ← valid s;
  s ← free b s;
  s ← free a s;
  s ← free c s;
  valid s.

Definition test_calloc_and_overflow (n : Z) : option unit :=
  s ← init n;
  '(s, z) ← kmem_calloc 64 4 s;
  _ ← assert (negb (z =? 0));
  bytes ← bytes_at (k_mem s) z 256;
  _ ← assert (bool_decide (bytes = replicate 256 0));
  '(s, p) ← kmem_calloc UINT64_MAX 2 s;
  _ ← assert (p =? 0);
  _ ← free z s;
  passed.

Definition test_double_free_rejected (n : Z) : option unit :=
  s ← init n;
  '(s, p) ← alloc 512 s;
  s ← free p s;
  '(_, r) ← kmem_free_checked p s;
  assert (r <? 0).

Fixpoint alloc_each (sizes : list Z) (s : kmem) : option (kmem * list Z) :=
  match sizes with
  | [] => Some (s, [])
  | bytes :: sizes' => '(s, p) ← alloc bytes s; '(s, ps) ← alloc_each sizes' s; Some (s, p :: ps)
  end.
Fixpoint free_each (ps : list Z) (s : kmem) : option kmem :=
  match ps with
  | [] => Some s
  | p :: ps' => s ← free p s; free_each ps' s
  end.
(** The elements at the even and at the odd positions. *)
Fixpoint evens {A} (l : list A) : list A :=
  match l with x :: _ :: l' => x :: evens l' | _ => l end.

Definition test_fragmentation_and_coalesce (n : Z) : option unit :=
  s ← init n;
  '(s, p) ← alloc_each ((λ i, 256 + i) <$> seqZ 0 16) s;
  s ← free_each (evens p) s;
  s ← free_each (evens (tail p)) s;
  st ← kmem_get_stats (Ref stats_zero) s;
  st ← deref st;
  _ ← assert (free_count st =? 1);
  _ ← assert (block_count st =? 1);
  assert (4096 <? largest_free st).

(** In an arena of 6 KiB, in place of 32. *)
Lemma kmem_host_tests_pass :
  test_basic_alloc_free 6144 = passed ∧ test_calloc_and_overflow 6144 = passed ∧
  test_double_free_rejected 6144 = passed ∧ test_fragmentation_and_coalesce 6144 = passed.
Proof. split_and!; vm_compute; reflexivity. Qed.
End KmemHost.

(** ** [m11_host_test.c] *)

Module ElfHost.
Import Elf.

Definition IMAGE_SIZE : Z := 12288.
Definition test_region : m11_user_region := Region 0x0000000000400000 0x0000008000000000.

Definition valid_ehdr : list Z :=
  [0x7f; 69; 76; 70; 2; 1; 1] ++ replicate 9 0 ++
  le_encode 2 M11_ET_EXEC ++ le_encode 2 M11_EM_X86_64 ++ le_encode 4 1 ++
  le_encode 8 0x401000 ++ le_encode 8 64 ++ replicate 12 0 ++ le_encode 2 64 ++ le_encode 2 56 ++
  le_encode 2 2 ++ replicate 6 0.
Definition phdr (flags offset vaddr filesz : Z) : list Z :=
  le_encode 4 M11_PT_LOAD ++ le_encode 4 flags ++ le_encode 8 offset ++ le_encode 8 vaddr ++ le_encode 8 0 ++
  le_encode 8 filesz ++ le_encode 8 4096 ++ le_encode 8 4096.
Definition make_valid_image : list Z :=
  valid_ehdr ++ phdr (Z.lor M11_PF_R M11_PF_X) 0x1000 0x400000 16 ++
  phdr (Z.lor M11_PF_R M11_PF_W) 0x2000 0x401000 8 ++ replicate (Z.to_nat (IMAGE_SIZE - 176)) 0.

(** The offset of a field of [ph[0]], for the assignments to it. *)
Definition ph0 (field : nat) : nat := (64 + field)%nat.
Definition expect_code (image : list Z) (expected : Z) : option m11_process_image_plan :=
  '(plan, rc) ← m11_elf64_plan_load (Ref image) IMAGE_SIZE test_region (Ref m11_zero_plan);
  _ ← assert (rc =? expected); deref plan.

Definition m11_host_test : option unit :=
  let image := make_valid_image in
  plan ← expect_code image M11_OK;
  _ ← assert (p_entry plan =? 0x401000); _ ← assert (segment_count plan =? 2);
  _ ← expect_code (splice 0 [0] image) M11_ERR_MAGIC;
  _ ← expect_code (splice 18 (le_encode 2 3) image) M11_ERR_MACHINE;
  _ ← expect_code (splice 24 (le_encode 8 0x1000) image) M11_ERR_ENTRY;
  _ ← expect_code (splice (ph0 40) (le_encode 8 4) image) M11_ERR_SEGBOUNDS;
  _ ← expect_code (splice (ph0 8) (le_encode 8 0x3000) (splice (ph0 32) (le_encode 8 1) image)) M11_ERR_SEGBOUNDS;
  _ ← expect_code (splice (ph0 48) (le_encode 8 24) image) M11_ERR_ALIGN;
  _ ← expect_code (splice (ph0 16) (le_encode 8 0x0000800000000000) image) M11_ERR_SEGRANGE;
  passed.

Lemma m11_host_test_passes : m11_host_test = passed.
Proof. vm_compute. reflexivity. Qed.
End ElfHost.

(** ** [test_m14_block.c] *)

Module BlockHost.
Import Block Bcache.

Definition fill (n seed : Z) : list Z := (λ i, u8 (seed + i)) <$> seqZ 0 n.

(** Addresses of [dev] and [ram]; the device before [mcsos_ramblk_init]. *)
Definition dev_addr : Z := 100.
Definition ram : Z := 200.
Definition blank_dev : mcsos_blk_device rams := Device dev_addr (Info (replicate 16 0) 0 0 0 0) Null.

Definition has (st want : Z) : option unit := assert (st =? want).
(** The 512 bytes read, which are [bytes]. *)
Definition reads (p : ptr (list Z)) (bytes : list Z) : option unit :=
  out ← deref p; assert (bool_decide (out = bytes)).

Definition block_part (dev : ptr (mcsos_blk_device rams)) (out : list Z) (c : rams) : option rams :=
  let tmp := fill 512 7 in
  '(c, st, _) ← mcsos_blk_write dev 3 1 (Ref tmp) c; _ ← has st MCSOS_BLK_OK;
  '(c, st, p) ← mcsos_blk_read dev 3 1 (Ref out) c; _ ← has st MCSOS_BLK_OK; _ ← reads p tmp;
  '(c, st, _) ← mcsos_blk_read dev 32 1 (Ref out) c; _ ← has st MCSOS_BLK_ERANGE;
  '(c, st, _) ← mcsos_blk_write dev 31 2 (Ref tmp) c; _ ← has st MCSOS_BLK_ERANGE;
  '(c, st, _) ← mcsos_blk_write dev 0 0 (Ref tmp) c; _ ← has st MCSOS_BLK_EINVAL;
  '(c, st, _) ← mcsos_blk_write dev 0 1 Null c; _ ← has st MCSOS_BLK_EINVAL;
  Some c.

Definition cache_part (dev : ptr (mcsos_blk_device rams)) (out : list Z) (c : rams) : option unit :=
  let blank := Entry [] 0 0 false false Null in
  k ← mcsos_bcache_init (Ref [blank; blank]) 2 (Ref (replicate 1024 0)) 512;
  cache ← match k with inr k => Some k | inl _ => None end;
  let tmp := fill 512 42 in
  '(ca, c, r) ← mcsos_bcache_write (Ref cache) dev 4 (Ref tmp) c; _ ← has (status r) MCSOS_BLK_OK;
  '(ca, c, r) ← mcsos_bcache_read ca dev 4 (Ref out) c;
  _ ← match r with inr o => assert (bool_decide (o = tmp)) | inl _ => None end;
  '(c, st, p) ← mcsos_blk_read dev 4 1 (Ref out) c; _ ← has st MCSOS_BLK_OK;
  o ← deref p; _ ← assert (negb (bool_decide (o = tmp)));
  '(ca, c, r) ← mcsos_bcache_flush_all ca c; _ ← has (status r) MCSOS_BLK_OK;
  '(c, st, p) ← mcsos_blk_read dev 4 1 (Ref out) c; _ ← has st MCSOS_BLK_OK; _ ← reads p tmp;
  let tmp := fill 512 100 in
  '(ca, c, r) ← mcsos_bcache_write ca dev 5 (Ref tmp) c; _ ← has (status r) MCSOS_BLK_OK;
  '(ca, c, r) ← mcsos_bcache_flush_all ca c; _ ← has (status r) MCSOS_BLK_OK;
  '(c, st, p) ← mcsos_blk_read dev 5 1 (Ref out) c; _ ← has st MCSOS_BLK_OK; reads p tmp.

(** The registry keeps the address of the device. *)
Definition test_m14_block : option unit :=
  let out := replicate 512 0 in
  let reg := mcsos_blk_registry_reset blk_registry_zero in
  '(c, dev, st) ← mcsos_ramblk_init (Ref blank_dev) ram (Ref (literal "ram0"))
                    (Ref (replicate (512 * 32) 0)) (512 * 32) 512 ∅;
  _ ← has st MCSOS_BLK_OK;
  '(reg, st) ← mcsos_blk_register dev_addr reg; _ ← has st MCSOS_BLK_OK;
  _ ← assert (mcsos_blk_count reg =? 1);
  d ← mcsos_blk_get 0 reg; _ ← assert (d =? dev_addr);
  d ← deref dev; _ ← assert (d_block_count (d_info d) =? 32);
  c ← block_part dev out c;
  cache_part dev out c.

Lemma test_m14_block_passes : test_m14_block = passed.
Proof. vm_compute. reflexivity. Qed.
End BlockHost.

(** ** [test_mcsfs1.c] *)

Module Mcsfs1Host.
Import Mcsfs1.

Definition RAMBLK_BLOCKS : Z := 128.

(** [disk] and [flush_count]. *)
Record ramdisk := Ramdisk { disk : list (list Z); flush_count : Z }.

Definition ram_read (lba : Z) (c : ramdisk) : ramdisk * (Z * list Z) :=
  if RAMBLK_BLOCKS <=? lba then (c, (-1, [])) else (c, (0, disk c !!! Z.to_nat lba)).
Definition ram_write (lba : Z) (buf : list Z) (c : ramdisk) : ramdisk * Z :=
  if RAMBLK_BLOCKS <=? lba then (c, -1)
  else (Ramdisk (<[Z.to_nat lba := buf]> (disk c)) (flush_count c), 0).
Definition ram_flush (c : ramdisk) : ramdisk * Z := (Ramdisk (disk c) (u32 (flush_count c + 1)), 0).

Definition dev : mcsfs1_blkdev ramdisk := BlkDev RAMBLK_BLOCKS (Ref ram_read) (Ref ram_write) (Ref ram_flush).

(** [expect_int(label, call, want)] *)
Definition expect {A} (call : M ramdisk A) (want : Z) (c : ramdisk) : option ramdisk :=
  '(c, r) ← call c; _ ← assert (status r =? want); Some c.

Definition alpha : ptr (list Z) := Ref (literal "alpha.txt").
Definition out : list Z := zeros 4096.
Definition read_gives (m : ptr (mcsfs1_mnt ramdisk)) (bytes : list Z) (c : ramdisk) : option ramdisk :=
  '(c, r) ← mcsfs1_read m alpha (Ref out) 4096 (Ref 0) c;
  match r with
  | inr (buf, len) =>
      _ ← assert ((len =? zlen bytes) && bool_decide (take (length bytes) buf = bytes)); Some c
  | inl _ => None
  end.

Definition test_mcsfs1 : option unit :=
  let c := Ramdisk (replicate 128 (zeros 512)) 0 in
  let msg := text "MCSOS M15 persistent file payload" in
  let big := (λ i, Z.land i 0xff) <$> seqZ 0 1400 in
  c ← expect (mcsfs1_format (Ref dev)) 0 c;
  '(c, r) ← mcsfs1_mount (Ref (Mount Null 0 0)) (Ref dev) c;
  m ← match r with inr m => Some (Ref m) | inl _ => None end;
  c ← expect (mcsfs1_fsck (Ref dev)) 0 c;
  c ← expect (mcsfs1_create m alpha) 0 c;
  c ← expect (mcsfs1_create m alpha) MCSFS1_ERR_EXIST c;
  c ← expect (mcsfs1_write m alpha (Ref msg) (zlen msg)) 0 c;
  c ← read_gives m msg c;
  c ← expect (mcsfs1_write m alpha (Ref big) 1400) 0 c;
  c ← read_gives m big c;
  c ← expect (mcsfs1_read m alpha (Ref out) 8 (Ref 0)) MCSFS1_ERR_RANGE c;
  c ← expect (mcsfs1_read m (Ref (literal "missing")) (Ref out) 4096 (Ref 0)) MCSFS1_ERR_NOENT c;
  c ← expect (mcsfs1_fsck (Ref dev)) 0 c;
  c ← expect (mcsfs1_unlink m alpha) 0 c;
  c ← expect (mcsfs1_read m alpha (Ref out) 4096 (Ref 0)) MCSFS1_ERR_NOENT c;
  c ← expect (mcsfs1_fsck (Ref dev)) 0 c;
  b ← disk c !! 0%nat; x ← b !! 0%nat;
  let c := Ramdisk (<[0%nat := <[0%nat := Z.lxor x 0x55]> b]> (disk c)) (flush_count c) in
  c ← expect (mcsfs1_fsck (Ref dev)) MCSFS1_ERR_CORRUPT c;
  assert (negb (flush_count c =? 0)).

Lemma test_mcsfs1_passes : test_mcsfs1 = passed.
Proof. vm_compute. reflexivity. Qed.
End Mcsfs1Host.
